(* ===== verification/_CoqProject ===== *)
-Q . S2P
Prelude.v
Types.v
Window.v
Crc32.v
Mac.v
State.v
Registers.v
Rings.v
Slots.v
Descriptors.v
Transmit.v
Receive.v
Doorbell.v
Remote.v
MainDdr3.v
RemoteChip.v
Threads.v
MbxThreads.v
MbxAtomic.v
MbxRaces.v
DeferredQueue.v
Bridge.v
Fpga.v
Card.v
BridgeThreads.v
BridgeSafe.v
DoorbellThreads.v
DoorbellSafe.v
Os.v
Args.v
Dump.v
Tools.v
Mains.v
