(* ===== verification/Prelude.v ===== *)
(** * Verification of the A2065 Ethernet daemon

    The program emulates the Commodore A2065 Ethernet card (an Am7990 LANCE with 32 KB of
    board RAM) on the ARM side of an FPGA.  An Amiga program reads and writes the chip's
    two register ports and prepares descriptor rings and buffers in board RAM; the FPGA
    passes the accesses on through a window of memory it shares with the ARM; the daemon
    executes them and moves frames between the rings and a raw socket.

    ** Files

    This file: results with errors, machine integers, bit and list lemmas, the tactics
    [solve_fits], [flags_to_bits] and [bind_inv], and the hint database of the rest.

    - [Types]: the constants of arm/include/a2065_types.h, a2065_ddr3_flat.h and
      a2065_bridge.h.
    - [Window]: the shared window as a finite map of bytes, 64-bit slots ([rd64], [wr64])
      and the board RAM accessors of boardram_access.h, flat build.  [Ram68k] is the
      memory the 68k addresses.
    - [Crc32]: crc32.cpp, with a bitwise reference definition.
    - [Mac]: mac.cpp, the translation between the card's and the host's address.
    - [State]: the static variables of registers.cpp, rings.cpp and main_ddr3.cpp as one
      record each, and [world], which joins them with the window, the socket and the
      frames sent.
    - [Registers]: registers.cpp.  The callbacks are the classes [IntHandler] and
      [TxHandler]; what they promise is [IntHandlerOk] and [TxHandlerOk], against which
      the register theorems are proved and which each main program discharges.
    - [Rings]: rings.cpp.  [Descriptors], [Transmit] and [Receive] state what a chain of
      descriptors means and prove [do_transmit] and [gotfunc] against it.
    - [Slots]: the control slots behind the board RAM and the lemmas the main programs
      share.
    - [Doorbell]: main_doorbell.cpp, the current main program, one pass of a loop at a
      time.
    - [Remote]: boardram_remote.cpp, board RAM behind a mailbox.  The adapter on the other
      side is the class [RamPeer]; [ExampleAdapter] is one that answers.
    - [MainDdr3]: main_ddr3.cpp, the main program of that build, and [Dump] its dump of
      board RAM.
    - [RemoteChip]: registers.cpp and rings.cpp in that build.  The code that touches board
      RAM is a program of accesses ([prog]); [run] runs it on the flat window, [mrun]
      through the mailbox, with the register service in the polls of every transfer.
    - [Threads]: the recursive lock of registers.cpp, and code of a thread as a tree of
      single accesses, lock operations and waits ([code]), run by a schedule.
      [MbxThreads] writes the two threads of main_ddr3.cpp as such code, [MbxAtomic] proves
      their locked sections atomic, [MbxRaces] shows what goes wrong outside them, and
      [DeferredQueue] has the queue of postponed writes between the two threads.
    - [Bridge]: main.cpp, the first main program, and in Module [Client] the program
      bridge_client.cpp that plays its 68k.  [BridgeThreads] writes its two threads, which
      take no lock, as code of [Threads]; [BridgeSafe] proves what holds of them under
      every schedule.
    - [DoorbellThreads]: the two threads of main_doorbell.cpp as code of [Threads], with the
      recursive lock and the accessors of [BridgeThreads], and what goes wrong outside of the
      lock; [DoorbellSafe]: what the lock guarantees under every schedule.
    - [Fpga]: the Verilog modules of fpga/rtl as clocked machines, and [Card], which joins
      them with the daemons: the register file with the doorbell daemon, the registers that
      hold the 68k with the bridge daemon, the RAM window with the accessors.
    - [Os]: ethernet.cpp, bridge.cpp and bridge_sim.cpp over an operating system that is a
      class of system calls, [Os], with their documented effect on descriptors and
      mappings in [OsLaws].
    - [Args]: the argument loops, with the C library's number conversions.
    - [Mains]: the three main functions and the client's, from the command line to the
      exit code.
    - [Tools]: the bring-up tools bridge_status.cpp, bridge_scan.cpp, bridge_test_safe.cpp,
      ddr3_scan.cpp, sdram_map.cpp and bridge_ddr3.cpp, over [Os] and a class [Bus] of
      accesses to mapped memory; [QuietBus] is memory at rest, with a log of the accesses.

    ** How code becomes definitions

    A function of the source is a function on [world] (or on the part it uses), with the
    source's name where it is free; two functions of one name in different programs get a
    prefix ([mbx_], [bridge_], [remote_]).  An access that can leave an array returns
    [Err OutOfBounds]; integers are kept at their width with [u8], [u16], [u32], [u64].
    The content of uninitialised stack arrays is the argument [stk].  A loop whose bound is
    not a number in the source has fuel, and [Err OutOfFuel] when it is not enough: the
    transmit loop has 4097 rounds, one more than the bytes its buffer takes; the receive
    loop one round per byte of the frame and its FCS, the loop that drains the postponed
    writes eight, one more than the queue holds.  [doorbell_total] and [mbx_invariant] prove
    that no pass runs out.  Bounds the source has are kept: 10000 polls and three attempts of
    a transfer, 100 sleeps of the client.  The dump of board RAM has as many
    rounds as the longest one that ends.  Threads are code with an executable step, and a
    schedule is a list of events; in [Mains], where only start and end matter, the loops and
    the wait for the thread are parameters that need not end, with the laws of the classes
    [LoopLaws] and [BridgeLaws] about the socket and what is held.

    ** What is proved

    - State: every register write keeps the chip's state and CSR0 consistent
      ([chip_wput_invariant]), and so does every pass of the three main programs, as long as
      passes do not overlap ([doorbell_invariant], [mbx_invariant], [bridge_invariant]).
    - Threads: in the doorbell daemon, under every schedule and whatever the 68k does to board
      RAM, the chip changes under the lock only and is consistent whenever the lock is free
      ([doorbell_lock_safe]); in the mailbox daemon whatever happens in locked sections is as
      if each section were done at once, in the order of the locks ([mbx_sections_atomic]),
      and the queue between its threads is first-in first-out ([deferred_queue_threads]);
      in the bridge daemon, which has no lock, every variable keeps its type and every loop
      ends ([bridge_threads_safe]).
    - Registers: INIT, STRT, STOP, acknowledgement, guarded initialisation address.
    - Frames: a queued frame is sent exactly once as the descriptors say
      ([do_transmit_sends]); an accepted frame is delivered with its FCS
      ([gotfunc_delivers]); the filter decides as on the wire ([rx_accept_wire]);
      collisions and missing descriptors are reported.
    - Requests: each main program executes the posted access ([doorbell_executes],
      [mbx_executes], and [bridge_serves] for one pass per request); the interrupt slot
      settles unless the two threads have left it at odds with [last_mbx_int]
      ([mbx_int_settles]).
    - Card: a register write of the 68k passes through the register file and the doorbell
      daemon and, for CSR0 to CSR3, back ([doorbell_card]); a bus cycle ends with the bridge daemon's answer or
      a bus error ([bridge_bus_cycle]); the RAM window of the FPGA and the daemon's accessors
      are one memory ([ddr_window_refines]); what the card says of itself
      ([autoconfig_identity]).
    - Memory: flat and remote accessors implement the same memory ([flat_ram_refines],
      [remote_ram_refines]); the chip on remote board RAM does what it does on flat board
      RAM ([remote_chip_refines]); blocks read back; what a timeout destroys.
    - Translation: which address fields are exchanged; that twice is the identity, up to a
      recomputed UDP checksum; that this checksum is the one of RFC 768 ([Mac.Rfc768]) but for
      a computed zero; that nothing else changes; and exactly when the code leaves its buffer
      ([mungepacket_bounds]).
    - Programs: where [main] exits with which code and what it then holds, leaks included, and
      in which state it starts its loops ([doorbell_main_life], [mbx_main_life],
      [bridge_main_life]); options round trip ([args_roundtrip]); the dump ends exactly
      when its counter does not wrap ([dump_boardram_ends]).
    - Resources: which sockets, descriptors and mappings each unit and each tool gives back
      ([ethernet_resources], [mapping_resources], [tools_resources]).
    - Tools: the scan finds the first magic ([ddr3_scan_finds]); bridge_status asks before
      it touches and restores what it writes ([bridge_status_reports]).
    - CRC: the table equals the bitwise definition; the residue.
    - Behaviour that is likely not meant, as theorems: lost interrupts and commands in
      [DoorbellThreads], postponed writes in [MainDdr3], misdirected, repeated and lost
      requests and an interrupt line that stays high in [MbxRaces], an undone STOP in [BridgeThreads], repeated requests and the client's byte
      order in [Bridge], the FCS overflow in [Receive], the stale mode and the two station
      addresses in [Registers], an interrupt left asserted at shutdown in [Mains], reads
      outside a mapping in [Tools].

    ** Not modelled

    Log output, debug counters and sleeping have no effect on the state.  When a signal
    arrives is not modelled.  Of the FPGA, a2065_top.v, which only
    wires the modules, is left out, and so is the Minimig core that connects them to the
    window: in the step relations what it does to the window is the environment, and in
    [Card] the layout of the slots that the sources document.  [MainDdr3] states its theorems
    on flat board RAM with requests served during a transfer as steps of their own;
    [remote_chip_refines] relates the two for the chip's operations one at a time, when
    initialisation block and rings lie at even addresses, and [mbx_sections_atomic] for the
    whole daemon on an adapter that answers in the end: transfers that time out are in
    [Remote] only.  There the 68k writes board RAM only between locked sections; in
    [BridgeThreads] and [DoorbellThreads] it may write at any time.

    The grain of [Threads] is one load or store of [csr[0]], of a slot, of a byte or word of
    board RAM or of a daemon's variable.  Coarser are: the configuration a function of
    rings.cpp reads (mode, ring, addresses), which is read in one step where the code first
    uses it; and the updates of ring positions and of the transmit buffer, one step each.
    Memory is sequentially consistent: reordering by the processor, which the barriers of
    the source address, is not modelled. *)

From Stdlib Require Export Btauto.
From stdpp Require Export base tactics numbers list gmap.

#[global] Open Scope Z_scope.
#[global] Arguments Z.testbit : simpl never.
#[global] Arguments Z.land : simpl never.
#[global] Arguments Z.lor : simpl never.
#[global] Arguments Z.lxor : simpl never.
#[global] Arguments Z.shiftl : simpl never.
#[global] Arguments Z.shiftr : simpl never.
#[global] Arguments Z.modulo : simpl never.
#[global] Arguments Z.div : simpl never.
#[global] Arguments Z.pow : simpl never.

(** ** Results: error paths as values *)

(** What can go wrong when C code runs: an access outside an array, or a
    loop bound of the model that turned out too small. *)
Inductive err : Type :=
| OutOfBounds
| OutOfFuel.

Inductive res (A : Type) : Type :=
| Ok (a : A)
| Err (e : err).
Arguments Ok {A} a.
Arguments Err {A} e.

#[export] Instance res_ret : MRet res := @Ok.
#[export] Instance res_bind : MBind res := fun A B f m =>
  match m with Ok a => f a | Err e => Err e end.

(** ** Machine integers: a w-bit value is a [Z], conversions wrap. *)

Definition u8 (x : Z) : Z := x mod 2 ^ 8.
Definition u16 (x : Z) : Z := x mod 2 ^ 16.
Definition u32 (x : Z) : Z := x mod 2 ^ 32.
Definition u64 (x : Z) : Z := x mod 2 ^ 64.

(** C's [x & ~m]. *)
Definition andnot (x m : Z) : Z := Z.land x (Z.lnot m).

(** C's truth value of [x & m]. *)
Definition flag (x m : Z) : bool := negb (Z.land x m =? 0).

(** [x] fits in [n] bits. *)
Definition fits (n x : Z) : Prop := 0 ≤ x < 2 ^ n.

(** ** Arrays with checked access *)

(** [b[i]]: reading outside the array is an error, not a value. *)
Definition bget (b : list Z) (i : Z) : res Z :=
  if i <? 0 then Err OutOfBounds
  else match b !! Z.to_nat i with Some x => Ok x | None => Err OutOfBounds end.

(** [b[i] = v]. *)
Definition bset (b : list Z) (i v : Z) : res (list Z) :=
  if (i <? 0) || (Z.of_nat (length b) <=? i) then Err OutOfBounds
  else Ok (<[Z.to_nat i := v]> b).

(** [memcmp(a, b, n) == 0] on two byte strings of the same length. *)
Definition bytes_eqb (a b : list Z) : bool := bool_decide (a = b).

(** [n] bytes of [b] from index [i], and [b] with [s] copied over index [i]. *)
Definition slice (b : list Z) (i n : nat) : list Z := take n (drop i b).
Definition blit (b : list Z) (i : nat) (s : list Z) : list Z :=
  take i b ++ s ++ drop (i + length s) b.

(** The [n] bytes at [b + i], all of which must lie inside the array. *)
Definition bslice (b : list Z) (i n : Z) : res (list Z) :=
  if (i <? 0) || (n <? 0) || (Z.of_nat (length b) <? i + n) then Err OutOfBounds
  else Ok (slice b (Z.to_nat i) (Z.to_nat n)).

(** [memcpy(b + i, src, length src)]. *)
Definition bblit (b : list Z) (i : Z) (src : list Z) : res (list Z) :=
  if (i <? 0) || (Z.of_nat (length b) <? i + Z.of_nat (length src)) then Err OutOfBounds
  else Ok (blit b (Z.to_nat i) src).

(** ** Lemmas on results *)

Create HintDb a2065.
Create HintDb fits.
Create Rewrite HintDb bits.
Create Rewrite HintDb boolsimp.

Section results.
Context {A B : Type}.
Implicit Types (m : res A) (k : A → res B).

Lemma bind_Ok (a : A) k : (Ok a ≫= k) = k a.
Proof. reflexivity. Qed.

Lemma bind_Ok_inv m k b : (m ≫= k) = Ok b → ∃ a, m = Ok a ∧ k a = Ok b.
Proof. destruct m; [by exists a | done]. Qed.
End results.

(** A step that a computation shows to succeed. *)
Definition is_ok {A} (r : res A) : bool := match r with Ok _ => true | Err _ => false end.

Lemma is_ok_Ok {A} (r : res A) : is_ok r = true → ∃ a, r = Ok a.
Proof. destruct r as [a|]; [by exists a|done]. Qed.

(** Take apart a hypothesis [(m ≫= k) = Ok b], naming the intermediate result. *)
Ltac bind_inv H :=
  let x := fresh "x" in let Hx := fresh "Hx" in
  apply bind_Ok_inv in H as [x [Hx H]].

(** ** Bits *)

Lemma andnot_spec x m i : Z.testbit (andnot x m) i = Z.testbit x i && negb (Z.testbit m i).
Proof. unfold andnot. by rewrite <-Z.ldiff_land, Z.ldiff_spec. Qed.

Lemma shiftr_testbit a n i : 0 ≤ i → Z.testbit (Z.shiftr a n) i = Z.testbit a (i + n).
Proof. apply Z.shiftr_spec. Qed.

Lemma shiftl_testbit a n i : 0 ≤ i → Z.testbit (Z.shiftl a n) i = Z.testbit a (i - n).
Proof. apply Z.shiftl_spec. Qed.

Lemma mod_pow2_testbit a n i : 0 ≤ n → Z.testbit (a mod 2 ^ n) i = (i <? n) && Z.testbit a i.
Proof.
  intros Hn. destruct (Z.ltb_spec i n); simpl.
  - destruct (decide (0 ≤ i)); [apply Z.mod_pow2_bits_low; lia|].
    rewrite !Z.testbit_neg_r; [done|lia..].
  - apply Z.mod_pow2_bits_high; lia.
Qed.

Lemma ones_testbit n i : 0 ≤ n → 0 ≤ i → Z.testbit (Z.ones n) i = (i <? n).
Proof.
  intros ??. destruct (Z.ltb_spec i n).
  - apply Z.ones_spec_low; lia.
  - apply Z.ones_spec_high; lia.
Qed.

#[export] Hint Rewrite andnot_spec Z.land_spec Z.lor_spec Z.lxor_spec Z.ldiff_spec
  Z.testbit_0_l : bits.
#[export] Hint Rewrite Z.lnot_spec shiftr_testbit shiftl_testbit mod_pow2_testbit ones_testbit
  using lia : bits.

(** [flag x (2^n)] is the bit [n] of [x]. *)
Lemma flag_testbit n x : 0 ≤ n → flag x (2 ^ n) = Z.testbit x n.
Proof.
  intros Hn. unfold flag.
  destruct (Z.testbit x n) eqn:E.
  - destruct (Z.eqb_spec (Z.land x (2 ^ n)) 0) as [H|]; [|done].
    apply (f_equal (fun y => Z.testbit y n)) in H.
    rewrite Z.land_spec, Z.testbit_0_l, E, Z.pow2_bits_true in H by lia. done.
  - replace (Z.land x (2 ^ n)) with 0; [done|].
    symmetry. apply Z.bits_inj'. intros i Hi.
    rewrite Z.land_spec, Z.testbit_0_l.
    destruct (decide (i = n)) as [->|]; [by rewrite E|].
    rewrite Z.pow2_bits_false by lia. apply andb_false_r.
Qed.

Lemma flag_lor x a b : flag x (Z.lor a b) = flag x a || flag x b.
Proof.
  unfold flag. rewrite Z.land_lor_distr_r, <-negb_andb. f_equal.
  destruct (Z.eqb_spec (Z.lor (Z.land x a) (Z.land x b)) 0) as [H|H].
  - apply Z.lor_eq_0_iff in H as [-> ->]. done.
  - symmetry. apply andb_false_iff. rewrite !Z.eqb_neq.
    destruct (decide (Z.land x a = 0)) as [E|]; [|by left].
    right. intros E'. apply H. by rewrite E, E'.
Qed.

(** Turn every [flag x m] with a one-bit literal mask into the bit of [x]. *)
Ltac flags_to_bits :=
  repeat match goal with
  | |- context [flag _ (Z.lor _ _)] => rewrite flag_lor
  | H : context [flag _ (Z.lor _ _)] |- _ => rewrite flag_lor in H
  | |- context [flag ?x ?m] =>
      let n := eval vm_compute in (Z.log2 m) in
      rewrite (flag_testbit n x ltac:(lia) : flag x m = Z.testbit x n)
  | H : context [flag ?x ?m] |- _ =>
      let n := eval vm_compute in (Z.log2 m) in
      rewrite (flag_testbit n x ltac:(lia) : flag x m = Z.testbit x n) in H
  end.

(** Evaluate [Z.testbit] of literals and named constants at literals. *)
Ltac eval_testbit :=
  repeat match goal with
  | |- context [Z.testbit ?m ?i] =>
      first [is_const m | lazymatch m with Zpos _ => idtac end];
      let b := eval vm_compute in (Z.testbit m i) in
      lazymatch b with true => idtac | false => idtac end;
      change (Z.testbit m i) with b
  | H : context [Z.testbit ?m ?i] |- _ =>
      first [is_const m | lazymatch m with Zpos _ => idtac end];
      let b := eval vm_compute in (Z.testbit m i) in
      lazymatch b with true => idtac | false => idtac end;
      change (Z.testbit m i) with b in H
  end.

#[export] Hint Rewrite andb_true_r andb_false_r orb_true_r orb_false_r andb_true_l andb_false_l
  orb_true_l orb_false_l negb_involutive andb_diag orb_diag : boolsimp.

(** Push [Z.testbit] through the bit operations. *)
Ltac push_bits := repeat (autorewrite with bits; eval_testbit); cbn [negb]; autorewrite with boolsimp.
Ltac push_bits_in H := repeat (autorewrite with bits in H; eval_testbit); cbn [negb] in H;
  autorewrite with boolsimp in H.

(** Decide a goal about the bits of some words: turn flag tests into bits, push
    them to the words, then split on the bits that remain. *)
Ltac known_bits :=
  repeat match goal with
  | H : _ ∧ _ |- _ => destruct H
  | H : true = true → _ |- _ => specialize (H eq_refl)
  | H : false = true → _ |- _ => clear H
  | H : _ || _ = false |- _ => apply orb_false_elim in H as [? ?]
  | H : _ && _ = true |- _ => apply andb_prop in H as [? ?]
  | H : negb _ = true |- _ => apply negb_true_iff in H
  | H : negb _ = false |- _ => apply negb_false_iff in H
  | H : Z.testbit ?x ?i = _ |- context [Z.testbit ?x ?i] => rewrite H
  | H : Z.testbit ?x ?i = ?b, H' : context [Z.testbit ?x ?i] |- _ =>
      lazymatch type of H' with Z.testbit x i = b => fail | _ => rewrite H in H' end
  end; cbn [negb andb orb xorb] in *; autorewrite with boolsimp in *; try done.
Ltac split_bits :=
  known_bits; repeat split; intros; known_bits;
  repeat match goal with
  | |- context [Z.testbit ?x ?i] => destruct (Z.testbit x i) eqn:?; known_bits
  | H : context [Z.testbit ?x ?i] |- _ =>
      lazymatch type of H with Z.testbit _ _ = _ => fail | _ => idtac end;
      destruct (Z.testbit x i) eqn:?; known_bits
  end.
Ltac solve_bits := flags_to_bits; push_bits; split_bits.

(** ** Widths *)

Lemma fits_nonneg n x : fits n x → 0 ≤ x.
Proof. by intros []. Qed.

Lemma fits_testbit n x i : fits n x → n ≤ i → Z.testbit x i = false.
Proof.
  intros [H1 H2] Hi. destruct (decide (0 ≤ n)).
  - by apply (proj1 (Z.bounded_iff_bits_nonneg' n x ltac:(lia) H1) (conj H1 H2)).
  - rewrite Z.pow_neg_r in H2 by lia. lia.
Qed.

Lemma fits_intro n x : 0 ≤ n → 0 ≤ x → (∀ i, n ≤ i → Z.testbit x i = false) → fits n x.
Proof. intros Hn Hx Hb. apply Z.bounded_iff_bits_nonneg'; auto. Qed.

Lemma fits_land_l n x y : 0 ≤ n → fits n x → fits n (Z.land x y).
Proof.
  intros Hn Hx. apply fits_intro; [done| |].
  - apply Z.land_nonneg. left. apply Hx.
  - intros i Hi. by rewrite Z.land_spec, (fits_testbit n x).
Qed.

Lemma fits_land_r n x y : 0 ≤ n → fits n y → fits n (Z.land x y).
Proof. rewrite Z.land_comm. apply fits_land_l. Qed.

Lemma fits_lor n x y : 0 ≤ n → fits n x → fits n y → fits n (Z.lor x y).
Proof.
  intros Hn Hx Hy. apply fits_intro; [done| |].
  - apply Z.lor_nonneg. split; [apply Hx|apply Hy].
  - intros i Hi. by rewrite Z.lor_spec, (fits_testbit n x), (fits_testbit n y).
Qed.

Lemma fits_lxor n x y : 0 ≤ n → fits n x → fits n y → fits n (Z.lxor x y).
Proof.
  intros Hn Hx Hy. apply fits_intro; [done| |].
  - apply Z.lxor_nonneg. pose proof (fits_nonneg n x Hx). pose proof (fits_nonneg n y Hy). lia.
  - intros i Hi. by rewrite Z.lxor_spec, (fits_testbit n x), (fits_testbit n y).
Qed.

Lemma fits_andnot n x m : 0 ≤ n → fits n x → fits n (andnot x m).
Proof. intros. by apply fits_land_l. Qed.

Lemma fits_shiftr n x k : 0 ≤ n → 0 ≤ k → fits (n + k) x → fits n (Z.shiftr x k).
Proof.
  intros Hn Hk Hx. apply fits_intro; [done| |].
  - apply Z.shiftr_nonneg. apply Hx.
  - intros i Hi. rewrite Z.shiftr_spec by lia. apply (fits_testbit (n + k)); [done|lia].
Qed.

Lemma fits_shiftl n x k : 0 ≤ k → k ≤ n → fits (n - k) x → fits n (Z.shiftl x k).
Proof.
  intros Hk Hn [H1 H2]. rewrite Z.shiftl_mul_pow2 by lia. split; [lia|].
  replace n with ((n - k) + k) by lia. rewrite Z.pow_add_r by lia. nia.
Qed.

Lemma fits_mod n x : 0 ≤ n → fits n (x mod 2 ^ n).
Proof. intros. apply Z.mod_pos_bound. lia. Qed.

Lemma fits_mono n m x : n ≤ m → fits n x → fits m x.
Proof. intros Hm [H1 H2]. split; [done|]. pose proof (Z.pow_le_mono_r 2 n m). lia. Qed.

Lemma fits_mod_small n x : fits n x → x mod 2 ^ n = x.
Proof. apply Z.mod_small. Qed.

Lemma fits_u8 x : fits 8 (u8 x). Proof. by apply fits_mod. Qed.
Lemma fits_u16 x : fits 16 (u16 x). Proof. by apply fits_mod. Qed.
Lemma fits_u32 x : fits 32 (u32 x). Proof. by apply fits_mod. Qed.
Lemma fits_u64 x : fits 64 (u64 x). Proof. by apply fits_mod. Qed.

Lemma u8_small x : fits 8 x → u8 x = x. Proof. apply Z.mod_small. Qed.
Lemma u16_small x : fits 16 x → u16 x = x. Proof. apply Z.mod_small. Qed.
Lemma u32_small x : fits 32 x → u32 x = x. Proof. apply Z.mod_small. Qed.
Lemma u64_small x : fits 64 x → u64 x = x. Proof. apply Z.mod_small. Qed.

Lemma u8_u8 x : u8 (u8 x) = u8 x. Proof. apply u8_small, fits_u8. Qed.

#[export] Hint Resolve fits_u8 fits_u16 fits_u32 fits_u64 : fits.

(** Bound an expression built from bit operations; the hint database [fits] holds
    the bounds of its atoms. *)
Ltac solve_fits :=
  lazymatch goal with
  | |- fits _ (Z.lor _ _) => apply fits_lor; [lia|solve_fits|solve_fits]
  | |- fits _ (Z.lxor _ _) => apply fits_lxor; [lia|solve_fits|solve_fits]
  | |- fits _ (andnot _ _) => apply fits_andnot; [lia|solve_fits]
  | |- fits _ (Z.land _ _) =>
      first [apply fits_land_r; [lia|solve_fits] | apply fits_land_l; [lia|solve_fits]]
  | |- fits ?n (Z.shiftl ?x ?k) =>
      apply fits_shiftl; [lia|lia|];
      let m := eval vm_compute in (n - k) in change (fits m x); solve_fits
  | |- fits _ (if ?b then _ else _) => destruct b; solve_fits
  | |- fits ?n ?x =>
      first [assumption
            |(first [is_const x | lazymatch x with Zpos _ => idtac | Z0 => idtac end]);
             split; vm_compute; congruence
            |solve [auto with fits]
            |apply (fits_mono 8); [lia|solve [auto with fits]]
            |apply (fits_mono 16); [lia|solve [auto with fits]]]
  end.

(** Two numbers of the same width with the same bits are equal. *)
Lemma fits_bits_inj n x y : 0 ≤ n → fits n x → fits n y →
  (∀ i, 0 ≤ i < n → Z.testbit x i = Z.testbit y i) → x = y.
Proof.
  intros Hn Hx Hy Hb. apply Z.bits_inj'. intros i Hi.
  destruct (decide (i < n)); [apply Hb; lia|].
  rewrite (fits_testbit n x), (fits_testbit n y); [done|done|lia|done|lia].
Qed.

(** Bytes of a word: [hi << 8 | lo] and back. *)
Lemma word_of_bytes h l : fits 8 h → fits 8 l → Z.lor (Z.shiftl h 8) l = h * 256 + l.
Proof.
  intros Hh Hl. rewrite Z.shiftl_mul_pow2 by lia. symmetry.
  apply Z.add_nocarry_lor. apply Z.bits_inj'. intros i Hi. push_bits.
  destruct (decide (i < 8)).
  - rewrite Z.mul_pow2_bits_low by lia. done.
  - rewrite (fits_testbit 8 l i) by (done || lia). apply andb_false_r.
Qed.

Lemma bytes_of_word v : fits 16 v → u8 (Z.shiftr v 8) * 256 + u8 v = v.
Proof.
  intros Hv. rewrite u8_small.
  - rewrite Z.shiftr_div_pow2 by lia. unfold u8. pose proof (Z.div_mod v (2 ^ 8)). lia.
  - by apply (fits_shiftr 8 v 8).
Qed.

(** ** Lemmas on arrays *)

Lemma bget_Ok b i : 0 ≤ i < Z.of_nat (length b) → bget b i = Ok (nth (Z.to_nat i) b 0).
Proof.
  intros Hi. unfold bget. destruct (Z.ltb_spec i 0); [lia|].
  destruct (lookup_lt_is_Some_2 b (Z.to_nat i)) as [x Hx]; [lia|].
  rewrite Hx. by rewrite (nth_lookup_Some _ _ _ _ Hx).
Qed.

Lemma bget_Err b i : i < 0 ∨ Z.of_nat (length b) ≤ i → bget b i = Err OutOfBounds.
Proof.
  intros Hi. unfold bget. destruct (Z.ltb_spec i 0); [done|].
  by rewrite lookup_ge_None_2 by lia.
Qed.

Lemma bset_Ok b i v : 0 ≤ i < Z.of_nat (length b) → bset b i v = Ok (<[Z.to_nat i := v]> b).
Proof.
  intros Hi. unfold bset. destruct (Z.ltb_spec i 0), (Z.leb_spec (Z.of_nat (length b)) i); try lia.
  done.
Qed.

Lemma bset_Err b i v : i < 0 ∨ Z.of_nat (length b) ≤ i → bset b i v = Err OutOfBounds.
Proof.
  intros Hi. unfold bset.
  destruct (Z.ltb_spec i 0), (Z.leb_spec (Z.of_nat (length b)) i); try done. lia.
Qed.

Lemma bslice_Ok b i n : 0 ≤ i → 0 ≤ n → i + n ≤ Z.of_nat (length b) →
  bslice b i n = Ok (slice b (Z.to_nat i) (Z.to_nat n)).
Proof.
  intros. unfold bslice.
  by destruct (Z.ltb_spec i 0), (Z.ltb_spec n 0), (Z.ltb_spec (Z.of_nat (length b)) (i + n));
    try lia.
Qed.

Lemma bblit_Ok b i s : 0 ≤ i → i + Z.of_nat (length s) ≤ Z.of_nat (length b) →
  bblit b i s = Ok (blit b (Z.to_nat i) s).
Proof.
  intros. unfold bblit.
  by destruct (Z.ltb_spec i 0), (Z.ltb_spec (Z.of_nat (length b)) (i + Z.of_nat (length s)));
    try lia.
Qed.

Lemma nth_insert (b : list Z) i j v : (i < length b)%nat →
  nth j (<[i := v]> b) 0 = if decide (i = j) then v else nth j b 0.
Proof.
  intros Hi. rewrite !nth_lookup. case_decide as E.
  - subst. by rewrite list_lookup_insert_eq.
  - by rewrite list_lookup_insert_ne.
Qed.

Lemma length_blit b i s : (i + length s ≤ length b)%nat → length (blit b i s) = length b.
Proof. intros. unfold blit. rewrite !length_app, length_take, length_drop. lia. Qed.

Lemma length_slice b i n : (i + n ≤ length b)%nat → length (slice b i n) = n.
Proof. intros. unfold slice. rewrite length_take, length_drop. lia. Qed.

Lemma lookup_blit b i s j : (i + length s ≤ length b)%nat →
  blit b i s !! j = if decide (i ≤ j < i + length s)%nat then s !! (j - i)%nat else b !! j.
Proof.
  intros Hi. unfold blit.
  assert (Hl : length (take i b) = i) by (rewrite length_take; lia).
  destruct (decide (j < i)%nat).
  - rewrite lookup_app_l, lookup_take_lt by lia. by rewrite decide_False by lia.
  - rewrite lookup_app_r, Hl by lia. case_decide.
    + by rewrite lookup_app_l by lia.
    + rewrite lookup_app_r, lookup_drop by lia. f_equal. lia.
Qed.

Lemma lookup_slice b i n j : slice b i n !! j = if decide (j < n)%nat then b !! (i + j)%nat else None.
Proof.
  unfold slice. case_decide.
  - by rewrite lookup_take_lt, lookup_drop by lia.
  - by rewrite lookup_take_ge by lia.
Qed.

Lemma slice_blit_same b i s : (i + length s ≤ length b)%nat → slice (blit b i s) i (length s) = s.
Proof.
  intros Hi. apply list_eq. intros j. rewrite lookup_slice.
  case_decide; [|by rewrite lookup_ge_None_2 by lia].
  rewrite lookup_blit by done. rewrite decide_True by lia. f_equal. lia.
Qed.

Lemma slice_blit_ne b i s j n : (i + length s ≤ length b)%nat →
  (j + n ≤ i ∨ i + length s ≤ j)%nat → slice (blit b i s) j n = slice b j n.
Proof.
  intros Hi Hj. apply list_eq. intros k. rewrite !lookup_slice.
  case_decide; [|done]. rewrite lookup_blit by done. by rewrite decide_False by lia.
Qed.

Lemma blit_slice_id b i n : (i + n ≤ length b)%nat → blit b i (slice b i n) = b.
Proof.
  intros Hi. apply list_eq. intros j. rewrite lookup_blit by (rewrite length_slice; lia).
  rewrite length_slice by done. case_decide; [|done].
  rewrite lookup_slice, decide_True by lia. f_equal. lia.
Qed.

Lemma blit_blit_same b i s s' : length s = length s' → (i + length s ≤ length b)%nat →
  blit (blit b i s) i s' = blit b i s'.
Proof.
  intros Hs Hi. apply list_eq. intros j.
  rewrite !lookup_blit by (rewrite ?length_blit; lia). case_decide; [done|].
  by rewrite decide_False by lia.
Qed.

Lemma blit_comm b i j s t : (i + length s ≤ length b)%nat → (j + length t ≤ length b)%nat →
  (i + length s ≤ j ∨ j + length t ≤ i)%nat →
  blit (blit b i s) j t = blit (blit b j t) i s.
Proof.
  intros Hi Hj Hd. apply list_eq. intros k.
  rewrite !lookup_blit by (rewrite ?length_blit; lia).
  repeat case_decide; try done; lia.
Qed.

Lemma bytes_eqb_spec a b : reflect (a = b) (bytes_eqb a b).
Proof. unfold bytes_eqb. case_bool_decide; by constructor. Qed.
