(* ===== verification/Types.v ===== *)
(** * Constants shared by the daemon's units

    The macros of [arm/include/a2065_types.h], [arm/include/a2065_bridge.h],
    [arm/include/a2065_ddr3_flat.h] and [arm/include/boardram_access.h]. *)

From S2P Require Import Prelude.

(** CSR0 bits *)
Definition CSR0_ERR : Z := 0x8000.
Definition CSR0_BABL : Z := 0x4000.
Definition CSR0_CERR : Z := 0x2000.
Definition CSR0_MISS : Z := 0x1000.
Definition CSR0_MERR : Z := 0x0800.
Definition CSR0_RINT : Z := 0x0400.
Definition CSR0_TINT : Z := 0x0200.
Definition CSR0_IDON : Z := 0x0100.
Definition CSR0_INTR : Z := 0x0080.
Definition CSR0_INEA : Z := 0x0040.
Definition CSR0_RXON : Z := 0x0020.
Definition CSR0_TXON : Z := 0x0010.
Definition CSR0_TDMD : Z := 0x0008.
Definition CSR0_STOP : Z := 0x0004.
Definition CSR0_STRT : Z := 0x0002.
Definition CSR0_INIT : Z := 0x0001.

(** Mode register bits *)
Definition MODE_PROM : Z := 0x8000.
Definition MODE_COLL : Z := 0x0010.
Definition MODE_DTCR : Z := 0x0008.
Definition MODE_LOOP : Z := 0x0004.
Definition MODE_DTX : Z := 0x0002.
Definition MODE_DRX : Z := 0x0001.

(** TX descriptor bits (TMD1, then TMD3) *)
Definition TX_OWN : Z := 0x8000.
Definition TX_ERR : Z := 0x4000.
Definition TX_ADD_FCS : Z := 0x2000.
Definition TX_STP : Z := 0x0200.
Definition TX_ENP : Z := 0x0100.
Definition TX_BUFF : Z := 0x8000.
Definition TX_UFLO : Z := 0x4000.
Definition TX_RTRY : Z := 0x0400.

(** RX descriptor bits *)
Definition RX_OWN : Z := 0x8000.
Definition RX_OFLO : Z := 0x1000.
Definition RX_BUFF : Z := 0x0400.
Definition RX_STP : Z := 0x0200.
Definition RX_ENP : Z := 0x0100.

(** Sizes *)
Definition RAP_SIZE : Z := 128.
Definition MAX_PACKET_SIZE : Z := 4096.
Definition RAM_SIZE : Z := 0x8000.
Definition RAM_MASK : Z := 0x7FFF.

(** Card identity and chip register offsets *)
Definition COMMODORE_OUI0 : Z := 0x00.
Definition COMMODORE_OUI1 : Z := 0x80.
Definition COMMODORE_OUI2 : Z := 0x10.
Definition A2065_RDP_OFF : Z := 0x00.
Definition A2065_RAP_OFF : Z := 0x02.
Definition BROADCAST_MAC : list Z := [0xff; 0xff; 0xff; 0xff; 0xff; 0xff].

(** [a2065_ddr3_flat.h]: byte offsets of the control slots in the shared window *)
Definition DDR3_BRAM_OFF : Z := 0x0000.
Definition DDR3_CMD_OFF : Z := 0x8000.
Definition DDR3_CMD_PENDING_BIT : Z := 1.
Definition DDR3_CMD_RAP_SHIFT : Z := 1.
Definition DDR3_CMD_RAP_MASK : Z := 0x7F.
Definition DDR3_CMD_DATA_SHIFT : Z := 8.
Definition DDR3_CMD_DATA_MASK : Z := 0xFFFF.
Definition DDR3_CSR_OFF : Z := 0x8010.
Definition DDR3_INT_OFF : Z := 0x8018.
Definition DDR3_MAC_OFF : Z := 0x8028.

(** [a2065_bridge.h]: byte offsets in the HPS-to-FPGA bridge window *)
Definition BRIDGE_REG_DATA : Z := 0x0000.
Definition BRIDGE_REG_ADDR : Z := 0x0002.
Definition BRIDGE_REG_RW : Z := 0x0003.
Definition BRIDGE_REG_NEW_REQ : Z := 0x0004.
Definition BRIDGE_REG_DONE : Z := 0x0005.
Definition BRIDGE_REG_RESULT : Z := 0x0006.
Definition BRIDGE_INT_SET : Z := 0x0010.
Definition BRIDGE_BOARDRAM_OFF : Z := 0x8000.
