(* ===== verification/Window.v ===== *)
(** * The shared window and the board RAM accessors

    The daemon and the FPGA share one mapped memory window.  A window is a
    finite map from byte offsets to bytes; a byte that was never written is 0,
    as after [memset] or in a fresh mapping.  [boardram] is a pointer into the
    window and is modelled by its offset [base].

    Models [arm/include/boardram_access.h] (flat build) and the [rd64]/[wr64]
    helpers of [arm/src/main_doorbell.cpp], [arm/src/main_ddr3.cpp] and
    [arm/src/boardram_remote.cpp]. *)

From S2P Require Import Prelude Types.

Abbreviation window := (gmap Z Z).

Definition rd8 (w : window) (a : Z) : Z := default 0 (w !! a).
Definition wr8 (w : window) (a v : Z) : window := <[a := u8 v]> w.

(** ** 64-bit slots, little-endian as [memcpy] on the ARM *)

Fixpoint le_read (n : nat) (w : window) (a : Z) : Z :=
  match n with
  | O => 0
  | S n => Z.lor (rd8 w a) (Z.shiftl (le_read n w (a + 1)) 8)
  end.

Fixpoint le_write (n : nat) (w : window) (a v : Z) : window :=
  match n with
  | O => w
  | S n => le_write n (wr8 w a v) (a + 1) (Z.shiftr v 8)
  end.

Definition rd64 (w : window) (off : Z) : Z := le_read 8 w off.
Definition wr64 (w : window) (off val : Z) : window := le_write 8 w off val.

(** ** Board RAM, 68k byte order *)

(** [boardram[(off ^ 1) & RAM_MASK]]: the offset in the window. *)
Definition ram_index (base off : Z) : Z := base + Z.land (Z.lxor off 1) RAM_MASK.

Definition get_ram_byte (base : Z) (w : window) (off : Z) : Z := rd8 w (ram_index base off).

Definition get_ram_word (base : Z) (w : window) (off : Z) : Z :=
  u16 (Z.lor (Z.shiftl (get_ram_byte base w off) 8) (get_ram_byte base w (off + 1))).

Definition put_ram_byte (base : Z) (w : window) (off v : Z) : window :=
  wr8 w (ram_index base off) v.

Definition put_ram_word (base : Z) (w : window) (off v : Z) : window :=
  put_ram_byte base (put_ram_byte base w off (Z.shiftr v 8)) (off + 1) (u8 v).

(** [for (i = 0; i < len; i++) dst[i] = boardram[((off + i) ^ 1) & RAM_MASK]] *)
Fixpoint ram_read_block (base : Z) (w : window) (off : Z) (len : nat) : list Z :=
  match len with
  | O => []
  | S n => get_ram_byte base w off :: ram_read_block base w (off + 1) n
  end.

Fixpoint ram_write_block (base : Z) (w : window) (off : Z) (src : list Z) : window :=
  match src with
  | [] => w
  | v :: src => ram_write_block base (put_ram_byte base w off v) (off + 1) src
  end.

(** ** Abstract specification: the card's memory as the 68k sees it

    32768 bytes, addressed modulo the size; words are big-endian. *)
Module Ram68k.
Definition addr (off : Z) : Z := off mod 2 ^ 15.
Definition load8 (m : Z → Z) (off : Z) : Z := m (addr off).
Definition store8 (m : Z → Z) (off v : Z) : Z → Z :=
  fun a => if a =? addr off then u8 v else m a.
Definition load16 (m : Z → Z) (off : Z) : Z := load8 m off * 256 + load8 m (off + 1).
Definition store16 (m : Z → Z) (off v : Z) : Z → Z :=
  store8 (store8 m off (v / 256)) (off + 1) v.
End Ram68k.

(** The 68k's view of a window: the 68k's byte [a] lives at [a ^ 1]. *)
Definition view (base : Z) (w : window) : Z → Z := fun a => rd8 w (base + Z.lxor a 1).

(** Every byte of the window is a byte. *)
Definition window_ok (w : window) : Prop := map_Forall (λ _ v, fits 8 v) w.

(** ** Lemmas: bytes *)

Lemma rd8_wr8_eq w a v : rd8 (wr8 w a v) a = u8 v.
Proof. unfold rd8, wr8. by rewrite lookup_insert_eq. Qed.

Lemma rd8_wr8_ne w a b v : a ≠ b → rd8 (wr8 w a v) b = rd8 w b.
Proof. intros. unfold rd8, wr8. by rewrite lookup_insert_ne. Qed.

Lemma rd8_wr8 w a b v : rd8 (wr8 w a v) b = if decide (a = b) then u8 v else rd8 w b.
Proof. case_decide as E; [subst; apply rd8_wr8_eq|by apply rd8_wr8_ne]. Qed.

Lemma window_ok_empty : window_ok ∅.
Proof. apply map_Forall_empty. Qed.

Lemma window_ok_wr8 w a v : window_ok w → window_ok (wr8 w a v).
Proof. intros H. apply map_Forall_insert_2; [apply fits_u8|done]. Qed.

Lemma rd8_fits w a : window_ok w → fits 8 (rd8 w a).
Proof.
  intros H. unfold rd8. destruct (w !! a) eqn:E; simpl; [by apply (H a)|].
  by split.
Qed.
#[export] Hint Resolve window_ok_wr8 rd8_fits : a2065.

(** ** Lemmas: 64-bit slots *)

Lemma le_write_frame n w a v b : b < a ∨ a + Z.of_nat n ≤ b →
  rd8 (le_write n w a v) b = rd8 w b.
Proof.
  revert w a v. induction n as [|n IH]; intros w a v Hb; simpl; [done|].
  rewrite IH by lia. apply rd8_wr8_ne. lia.
Qed.

Lemma le_read_ext n w w' a : (∀ b, a ≤ b < a + Z.of_nat n → rd8 w b = rd8 w' b) →
  le_read n w a = le_read n w' a.
Proof.
  revert a. induction n as [|n IH]; intros a H; simpl; [done|].
  rewrite H by lia. f_equal. f_equal. apply IH. intros. apply H. lia.
Qed.

Lemma le_read_write n w a v : le_read n (le_write n w a v) a = v mod 2 ^ (8 * Z.of_nat n).
Proof.
  revert w a v. induction n as [|n IH]; intros w a v; [by rewrite Z.mod_1_r|].
  cbn [le_read le_write]. rewrite le_write_frame, rd8_wr8_eq, IH by lia.
  unfold u8. apply Z.bits_inj'. intros i Hi. push_bits.
  destruct (Z.ltb_spec i 8), (Z.ltb_spec (i - 8) (8 * Z.of_nat n)),
    (Z.ltb_spec i (8 * Z.of_nat (S n))); simpl; try lia;
    rewrite ?(Z.testbit_neg_r v (i - 8)) by lia; rewrite ?(Z.testbit_neg_r _ (i - 8)) by lia;
    rewrite ?orb_false_r; try done; push_bits; f_equal; lia.
Qed.

Lemma window_ok_le_write n w a v : window_ok w → window_ok (le_write n w a v).
Proof. revert w a v. induction n; simpl; auto with a2065. Qed.

Lemma rd64_wr64 w off v : rd64 (wr64 w off v) off = u64 v.
Proof. apply (le_read_write 8). Qed.

Lemma rd64_wr64_ne w off off' v : off' + 8 ≤ off ∨ off + 8 ≤ off' →
  rd64 (wr64 w off v) off' = rd64 w off'.
Proof. intros. apply le_read_ext. intros. apply le_write_frame. lia. Qed.

Lemma rd8_wr64 w off v a : a < off ∨ off + 8 ≤ a → rd8 (wr64 w off v) a = rd8 w a.
Proof. intros. apply le_write_frame. lia. Qed.

Lemma window_ok_wr64 w off v : window_ok w → window_ok (wr64 w off v).
Proof. apply window_ok_le_write. Qed.
#[export] Hint Resolve window_ok_wr64 : a2065.

(** ** Lemmas: board RAM *)

Lemma ram_index_view base off : ram_index base off = base + Z.lxor (Ram68k.addr off) 1.
Proof.
  unfold ram_index, Ram68k.addr. f_equal. change RAM_MASK with (Z.ones 15).
  apply Z.bits_inj'. intros i Hi. push_bits.
  destruct (Z.ltb_spec i 15); simpl; [btauto|].
  rewrite (fits_testbit 1 1 i); [by rewrite andb_false_r|by split|lia].
Qed.

Lemma ram_addr_range off : 0 ≤ Ram68k.addr off < 2 ^ 15.
Proof. by apply Z.mod_pos_bound. Qed.

Lemma lxor1_range a : 0 ≤ a < 2 ^ 15 → 0 ≤ Z.lxor a 1 < 2 ^ 15.
Proof. intros. apply (fits_lxor 15 a 1); [lia|done|done]. Qed.

Lemma lxor1_inj a b : Z.lxor a 1 = Z.lxor b 1 → a = b.
Proof.
  intros H. apply (f_equal (λ x, Z.lxor x 1)) in H.
  by rewrite !Z.lxor_assoc, Z.lxor_nilpotent, !Z.lxor_0_r in H.
Qed.

Lemma ram_index_range base off : base ≤ ram_index base off < base + RAM_SIZE.
Proof.
  rewrite ram_index_view. pose proof (lxor1_range _ (ram_addr_range off)).
  unfold RAM_SIZE. lia.
Qed.

Lemma ram_index_inj base o1 o2 : ram_index base o1 = ram_index base o2 →
  Ram68k.addr o1 = Ram68k.addr o2.
Proof. rewrite !ram_index_view. intros. apply lxor1_inj. lia. Qed.

Lemma ram_index_addr base o1 o2 : Ram68k.addr o1 = Ram68k.addr o2 →
  ram_index base o1 = ram_index base o2.
Proof. rewrite !ram_index_view. congruence. Qed.

Lemma get_put_byte base w o1 o2 v :
  get_ram_byte base (put_ram_byte base w o1 v) o2
  = if decide (Ram68k.addr o1 = Ram68k.addr o2) then u8 v else get_ram_byte base w o2.
Proof.
  unfold get_ram_byte, put_ram_byte. case_decide as E.
  - rewrite (ram_index_addr _ _ _ E). apply rd8_wr8_eq.
  - apply rd8_wr8_ne. intros H. by apply ram_index_inj in H.
Qed.

Lemma get_ram_byte_addr base w o1 o2 : Ram68k.addr o1 = Ram68k.addr o2 →
  get_ram_byte base w o1 = get_ram_byte base w o2.
Proof. intros. unfold get_ram_byte. by rewrite (ram_index_addr _ _ _ H). Qed.

Lemma get_ram_byte_fits base w off : window_ok w → fits 8 (get_ram_byte base w off).
Proof. apply rd8_fits. Qed.

Lemma window_ok_put_byte base w off v : window_ok w → window_ok (put_ram_byte base w off v).
Proof. apply window_ok_wr8. Qed.

Lemma window_ok_put_word base w off v : window_ok w → window_ok (put_ram_word base w off v).
Proof. intros. by do 2 apply window_ok_put_byte. Qed.

Lemma window_ok_write_block base w off src :
  window_ok w → window_ok (ram_write_block base w off src).
Proof. revert w off. induction src; simpl; auto using window_ok_put_byte. Qed.

Lemma get_ram_word_fits base w off : fits 16 (get_ram_word base w off).
Proof. apply fits_u16. Qed.
#[export] Hint Resolve get_ram_byte_fits window_ok_put_byte window_ok_put_word
  window_ok_write_block : a2065.
#[export] Hint Resolve get_ram_word_fits : fits.

Lemma get_ram_word_bytes base w off : window_ok w →
  get_ram_word base w off = get_ram_byte base w off * 256 + get_ram_byte base w (off + 1).
Proof.
  intros Hw. unfold get_ram_word. rewrite word_of_bytes by auto with a2065.
  pose proof (get_ram_byte_fits base w off Hw). pose proof (get_ram_byte_fits base w (off + 1) Hw).
  apply u16_small. unfold fits in *. lia.
Qed.

(** Addresses that differ by a small non-zero amount are different cells. *)
Lemma ram_addr_ne o d : - 2 ^ 15 < d < 2 ^ 15 → d ≠ 0 → Ram68k.addr o ≠ Ram68k.addr (o + d).
Proof.
  unfold Ram68k.addr. intros Hd Hn H.
  pose proof (Z.div_mod o (2 ^ 15)). pose proof (Z.div_mod (o + d) (2 ^ 15)). nia.
Qed.

Lemma get_put_word_eq base w off v :
  fits 16 v → get_ram_word base (put_ram_word base w off v) off = v.
Proof.
  intros Hv. unfold get_ram_word, put_ram_word. rewrite !get_put_byte.
  rewrite decide_False by (apply not_eq_sym, ram_addr_ne; lia).
  rewrite !decide_True by done. rewrite word_of_bytes by auto with fits.
  rewrite u8_u8, bytes_of_word by done. by apply u16_small.
Qed.

(** Two 16-bit cells at least two bytes apart (modulo the RAM size) do not overlap. *)
Definition words_apart (o1 o2 : Z) : Prop := 2 ≤ (o2 - o1) mod 2 ^ 15 ≤ 2 ^ 15 - 2.

Lemma words_apart_addr o1 o2 d e : words_apart o1 o2 → 0 ≤ d ≤ 1 → 0 ≤ e ≤ 1 →
  Ram68k.addr (o1 + d) ≠ Ram68k.addr (o2 + e).
Proof.
  unfold words_apart, Ram68k.addr. intros H Hd He Heq.
  pose proof (Z.div_mod (o1 + d) (2 ^ 15)). pose proof (Z.div_mod (o2 + e) (2 ^ 15)).
  pose proof (Z.div_mod (o2 - o1) (2 ^ 15)). nia.
Qed.

Lemma get_byte_put_word_ne base w o1 o2 v :
  Ram68k.addr o1 ≠ Ram68k.addr o2 → Ram68k.addr (o1 + 1) ≠ Ram68k.addr o2 →
  get_ram_byte base (put_ram_word base w o1 v) o2 = get_ram_byte base w o2.
Proof. intros. unfold put_ram_word. by rewrite !get_put_byte, !decide_False. Qed.

Lemma get_put_word_ne base w o1 o2 v : words_apart o1 o2 →
  get_ram_word base (put_ram_word base w o1 v) o2 = get_ram_word base w o2.
Proof.
  intros Ha.
  assert (H : ∀ d e, 0 ≤ d ≤ 1 → 0 ≤ e ≤ 1 → Ram68k.addr (o1 + d) ≠ Ram68k.addr (o2 + e))
    by (intros; by apply words_apart_addr).
  pose proof (H 0 0) as H00. pose proof (H 0 1) as H01.
  pose proof (H 1 0) as H10. pose proof (H 1 1) as H11.
  rewrite !Z.add_0_r in *. unfold get_ram_word.
  rewrite !get_byte_put_word_ne by (apply H00 || apply H01 || apply H10 || apply H11; lia).
  done.
Qed.

(** Board RAM writes stay inside the 32 KB region. *)
Lemma put_ram_byte_frame base w off v a : a < base ∨ base + RAM_SIZE ≤ a →
  rd8 (put_ram_byte base w off v) a = rd8 w a.
Proof. intros. apply rd8_wr8_ne. pose proof (ram_index_range base off). lia. Qed.

Lemma put_ram_word_frame base w off v a : a < base ∨ base + RAM_SIZE ≤ a →
  rd8 (put_ram_word base w off v) a = rd8 w a.
Proof. intros. unfold put_ram_word. by rewrite !put_ram_byte_frame. Qed.

Lemma ram_write_block_frame base w off src a : a < base ∨ base + RAM_SIZE ≤ a →
  rd8 (ram_write_block base w off src) a = rd8 w a.
Proof.
  revert w off. induction src as [|v src IH]; intros w off Ha; simpl; [done|].
  rewrite IH by done. by apply put_ram_byte_frame.
Qed.

(** ** Lemmas: blocks *)

(** The cell [o] lies in the block of [n] bytes at [off] (addresses wrap). *)
Definition in_block (off n o : Z) : Prop := (o - off) mod 2 ^ 15 < n.

Lemma addr_eq_offset off i o : 0 ≤ i < 2 ^ 15 →
  Ram68k.addr (off + i) = Ram68k.addr o ↔ (o - off) mod 2 ^ 15 = i.
Proof.
  unfold Ram68k.addr. intros Hi. split; intros H.
  - pose proof (Z.div_mod (off + i) (2 ^ 15)). pose proof (Z.div_mod o (2 ^ 15)).
    symmetry. apply Z.mod_unique_pos with (o / 2 ^ 15 - (off + i) / 2 ^ 15); lia.
  - subst i. rewrite Zplus_mod_idemp_r. f_equal. lia.
Qed.

Lemma length_ram_read_block base w off n : length (ram_read_block base w off n) = n.
Proof. revert off. induction n; intros; simpl; auto. Qed.

Lemma ram_read_block_lookup base w off n i : (i < n)%nat →
  ram_read_block base w off n !! i = Some (get_ram_byte base w (off + Z.of_nat i)).
Proof.
  revert off i. induction n as [|n IH]; intros off [|i] Hi; simpl; [lia|lia|by rewrite Z.add_0_r|].
  rewrite IH by lia. do 2 f_equal. lia.
Qed.

Lemma get_write_block_out base w off src o : Z.of_nat (length src) ≤ 2 ^ 15 →
  ¬ in_block off (Z.of_nat (length src)) o →
  get_ram_byte base (ram_write_block base w off src) o = get_ram_byte base w o.
Proof.
  revert w off. induction src as [|v src IH]; intros w off Hl Ho; [done|]. simpl in *.
  unfold in_block in *.
  assert (Hne : (o - off) mod 2 ^ 15 ≠ 0) by lia.
  assert (Hs : (o - (off + 1)) mod 2 ^ 15 = (o - off) mod 2 ^ 15 - 1).
  { symmetry. pose proof (Z.div_mod (o - off) (2 ^ 15)).
    pose proof (Z.mod_pos_bound (o - off) (2 ^ 15)).
    apply Z.mod_unique_pos with ((o - off) / 2 ^ 15); lia. }
  rewrite IH by lia. rewrite get_put_byte, decide_False; [done|].
  rewrite <-(Z.add_0_r off), addr_eq_offset by lia. done.
Qed.

Lemma get_write_block_in base w off src i v : Z.of_nat (length src) ≤ 2 ^ 15 → src !! i = Some v →
  get_ram_byte base (ram_write_block base w off src) (off + Z.of_nat i) = u8 v.
Proof.
  revert w off i. induction src as [|x src IH]; intros w off i Hl Hi; [done|]. simpl in *.
  destruct i as [|i]; simplify_eq/=.
  - rewrite Z.add_0_r, get_write_block_out; [by rewrite get_put_byte, decide_True|lia|].
    unfold in_block. replace (off - (off + 1)) with (-1) by lia.
    change (-1 mod 2 ^ 15) with (2 ^ 15 - 1). lia.
  - replace (off + Z.of_nat (S i)) with (off + 1 + Z.of_nat i) by lia. apply IH; [lia|done].
Qed.

Lemma ram_read_block_ext base w w' off n :
  (∀ i, 0 ≤ i < Z.of_nat n → get_ram_byte base w (off + i) = get_ram_byte base w' (off + i)) →
  ram_read_block base w off n = ram_read_block base w' off n.
Proof.
  revert off. induction n as [|n IH]; intros off H; simpl; [done|]. f_equal.
  - rewrite <-(Z.add_0_r off). apply H. lia.
  - apply IH. intros i Hi. rewrite <-Z.add_assoc. apply H. lia.
Qed.

Lemma ram_read_block_ok base w off n : window_ok w → Forall (fits 8) (ram_read_block base w off n).
Proof. intros Hw. revert off. induction n; intros; simpl; constructor; auto with a2065. Qed.

Lemma ram_read_write_block base w off src : Z.of_nat (length src) ≤ 2 ^ 15 → Forall (fits 8) src →
  ram_read_block base (ram_write_block base w off src) off (length src) = src.
Proof.
  intros Hl Hs. apply list_eq. intros i.
  destruct (decide (i < length src)%nat) as [Hi|Hi].
  - destruct (lookup_lt_is_Some_2 src i Hi) as [v Hv].
    rewrite ram_read_block_lookup, (get_write_block_in _ _ _ _ _ v), Hv by done.
    f_equal. apply u8_small. by apply (Forall_lookup_1 _ _ _ _ Hs Hv).
  - rewrite !lookup_ge_None_2; [done|lia|rewrite length_ram_read_block; lia].
Qed.

(** ** Lemmas: the 68k's view *)

Lemma get_ram_byte_view base w o : get_ram_byte base w o = Ram68k.load8 (view base w) o.
Proof. unfold get_ram_byte. by rewrite ram_index_view. Qed.

Lemma view_put_byte base w o x a :
  view base (put_ram_byte base w o x) a = Ram68k.store8 (view base w) o x a.
Proof.
  unfold view, put_ram_byte, Ram68k.store8.
  rewrite ram_index_view, rd8_wr8. destruct (Z.eqb_spec a (Ram68k.addr o)) as [->|Hne].
  - by rewrite decide_True.
  - rewrite decide_False; [done|]. intros H. apply Hne. symmetry. apply lxor1_inj. lia.
Qed.

Lemma view_put_word base w o x a :
  view base (put_ram_word base w o x) a = Ram68k.store16 (view base w) o x a.
Proof.
  unfold put_ram_word. rewrite view_put_byte. unfold Ram68k.store16, Ram68k.store8 at 1 2.
  rewrite u8_u8, view_put_byte. unfold Ram68k.store8. by rewrite Z.shiftr_div_pow2.
Qed.

(** ** Properties *)

(** C13: The flat accessors implement the card memory the 68k addresses: through
    the [off ^ 1] lane swap, byte and word loads read exactly what the abstract
    big-endian, modulo-32K memory holds, and byte and word stores change the
    68k's view exactly as the abstract stores do, and nothing else. *)
Theorem flat_ram_refines (base : Z) (w : window) (off v : Z) (Hw : window_ok w) :
  get_ram_byte base w off = Ram68k.load8 (view base w) off
  ∧ get_ram_word base w off = Ram68k.load16 (view base w) off
  ∧ (∀ a, view base (put_ram_byte base w off v) a = Ram68k.store8 (view base w) off v a)
  ∧ (∀ a, view base (put_ram_word base w off v) a = Ram68k.store16 (view base w) off v a).
Proof.
  split_and!; [apply get_ram_byte_view| |apply view_put_byte|apply view_put_word].
  by rewrite get_ram_word_bytes, !get_ram_byte_view.
Qed.

Lemma flat_ram_refines_witness :
  window_ok ∅ ∧ view 0 (put_ram_word 0 ∅ 0x1000 0xABCD) 0x1000 = 0xAB.
Proof.
  split; [apply window_ok_empty|].
  rewrite (proj2 (proj2 (proj2 (flat_ram_refines 0 ∅ 0x1000 0xABCD window_ok_empty)))).
  vm_compute. reflexivity.
Defined.

(** Writing a block of bytes into board RAM and reading it back returns the
    block, for every start offset (wrapping included) and every length the RAM
    can hold, and leaves every byte outside the block and every byte of the
    window outside the 32 KB region unchanged. *)
Theorem ram_block_roundtrip (base : Z) (w : window) (off : Z) (src : list Z)
  (Hlen : Z.of_nat (length src) ≤ RAM_SIZE) (Hsrc : Forall (fits 8) src) :
  ram_read_block base (ram_write_block base w off src) off (length src) = src
  ∧ (∀ o, ¬ in_block off (Z.of_nat (length src)) o →
       get_ram_byte base (ram_write_block base w off src) o = get_ram_byte base w o)
  ∧ (∀ a, a < base ∨ base + RAM_SIZE ≤ a →
       rd8 (ram_write_block base w off src) a = rd8 w a).
Proof.
  split_and!.
  - by apply ram_read_write_block.
  - intros. by apply get_write_block_out.
  - intros. by apply ram_write_block_frame.
Qed.

Lemma ram_block_roundtrip_witness :
  ram_read_block 0 (ram_write_block 0 ∅ 0x7FFE [1; 2; 3]) 0x7FFE 3 = [1; 2; 3].
Proof.
  refine (proj1 (ram_block_roundtrip 0 ∅ 0x7FFE [1; 2; 3] _ _)).
  - vm_compute. congruence.
  - repeat constructor; vm_compute; congruence.
Defined.
