(* ===== verification/Crc32.v ===== *)
(** * CRC-32 (arm/src/crc32.cpp)

    The table-driven CRC the daemon appends to received frames and hashes
    multicast addresses with, the bitwise reference definition it optimises,
    and the two facts that make it an Ethernet FCS: the residue of a frame
    followed by its own checksum, and detection of any one-byte change. *)

From S2P Require Import Prelude Types.

(** ** The code *)

(** One iteration of [build_table]'s inner loop. *)
Definition crc_step (c : Z) : Z :=
  if flag c 1 then Z.lxor 0xEDB88320 (Z.shiftr c 1) else Z.shiftr c 1.

Definition crc_steps (n : nat) (c : Z) : Z := Nat.iter n crc_step c.

(** [crc32_table] after [build_table]. *)
Definition crc32_table : list Z := map (λ i : nat, crc_steps 8 (Z.of_nat i)) (seq 0 256).

(** [crc = crc32_table[(crc ^ data[i]) & 0xFF] ^ (crc >> 8)] *)
Definition crc32_update (crc b : Z) : Z :=
  Z.lxor (nth (Z.to_nat (Z.land (Z.lxor crc b) 0xFF)) crc32_table 0) (Z.shiftr crc 8).

Definition crc32_register (data : list Z) : Z := fold_left crc32_update data 0xFFFFFFFF.

Definition crc32_compute (data : list Z) : Z := u32 (Z.lnot (crc32_register data)).

(** ** Reference definition: shift the message through the polynomial bit by bit *)

Definition crc32_ref_byte (crc b : Z) : Z := crc_steps 8 (Z.lxor crc b).
Definition crc32_ref (data : list Z) : Z :=
  Z.lxor (fold_left crc32_ref_byte data 0xFFFFFFFF) 0xFFFFFFFF.

(** The four bytes of a 32-bit value, least significant first. *)
Definition le32 (x : Z) : list Z :=
  [u8 x; u8 (Z.shiftr x 8); u8 (Z.shiftr x 16); u8 (Z.shiftr x 24)].

(** ** Lemmas *)

Lemma flag1_testbit c : flag c 1 = Z.testbit c 0.
Proof. by apply (flag_testbit 0 c). Qed.

Lemma crc_step_lxor a b : crc_step (Z.lxor a b) = Z.lxor (crc_step a) (crc_step b).
Proof.
  unfold crc_step. rewrite !flag1_testbit, Z.lxor_spec, Z.shiftr_lxor.
  generalize 0xEDB88320 (Z.shiftr a 1) (Z.shiftr b 1). intros p x y.
  destruct (Z.testbit a 0), (Z.testbit b 0); simpl; apply Z.bits_inj'; intros i Hi;
    rewrite !Z.lxor_spec; btauto.
Qed.

Lemma crc_steps_lxor n a b : crc_steps n (Z.lxor a b) = Z.lxor (crc_steps n a) (crc_steps n b).
Proof.
  unfold crc_steps. induction n as [|n IH]; [done|]. simpl. by rewrite IH, crc_step_lxor.
Qed.

Lemma crc_steps_add n m c : crc_steps (n + m) c = crc_steps n (crc_steps m c).
Proof. apply Nat.iter_add. Qed.

Lemma crc_step_fits c : fits 32 c → fits 32 (crc_step c).
Proof.
  intros Hc. assert (fits 32 (Z.shiftr c 1)).
  { apply (fits_mono 31); [lia|]. by apply (fits_shiftr 31). }
  unfold crc_step. case_match; [|done]. apply fits_lxor; [lia|by split|done].
Qed.

Lemma crc_steps_fits n c : fits 32 c → fits 32 (crc_steps n c).
Proof. intros. induction n; simpl; auto using crc_step_fits. Qed.

(** A value whose low [n] bits are clear is only shifted by [n] steps. *)
Lemma crc_steps_shift n y : crc_steps n (Z.shiftl y (Z.of_nat n)) = y.
Proof.
  revert y. induction n as [|n IH]; intros y; [apply Z.shiftl_0_r|].
  replace (S n) with (n + 1)%nat by lia. rewrite crc_steps_add.
  unfold crc_steps at 2. simpl Nat.iter. unfold crc_step. rewrite flag1_testbit.
  rewrite Z.shiftl_spec_low by lia.
  replace (Z.shiftr (Z.shiftl y (Z.of_nat (n + 1))) 1) with (Z.shiftl y (Z.of_nat n)); [apply IH|].
  rewrite Z.shiftr_shiftl_r by lia. rewrite <-Z.shiftl_opp_r. f_equal. lia.
Qed.

Lemma split_low_bits n x : 0 ≤ n →
  x = Z.lxor (Z.land x (Z.ones n)) (Z.shiftl (Z.shiftr x n) n).
Proof.
  intros Hn. apply Z.bits_inj'. intros i Hi. rewrite Z.lxor_spec, Z.land_spec, ones_testbit by lia.
  rewrite shiftl_testbit by lia. destruct (Z.ltb_spec i n).
  - rewrite (Z.testbit_neg_r _ (i - n)) by lia. rewrite andb_true_r. btauto.
  - rewrite shiftr_testbit by lia. replace (i - n + n) with i by lia. btauto.
Qed.

Lemma crc32_table_lookup i : 0 ≤ i < 256 → nth (Z.to_nat i) crc32_table 0 = crc_steps 8 i.
Proof.
  intros Hi. unfold crc32_table.
  rewrite (nth_indep _ 0 (crc_steps 8 (Z.of_nat 0))) by (rewrite length_map, length_seq; lia).
  rewrite (map_nth (λ i : nat, crc_steps 8 (Z.of_nat i))), seq_nth by lia. f_equal. lia.
Qed.

(** The table look-up performs eight bit steps at once. *)
Lemma crc32_update_ref crc b : fits 8 b → crc32_update crc b = crc32_ref_byte crc b.
Proof.
  intros Hb. unfold crc32_update, crc32_ref_byte.
  assert (Hi : fits 8 (Z.land (Z.lxor crc b) 0xFF)) by (apply fits_land_r; [lia|by split]).
  rewrite crc32_table_lookup by apply Hi.
  rewrite (split_low_bits 8 (Z.lxor crc b)) at 2 by lia.
  change (Z.ones 8) with 0xFF. rewrite crc_steps_lxor. f_equal.
  rewrite (crc_steps_shift 8), Z.shiftr_lxor.
  replace (Z.shiftr b 8) with 0; [by rewrite Z.lxor_0_r|].
  symmetry. rewrite Z.shiftr_div_pow2 by lia. by apply Z.div_small.
Qed.

Lemma crc32_fold_ref data crc : Forall (fits 8) data →
  fold_left crc32_update data crc = fold_left crc32_ref_byte data crc.
Proof.
  intros H. revert crc. induction H as [|b data Hb _ IH]; intros crc; simpl; [done|].
  by rewrite crc32_update_ref, IH.
Qed.

Lemma crc32_fold_fits data crc : Forall (fits 8) data → fits 32 crc →
  fits 32 (fold_left crc32_ref_byte data crc).
Proof.
  intros H. revert crc. induction H as [|b data Hb _ IH]; intros crc Hc; simpl; [done|].
  apply IH. apply crc_steps_fits, fits_lxor; [lia|done|]. by apply (fits_mono 8).
Qed.

Lemma u32_lnot x : fits 32 x → u32 (Z.lnot x) = Z.lxor x 0xFFFFFFFF.
Proof.
  intros Hx. change 0xFFFFFFFF with (Z.ones 32). apply Z.bits_inj'. intros i Hi.
  unfold u32. push_bits. destruct (Z.ltb_spec i 32); simpl; [by destruct (Z.testbit x i)|].
  by rewrite (fits_testbit 32 x).
Qed.

Lemma crc32_compute_fits data : fits 32 (crc32_compute data).
Proof. apply fits_u32. Qed.
#[export] Hint Resolve crc32_compute_fits : fits.

Lemma crc32_compute_ref data : Forall (fits 8) data → crc32_compute data = crc32_ref data.
Proof.
  intros H. unfold crc32_compute, crc32_register, crc32_ref. rewrite crc32_fold_ref by done.
  apply u32_lnot. apply crc32_fold_fits; [done|by split].
Qed.

(** A later byte can be added to the register before the earlier bytes are
    shifted out. *)
Lemma crc32_ref_byte_absorb n c b :
  crc32_ref_byte (crc_steps n c) b = crc_steps (8 + n) (Z.lxor c (Z.shiftl b (Z.of_nat n))).
Proof.
  unfold crc32_ref_byte. rewrite crc_steps_add. f_equal.
  by rewrite crc_steps_lxor, crc_steps_shift.
Qed.

Lemma crc32_ref_le32 crc x : fits 32 x →
  fold_left crc32_ref_byte (le32 x) crc = crc_steps 32 (Z.lxor crc x).
Proof.
  intros Hx. unfold le32. cbn [fold_left]. unfold crc32_ref_byte at 4.
  rewrite (crc32_ref_byte_absorb 8 (Z.lxor crc (u8 x))), !crc32_ref_byte_absorb.
  change (8 + (8 + (8 + 8)))%nat with 32%nat. f_equal. rewrite !Z.lxor_assoc. f_equal.
  change (Z.of_nat (8 + (8 + 8))) with 24. change (Z.of_nat (8 + 8)) with 16.
  change (Z.of_nat 8) with 8.
  apply Z.bits_inj'. intros i Hi. unfold u8. push_bits.
  destruct (decide (i < 8)); [|destruct (decide (i < 16)); [|destruct (decide (i < 24));
    [|destruct (decide (i < 32))]]].
  all: rewrite ?(Z.testbit_neg_r _ (i - 8)), ?(Z.testbit_neg_r _ (i - 16)),
    ?(Z.testbit_neg_r _ (i - 24)) by lia.
  all: rewrite ?mod_pow2_testbit, ?shiftr_testbit by lia.
  all: repeat match goal with |- context [?a <? ?b] => destruct (Z.ltb_spec a b); [lia || idtac|lia || idtac] end.
  all: rewrite ?Z.sub_add; simpl; rewrite ?xorb_false_r; try done.
  symmetry. apply (fits_testbit 32); [done|lia].
Qed.

Lemma crc_step_testbit31 c : fits 32 c → Z.testbit (crc_step c) 31 = Z.testbit c 0.
Proof.
  intros Hc. unfold crc_step. rewrite flag1_testbit.
  assert (E : Z.testbit (Z.shiftr c 1) 31 = false)
    by (rewrite shiftr_testbit by lia; by apply (fits_testbit 32)).
  destruct (Z.testbit c 0); [rewrite Z.lxor_spec|]; by rewrite E.
Qed.

Lemma crc_step_inj a b : fits 32 a → fits 32 b → crc_step a = crc_step b → a = b.
Proof.
  intros Ha Hb H.
  assert (H0 : Z.testbit a 0 = Z.testbit b 0)
    by (rewrite <-!crc_step_testbit31 by done; by rewrite H).
  assert (Hs : Z.shiftr a 1 = Z.shiftr b 1).
  { unfold crc_step in H. rewrite !flag1_testbit, H0 in H. destruct (Z.testbit b 0); [|done].
    apply (f_equal (Z.lxor 0xEDB88320)) in H.
    by rewrite <-!Z.lxor_assoc, Z.lxor_nilpotent, !Z.lxor_0_l in H. }
  apply Z.bits_inj'. intros i Hi. destruct (decide (i = 0)) as [->|]; [done|].
  replace i with (i - 1 + 1) by lia. rewrite <-!shiftr_testbit by lia. by rewrite Hs.
Qed.

Lemma crc_steps_inj n a b : fits 32 a → fits 32 b → crc_steps n a = crc_steps n b → a = b.
Proof.
  intros Ha Hb. induction n as [|n IH]; [done|]. simpl. intros H. apply IH.
  apply crc_step_inj; [by apply crc_steps_fits..|done].
Qed.

Lemma lxor_inj_l c a b : Z.lxor c a = Z.lxor c b → a = b.
Proof.
  intros H. apply (f_equal (Z.lxor c)) in H.
  by rewrite <-!Z.lxor_assoc, Z.lxor_nilpotent, !Z.lxor_0_l in H.
Qed.

Lemma crc32_ref_byte_inj_crc a c b : fits 32 a → fits 32 c → fits 8 b →
  crc32_ref_byte a b = crc32_ref_byte c b → a = c.
Proof.
  intros Ha Hc Hb H. assert (fits 32 b) by (by apply (fits_mono 8)).
  apply crc_steps_inj in H; [|apply fits_lxor; (lia || done)..].
  rewrite !(Z.lxor_comm _ b) in H. by apply lxor_inj_l in H.
Qed.

Lemma crc32_fold_inj data a c : Forall (fits 8) data → fits 32 a → fits 32 c →
  fold_left crc32_ref_byte data a = fold_left crc32_ref_byte data c → a = c.
Proof.
  intros H. revert a c. induction H as [|b data Hb Hd IH]; intros a c Ha Hc; simpl; [done|].
  intros E. assert (Hf : ∀ x, fits 32 x → fits 32 (crc32_ref_byte x b)).
  { intros. apply crc_steps_fits, fits_lxor; [lia|done|by apply (fits_mono 8)]. }
  apply (crc32_ref_byte_inj_crc a c b); auto.
Qed.

(** ** Properties *)

(** C32: The table-driven CRC equals the bitwise reference CRC-32 (reflected
    polynomial 0xEDB88320, initial value and final inversion all ones) on every
    byte string. *)
Theorem crc32_table_correct (data : list Z) (Hd : Forall (fits 8) data) :
  crc32_compute data = crc32_ref data.
Proof. by apply crc32_compute_ref. Qed.

(** The nine bytes "123456789", the standard check value of CRC-32. *)
Lemma crc32_table_correct_witness :
  crc32_ref [0x31; 0x32; 0x33; 0x34; 0x35; 0x36; 0x37; 0x38; 0x39] = 0xCBF43926.
Proof.
  rewrite <-crc32_table_correct.
  - vm_compute. reflexivity.
  - repeat constructor; vm_compute; congruence.
Defined.

(** A frame followed by its own CRC in transmission order (least significant
    byte first) always has the same CRC, the Ethernet residue 0x2144DF1C: this is
    the check a receiver performs on a frame and its FCS. *)
Theorem crc32_residue (data : list Z) (Hd : Forall (fits 8) data) :
  crc32_compute (data ++ le32 (crc32_compute data)) = 0x2144DF1C.
Proof.
  set (r := fold_left crc32_ref_byte data 0xFFFFFFFF).
  assert (Hr : fits 32 r) by (apply crc32_fold_fits; [done|by split]).
  assert (Hc : crc32_compute data = Z.lxor r 0xFFFFFFFF) by (by rewrite crc32_compute_ref).
  rewrite crc32_compute_ref.
  - unfold crc32_ref. rewrite fold_left_app. fold r.
    rewrite crc32_ref_le32, Hc by apply crc32_compute_fits.
    by rewrite <-Z.lxor_assoc, Z.lxor_nilpotent, Z.lxor_0_l.
  - apply Forall_app. split; [done|]. unfold le32. repeat constructor; apply fits_u8.
Qed.

Lemma crc32_residue_witness :
  crc32_compute ([0x31; 0x32; 0x33] ++ le32 (crc32_compute [0x31; 0x32; 0x33])) = 0x2144DF1C.
Proof. apply crc32_residue. repeat constructor; vm_compute; congruence. Defined.

(** The CRC detects every change of a single byte: two frames that differ in
    exactly one byte never have the same CRC. *)
Theorem crc32_detects_byte_change (pre post : list Z) (x y : Z)
  (Hpre : Forall (fits 8) pre) (Hpost : Forall (fits 8) post)
  (Hx : fits 8 x) (Hy : fits 8 y) (Hxy : x ≠ y) :
  crc32_compute (pre ++ x :: post) ≠ crc32_compute (pre ++ y :: post).
Proof.
  assert (Hf : ∀ z, fits 8 z → Forall (fits 8) (pre ++ z :: post))
    by (intros; apply Forall_app; auto).
  rewrite !crc32_compute_ref by auto. unfold crc32_ref.
  rewrite !(Z.lxor_comm _ 0xFFFFFFFF), !fold_left_app. intros H.
  apply lxor_inj_l in H. cbn [fold_left] in H.
  set (r := fold_left crc32_ref_byte pre 0xFFFFFFFF) in H.
  assert (Hr : fits 32 r) by (apply crc32_fold_fits; [done|by split]).
  assert (Hrz : ∀ z, fits 8 z → fits 32 (Z.lxor r z))
    by (intros; apply fits_lxor; [lia|done|by apply (fits_mono 8)]).
  apply crc32_fold_inj in H; [|done|by apply crc_steps_fits, Hrz..].
  apply crc_steps_inj in H; [|auto..]. by apply lxor_inj_l in H.
Qed.

Lemma crc32_detects_byte_change_witness :
  crc32_compute ([1; 2] ++ 3 :: [4]) ≠ crc32_compute ([1; 2] ++ 7 :: [4]).
Proof.
  apply crc32_detects_byte_change; repeat constructor; vm_compute; congruence.
Defined.
