(* ===== verification/Mac.v ===== *)
(** * MAC translation (arm/src/mac.cpp)

    The unit keeps two addresses, the Amiga's [fakemac] and the on-wire
    [realmac], and exchanges them in place in a frame: destination and source,
    the two hardware addresses of an ARP packet, and the client address of a
    DHCP message, whose UDP checksum it then recomputes.  A frame is the whole
    buffer that holds it; pointers are indices and every access is checked. *)

From S2P Require Import Prelude Types.

(** ** State *)

Record macs := Macs { mac_fakemac : list Z; mac_realmac : list Z }.

Definition mac_set_addresses (fake real : list Z) (m : macs) : macs := Macs fake real.
Definition mac_set_fakemac (fake : list Z) (m : macs) : macs := Macs fake (mac_realmac m).

(** ** Translation *)

(** Swap the MAC at index [i] if it matches either known MAC. *)
Definition dofakemac (m : macs) (packet : list Z) (i : Z) : res (bool * list Z) :=
  if bytes_eqb (mac_fakemac m) (mac_realmac m) then Ok (true, packet)
  else
    a ← bslice packet i 6;
    if bytes_eqb a (mac_fakemac m) then
      p ← bblit packet i (mac_realmac m); Ok (true, p)
    else if bytes_eqb a (mac_realmac m) then
      p ← bblit packet i (mac_fakemac m); Ok (true, p)
    else Ok (false, packet).

(** [((b[i] << 8) | b[i + 1])] *)
Definition be16 (b : list Z) (i : Z) : res Z :=
  h ← bget b i; l ← bget b (i + 1); Ok (Z.lor (Z.shiftl h 8) l).

(** The checksum loop: [n] 16-bit words from index [i], added to [sum]. *)
Fixpoint sum_words (n : nat) (b : list Z) (i sum : Z) : res Z :=
  match n with
  | O => Ok sum
  | S n => w ← be16 b i; sum_words n b (i + 2) (u32 (sum + w))
  end.

(** [while (sum >> 16) sum = (sum & 0xFFFF) + (sum >> 16);] *)
Fixpoint fold_sum (fuel : nat) (sum : Z) : res Z :=
  if Z.shiftr sum 16 =? 0 then Ok sum
  else match fuel with
       | O => Err OutOfFuel
       | S fuel => fold_sum fuel (u32 (Z.land sum 0xFFFF + Z.shiftr sum 16))
       end.

(** A 32-bit sum is folded by two iterations. *)
Definition fold_fuel : nat := 2.

(** The sum of the UDP datagram at index [u] with length field [len2], and of
    the pseudo-header taken from the IPv4 header at index 14. *)
Definition udp_sum (b : list Z) (u len2 : Z) : res Z :=
  sum ← sum_words (Z.to_nat (Z.land (len2 + 1) (Z.lnot 1) / 2)) b u 0;
  s1 ← be16 b (14 + 12);
  s2 ← be16 b (14 + 14);
  d1 ← be16 b (14 + 16);
  d2 ← be16 b (14 + 18);
  Ok (u32 (sum + s1 + s2 + d1 + d2 + 17 + len2)).

(** Recalculate the UDP checksum of the datagram at index [u]. *)
Definition udp_rechecksum (b : list Z) (u len2 : Z) : res (list Z) :=
  b ← bset b (u + 7) 0;
  b ← bset b (u + 6) 0;
  b ← bset b (u + len2) 0;
  sum ← udp_sum b u len2;
  sum ← fold_sum fold_fuel sum;
  let sum := u32 (Z.lnot sum) in
  let sum := if sum =? 0 then 0xffff else sum in
  b ← bset b (u + 6) (u8 (Z.shiftr sum 8));
  bset b (u + 7) (u8 sum).

Definition is_dhcp_port (p : Z) : bool := (p =? 67) || (p =? 68).

(** The IPv4/UDP branch, [u] the index of the UDP header. *)
Definition munge_udp (m : macs) (b : list Z) (u : Z) : res (list Z) :=
  sp ← be16 b u;
  dp ← be16 b (u + 2);
  len2 ← be16 b (u + 4);
  '(udpcrc, b) ← (if is_dhcp_port sp || is_dhcp_port dp
                  then dofakemac m b (u + 8 + 28) else Ok (false, b));
  if udpcrc : bool then
    c6 ← bget b (u + 6);
    c7 ← (if c6 =? 0 then bget b (u + 7) else Ok 0);
    if (c6 =? 0) && (c7 =? 0) then Ok b else udp_rechecksum b u len2
  else Ok b.

Definition munge_arp (m : macs) (b : list Z) : res (list Z) :=
  ht ← be16 b 14;
  hl ← (if ht =? 1 then bget b (14 + 4) else Ok 0);
  if (ht =? 1) && (hl =? 6) then
    '(_, b) ← dofakemac m b (14 + 8);
    '(_, b) ← dofakemac m b (14 + 8 + 6 + 4);
    Ok b
  else Ok b.

Definition munge_ipv4 (m : macs) (b : list Z) : res (list Z) :=
  proto ← bget b (14 + 9);
  v ← bget b 14;
  let ihl := Z.land v 0x0f in
  if proto =? 17 then munge_udp m b (14 + ihl * 4) else Ok b.

(** [mungepacket(packet, len)]: the returned length and the rewritten buffer. *)
Definition mungepacket (m : macs) (packet : list Z) (len : Z) : res (Z * list Z) :=
  if len <? 20 then Ok (0, packet)
  else if bytes_eqb (mac_fakemac m) (mac_realmac m) then Ok (len, packet)
  else
    type ← be16 packet 12;
    '(_, b) ← dofakemac m packet 0;
    '(_, b) ← dofakemac m b 6;
    b ← (if type =? 0x0806 then munge_arp m b
         else if type =? 0x0800 then munge_ipv4 m b
         else Ok b);
    Ok (len, b).

(** ** Specification *)

(** The exchange of the two addresses. *)
Definition swap_mac (m : macs) (a : list Z) : list Z :=
  if bytes_eqb a (mac_fakemac m) then mac_realmac m
  else if bytes_eqb a (mac_realmac m) then mac_fakemac m else a.

Definition swap_at (m : macs) (b : list Z) (i : nat) : list Z :=
  blit b i (swap_mac m (slice b i 6)).

(** Both addresses are six bytes, and they differ: the unit has work to do. *)
Record macs_ok (m : macs) : Prop := MacsOk {
  fake_len : length (mac_fakemac m) = 6%nat;
  real_len : length (mac_realmac m) = 6%nat;
  fake_bytes : Forall (fits 8) (mac_fakemac m);
  real_bytes : Forall (fits 8) (mac_realmac m) }.

Definition macs_differ (m : macs) : Prop := mac_fakemac m ≠ mac_realmac m.

(** The fields [mungepacket] inspects, read from the frame it is given. *)
Definition at8 (b : list Z) (i : Z) : Z := nth (Z.to_nat i) b 0.
Definition at16 (b : list Z) (i : Z) : Z := Z.lor (Z.shiftl (at8 b i) 8) (at8 b (i + 1)).
Definition udp_base (b : list Z) : Z := 14 + Z.land (at8 b 14) 0x0f * 4.
Definition is_arp (b : list Z) : bool := (at16 b 12 =? 0x0806) && (at16 b 14 =? 1) && (at8 b 18 =? 6).
Definition is_dhcp (b : list Z) : bool :=
  (at16 b 12 =? 0x0800) && (at8 b 23 =? 17) &&
  (is_dhcp_port (at16 b (udp_base b)) || is_dhcp_port (at16 b (udp_base b + 2))).
Definition udp_len (b : list Z) : Z := at16 b (udp_base b + 4).
Definition is_ours (m : macs) (a : list Z) : bool :=
  bytes_eqb a (mac_fakemac m) || bytes_eqb a (mac_realmac m).
Definition chaddr_at (b : list Z) : nat := Z.to_nat (udp_base b + 36).
(** The DHCP client address is translated and the checksum must be redone. *)
Definition recheck (m : macs) (b : list Z) : bool :=
  is_dhcp b && is_ours m (slice b (chaddr_at b) 6) &&
  negb ((at8 b (udp_base b + 6) =? 0) && (at8 b (udp_base b + 7) =? 0)).

(** The frame with every address translated, before any checksum update. *)
Definition swap_header (m : macs) (b : list Z) : list Z := swap_at m (swap_at m b 0) 6.
Definition swap_fields (m : macs) (b : list Z) : list Z :=
  if is_arp b then swap_at m (swap_at m (swap_header m b) 22) 32
  else if is_dhcp b then swap_at m (swap_header m b) (chaddr_at b)
  else swap_header m b.

(** The UDP checksum as RFC 768 defines it. *)
Module Rfc768.
(** One's complement addition of 16-bit words: the carry comes back in. *)
Definition add (x y : Z) : Z := if x + y <? 65536 then x + y else x + y - 65535.

(** The 16-bit words of a list of bytes, padded with a zero byte. *)
Fixpoint words (l : list Z) : list Z :=
  match l with
  | x :: y :: l => (x * 256 + y) :: words l
  | [x] => [x * 256]
  | [] => []
  end.

(** Source and destination address, zero and the protocol number, the UDP length. *)
Definition pseudo_header (frame : list Z) (len : Z) : list Z :=
  [at8 frame 26; at8 frame 27; at8 frame 28; at8 frame 29;
   at8 frame 30; at8 frame 31; at8 frame 32; at8 frame 33;
   0; 17; len / 256; len mod 256].

(** The [len] bytes of the datagram at [u], its checksum field taken as zero. *)
Definition datagram (frame : list Z) (u len : Z) : list Z :=
  blit (slice frame (Z.to_nat u) (Z.to_nat len)) 6 [0; 0].

(** What a sender puts in the checksum field: a computed zero is transmitted as all
    ones. *)
Definition checksum (frame : list Z) (u len : Z) : Z :=
  let c := 65535 - foldr add 0 (words (pseudo_header frame len ++ datagram frame u len)) in
  if c =? 0 then 65535 else c.
End Rfc768.

(** ** Lemmas: swapping *)

Section swapping.
Context (m : macs) (Hm : macs_ok m).

Lemma length_swap_mac a : length a = 6%nat → length (swap_mac m a) = 6%nat.
Proof. destruct Hm. unfold swap_mac. repeat case_match; done. Qed.

Lemma length_swap_at b i : (i + 6 ≤ length b)%nat → length (swap_at m b i) = length b.
Proof.
  intros Hi. unfold swap_at.
  assert (length (swap_mac m (slice b i 6)) = 6%nat) by (apply length_swap_mac, length_slice; lia).
  apply length_blit. lia.
Qed.

Lemma lookup_swap_at b i j : (i + 6 ≤ length b)%nat → (j < i ∨ i + 6 ≤ j)%nat →
  swap_at m b i !! j = b !! j.
Proof.
  intros Hi Hj. unfold swap_at.
  assert (length (swap_mac m (slice b i 6)) = 6%nat) by (apply length_swap_mac, length_slice; lia).
  rewrite lookup_blit by lia. by rewrite decide_False by lia.
Qed.

Lemma slice_swap_at_same b i : (i + 6 ≤ length b)%nat →
  slice (swap_at m b i) i 6 = swap_mac m (slice b i 6).
Proof.
  intros Hi. unfold swap_at.
  assert (Hl : length (swap_mac m (slice b i 6)) = 6%nat)
    by (apply length_swap_mac, length_slice; lia).
  rewrite <-Hl at 2. apply slice_blit_same. lia.
Qed.

Lemma slice_swap_at_ne b i j n : (i + 6 ≤ length b)%nat → (j + n ≤ i ∨ i + 6 ≤ j)%nat →
  slice (swap_at m b i) j n = slice b j n.
Proof.
  intros Hi Hj. unfold swap_at.
  assert (length (swap_mac m (slice b i 6)) = 6%nat) by (apply length_swap_mac, length_slice; lia).
  apply slice_blit_ne; lia.
Qed.

Lemma at8_swap_at b i j : (i + 6 ≤ length b)%nat → (Z.to_nat j < i ∨ i + 6 ≤ Z.to_nat j)%nat →
  at8 (swap_at m b i) j = at8 b j.
Proof. intros. unfold at8. rewrite !nth_lookup. by rewrite lookup_swap_at. Qed.

Lemma swap_at_comm b i j : (i + 6 ≤ length b)%nat → (j + 6 ≤ length b)%nat →
  (i + 6 ≤ j ∨ j + 6 ≤ i)%nat → swap_at m (swap_at m b i) j = swap_at m (swap_at m b j) i.
Proof.
  intros Hi Hj Hd. unfold swap_at at 1 3.
  rewrite !slice_swap_at_ne by lia. unfold swap_at.
  assert (∀ k, (k + 6 ≤ length b)%nat → length (swap_mac m (slice b k 6)) = 6%nat)
    by (intros; apply length_swap_mac, length_slice; lia).
  apply blit_comm; rewrite !H by lia; lia.
Qed.

Lemma swap_mac_ours a : is_ours m a = true → is_ours m (swap_mac m a) = true.
Proof.
  unfold is_ours, swap_mac. destruct (bytes_eqb_spec a (mac_fakemac m)) as [->|]; intros H.
  - destruct (bytes_eqb_spec (mac_realmac m) (mac_realmac m)); [apply orb_true_r|done].
  - simpl in H. rewrite H. destruct (bytes_eqb_spec (mac_fakemac m) (mac_fakemac m)); done.
Qed.

Lemma Forall_swap_at b i : (i + 6 ≤ length b)%nat → Forall (fits 8) b →
  Forall (fits 8) (swap_at m b i).
Proof.
  intros Hi Hb. unfold swap_at, blit. repeat apply Forall_app_2.
  - by apply Forall_take.
  - destruct Hm. unfold swap_mac. repeat case_match; auto. by apply Forall_take, Forall_drop.
  - by apply Forall_drop.
Qed.

(** Exchanging twice is the identity. *)
Lemma swap_mac_involutive (Hd : macs_differ m) a : swap_mac m (swap_mac m a) = a.
Proof.
  unfold macs_differ in *. unfold swap_mac at 2.
  destruct (bytes_eqb_spec a (mac_fakemac m)) as [->|];
    [|destruct (bytes_eqb_spec a (mac_realmac m)) as [->|]]; unfold swap_mac;
  repeat match goal with |- context [bytes_eqb ?x ?y] => destruct (bytes_eqb_spec x y) end;
    congruence.
Qed.

Lemma swap_at_involutive (Hd : macs_differ m) b i : (i + 6 ≤ length b)%nat →
  swap_at m (swap_at m b i) i = b.
Proof.
  intros Hi. unfold swap_at at 1. rewrite slice_swap_at_same, swap_mac_involutive by done.
  assert (Hl : length (slice b i 6) = 6%nat) by (apply length_slice; lia).
  assert (length (swap_mac m (slice b i 6)) = 6%nat) by (by apply length_swap_mac).
  unfold swap_at. rewrite blit_blit_same by lia. by apply blit_slice_id.
Qed.

Lemma dofakemac_swap (Hd : macs_differ m) b i : 0 ≤ i → i + 6 ≤ Z.of_nat (length b) →
  dofakemac m b i = Ok (is_ours m (slice b (Z.to_nat i) 6), swap_at m b (Z.to_nat i)).
Proof.
  intros Hi Hl. destruct Hm. unfold dofakemac, is_ours, swap_at, swap_mac.
  destruct (bytes_eqb_spec (mac_fakemac m) (mac_realmac m)); [done|].
  rewrite bslice_Ok, bind_Ok by lia. change (Z.to_nat 6) with 6%nat.
  repeat case_match; simpl; rewrite ?bblit_Ok, ?bind_Ok by lia; try done.
  by rewrite blit_slice_id by lia.
Qed.
End swapping.

Lemma bget_at8 b i : 0 ≤ i < Z.of_nat (length b) → bget b i = Ok (at8 b i).
Proof. apply bget_Ok. Qed.

Lemma be16_Ok b i : 0 ≤ i → i + 1 < Z.of_nat (length b) → be16 b i = Ok (at16 b i).
Proof. intros. unfold be16. by rewrite !bget_Ok by lia. Qed.

(** ** Lemmas: the shape of [mungepacket] *)

Section munge.
Context (m : macs) (Hm : macs_ok m) (Hd : macs_differ m).
Context (b : list Z) (Hb : (116 ≤ length b)%nat).

Lemma length_swap_header : length (swap_header m b) = length b.
Proof. unfold swap_header. rewrite !length_swap_at; rewrite ?length_swap_at; auto; lia. Qed.

Lemma lookup_swap_header j : (12 ≤ j)%nat → swap_header m b !! j = b !! j.
Proof.
  intros. unfold swap_header. rewrite !lookup_swap_at; rewrite ?length_swap_at; auto; lia.
Qed.

Lemma at8_swap_header j : 12 ≤ j → at8 (swap_header m b) j = at8 b j.
Proof. intros. unfold at8. rewrite !nth_lookup, lookup_swap_header by lia. done. Qed.

Lemma at16_swap_header j : 12 ≤ j → at16 (swap_header m b) j = at16 b j.
Proof. intros. unfold at16. by rewrite !at8_swap_header by lia. Qed.

Lemma slice_swap_header j n : (12 ≤ j)%nat → slice (swap_header m b) j n = slice b j n.
Proof.
  intros. unfold swap_header. rewrite !slice_swap_at_ne; rewrite ?length_swap_at; auto; lia.
Qed.

Lemma udp_base_range : 14 ≤ udp_base b ≤ 74.
Proof.
  unfold udp_base. change 0x0f with (Z.ones 4). rewrite Z.land_ones by lia.
  pose proof (Z.mod_pos_bound (at8 b 14) (2 ^ 4)). lia.
Qed.

Lemma munge_arp_spec :
  munge_arp m (swap_header m b)
  = Ok (if (at16 b 14 =? 1) && (at8 b 18 =? 6)
        then swap_at m (swap_at m (swap_header m b) 22) 32 else swap_header m b).
Proof.
  pose proof length_swap_header as Hl. unfold munge_arp.
  rewrite be16_Ok, bind_Ok, at16_swap_header by lia.
  destruct (at16 b 14 =? 1); simpl; [|done].
  rewrite bget_at8, bind_Ok, at8_swap_header by lia. change (14 + 4) with 18. destruct (at8 b 18 =? 6); simpl; [|done].
  rewrite dofakemac_swap, bind_Ok by (auto; lia).
  rewrite dofakemac_swap by (auto; rewrite ?length_swap_at by (auto; lia); lia). done.
Qed.

Lemma munge_udp_spec : at16 b 12 = 0x0800 → at8 b 23 = 17 →
  munge_udp m (swap_header m b) (udp_base b)
  = let b' := swap_at m (swap_header m b) (chaddr_at b) in
    if recheck m b then udp_rechecksum b' (udp_base b) (udp_len b)
    else Ok (if is_dhcp b then b' else swap_header m b).
Proof.
  intros H1 H2. pose proof length_swap_header as Hl. pose proof udp_base_range as Hu.
  unfold munge_udp. rewrite !be16_Ok, !bind_Ok, !at16_swap_header by lia.
  unfold recheck, is_dhcp. rewrite H1, H2, !Z.eqb_refl. simpl andb.
  destruct (is_dhcp_port _ || is_dhcp_port _); [|done].
  rewrite dofakemac_swap, bind_Ok by (auto; lia).
  replace (Z.to_nat (udp_base b + 8 + 28)) with (chaddr_at b) by (unfold chaddr_at; lia).
  assert (Hc : (12 ≤ chaddr_at b)%nat ∧ Z.of_nat (chaddr_at b) = udp_base b + 36)
    by (unfold chaddr_at; lia).
  rewrite slice_swap_header by lia. cbv zeta.
  set (b' := swap_at m (swap_header m b) (chaddr_at b)).
  assert (Hl' : length b' = length b) by (unfold b'; rewrite length_swap_at; auto; lia).
  destruct (is_ours m (slice b (chaddr_at b) 6)); [|done]. cbv beta iota. cbn [andb].
  rewrite (bget_at8 b' (udp_base b + 6)), bind_Ok by lia.
  assert (Ha : ∀ j, udp_base b ≤ j < udp_base b + 36 → at8 b' j = at8 b j).
  { intros j Hj. unfold b'. rewrite at8_swap_at by (auto; lia). apply at8_swap_header. lia. }
  rewrite Ha by lia. destruct (at8 b (udp_base b + 6) =? 0); cbn [andb negb].
  - rewrite bget_at8, bind_Ok, Ha by lia.
    by destruct (at8 b (udp_base b + 7) =? 0).
  - done.
Qed.

(** [mungepacket] on a frame buffer: translate every address field, then redo
    the UDP checksum exactly when a DHCP client address was translated. *)
Lemma munge_spec len : 20 ≤ len →
  mungepacket m b len
  = if recheck m b
    then b' ← udp_rechecksum (swap_fields m b) (udp_base b) (udp_len b); Ok (len, b')
    else Ok (len, swap_fields m b).
Proof.
  intros Hlen. pose proof length_swap_header as Hl. unfold mungepacket.
  destruct (Z.ltb_spec len 20); [lia|].
  destruct (bytes_eqb_spec (mac_fakemac m) (mac_realmac m)); [done|].
  rewrite be16_Ok, bind_Ok by lia.
  rewrite dofakemac_swap, bind_Ok by (auto; lia).
  rewrite dofakemac_swap, bind_Ok by (auto; rewrite ?length_swap_at by (auto; lia); lia).
  change (swap_at m (swap_at m b (Z.to_nat 0)) (Z.to_nat 6)) with (swap_header m b).
  destruct (Z.eqb_spec (at16 b 12) 0x0806) as [E1|E1].
  - rewrite munge_arp_spec, bind_Ok. unfold recheck, swap_fields, is_dhcp, is_arp.
    rewrite E1. done.
  - destruct (Z.eqb_spec (at16 b 12) 0x0800) as [E2|E2].
    + unfold munge_ipv4. rewrite !bget_at8, !bind_Ok, !at8_swap_header by lia.
      change (14 + 9) with 23. fold (udp_base b).
      destruct (Z.eqb_spec (at8 b 23) 17) as [E3|E3].
      * rewrite munge_udp_spec by done. cbv zeta. unfold swap_fields, is_arp.
        rewrite E2. simpl andb. destruct (recheck m b) eqn:Er; [|done].
        unfold recheck in Er. destruct (is_dhcp b); [done|discriminate].
      * rewrite bind_Ok. unfold recheck, swap_fields, is_arp, is_dhcp. rewrite E2.
        destruct (Z.eqb_spec (at8 b 23) 17); [done|]. simpl. done.
    + rewrite bind_Ok. unfold recheck, swap_fields, is_arp, is_dhcp.
      destruct (Z.eqb_spec (at16 b 12) 0x0806), (Z.eqb_spec (at16 b 12) 0x0800); done.
Qed.
End munge.

(** ** Lemmas: the one's-complement checksum *)

(** The sum of [n] words from index [i], without wrap-around. *)
Fixpoint wsum (n : nat) (b : list Z) (i : Z) : Z :=
  match n with O => 0 | S n => at16 b i + wsum n b (i + 2) end.

Definition udp_words (len2 : Z) : nat := Z.to_nat (Z.land (len2 + 1) (Z.lnot 1) / 2).

Definition udp_total (b : list Z) (u len2 : Z) : Z :=
  wsum (udp_words len2) b u + at16 b 26 + at16 b 28 + at16 b 30 + at16 b 32 + 17 + len2.

Lemma udp_words_eq len2 : 0 ≤ len2 → udp_words len2 = Z.to_nat ((len2 + 1) / 2).
Proof.
  intros H. unfold udp_words. f_equal.
  replace (Z.land (len2 + 1) (Z.lnot 1)) with (2 * ((len2 + 1) / 2)); [by rewrite Z.mul_comm, Z.div_mul|].
  change 2 with (2 ^ 1) at 2. rewrite <-Z.shiftr_div_pow2, Z.mul_comm by lia.
  change 2 with (2 ^ 1). rewrite <-Z.shiftl_mul_pow2 by lia.
  apply Z.bits_inj'. intros i Hi. push_bits. destruct (decide (i = 0)) as [->|].
  - rewrite Z.testbit_neg_r by lia. by rewrite andb_false_r.
  - rewrite shiftr_testbit by lia. rewrite Z.sub_add.
    rewrite (fits_testbit 1 1 i); [by rewrite andb_true_r|by split|lia].
Qed.

Lemma at8_fits b i : Forall (fits 8) b → fits 8 (at8 b i).
Proof.
  intros Hb. unfold at8. rewrite nth_lookup.
  destruct (b !! Z.to_nat i) eqn:E; simpl; [by apply (Forall_lookup_1 _ _ _ _ Hb E)|by split].
Qed.

Lemma at16_bytes b i : Forall (fits 8) b → at16 b i = at8 b i * 256 + at8 b (i + 1).
Proof. intros Hb. apply word_of_bytes; by apply at8_fits. Qed.

Lemma at16_range b i : Forall (fits 8) b → 0 ≤ at16 b i < 65536.
Proof.
  intros Hb. rewrite at16_bytes by done.
  pose proof (at8_fits b i Hb). pose proof (at8_fits b (i + 1) Hb). unfold fits in *. lia.
Qed.

Lemma wsum_range n b i : Forall (fits 8) b → 0 ≤ wsum n b i ≤ Z.of_nat n * 65535.
Proof.
  intros Hb. revert i. induction n as [|n IH]; intros i; simpl; [lia|].
  pose proof (at16_range b i Hb). specialize (IH (i + 2)). lia.
Qed.

Lemma sum_words_wsum n b i s : Forall (fits 8) b → 0 ≤ i → i + 2 * Z.of_nat n ≤ Z.of_nat (length b) →
  0 ≤ s → s + wsum n b i < 2 ^ 32 → sum_words n b i s = Ok (s + wsum n b i).
Proof.
  intros Hb. revert i s. induction n as [|n IH]; intros i s Hi Hn Hs Hsum; simpl in *;
    [by rewrite Z.add_0_r|].
  pose proof (at16_range b i Hb). pose proof (wsum_range n b (i + 2) Hb).
  rewrite be16_Ok, bind_Ok by lia. rewrite u32_small by (unfold fits; lia).
  rewrite IH by lia. f_equal. lia.
Qed.

Lemma udp_sum_total b u len2 : Forall (fits 8) b → (116 ≤ length b)%nat → 0 ≤ u →
  0 ≤ len2 < 65536 → u + len2 < Z.of_nat (length b) → udp_sum b u len2 = Ok (udp_total b u len2).
Proof.
  intros Hb Hl Hu Hlen Hin. unfold udp_sum, udp_total. fold (udp_words len2).
  pose proof (udp_words_eq len2 ltac:(lia)) as Hn.
  assert (Hdiv : (len2 + 1) / 2 ≤ 32768 ∧ 2 * ((len2 + 1) / 2) ≤ len2 + 1 ∧ 0 ≤ (len2 + 1) / 2).
  { pose proof (Z.div_mod (len2 + 1) 2). pose proof (Z.mod_pos_bound (len2 + 1) 2). lia. }
  pose proof (wsum_range (udp_words len2) b u Hb).
  pose proof (at16_range b 26 Hb). pose proof (at16_range b 28 Hb).
  pose proof (at16_range b 30 Hb). pose proof (at16_range b 32 Hb).
  rewrite sum_words_wsum by (done || lia). rewrite !be16_Ok, !bind_Ok by lia.
  change (14 + 12) with 26. change (14 + 14) with 28. change (14 + 16) with 30.
  change (14 + 18) with 32. rewrite Z.add_0_l. rewrite u32_small by (unfold fits; lia). done.
Qed.

Lemma fold_sum_step s : 0 ≤ s < 2 ^ 32 →
  u32 (Z.land s 0xFFFF + Z.shiftr s 16) = s mod 65536 + s / 65536.
Proof.
  intros Hs. change 0xFFFF with (Z.ones 16). rewrite Z.land_ones, Z.shiftr_div_pow2 by lia.
  change (2 ^ 16) with 65536. apply u32_small. unfold fits.
  pose proof (Z.mod_pos_bound s 65536). pose proof (Z.div_mod s 65536). nia.
Qed.

(** Folding a 32-bit sum ends within two iterations, in a 16-bit value with the
    same residue modulo 65535, and is zero only for zero. *)
Lemma fold_sum_spec s : 0 ≤ s < 2 ^ 32 →
  ∃ f, fold_sum fold_fuel s = Ok f ∧ 0 ≤ f < 65536 ∧ f mod 65535 = s mod 65535
       ∧ (0 < s → 0 < f).
Proof.
  intros Hs.
  assert (Hstep : ∀ x, 0 ≤ x → (x mod 65536 + x / 65536) mod 65535 = x mod 65535).
  { intros x Hx. rewrite (Z.div_mod x 65536) at 3 by lia.
    replace (65536 * (x / 65536) + x mod 65536)
      with (x mod 65536 + x / 65536 + (x / 65536) * 65535) by lia.
    by rewrite Z.mod_add. }
  assert (Hbase : ∀ x, 0 ≤ x → (Z.shiftr x 16 =? 0) = (x <? 65536)).
  { intros x Hx. rewrite Z.shiftr_div_pow2 by lia. change (2 ^ 16) with 65536.
    pose proof (Z.div_mod x 65536). pose proof (Z.mod_pos_bound x 65536).
    destruct (Z.eqb_spec (x / 65536) 0), (Z.ltb_spec x 65536); try done; lia. }
  pose proof (Z.div_mod s 65536). pose proof (Z.mod_pos_bound s 65536).
  unfold fold_fuel. cbn [fold_sum]. rewrite Hbase by lia.
  destruct (Z.ltb_spec s 65536); [by exists s; split_and!; try lia|].
  rewrite fold_sum_step by lia. set (s1 := s mod 65536 + s / 65536).
  pose proof (Z.div_mod s1 65536). pose proof (Z.mod_pos_bound s1 65536).
  assert (0 < s1 < 131072) by nia.
  rewrite Hbase by lia. destruct (Z.ltb_spec s1 65536).
  { exists s1. split_and!; try lia. done. by apply Hstep; lia. }
  rewrite fold_sum_step by lia. set (s2 := s1 mod 65536 + s1 / 65536).
  assert (s1 / 65536 = 1) by lia. rewrite Hbase by lia.
  destruct (Z.ltb_spec s2 65536); [|lia].
  exists s2. split_and!; try lia; [done|]. unfold s2. rewrite Hstep by lia. apply Hstep. lia.
Qed.

Lemma at8_insert b i j v : 0 ≤ i < Z.of_nat (length b) → 0 ≤ j →
  at8 (<[Z.to_nat i := v]> b) j = if decide (i = j) then v else at8 b j.
Proof.
  intros Hi Hj. unfold at8. rewrite nth_insert by lia.
  destruct (decide (i = j)); [by rewrite decide_True by lia|by rewrite decide_False by lia].
Qed.

Lemma wsum_ext n b b' i : (∀ j, i ≤ j → at8 b' j = at8 b j) → wsum n b' i = wsum n b i.
Proof.
  revert i. induction n as [|n IH]; intros i H; simpl; [done|].
  unfold at16. rewrite !H by lia. rewrite IH; [done|]. intros. apply H. lia.
Qed.

(** Replacing word number [k] changes the sum by the difference of the words. *)
Lemma wsum_update n k b b' i : (k < n)%nat →
  (∀ j, i ≤ j → j ≠ i + 2 * Z.of_nat k → j ≠ i + 2 * Z.of_nat k + 1 → at8 b' j = at8 b j) →
  wsum n b' i = wsum n b i - at16 b (i + 2 * Z.of_nat k) + at16 b' (i + 2 * Z.of_nat k).
Proof.
  revert k i. induction n as [|n IH]; intros [|k] i Hk H; simpl; [lia..| |].
  - rewrite Z.add_0_r in *. rewrite (wsum_ext n b b' (i + 2)); [lia|]. intros. apply H; lia.
  - rewrite (IH k (i + 2)); [|lia|intros; apply H; lia].
    replace (i + 2 + 2 * Z.of_nat k) with (i + 2 * Z.of_nat (S k)) by lia.
    assert (at16 b' i = at16 b i) as -> by (unfold at16; rewrite !H by lia; done). lia.
Qed.

(** The datagram with its checksum field and the pad byte cleared. *)
Definition udp_cleared (b : list Z) (u len2 : Z) : list Z :=
  <[Z.to_nat (u + len2) := 0]> (<[Z.to_nat (u + 6) := 0]> (<[Z.to_nat (u + 7) := 0]> b)).

(** The datagram with checksum [c] stored big-endian. *)
Definition udp_stored (b : list Z) (u len2 c : Z) : list Z :=
  <[Z.to_nat (u + 7) := u8 c]> (<[Z.to_nat (u + 6) := u8 (Z.shiftr c 8)]> (udp_cleared b u len2)).

Section rechecksum.
Context (b : list Z) (u len2 : Z).
Context (Hb : Forall (fits 8) b) (Hl : (116 ≤ length b)%nat) (Hu : 14 ≤ u ≤ 74).
Context (Hlen : 0 ≤ len2 < 65536).

Lemma length_udp_cleared : length (udp_cleared b u len2) = length b.
Proof. unfold udp_cleared. by rewrite !length_insert. Qed.

Lemma length_udp_stored c : length (udp_stored b u len2 c) = length b.
Proof. unfold udp_stored. by rewrite !length_insert, length_udp_cleared. Qed.

Lemma Forall_udp_cleared : Forall (fits 8) (udp_cleared b u len2).
Proof. unfold udp_cleared. repeat apply Forall_insert; try done; by split. Qed.

Lemma Forall_udp_stored c : Forall (fits 8) (udp_stored b u len2 c).
Proof.
  unfold udp_stored. do 2 (apply Forall_insert; [|apply fits_u8]). apply Forall_udp_cleared.
Qed.

Lemma udp_rechecksum_Err : Z.of_nat (length b) ≤ u + len2 →
  udp_rechecksum b u len2 = Err OutOfBounds.
Proof.
  intros Hout. unfold udp_rechecksum.
  rewrite (bset_Ok b), bind_Ok by lia.
  rewrite bset_Ok, bind_Ok by (rewrite length_insert; lia).
  rewrite bset_Err; [done|]. rewrite !length_insert. lia.
Qed.

Context (Hin : u + len2 < Z.of_nat (length b)).

Lemma udp_total_range b' : Forall (fits 8) b' → 0 < udp_total b' u len2 < 2 ^ 32 - 2 ^ 16.
Proof.
  intros Hb'. unfold udp_total.
  pose proof (wsum_range (udp_words len2) b' u Hb') as Hw.
  rewrite (udp_words_eq len2) in * by lia.
  pose proof (at16_range b' 26 Hb'). pose proof (at16_range b' 28 Hb').
  pose proof (at16_range b' 30 Hb'). pose proof (at16_range b' 32 Hb').
  pose proof (Z.div_mod (len2 + 1) 2). pose proof (Z.mod_pos_bound (len2 + 1) 2). lia.
Qed.

(** The recomputation always succeeds on a datagram inside the buffer, and
    stores the one's complement of the folded sum; the zero test never fires. *)
Lemma udp_rechecksum_spec : ∃ f,
  fold_sum fold_fuel (udp_total (udp_cleared b u len2) u len2) = Ok f
  ∧ 0 ≤ f < 65536
  ∧ udp_rechecksum b u len2 = Ok (udp_stored b u len2 (65535 - f)).
Proof.
  pose proof length_udp_cleared as Hc. pose proof Forall_udp_cleared as Hcb.
  pose proof (udp_total_range _ Hcb) as Ht.
  destruct (fold_sum_spec (udp_total (udp_cleared b u len2) u len2)) as (f & Hf & Hfr & _); [lia|].
  exists f. split_and!; [done|lia|lia|].
  unfold udp_rechecksum. rewrite (bset_Ok b), bind_Ok by lia.
  rewrite bset_Ok, bind_Ok by (rewrite length_insert; lia).
  rewrite bset_Ok, bind_Ok by (rewrite !length_insert; lia). fold (udp_cleared b u len2).
  rewrite udp_sum_total, bind_Ok by (done || lia). rewrite Hf, bind_Ok. cbv zeta.
  assert (Hn : u32 (Z.lnot f) = 2 ^ 32 - 65536 + (65535 - f)).
  { unfold u32. rewrite <-(Z.mod_small (2 ^ 32 - 65536 + (65535 - f)) (2 ^ 32)) by lia.
    rewrite <-(Z.mod_add (Z.lnot f) 1 (2 ^ 32)) by lia. f_equal.
    pose proof (Z.add_lnot_diag f). lia. }
  rewrite Hn. destruct (Z.eqb_spec (2 ^ 32 - 65536 + (65535 - f)) 0); [lia|].
  rewrite bset_Ok, bind_Ok by lia. rewrite bset_Ok by (rewrite length_insert; lia).
  unfold udp_stored. do 2 f_equal.
  - unfold u8. rewrite <-Z.add_mod_idemp_l by lia. by rewrite Z.add_0_l.
  - f_equal. unfold u8. rewrite !Z.shiftr_div_pow2 by lia. change (2 ^ 8) with 256.
    change (2 ^ 32 - 65536) with (16776960 * 256). rewrite Z.add_comm, Z.div_add by lia.
    rewrite <-Z.add_mod_idemp_r by lia. change (16776960 mod 256) with 0. by rewrite Z.add_0_r.
Qed.

Lemma at8_udp_stored c j : 0 ≤ j → j ≠ u + 6 → j ≠ u + 7 → j ≠ u + len2 →
  at8 (udp_stored b u len2 c) j = at8 b j.
Proof.
  intros. pose proof length_udp_cleared. unfold udp_stored.
  rewrite !at8_insert by (rewrite ?length_insert; lia). rewrite !decide_False by lia.
  unfold udp_cleared. rewrite !at8_insert by (rewrite ?length_insert; lia).
  by rewrite !decide_False by lia.
Qed.

End rechecksum.

(** ** Lemmas: the checksum of RFC 768 *)

Definition zsum (l : list Z) : Z := foldr Z.add 0 l.

(** The one's complement sum is the sum modulo 65535, and zero only for zero. *)
Lemma rfc_sum_spec l : Forall (fits 16) l →
  let s := foldr Rfc768.add 0 l in
  0 ≤ s < 65536 ∧ s mod 65535 = zsum l mod 65535 ∧ (0 < zsum l → 0 < s) ∧ 0 ≤ zsum l.
Proof.
  induction 1 as [|x l Hx Hl IH]; [done|]. cbv zeta in *. cbn [foldr zsum]. fold (zsum l).
  set (s := foldr Rfc768.add 0 l) in *. destruct IH as (Hs & Hm & Hp & Hz). destruct Hx as [Hx1 Hx2].
  change (2 ^ 16) with 65536 in Hx2. unfold Rfc768.add.
  assert (E : (x + s) mod 65535 = (x + zsum l) mod 65535) by (rewrite Zplus_mod, Hm, <-Zplus_mod; done).
  destruct (Z.ltb_spec (x + s) 65536); split_and!; try lia.
  rewrite <-E, <-(Z.mod_add (x + s - 65535) 1 65535) by lia. f_equal. lia.
Qed.

(** Two sums in range with the same residue, neither of them zero. *)
Lemma residue_unique x y : 0 < x < 65536 → 0 < y < 65536 → x mod 65535 = y mod 65535 → x = y.
Proof.
  intros Hx Hy E. assert (C : ∀ z, 0 < z < 65536 → z = 65535 ∧ z mod 65535 = 0 ∨ z mod 65535 = z).
  { intros z Hz. destruct (decide (z = 65535)) as [->|]; [by left|right; apply Z.mod_small; lia]. }
  destruct (C x Hx) as [[-> E1]|E1], (C y Hy) as [[-> E2]|E2]; lia.
Qed.

Lemma slice_two b i n : (i + 2 ≤ length b)%nat →
  slice b i (S (S n)) = at8 b (Z.of_nat i) :: at8 b (Z.of_nat i + 1) :: slice b (S (S i)) n.
Proof.
  intros Hi. unfold slice, at8. rewrite (drop_S b (nth i b 0) i), (drop_S b (nth (S i) b 0) (S i)).
  - cbn. rewrite Nat2Z.id. by replace (Z.to_nat (Z.of_nat i + 1)) with (S i) by lia.
  - rewrite nth_lookup. by destruct (lookup_lt_is_Some_2 b (S i) ltac:(lia)) as [x ->].
  - rewrite nth_lookup. by destruct (lookup_lt_is_Some_2 b i ltac:(lia)) as [x ->].
Qed.

(** The words of a stretch of the buffer, with a zero byte behind it if it is odd. *)
Lemma words_wsum b (Hb : Forall (fits 8) b) k odd i :
  (i + 2 * k + (if odd : bool then 1 else 0) < length b)%nat →
  (odd = true → at8 b (Z.of_nat i + 2 * Z.of_nat k + 1) = 0) →
  zsum (Rfc768.words (slice b i (2 * k + (if odd then 1 else 0))))
  = wsum (k + (if odd then 1 else 0)) b (Z.of_nat i).
Proof.
  revert i. induction k as [|k IH]; intros i Hi Ho.
  - destruct odd; [|done]. specialize (Ho eq_refl). cbn [Nat.mul Nat.add wsum].
    unfold slice. rewrite (drop_S b (nth i b 0) i);
      [|rewrite nth_lookup; by destruct (lookup_lt_is_Some_2 b i ltac:(lia)) as [x ->]].
    cbn. rewrite take_0. cbn. rewrite at16_bytes by done. replace (Z.of_nat i + 2 * Z.of_nat 0 + 1) with (Z.of_nat i + 1) in Ho by lia.
    rewrite Ho. unfold at8. rewrite Nat2Z.id. lia.
  - replace (2 * S k + (if odd then 1 else 0))%nat with (S (S (2 * k + (if odd then 1 else 0)))) by lia.
    rewrite slice_two by lia. cbn [Rfc768.words zsum foldr Nat.add wsum]. fold (zsum (Rfc768.words (slice b (S (S i)) (2 * k + (if odd then 1 else 0))))).
    rewrite IH by (try lia; intros E; rewrite <-(Ho E); f_equal; lia).
    rewrite at16_bytes by done. by replace (Z.of_nat (S (S i))) with (Z.of_nat i + 2) by lia.
Qed.

Lemma fits_words l : Forall (fits 8) l → Forall (fits 16) (Rfc768.words l).
Proof.
  assert (L : ∀ n l, (length l ≤ n)%nat → Forall (fits 8) l → Forall (fits 16) (Rfc768.words l)); [|by eauto].
  clear l. unfold fits. induction n as [|n IH]; intros [|x [|y l]] Hn Hl; cbn in *; try lia; try done.
  - constructor; [|done]. inversion_clear Hl. lia.
  - inversion_clear Hl as [|? ? Hx Hl']. inversion_clear Hl' as [|? ? Hy Hl].
    constructor; [lia|]. apply IH; [lia|done].
Qed.

Section rfc.
Context (b : list Z) (u len : Z).
Context (Hb : Forall (fits 8) b) (Hl : (116 ≤ length b)%nat) (Hu : 34 ≤ u ≤ 74).
Context (Hlen : 8 ≤ len < 65536) (Hin : u + len < Z.of_nat (length b)).

(** The datagram that was summed is the one that is sent. *)
Lemma datagram_stored c : Rfc768.datagram (udp_stored b u len c) u len
  = slice (udp_cleared b u len) (Z.to_nat u) (Z.to_nat len).
Proof.
  pose proof (length_udp_stored b u len c) as L1. pose proof (length_udp_cleared b u len) as L2.
  unfold Rfc768.datagram. apply list_eq. intros j.
  rewrite lookup_blit by (rewrite length_slice; cbn; lia). rewrite !lookup_slice.
  unfold udp_stored. cbn [length].
  destruct (decide (6 ≤ j < 6 + 2)%nat) as [Hj|Hj].
  - rewrite decide_True by lia. unfold udp_cleared.
    assert (j = 6%nat ∨ j = 7%nat) as [->| ->] by lia; cbn [Nat.sub lookup list_lookup].
    + rewrite list_lookup_insert_ne by lia. replace (Z.to_nat u + 6)%nat with (Z.to_nat (u + 6)) by lia.
      by rewrite list_lookup_insert_eq by (rewrite length_insert; lia).
    + rewrite !list_lookup_insert_ne by lia. replace (Z.to_nat u + 7)%nat with (Z.to_nat (u + 7)) by lia.
      by rewrite list_lookup_insert_eq by lia.
  - case_decide; [|done]. by rewrite !list_lookup_insert_ne by lia.
Qed.

Lemma pseudo_header_stored c : Rfc768.pseudo_header (udp_stored b u len c) len
  = Rfc768.pseudo_header (udp_cleared b u len) len.
Proof.
  assert (A : ∀ j, 26 ≤ j ≤ 33 → at8 (udp_stored b u len c) j = at8 (udp_cleared b u len) j).
  { intros j Hj. pose proof (length_udp_cleared b u len). unfold udp_stored.
    rewrite !at8_insert by (rewrite ?length_insert; lia). by rewrite !decide_False by lia. }
  unfold Rfc768.pseudo_header. by rewrite !A by lia.
Qed.

Lemma rfc_words_total :
  zsum (Rfc768.words (Rfc768.pseudo_header (udp_cleared b u len) len
    ++ slice (udp_cleared b u len) (Z.to_nat u) (Z.to_nat len))) = udp_total (udp_cleared b u len) u len.
Proof.
  pose proof (Forall_udp_cleared b u len Hb) as Hc. pose proof (length_udp_cleared b u len) as L.
  unfold Rfc768.pseudo_header, udp_total. cbn [app Rfc768.words zsum foldr].
  fold (zsum (Rfc768.words (slice (udp_cleared b u len) (Z.to_nat u) (Z.to_nat len)))).
  rewrite !at16_bytes by done. cbn [Z.add Pos.add Pos.succ].
  set (odd := Z.odd len). set (k := Z.to_nat (len / 2)).
  assert (Hk : len = 2 * Z.of_nat k + (if odd then 1 else 0)).
  { unfold k, odd. rewrite Z2Nat.id by (apply Z.div_pos; lia).
    pose proof (Zmod_odd len) as M. pose proof (Z.div_mod len 2). destruct (Z.odd len); lia. }
  replace (Z.to_nat len) with (2 * k + (if odd then 1 else 0))%nat by (destruct odd; lia).
  rewrite words_wsum; [|done| |].
  - rewrite udp_words_eq by lia. rewrite Z2Nat.id by lia.
    replace (Z.to_nat ((len + 1) / 2)) with (k + (if odd then 1 else 0))%nat.
    2:{ rewrite Hk. destruct odd.
        - replace (2 * Z.of_nat k + 1 + 1) with ((Z.of_nat k + 1) * 2) by lia. rewrite Z.div_mul by lia. lia.
        - replace (2 * Z.of_nat k + 0 + 1) with (1 + Z.of_nat k * 2) by lia. rewrite Z.div_add by lia.
          change (1 / 2) with 0. lia. }
    pose proof (Z.div_mod len 256 ltac:(lia)).
    change (26 + 1) with 27. change (28 + 1) with 29. change (30 + 1) with 31. change (32 + 1) with 33. lia.
  - rewrite L. destruct odd; lia.
  - intros ->. replace (Z.of_nat (Z.to_nat u) + 2 * Z.of_nat k + 1) with (u + len) by lia.
    unfold udp_cleared. rewrite at8_insert by (rewrite ?length_insert; lia). by rewrite decide_True.
Qed.

(** The stored complement is the checksum of RFC 768, except that zero stays zero. *)
Lemma udp_stored_rfc f : fold_sum fold_fuel (udp_total (udp_cleared b u len) u len) = Ok f → 0 ≤ f < 65536 →
  let b' := udp_stored b u len (65535 - f) in
  at16 b' (u + 6) = if Rfc768.checksum b' u len =? 65535 then 0 else Rfc768.checksum b' u len.
Proof.
  intros Hf Hfr b'. pose proof (Forall_udp_cleared b u len Hb) as Hc. pose proof (length_udp_cleared b u len) as L.
  assert (Hs : at16 b' (u + 6) = 65535 - f).
  { rewrite at16_bytes by (apply Forall_udp_stored, Hb). unfold b', udp_stored.
    rewrite !at8_insert by (rewrite ?length_insert; lia).
    rewrite !decide_False, !decide_True by lia. apply bytes_of_word. unfold fits. lia. }
  assert (Hp : Rfc768.pseudo_header b' len ++ Rfc768.datagram b' u len
    = Rfc768.pseudo_header (udp_cleared b u len) len ++ slice (udp_cleared b u len) (Z.to_nat u) (Z.to_nat len))
    by (by rewrite <-(pseudo_header_stored (65535 - f)), <-(datagram_stored (65535 - f))).
  unfold Rfc768.checksum. rewrite Hp. clear Hp. set (l := Rfc768.words _).
  assert (Hl16 : Forall (fits 16) l).
  { apply fits_words, Forall_app. split; [|by apply Forall_take, Forall_drop].
    unfold Rfc768.pseudo_header. assert (fits 8 (len / 256) ∧ fits 8 (len mod 256)) as [].
    { unfold fits. change (2 ^ 8) with 256. pose proof (Z.mod_pos_bound len 256). split; [|lia].
      split; [apply Z.div_pos; lia|apply Z.div_lt_upper_bound; lia]. }
    repeat (constructor; [first [by apply at8_fits|done|by split]|]). constructor. }
  destruct (rfc_sum_spec l Hl16) as (S1 & S2 & S3 & _). cbv zeta in *. unfold l in S2, S3. rewrite rfc_words_total in S2, S3.
  fold l in S1, S2, S3. set (s := foldr Rfc768.add 0 l) in *.
  assert (Ht : 0 < udp_total (udp_cleared b u len) u len < 2 ^ 32 - 2 ^ 16) by (apply (udp_total_range b); [exact Hl|lia|exact Hc]).
  destruct (fold_sum_spec (udp_total (udp_cleared b u len) u len)) as (f' & Hf' & _ & Hfm & Hfp); [lia|].
  rewrite Hf in Hf'. injection Hf' as <-.
  assert (E : s = f) by (apply residue_unique; [lia|lia|congruence]). rewrite E, Hs.
  destruct (Z.eqb_spec (65535 - f) 0), (Z.eqb_spec 65535 65535); try lia.
  destruct (Z.eqb_spec (65535 - f) 65535); lia.
Qed.
End rfc.

(** ** Lemmas: what translation leaves alone *)

Section fields.
Context (m : macs) (Hm : macs_ok m).
Context (b : list Z) (Hb : (116 ≤ length b)%nat).

Lemma chaddr_at_range : (50 ≤ chaddr_at b)%nat ∧ (chaddr_at b + 6 ≤ 116)%nat
  ∧ Z.of_nat (chaddr_at b) = udp_base b + 36.
Proof. pose proof (udp_base_range b). unfold chaddr_at. lia. Qed.

Lemma length_swap_fields : length (swap_fields m b) = length b.
Proof.
  pose proof chaddr_at_range. pose proof (length_swap_header m Hm b Hb).
  unfold swap_fields. repeat case_match; rewrite ?length_swap_at;
    rewrite ?length_swap_at; auto; lia.
Qed.

Lemma Forall_swap_fields : Forall (fits 8) b → Forall (fits 8) (swap_fields m b).
Proof.
  intros H. pose proof chaddr_at_range. pose proof (length_swap_header m Hm b Hb).
  assert (Forall (fits 8) (swap_header m b)).
  { unfold swap_header. repeat apply Forall_swap_at; rewrite ?length_swap_at; auto; lia. }
  unfold swap_fields. repeat case_match; repeat apply Forall_swap_at;
    rewrite ?length_swap_at; auto; lia.
Qed.

(** The bytes translation may change. *)
Definition addr_byte (j : Z) : Prop :=
  0 ≤ j < 12 ∨ (is_arp b = true ∧ (22 ≤ j < 28 ∨ 32 ≤ j < 38))
  ∨ (is_arp b = false ∧ is_dhcp b = true ∧ udp_base b + 36 ≤ j < udp_base b + 42).

Lemma at8_swap_fields j : 0 ≤ j → ¬ addr_byte j → at8 (swap_fields m b) j = at8 b j.
Proof.
  unfold addr_byte. intros Hj Hn. pose proof chaddr_at_range.
  pose proof (length_swap_header m Hm b Hb). unfold swap_fields.
  destruct (is_arp b); [|destruct (is_dhcp b)];
    rewrite ?at8_swap_at by (rewrite ?length_swap_at; auto; lia);
    apply at8_swap_header; auto; lia.
Qed.

Lemma slice_swap_fields_header : slice (swap_fields m b) 0 12 = slice (swap_header m b) 0 12.
Proof.
  pose proof chaddr_at_range. pose proof (length_swap_header m Hm b Hb). unfold swap_fields.
  repeat case_match; rewrite ?slice_swap_at_ne; rewrite ?length_swap_at; auto; lia.
Qed.

Lemma at16_swap_fields j : 0 ≤ j → ¬ addr_byte j → ¬ addr_byte (j + 1) →
  at16 (swap_fields m b) j = at16 b j.
Proof. intros. unfold at16. by rewrite !at8_swap_fields by (done || lia). Qed.

(** Translation does not change what kind of frame it is. *)
Lemma is_arp_not_dhcp : is_arp b = true → is_dhcp b = false.
Proof.
  unfold is_arp, is_dhcp. destruct (Z.eqb_spec (at16 b 12) 0x0806) as [->|]; done.
Qed.

Lemma not_addr_byte j : 12 ≤ j ≤ 21 → ¬ addr_byte j.
Proof. pose proof (udp_base_range b). intros Hj [?|[[_ ?]|(_ & _ & ?)]]; lia. Qed.

Lemma not_addr_byte_udp j : is_arp b = false → 12 ≤ j < udp_base b + 36 → ¬ addr_byte j.
Proof. intros Ha Hj [?|[[? _]|(_ & _ & ?)]]; [lia|congruence|lia]. Qed.

Lemma swap_fields_class :
  is_arp (swap_fields m b) = is_arp b ∧ udp_base (swap_fields m b) = udp_base b
  ∧ is_dhcp (swap_fields m b) = is_dhcp b
  ∧ (is_arp b = false → udp_len (swap_fields m b) = udp_len b).
Proof.
  pose proof (udp_base_range b) as Hu.
  assert (Ht : at16 (swap_fields m b) 12 = at16 b 12)
    by (apply at16_swap_fields; try apply not_addr_byte; lia).
  assert (Hub : udp_base (swap_fields m b) = udp_base b)
    by (unfold udp_base; rewrite at8_swap_fields; try apply not_addr_byte; done).
  split_and!; [|done|..].
  - unfold is_arp. rewrite Ht, at16_swap_fields, at8_swap_fields
      by (try apply not_addr_byte; lia). done.
  - unfold is_dhcp. rewrite Hub, Ht.
    destruct (Z.eqb_spec (at16 b 12) 0x0800) as [E0|]; [|done]. cbn [andb].
    assert (is_arp b = false) as Hna by (unfold is_arp; by rewrite E0).
    rewrite at8_swap_fields, !at16_swap_fields
      by (try (apply not_addr_byte_udp; [done|]); lia). done.
  - intros Hna. unfold udp_len. rewrite Hub.
    apply at16_swap_fields; try (apply not_addr_byte_udp; [done|]); lia.
Qed.

(** Nor whether its checksum must be redone. *)
Lemma recheck_swap_fields : recheck m (swap_fields m b) = true → recheck m b = true.
Proof.
  destruct swap_fields_class as (_ & Hub & Hdh & _). pose proof chaddr_at_range as Hc.
  pose proof (udp_base_range b).
  unfold recheck, chaddr_at. rewrite Hub, Hdh. fold (chaddr_at b).
  destruct (is_dhcp b) eqn:Ed; [|done]. cbn [andb].
  destruct (is_arp b) eqn:Ea; [by rewrite (is_arp_not_dhcp Ea) in Ed|].
  rewrite !at8_swap_fields by (try (apply not_addr_byte_udp; [done|]); lia).
  assert (Hs : slice (swap_fields m b) (chaddr_at b) 6 = swap_mac m (slice b (chaddr_at b) 6)).
  { unfold swap_fields. rewrite Ea, Ed. rewrite slice_swap_at_same, slice_swap_header
      by (try rewrite length_swap_header; auto; lia). done. }
  rewrite Hs. intros [Ho Hz]%andb_prop. rewrite Hz, andb_true_r.
  unfold is_ours, swap_mac in *.
  destruct (bytes_eqb (slice b (chaddr_at b) 6) (mac_fakemac m)) eqn:E1; [done|].
  destruct (bytes_eqb (slice b (chaddr_at b) 6) (mac_realmac m)) eqn:E2; [done|].
  by rewrite E1, E2 in Ho.
Qed.

Lemma swap_header_involutive : macs_differ m → swap_header m (swap_header m b) = b.
Proof.
  intros Hd. unfold swap_header.
  rewrite (swap_at_comm m Hm (swap_at m b 0) 6 0) by (rewrite ?length_swap_at; auto; lia).
  rewrite (swap_at_involutive m Hm Hd b 0) by lia. apply swap_at_involutive; auto; lia.
Qed.

Lemma swap_header_swap_at i : (12 ≤ i)%nat → (i + 6 ≤ length b)%nat →
  swap_header m (swap_at m b i) = swap_at m (swap_header m b) i.
Proof.
  intros. unfold swap_header.
  rewrite (swap_at_comm m Hm b i 0) by lia.
  apply swap_at_comm; rewrite ?length_swap_at; auto; lia.
Qed.
End fields.

Section involution.
Context (m : macs) (Hm : macs_ok m) (Hd : macs_differ m).

Lemma swap_fields_involutive b : (116 ≤ length b)%nat → swap_fields m (swap_fields m b) = b.
Proof.
  intros Hb. destruct (swap_fields_class m Hm b Hb) as (Ha & Hu & Hdh & _).
  pose proof (chaddr_at_range b) as Hc.
  pose proof (length_swap_header m Hm b Hb) as Hl.
  unfold swap_fields at 1. rewrite Ha, Hdh. unfold chaddr_at. rewrite Hu. fold (chaddr_at b).
  unfold swap_fields. destruct (is_arp b); [|destruct (is_dhcp b)].
  - rewrite !swap_header_swap_at by (rewrite ?length_swap_at; auto; lia).
    rewrite swap_header_involutive by done.
    rewrite (swap_at_comm m Hm (swap_at m b 22) 32 22) by (rewrite ?length_swap_at; auto; lia).
    rewrite (swap_at_involutive m Hm Hd b 22) by lia. apply swap_at_involutive; auto; lia.
  - rewrite swap_header_swap_at, swap_header_involutive by (auto; lia).
    apply swap_at_involutive; auto; lia.
  - by apply swap_header_involutive.
Qed.
(** A byte written outside the six of an address field stays where it is. *)
Lemma swap_at_insert b i j v : (i + 6 ≤ length b)%nat → (j < i ∨ i + 6 ≤ j)%nat →
  swap_at m (<[j := v]> b) i = <[j := v]> (swap_at m b i).
Proof.
  intros Hi Hj. assert (E : slice (<[j := v]> b) i 6 = slice b i 6).
  { apply list_eq. intros k. rewrite !lookup_slice. case_decide; [|done].
    by rewrite list_lookup_insert_ne by lia. }
  unfold swap_at. rewrite E. set (s := swap_mac m (slice b i 6)).
  assert (Hs : length s = 6%nat) by (apply length_swap_mac, length_slice; done).
  apply list_eq. intros k. rewrite lookup_blit by (rewrite length_insert; lia).
  destruct (decide (k = j)) as [->|Hk].
  - rewrite decide_False by lia. destruct (decide (j < length b)%nat).
    + by rewrite !list_lookup_insert_eq by (rewrite ?length_blit by lia; done).
    + by rewrite !lookup_ge_None_2 by (rewrite ?length_insert, ?length_blit; lia).
  - rewrite !list_lookup_insert_ne by done. by rewrite lookup_blit by lia.
Qed.

Local Ltac buf_len :=
  repeat first [rewrite length_insert | rewrite length_swap_at; [|exact Hm|buf_len]]; lia.

(** The checksum and the pad byte are no address, so translation passes them by. *)
Lemma swap_fields_udp_stored b c : (116 ≤ length b)%nat → is_dhcp b = true → 34 ≤ udp_base b → 42 ≤ udp_len b →
  let b' := udp_stored b (udp_base b) (udp_len b) c in
  is_dhcp b' = true ∧ udp_base b' = udp_base b ∧ udp_len b' = udp_len b
  ∧ swap_fields m b' = udp_stored (swap_fields m b) (udp_base b) (udp_len b) c.
Proof.
  intros Hb Ed Hu Hn b'. pose proof (udp_base_range b Hb). pose proof (chaddr_at_range b Hb).
  assert (A : ∀ j, 0 ≤ j < udp_base b + 6 → at8 b' j = at8 b j).
  { intros j Hj. unfold at8. rewrite !nth_lookup. unfold b', udp_stored, udp_cleared.
    by rewrite !list_lookup_insert_ne by lia. }
  assert (A16 : ∀ j, 0 ≤ j < udp_base b + 5 → at16 b' j = at16 b j)
    by (intros; unfold at16; by rewrite !A by lia).
  assert (Hu' : udp_base b' = udp_base b) by (unfold udp_base; by rewrite A by lia).
  assert (Ed' : is_dhcp b' = true) by (rewrite <-Ed; unfold is_dhcp; by rewrite Hu', A, !A16 by lia).
  assert (Na : ∀ x, is_dhcp x = true → is_arp x = false).
  { intros x Hx. destruct (is_arp x) eqn:E; [by rewrite (is_arp_not_dhcp x E) in Hx|done]. }
  split_and!; [done|done|unfold udp_len; rewrite Hu'; apply A16; lia|].
  unfold swap_fields. rewrite Ed', Ed, !Na by done. unfold chaddr_at. rewrite Hu'. fold (chaddr_at b).
  unfold b', udp_stored, udp_cleared, swap_header.
  by repeat (rewrite swap_at_insert by buf_len).
Qed.
End involution.

(** ** Lemmas: what every call returns *)

Lemma swap_fields_headers m (Hm : macs_ok m) b (Hb : (116 ≤ length b)%nat) :
  slice (swap_fields m b) 0 6 = swap_mac m (slice b 0 6)
  ∧ slice (swap_fields m b) 6 6 = swap_mac m (slice b 6 6).
Proof.
  assert (E : ∀ i, (i + 6 ≤ 12)%nat → slice (swap_fields m b) i 6 = slice (swap_header m b) i 6).
  { intros i Hi. apply list_eq. intros j. rewrite !lookup_slice. case_decide; [|done].
    pose proof (f_equal (λ l, l !! (i + j)%nat) (slice_swap_fields_header m Hm b Hb)) as Hs.
    simpl in Hs. rewrite !lookup_slice in Hs. by rewrite !decide_True in Hs by lia. }
  rewrite !E by lia. unfold swap_header.
  rewrite slice_swap_at_ne, slice_swap_at_same by (rewrite ?length_swap_at; auto; lia).
  rewrite slice_swap_at_same by (rewrite ?length_swap_at; auto; lia).
  rewrite slice_swap_at_ne by (auto; lia). done.
Qed.

(** The address fields inside the payload. *)
Lemma swap_fields_arp m (Hm : macs_ok m) b (Hb : (116 ≤ length b)%nat) : is_arp b = true →
  slice (swap_fields m b) 22 6 = swap_mac m (slice b 22 6)
  ∧ slice (swap_fields m b) 32 6 = swap_mac m (slice b 32 6).
Proof.
  intros Ea. pose proof (length_swap_header m Hm b Hb). unfold swap_fields. rewrite Ea.
  rewrite slice_swap_at_ne, !slice_swap_at_same by (rewrite ?length_swap_at; auto; lia).
  rewrite slice_swap_at_ne by (auto; lia). by rewrite !slice_swap_header by (auto; lia).
Qed.

Lemma swap_fields_chaddr m (Hm : macs_ok m) b (Hb : (116 ≤ length b)%nat) : is_dhcp b = true →
  slice (swap_fields m b) (chaddr_at b) 6 = swap_mac m (slice b (chaddr_at b) 6).
Proof.
  intros Ed. pose proof (chaddr_at_range b). pose proof (length_swap_header m Hm b Hb).
  assert (Ea : is_arp b = false)
    by (destruct (is_arp b) eqn:Ea; [by rewrite (is_arp_not_dhcp b Ea) in Ed|done]).
  unfold swap_fields. rewrite Ea, Ed. by rewrite slice_swap_at_same, slice_swap_header by (auto; lia).
Qed.

Lemma recheck_dhcp m b : recheck m b = true → is_dhcp b = true.
Proof. unfold recheck. by destruct (is_dhcp b). Qed.

Lemma slice_udp_stored b u len2 c i : 0 ≤ u → 0 ≤ len2 →
  (Z.of_nat i + 6 ≤ u + 6 ∨ u + 8 ≤ Z.of_nat i) → (Z.of_nat i + 6 ≤ u + len2 ∨ u + len2 < Z.of_nat i) →
  slice (udp_stored b u len2 c) i 6 = slice b i 6.
Proof.
  intros. apply list_eq. intros j. rewrite !lookup_slice. case_decide; [|done].
  unfold udp_stored, udp_cleared. by rewrite !list_lookup_insert_ne by lia.
Qed.

Lemma swap_mac_same m a : mac_fakemac m = mac_realmac m → swap_mac m a = a.
Proof.
  intros E. unfold swap_mac. rewrite <-E.
  destruct (bytes_eqb_spec a (mac_fakemac m)); congruence.
Qed.

(** Either an access past the packet buffer, or a buffer of the same size with
    both header addresses translated. *)
Lemma mungepacket_cases m b len : macs_ok m → (116 ≤ length b)%nat → Forall (fits 8) b → 20 ≤ len →
  mungepacket m b len = Err OutOfBounds ∨
  ∃ b', mungepacket m b len = Ok (len, b') ∧ length b' = length b ∧ Forall (fits 8) b' ∧
    slice b' 0 6 = swap_mac m (slice b 0 6) ∧ slice b' 6 6 = swap_mac m (slice b 6 6).
Proof.
  intros Hm Hb Hf Hlen. destruct (decide (mac_fakemac m = mac_realmac m)) as [E|Hd].
  - right. exists b. rewrite !swap_mac_same by done. unfold mungepacket.
    destruct (Z.ltb_spec len 20); [lia|].
    by destruct (bytes_eqb_spec (mac_fakemac m) (mac_realmac m)).
  - pose proof (length_swap_fields m Hm b Hb) as Hl. pose proof (udp_base_range b) as Hu.
    pose proof (at16_range b (udp_base b + 4) Hf) as Hul. fold (udp_len b) in Hul.
    destruct (swap_fields_headers m Hm b Hb) as [H0 H6].
    pose proof (Forall_swap_fields m Hm b Hb Hf).
    rewrite munge_spec by done. destruct (recheck m b); [|right; by exists (swap_fields m b)].
    destruct (decide (udp_base b + udp_len b < Z.of_nat (length b))).
    + right. destruct (udp_rechecksum_spec (swap_fields m b) (udp_base b) (udp_len b))
        as (f & _ & _ & E); try lia; [done|].
      rewrite E, bind_Ok. eexists. split; [done|].
      rewrite length_udp_stored, !slice_udp_stored by lia.
      split_and!; [done| |done|done]. by apply Forall_udp_stored.
    + left. by rewrite udp_rechecksum_Err by lia.
Qed.

(** ** Properties *)

(** C9: The receive direction undoes the transmit direction: munging a munged
    frame succeeds and restores the original.  When no UDP checksum is redone
    (every frame but a DHCP message with a client address of ours and a checksum)
    it does so bit for bit; when one is redone, in an IP header of at least 20
    bytes and a datagram that holds a client address and fits its buffer, it
    restores every byte except the two of the checksum, which is computed anew,
    and the pad byte behind the datagram, which is cleared. *)
Theorem mungepacket_involutive (m : macs) (b : list Z) (len : Z)
  (Hm : macs_ok m) (Hd : macs_differ m) (Hb : (116 ≤ length b)%nat)
  (Hbytes : Forall (fits 8) b) (Hlen : 20 ≤ len)
  (Hr : recheck m b = true →
    34 ≤ udp_base b ∧ 42 ≤ udp_len b ∧ udp_base b + udp_len b < Z.of_nat (length b)) :
  ∃ b1 b2, mungepacket m b len = Ok (len, b1) ∧ mungepacket m b1 len = Ok (len, b2)
  ∧ length b2 = length b ∧ (recheck m b = false → b2 = b)
  ∧ ∀ j, 0 ≤ j → j ≠ udp_base b + 6 → j ≠ udp_base b + 7 → j ≠ udp_base b + udp_len b →
      at8 b2 j = at8 b j.
Proof.
  pose proof (length_swap_fields m Hm b Hb) as Hl. destruct (recheck m b) eqn:E.
  - destruct (Hr eq_refl) as (Hu & Hn & Hi). pose proof (udp_base_range b).
    pose proof (at16_range b (udp_base b + 4) Hbytes) as Hul. fold (udp_len b) in Hul.
    apply recheck_dhcp in E as Ed. set (u := udp_base b) in *. set (n := udp_len b) in *.
    destruct (swap_fields_class m Hm b Hb) as (_ & Cu & Cd & Cl). fold u in Cu.
    assert (Cl' : udp_len (swap_fields m b) = n).
    { apply Cl. destruct (is_arp b) eqn:Ea; [by rewrite (is_arp_not_dhcp b Ea) in Ed|done]. }
    pose proof (Forall_swap_fields m Hm b Hb Hbytes) as Hf.
    destruct (udp_rechecksum_spec (swap_fields m b) u n) as (f & _ & _ & Ef); try lia; [done|].
    set (b1 := udp_stored (swap_fields m b) u n (65535 - f)) in *.
    assert (L1 : length b1 = length b) by (unfold b1; by rewrite length_udp_stored).
    destruct (swap_fields_udp_stored m Hm (swap_fields m b) (65535 - f)) as (_ & Du & Dl & Ds);
      [lia|congruence|lia|lia|].
    rewrite Cu, Cl' in Du, Dl, Ds. fold b1 in Du, Dl, Ds. rewrite swap_fields_involutive in Ds by done.
    exists b1. rewrite munge_spec, E by done. fold u n. rewrite Ef, bind_Ok.
    rewrite munge_spec, Du, Dl, Ds by (done || lia). set (b2 := udp_stored b u n (65535 - f)).
    assert (L2 : length b2 = length b) by apply length_udp_stored.
    assert (A2 : ∀ j, 0 ≤ j → j ≠ u + 6 → j ≠ u + 7 → j ≠ u + n → at8 b2 j = at8 b j)
      by (intros; apply at8_udp_stored; lia).
    destruct (recheck m b1); [|by exists b2].
    destruct (udp_rechecksum_spec b2 u n) as (g & _ & _ & Eg); try lia;
      [by apply Forall_udp_stored|]. rewrite Eg.
    eexists. split_and!; [done|done|by rewrite length_udp_stored, L2|done|].
    intros. rewrite at8_udp_stored by lia. by apply A2.
  - exists (swap_fields m b), b. rewrite !munge_spec, E by (done || lia). split_and!; try done.
    destruct (recheck m (swap_fields m b)) eqn:E'.
    + by rewrite (recheck_swap_fields m Hm b Hb E') in E.
    + by rewrite swap_fields_involutive.
Qed.

(** C11: On every frame of at least 20 bytes in a packet buffer, whenever
    [mungepacket] returns, it returns the length unchanged, the buffer keeps its
    size, and an address of ours is replaced by the other one exactly in the
    fields the frame type names: destination and source of every frame, sender
    and target hardware address (at 22 and 32) of an ARP packet, the client
    address of a DHCP message (unless the pad byte that the checksum update
    clears, at the datagram's end, falls into that field).  No byte outside the
    address fields, the UDP checksum and the pad byte changes. *)
Theorem mungepacket_translates (m : macs) (b b' : list Z) (len n : Z)
  (Hm : macs_ok m) (Hd : macs_differ m) (Hb : (116 ≤ length b)%nat)
  (Hbytes : Forall (fits 8) b) (Hlen : 20 ≤ len) (Hok : mungepacket m b len = Ok (n, b')) :
  n = len ∧ length b' = length b
  ∧ slice b' 0 6 = swap_mac m (slice b 0 6) ∧ slice b' 6 6 = swap_mac m (slice b 6 6)
  ∧ (is_arp b = true →
       slice b' 22 6 = swap_mac m (slice b 22 6) ∧ slice b' 32 6 = swap_mac m (slice b 32 6))
  ∧ (is_dhcp b = true → (recheck m b = true → udp_len b < 36 ∨ 42 ≤ udp_len b) →
       slice b' (chaddr_at b) 6 = swap_mac m (slice b (chaddr_at b) 6))
  ∧ (∀ j, 0 ≤ j → ¬ addr_byte b j →
       (recheck m b = true → j ≠ udp_base b + 6 ∧ j ≠ udp_base b + 7 ∧ j ≠ udp_base b + udp_len b) →
       at8 b' j = at8 b j).
Proof.
  pose proof (length_swap_fields m Hm b Hb) as Hl. pose proof (udp_base_range b) as Hu.
  pose proof (at16_range b (udp_base b + 4) Hbytes) as Hul. fold (udp_len b) in Hul.
  pose proof (swap_fields_headers m Hm b Hb) as [H0 H6]. pose proof (chaddr_at_range b).
  rewrite munge_spec in Hok by done.
  destruct (recheck m b) eqn:Hr; [|simplify_eq; split_and!; auto;
    [by apply swap_fields_arp|intros; by apply swap_fields_chaddr|by intros; apply at8_swap_fields]].
  apply recheck_dhcp in Hr as Ed.
  destruct (decide (udp_base b + udp_len b < Z.of_nat (length b))) as [Hin|Hout];
    [|by rewrite udp_rechecksum_Err in Hok by lia].
  destruct (udp_rechecksum_spec (swap_fields m b) (udp_base b) (udp_len b)) as (f & _ & _ & E);
    try lia; [by apply Forall_swap_fields|].
  rewrite E, bind_Ok in Hok. simplify_eq. split_and!; [done|by rewrite length_udp_stored|..].
  1,2: by rewrite slice_udp_stored by lia.
  - intros Ea. by rewrite (is_arp_not_dhcp b Ea) in Ed.
  - intros _ Hp. specialize (Hp eq_refl). rewrite slice_udp_stored by lia. by apply swap_fields_chaddr.
  - intros j Hj Hn Hne. specialize (Hne eq_refl). rewrite at8_udp_stored by lia.
    by apply at8_swap_fields.
Qed.

(** C10: After a DHCP client address is translated the datagram carries the
    checksum RFC 768 prescribes for it, computed over the pseudo-header, the
    header and the data as sent, except that a computed zero is stored as zero
    instead of as all ones (which RFC 768 reads as no checksum); and the client
    address is the other MAC.  The call succeeds, for every DHCP message with an
    IP header of at least 20 bytes that holds a client address and fits its
    buffer. *)
Theorem mungepacket_checksum_valid (m : macs) (b : list Z) (len : Z)
  (Hm : macs_ok m) (Hd : macs_differ m) (Hb : (116 ≤ length b)%nat)
  (Hbytes : Forall (fits 8) b) (Hlen : 20 ≤ len) (Hr : recheck m b = true)
  (Hihl : 34 ≤ udp_base b) (Hul : 42 ≤ udp_len b)
  (Hin : udp_base b + udp_len b < Z.of_nat (length b)) :
  ∃ b', mungepacket m b len = Ok (len, b')
  ∧ (let c := Rfc768.checksum b' (udp_base b) (udp_len b) in
     at16 b' (udp_base b + 6) = if c =? 65535 then 0 else c)
  ∧ slice b' (chaddr_at b) 6 = swap_mac m (slice b (chaddr_at b) 6).
Proof.
  pose proof (length_swap_fields m Hm b Hb) as Hl. pose proof (udp_base_range b) as Hu.
  pose proof (at16_range b (udp_base b + 4) Hbytes) as Hul'. fold (udp_len b) in Hul'.
  pose proof (Forall_swap_fields m Hm b Hb Hbytes) as Hb'. pose proof (chaddr_at_range b) as Hc.
  apply recheck_dhcp in Hr as Ed.
  destruct (udp_rechecksum_spec (swap_fields m b) (udp_base b) (udp_len b)) as (f & Hf & Hfr & E);
    try lia; [done|].
  eexists. rewrite munge_spec, Hr, E, bind_Ok by done. split_and!; [done| |].
  - apply udp_stored_rfc; done || lia.
  - rewrite slice_udp_stored by lia. by apply swap_fields_chaddr.
Qed.

(** C35: Memory safety of [mungepacket], exactly: it accesses memory outside its
    packet buffer if and only if it recomputes the checksum of a DHCP message
    whose UDP length field reaches past the end of the buffer; on every other
    frame it returns, and the folding loop always terminates. *)
Theorem mungepacket_bounds (m : macs) (b : list Z) (len : Z)
  (Hm : macs_ok m) (Hd : macs_differ m) (Hb : (116 ≤ length b)%nat)
  (Hbytes : Forall (fits 8) b) (Hlen : 20 ≤ len) :
  if recheck m b && (Z.of_nat (length b) <=? udp_base b + udp_len b)
  then mungepacket m b len = Err OutOfBounds
  else ∃ b', mungepacket m b len = Ok (len, b').
Proof.
  pose proof (length_swap_fields m Hm b Hb) as Hl. pose proof (udp_base_range b) as Hu.
  pose proof (at16_range b (udp_base b + 4) Hbytes) as Hul. fold (udp_len b) in Hul.
  rewrite munge_spec by done. destruct (recheck m b); cbn [andb]; [|by eexists].
  destruct (Z.leb_spec (Z.of_nat (length b)) (udp_base b + udp_len b)).
  - by rewrite udp_rechecksum_Err by lia.
  - destruct (udp_rechecksum_spec (swap_fields m b) (udp_base b) (udp_len b)) as (f & _ & _ & E);
      try lia; [by apply Forall_swap_fields|]. rewrite E. by eexists.
Qed.

(** The zero-checksum substitution is dead code: [sum] is 32 bits wide when
    it is complemented, so it is never 0, and a datagram whose folded sum is
    0xFFFF leaves with checksum field 0x0000 ("no checksum" in UDP), not 0xFFFF. *)
Theorem mungepacket_zero_checksum (m : macs) (b : list Z) (len : Z)
  (Hm : macs_ok m) (Hd : macs_differ m) (Hb : (116 ≤ length b)%nat)
  (Hbytes : Forall (fits 8) b) (Hlen : 20 ≤ len) (Hr : recheck m b = true)
  (Hin : udp_base b + udp_len b < Z.of_nat (length b)) (Hul : 8 ≤ udp_len b)
  (Hsum : fold_sum fold_fuel
            (udp_total (udp_cleared (swap_fields m b) (udp_base b) (udp_len b))
               (udp_base b) (udp_len b)) = Ok 0xFFFF) :
  ∃ b', mungepacket m b len = Ok (len, b') ∧ at16 b' (udp_base b + 6) = 0.
Proof.
  pose proof (length_swap_fields m Hm b Hb) as Hl. pose proof (udp_base_range b) as Hu.
  pose proof (at16_range b (udp_base b + 4) Hbytes) as Hul'. fold (udp_len b) in Hul'.
  destruct (udp_rechecksum_spec (swap_fields m b) (udp_base b) (udp_len b)) as (f & Hf & _ & E);
    try lia; [by apply Forall_swap_fields|].
  rewrite Hsum in Hf. injection Hf as <-. rewrite munge_spec, Hr, E, bind_Ok by done.
  eexists; split; [done|]. unfold at16, udp_stored.
  pose proof (length_udp_cleared (swap_fields m b) (udp_base b) (udp_len b)).
  rewrite !at8_insert by (rewrite ?length_insert; lia).
  by rewrite !decide_False, !decide_True by lia.
Qed.

(** ** Witnesses *)

Definition ex_macs : macs :=
  Macs [0x00; 0x80; 0x10; 0xAA; 0xBB; 0xCC] [0x00; 0x80; 0x10; 0x11; 0x22; 0x33].

(** An ARP request from the Amiga, in a 128-byte buffer. *)
Definition ex_arp : list Z :=
  BROADCAST_MAC ++ mac_fakemac ex_macs ++ [0x08; 0x06; 0; 1; 8; 0; 6; 4; 0; 1]
  ++ mac_fakemac ex_macs ++ [192; 168; 1; 100] ++ repeat 0 6 ++ [192; 168; 1; 1]
  ++ replicate 86 0.

(** A DHCP request with UDP length [len2], checksum [c] and [n] more bytes. *)
Definition ex_dhcp (len2 c : Z) (n : nat) : list Z :=
  BROADCAST_MAC ++ mac_fakemac ex_macs ++ [0x08; 0x00]
  ++ [0x45; 0; 1; 0x48; 0; 0; 0; 0; 64; 17; 0; 0] ++ [0; 0; 0; 0; 255; 255; 255; 255]
  ++ [0; 68; 0; 67; len2 / 256; len2 mod 256; c / 256; c mod 256]
  ++ replicate 28 0 ++ mac_fakemac ex_macs ++ replicate n 0.

Lemma ex_macs_ok : macs_ok ex_macs.
Proof. split; try reflexivity; repeat constructor; vm_compute; congruence. Qed.

Lemma ex_macs_differ : macs_differ ex_macs.
Proof. unfold macs_differ. vm_compute. congruence. Qed.

(** Decide that a literal buffer holds bytes. *)
Definition bytesb (b : list Z) : bool := forallb (λ x, (0 <=? x) && (x <? 256)) b.

Lemma bytesb_Forall b : bytesb b = true → Forall (fits 8) b.
Proof.
  unfold bytesb. intros H. apply Forall_forall. intros x Hx.
  apply list_elem_of_In in Hx. rewrite forallb_forall in H. specialize (H x Hx).
  unfold fits. lia.
Qed.

(** A DHCP request there and back: only the checksum differs. *)
Lemma mungepacket_involutive_witness : ∃ b1 b2,
  mungepacket ex_macs (ex_dhcp 50 0x1234 40) 116 = Ok (116, b1) ∧ mungepacket ex_macs b1 116 = Ok (116, b2)
  ∧ recheck ex_macs (ex_dhcp 50 0x1234 40) = true ∧ at8 b2 6 = 0x00 ∧ at8 b2 11 = 0xCC ∧ at8 b2 75 = 0xCC.
Proof.
  destruct (mungepacket_involutive ex_macs (ex_dhcp 50 0x1234 40) 116 ex_macs_ok ex_macs_differ)
    as (b1 & b2 & H1 & H2 & _ & _ & H).
  - apply Nat.leb_le. vm_compute. reflexivity.
  - apply bytesb_Forall. vm_compute. reflexivity.
  - lia.
  - intros _. vm_compute. repeat split; congruence.
  - exists b1, b2. split_and!; [exact H1|exact H2|vm_compute; reflexivity|..];
      rewrite H by (vm_compute; congruence); vm_compute; reflexivity.
Defined.

(** An ARP request of the Amiga: its own address as sender is the wire's. *)
Lemma mungepacket_translates_witness : ∃ b',
  mungepacket ex_macs ex_arp 42 = Ok (42, b') ∧ slice b' 6 6 = mac_realmac ex_macs
  ∧ slice b' 22 6 = mac_realmac ex_macs ∧ slice b' 32 6 = repeat 0 6.
Proof.
  destruct (mungepacket ex_macs ex_arp 42) as [[n b']|] eqn:E; [|vm_compute in E; congruence].
  destruct (mungepacket_translates ex_macs ex_arp b' 42 n ex_macs_ok ex_macs_differ) as
    (Hn & _ & _ & Hsrc & Harp & _ & _).
  - apply Nat.leb_le. vm_compute. reflexivity.
  - apply bytesb_Forall. vm_compute. reflexivity.
  - lia.
  - exact E.
  - destruct Harp as [Hs Ht]; [vm_compute; reflexivity|].
    exists b'. subst n. rewrite Hsrc, Hs, Ht. split; [reflexivity|]. vm_compute. auto.
Defined.

Lemma mungepacket_checksum_valid_witness : ∃ b',
  mungepacket ex_macs (ex_dhcp 50 0x1234 40) 116 = Ok (116, b')
  ∧ (let c := Rfc768.checksum b' (udp_base (ex_dhcp 50 0x1234 40)) (udp_len (ex_dhcp 50 0x1234 40)) in
     at16 b' (udp_base (ex_dhcp 50 0x1234 40) + 6) = if c =? 65535 then 0 else c)
  ∧ slice b' (chaddr_at (ex_dhcp 50 0x1234 40)) 6
    = swap_mac ex_macs (slice (ex_dhcp 50 0x1234 40) (chaddr_at (ex_dhcp 50 0x1234 40)) 6).
Proof.
  apply mungepacket_checksum_valid.
  - apply ex_macs_ok.
  - apply ex_macs_differ.
  - apply Nat.leb_le. vm_compute. reflexivity.
  - apply bytesb_Forall. vm_compute. reflexivity.
  - lia.
  - vm_compute. reflexivity.
  - vm_compute. congruence.
  - vm_compute. congruence.
  - vm_compute. reflexivity.
Defined.

(** A 116-byte DHCP request whose UDP length says 5000, in the daemon's 4096-byte
    packet buffer. *)
Lemma mungepacket_bounds_witness :
  mungepacket ex_macs (ex_dhcp 5000 0x1234 4014) 116 = Err OutOfBounds.
Proof.
  pose proof (mungepacket_bounds ex_macs (ex_dhcp 5000 0x1234 4014) 116
    ex_macs_ok ex_macs_differ) as H.
  replace (recheck ex_macs (ex_dhcp 5000 0x1234 4014)
    && (Z.of_nat (length (ex_dhcp 5000 0x1234 4014))
        <=? udp_base (ex_dhcp 5000 0x1234 4014) + udp_len (ex_dhcp 5000 0x1234 4014)))
    with true in H by (vm_compute; reflexivity).
  apply H.
  - apply Nat.leb_le. vm_compute. reflexivity.
  - apply bytesb_Forall. vm_compute. reflexivity.
  - lia.
Defined.

(** A DHCP request whose words sum to 0xFFFF once translated. *)
Definition ex_dhcp_zero : list Z := blit (ex_dhcp 50 0x1234 40) 76 [0xCC; 0x3F].

Lemma mungepacket_zero_checksum_witness : ∃ b',
  mungepacket ex_macs ex_dhcp_zero 116 = Ok (116, b') ∧ at16 b' (udp_base ex_dhcp_zero + 6) = 0.
Proof.
  apply mungepacket_zero_checksum.
  - apply ex_macs_ok.
  - apply ex_macs_differ.
  - apply Nat.leb_le. vm_compute. reflexivity.
  - apply bytesb_Forall. vm_compute. reflexivity.
  - lia.
  - vm_compute. reflexivity.
  - vm_compute. reflexivity.
  - vm_compute. congruence.
  - vm_compute. reflexivity.
Defined.
