(* ===== verification/State.v ===== *)
(** * State of the daemon

    The static variables of the daemon's units, one record per unit, and the
    [world] that joins them with what they share: the mapped window, the
    [boardram] pointer (an offset into the window), the raw socket and the
    frames handed to it.  The mailbox build has no such pointer: there the 32 KB at
    [w_boardram] stand for the card's memory behind the mailbox (Remote.v). *)

From S2P Require Import Prelude Types Window Mac.

(** ** registers.cpp *)

Record regs := Regs {
  csr : list Z;
  rap : Z;
  am_initialized : bool;
  am_mode : Z;
  am_ladrf : Z;
  am_rdr_rlen : Z;
  am_rdr_rdra : Z;
  am_tdr_tlen : Z;
  am_tdr_tdra : Z;
  tdr_offset : Z;
  rdr_offset : Z;
  fakemac : list Z }.

(** ** rings.cpp *)

Record rings := Rings {
  transmitbuffer : list Z;
  transmitlen : Z;
  loopback_iter : Z }.

(** ** main_ddr3.cpp: the variables of the mailbox daemon *)

Record ddr3 := Ddr3 {
  last_mbx_int : Z;
  int_hold : Z;
  deferred_csr0_queue : list Z;
  deferred_csr0_head : Z;
  deferred_csr0_tail : Z;
  tdmd_retry : Z }.

(** The queue of deferred writes. *)
Definition deferred (d : ddr3) : list Z * Z * Z :=
  (deferred_csr0_queue d, deferred_csr0_head d, deferred_csr0_tail d).

(** Their initial values. *)
Definition ddr3_init : ddr3 := Ddr3 (-1) 0 (replicate 8 0) 0 0 0.

(** ** Everything *)

Record world := World {
  w_reg : regs;
  w_mac : macs;
  w_ring : rings;
  w_win : window;
  w_boardram : Z;
  w_sock : Z;
  w_sent : list (list Z);
  w_ddr3 : ddr3 }.

(** ** Assignments to one variable *)

Definition set_csr (x : list Z) (r : regs) : regs :=
  Regs x (rap r) (am_initialized r) (am_mode r) (am_ladrf r) (am_rdr_rlen r) (am_rdr_rdra r)
    (am_tdr_tlen r) (am_tdr_tdra r) (tdr_offset r) (rdr_offset r) (fakemac r).
Definition set_rap (x : Z) (r : regs) : regs :=
  Regs (csr r) x (am_initialized r) (am_mode r) (am_ladrf r) (am_rdr_rlen r) (am_rdr_rdra r)
    (am_tdr_tlen r) (am_tdr_tdra r) (tdr_offset r) (rdr_offset r) (fakemac r).
Definition set_am_initialized (x : bool) (r : regs) : regs :=
  Regs (csr r) (rap r) x (am_mode r) (am_ladrf r) (am_rdr_rlen r) (am_rdr_rdra r) (am_tdr_tlen
    r) (am_tdr_tdra r) (tdr_offset r) (rdr_offset r) (fakemac r).
Definition set_am_mode (x : Z) (r : regs) : regs :=
  Regs (csr r) (rap r) (am_initialized r) x (am_ladrf r) (am_rdr_rlen r) (am_rdr_rdra r)
    (am_tdr_tlen r) (am_tdr_tdra r) (tdr_offset r) (rdr_offset r) (fakemac r).
Definition set_am_ladrf (x : Z) (r : regs) : regs :=
  Regs (csr r) (rap r) (am_initialized r) (am_mode r) x (am_rdr_rlen r) (am_rdr_rdra r)
    (am_tdr_tlen r) (am_tdr_tdra r) (tdr_offset r) (rdr_offset r) (fakemac r).
Definition set_am_rdr_rlen (x : Z) (r : regs) : regs :=
  Regs (csr r) (rap r) (am_initialized r) (am_mode r) (am_ladrf r) x (am_rdr_rdra r)
    (am_tdr_tlen r) (am_tdr_tdra r) (tdr_offset r) (rdr_offset r) (fakemac r).
Definition set_am_rdr_rdra (x : Z) (r : regs) : regs :=
  Regs (csr r) (rap r) (am_initialized r) (am_mode r) (am_ladrf r) (am_rdr_rlen r) x
    (am_tdr_tlen r) (am_tdr_tdra r) (tdr_offset r) (rdr_offset r) (fakemac r).
Definition set_am_tdr_tlen (x : Z) (r : regs) : regs :=
  Regs (csr r) (rap r) (am_initialized r) (am_mode r) (am_ladrf r) (am_rdr_rlen r) (am_rdr_rdra
    r) x (am_tdr_tdra r) (tdr_offset r) (rdr_offset r) (fakemac r).
Definition set_am_tdr_tdra (x : Z) (r : regs) : regs :=
  Regs (csr r) (rap r) (am_initialized r) (am_mode r) (am_ladrf r) (am_rdr_rlen r) (am_rdr_rdra
    r) (am_tdr_tlen r) x (tdr_offset r) (rdr_offset r) (fakemac r).
Definition set_tdr_offset (x : Z) (r : regs) : regs :=
  Regs (csr r) (rap r) (am_initialized r) (am_mode r) (am_ladrf r) (am_rdr_rlen r) (am_rdr_rdra
    r) (am_tdr_tlen r) (am_tdr_tdra r) x (rdr_offset r) (fakemac r).
Definition set_rdr_offset (x : Z) (r : regs) : regs :=
  Regs (csr r) (rap r) (am_initialized r) (am_mode r) (am_ladrf r) (am_rdr_rlen r) (am_rdr_rdra
    r) (am_tdr_tlen r) (am_tdr_tdra r) (tdr_offset r) x (fakemac r).
Definition set_fakemac (x : list Z) (r : regs) : regs :=
  Regs (csr r) (rap r) (am_initialized r) (am_mode r) (am_ladrf r) (am_rdr_rlen r) (am_rdr_rdra
    r) (am_tdr_tlen r) (am_tdr_tdra r) (tdr_offset r) (rdr_offset r) x.

Definition set_transmitbuffer (x : list Z) (g : rings) : rings :=
  Rings x (transmitlen g) (loopback_iter g).
Definition set_transmitlen (x : Z) (g : rings) : rings :=
  Rings (transmitbuffer g) x (loopback_iter g).
Definition set_loopback_iter (x : Z) (g : rings) : rings :=
  Rings (transmitbuffer g) (transmitlen g) x.

Definition set_last_mbx_int (x : Z) (d : ddr3) : ddr3 :=
  Ddr3 x (int_hold d) (deferred_csr0_queue d) (deferred_csr0_head d) (deferred_csr0_tail d)
    (tdmd_retry d).
Definition set_int_hold (x : Z) (d : ddr3) : ddr3 :=
  Ddr3 (last_mbx_int d) x (deferred_csr0_queue d) (deferred_csr0_head d) (deferred_csr0_tail d)
    (tdmd_retry d).
Definition set_deferred_csr0_queue (x : list Z) (d : ddr3) : ddr3 :=
  Ddr3 (last_mbx_int d) (int_hold d) x (deferred_csr0_head d) (deferred_csr0_tail d) (tdmd_retry d).
Definition set_deferred_csr0_head (x : Z) (d : ddr3) : ddr3 :=
  Ddr3 (last_mbx_int d) (int_hold d) (deferred_csr0_queue d) x (deferred_csr0_tail d) (tdmd_retry d).
Definition set_deferred_csr0_tail (x : Z) (d : ddr3) : ddr3 :=
  Ddr3 (last_mbx_int d) (int_hold d) (deferred_csr0_queue d) (deferred_csr0_head d) x (tdmd_retry d).
Definition set_tdmd_retry (x : Z) (d : ddr3) : ddr3 :=
  Ddr3 (last_mbx_int d) (int_hold d) (deferred_csr0_queue d) (deferred_csr0_head d)
    (deferred_csr0_tail d) x.

Definition set_w_reg (x : regs) (w : world) : world :=
  World x (w_mac w) (w_ring w) (w_win w) (w_boardram w) (w_sock w) (w_sent w) (w_ddr3 w).
Definition set_w_mac (x : macs) (w : world) : world :=
  World (w_reg w) x (w_ring w) (w_win w) (w_boardram w) (w_sock w) (w_sent w) (w_ddr3 w).
Definition set_w_ring (x : rings) (w : world) : world :=
  World (w_reg w) (w_mac w) x (w_win w) (w_boardram w) (w_sock w) (w_sent w) (w_ddr3 w).
Definition set_w_win (x : window) (w : world) : world :=
  World (w_reg w) (w_mac w) (w_ring w) x (w_boardram w) (w_sock w) (w_sent w) (w_ddr3 w).
Definition set_w_boardram (x : Z) (w : world) : world :=
  World (w_reg w) (w_mac w) (w_ring w) (w_win w) x (w_sock w) (w_sent w) (w_ddr3 w).
Definition set_w_sock (x : Z) (w : world) : world :=
  World (w_reg w) (w_mac w) (w_ring w) (w_win w) (w_boardram w) x (w_sent w) (w_ddr3 w).
Definition set_w_sent (x : list (list Z)) (w : world) : world :=
  World (w_reg w) (w_mac w) (w_ring w) (w_win w) (w_boardram w) (w_sock w) x (w_ddr3 w).
Definition set_w_ddr3 (x : ddr3) (w : world) : world :=
  World (w_reg w) (w_mac w) (w_ring w) (w_win w) (w_boardram w) (w_sock w) (w_sent w) x.

(** [reg], [ring] and [mac] variables of the world. *)
Definition upd_reg (f : regs → regs) (w : world) : world := set_w_reg (f (w_reg w)) w.
Definition upd_ring (f : rings → rings) (w : world) : world := set_w_ring (f (w_ring w)) w.
Definition upd_mac (f : macs → macs) (w : world) : world := set_w_mac (f (w_mac w)) w.
Definition upd_ddr3 (f : ddr3 → ddr3) (w : world) : world := set_w_ddr3 (f (w_ddr3 w)) w.

(** [csr[n]] and [csr[n] = v]. *)
Definition csr_at (n : nat) (r : regs) : Z := nth n (csr r) 0.
Definition set_csr_at (n : nat) (v : Z) (r : regs) : regs := set_csr (<[n := v]> (csr r)) r.
Definition csr0 (w : world) : Z := csr_at 0 (w_reg w).
Definition set_csr0 (v : Z) (w : world) : world := upd_reg (set_csr_at 0 v) w.

(** Board RAM of the world. *)
Definition ram_byte (w : world) (off : Z) : Z := get_ram_byte (w_boardram w) (w_win w) off.
Definition ram_word (w : world) (off : Z) : Z := get_ram_word (w_boardram w) (w_win w) off.
Definition put_word (off v : Z) (w : world) : world :=
  set_w_win (put_ram_word (w_boardram w) (w_win w) off v) w.
Definition write_block (off : Z) (src : list Z) (w : world) : world :=
  set_w_win (ram_write_block (w_boardram w) (w_win w) off src) w.
Definition read_block (w : world) (off : Z) (n : nat) : list Z :=
  ram_read_block (w_boardram w) (w_win w) off n.
