(* ===== verification/Registers.v ===== *)
(** * Am7990 register emulation (arm/src/registers.cpp)

    The CSR file behind the RAP/RDP ports, the initialisation-block parser and
    the interrupt logic.  The two function pointers [on_interrupt] and
    [on_transmit] are interfaces: classes whose instances the daemons supply.
    [registers_lock]/[unlock] are no-ops here: an operation is one critical
    section; how threads interleave is the subject of Threads.v and the files on it. *)

From S2P Require Import Prelude Types Window Mac State.

(** ** Callbacks *)

Class IntHandler := on_interrupt : option (world → world).
Class TxHandler := on_transmit : option (world → res (Z * world)).

(** ** Accessors used by rings.cpp *)

Definition registers_csr0_set (v : Z) (w : world) : world := set_csr0 (Z.lor (csr0 w) v) w.
Definition registers_csr0_clr (v : Z) (w : world) : world := set_csr0 (andnot (csr0 w) v) w.
Definition registers_mode (w : world) : Z := am_mode (w_reg w).
Definition registers_prom (w : world) : bool := flag (am_mode (w_reg w)) MODE_PROM.
Definition registers_csr (n : Z) (w : world) : Z :=
  if (0 <=? n) && (n <? RAP_SIZE) then csr_at (Z.to_nat n) (w_reg w) else 0.
Definition registers_set_fakemac (mac : list Z) (w : world) : world := upd_reg (set_fakemac mac) w.

(** ** Initialisation *)

Definition chip_init_mask (r : regs) : regs :=
  let r := set_am_rdr_rdra (Z.land (am_rdr_rdra r) RAM_MASK) r in
  let r := set_am_tdr_tdra (Z.land (am_tdr_tdra r) RAM_MASK) r in
  set_tdr_offset 0 (set_rdr_offset 0 r).

(** The board RAM offset of the initialisation block. *)
Definition init_block_off (r : regs) : Z :=
  let iaddr := Z.lor (Z.shiftl (Z.land (csr_at 2 r) 0xff) 16) (csr_at 1 r) in
  Z.land iaddr RAM_MASK.

(** The register updates of [chip_init], from the block at [off]. *)
Definition load_init_block (w : world) (off : Z) (r : regs) : regs :=
  let r := set_am_mode (ram_word w (off + 0)) r in
  let r := set_am_ladrf
    (Z.lor (Z.lor (Z.lor (Z.shiftl (ram_word w (off + 14)) 48) (Z.shiftl (ram_word w (off + 12)) 32))
       (Z.shiftl (ram_word w (off + 10)) 16)) (ram_word w (off + 8))) r in
  let rdr := Z.lor (u32 (Z.shiftl (ram_word w (off + 18)) 16)) (ram_word w (off + 16)) in
  let tdr := Z.lor (u32 (Z.shiftl (ram_word w (off + 22)) 16)) (ram_word w (off + 20)) in
  let r := set_am_rdr_rlen (Z.shiftl 1 (Z.land (Z.shiftr rdr 29) 7)) r in
  let r := set_am_tdr_tlen (Z.shiftl 1 (Z.land (Z.shiftr tdr 29) 7)) r in
  let r := set_am_rdr_rdra (Z.land rdr 0x00fffff8) r in
  let r := set_am_tdr_tdra (Z.land tdr 0x00fffff8) r in
  set_fakemac [ram_byte w (off + 3); ram_byte w (off + 2); ram_byte w (off + 5);
               ram_byte w (off + 4); ram_byte w (off + 7); ram_byte w (off + 6)] r.

(** [rings_reset_loopback_count] *)
Definition rings_reset_loopback_count (w : world) : world := upd_ring (set_loopback_iter 0) w.

Definition chip_init (w : world) : world :=
  let w := rings_reset_loopback_count w in
  let off := init_block_off (w_reg w) in
  let w := upd_reg (load_init_block w off) w in
  let w := upd_mac (mac_set_fakemac (fakemac (w_reg w))) w in
  upd_reg chip_init_mask w.

(** ** Interrupts *)

Definition INT_CAUSES : Z :=
  Z.lor (Z.lor (Z.lor (Z.lor (Z.lor CSR0_BABL CSR0_MISS) CSR0_MERR) CSR0_RINT) CSR0_TINT) CSR0_IDON.

(** The INTR bit recomputed from its causes. *)
Definition rethink_csr0 (c : Z) : Z :=
  let c := andnot c CSR0_INTR in
  if flag c INT_CAUSES then Z.lor c CSR0_INTR else c.

Definition int_pending (c : Z) : bool :=
  Z.land c (Z.lor CSR0_INTR CSR0_INEA) =? Z.lor CSR0_INTR CSR0_INEA.

Definition rethink `{IntHandler} (w : world) : world :=
  let w := set_csr0 (rethink_csr0 (csr0 w)) w in
  if int_pending (csr0 w) then
    match on_interrupt with Some f => f w | None => w end
  else w.

(** ** Register reads *)

Definition CSR0_ERRORS : Z := Z.lor (Z.lor (Z.lor CSR0_BABL CSR0_CERR) CSR0_MISS) CSR0_MERR.

Definition chip_wget (reg_offset : Z) (w : world) : Z :=
  let r := w_reg w in
  if reg_offset =? A2065_RAP_OFF then rap r
  else if RAP_SIZE <=? rap r then 0
  else
    let v := csr_at (Z.to_nat (rap r)) r in
    let v := if (rap r =? 0) && flag v CSR0_ERRORS then Z.lor v CSR0_ERR else v in
    let v := if rap r =? 88 then Z.shiftl 1 (28 - 16) else v in
    if rap r =? 89 then 0x3003 else v.

(** ** Register writes *)

(** The bits a CSR0 write sets, keeps and clears. *)
Definition csr0_merge (c v : Z) : Z :=
  let c := Z.lor (andnot c CSR0_INEA) (Z.land v CSR0_INEA) in
  let c := Z.lor c (Z.land v (Z.lor (Z.lor (Z.lor CSR0_INIT CSR0_STRT) CSR0_STOP) CSR0_TDMD)) in
  let c := andnot c (Z.land v (Z.lor (Z.lor (Z.lor (Z.lor (Z.lor (Z.lor CSR0_IDON CSR0_TINT)
             CSR0_RINT) CSR0_MERR) CSR0_MISS) CSR0_CERR) CSR0_BABL)) in
  andnot c CSR0_ERR.

(** Turn the transmitter and the receiver on unless the mode disables them. *)
Definition csr0_on (mode c : Z) : Z :=
  let c := if flag mode MODE_DTX then c else Z.lor c CSR0_TXON in
  if flag mode MODE_DRX then c else Z.lor c CSR0_RXON.

(** The STOP / STRT / INIT decision of a CSR0 write; [oreg] is CSR0 before it. *)
Definition csr0_command (oreg : Z) (w : world) : world :=
  let c := csr0 w in
  if flag c CSR0_STOP && negb (flag oreg CSR0_STOP) then
    upd_reg (λ r, set_csr_at 3 0 (set_csr_at 0 CSR0_STOP r)) w
  else if flag c CSR0_STRT && negb (flag oreg CSR0_STRT)
          && flag oreg (Z.lor CSR0_STOP CSR0_INIT) then
    let w := set_csr0 (csr0_on (am_mode (w_reg w)) (andnot c CSR0_STOP)) w in
    if flag (csr0 w) CSR0_INIT && negb (flag oreg CSR0_INIT) then
      let w := chip_init w in
      let w := set_csr0 (Z.lor (csr0 w) CSR0_IDON) w in
      upd_reg (set_am_initialized true) w
    else w
  else if flag c CSR0_INIT && negb (flag oreg CSR0_INIT) && flag oreg CSR0_STOP then
    let w := chip_init w in
    let w := set_csr0 (Z.lor (csr0 w) CSR0_IDON) w in
    let w := set_csr0 (andnot (csr0 w) (Z.lor (Z.lor CSR0_RXON CSR0_TXON) CSR0_STOP)) w in
    upd_reg (λ r, set_csr_at 3 0 (set_am_initialized true r)) w
  else w.

(** The TDMD part of a CSR0 write. *)
Definition csr0_demand `{TxHandler} (w : world) : res world :=
  if flag (csr0 w) CSR0_TDMD then
    w ← (if am_initialized (w_reg w) then
           let w := if flag (csr0 w) CSR0_TXON then w
                    else set_csr0 (csr0_on (am_mode (w_reg w)) (andnot (csr0 w) CSR0_STOP)) w in
           match on_transmit with
           | Some f => '(_, w) ← f w; Ok w
           | None => Ok w
           end
         else Ok w);
    Ok (set_csr0 (andnot (csr0 w) CSR0_TDMD) w)
  else Ok w.

Definition wput_csr0 `{IntHandler, TxHandler} (v : Z) (w : world) : res world :=
  let oreg := csr0 w in
  let w := set_csr0 (csr0_merge oreg v) w in
  let w := csr0_command oreg w in
  w ← csr0_demand w;
  Ok (rethink w).

(** [(uint32_t)(-(int16_t)v) & 0xffff] *)
Definition neg16 (v : Z) : Z := Z.land (u32 (- (u16 (v + 2 ^ 15) - 2 ^ 15))) 0xffff.

(** Store [hi:lo] over two bytes of the station address. *)
Definition set_fakemac_pair (i : nat) (v : Z) (r : regs) : regs :=
  set_fakemac (<[i := Z.land v 0xff]> (<[S i := u8 (Z.shiftr v 8)]> (fakemac r))) r.

(** The registers other than CSR0 to CSR3. *)
Definition wput_ext (n v : Z) (r : regs) : regs :=
  if n =? 8 then set_am_ladrf (Z.lor (Z.land (am_ladrf r) 0x0000ffffffffffff) (Z.shiftl v 48)) r
  else if n =? 9 then set_am_ladrf (Z.lor (Z.land (am_ladrf r) 0xffff0000ffffffff) (Z.shiftl v 32)) r
  else if n =? 10 then set_am_ladrf (Z.lor (Z.land (am_ladrf r) 0xffffffff0000ffff) (Z.shiftl v 16)) r
  else if n =? 11 then set_am_ladrf (Z.lor (Z.land (am_ladrf r) 0xffffffffffff0000) v) r
  else if n =? 12 then set_fakemac_pair 0 v r
  else if n =? 13 then set_fakemac_pair 2 v r
  else if n =? 14 then set_fakemac_pair 4 v r
  else if n =? 15 then set_am_mode v r
  else if n =? 24 then chip_init_mask (set_am_rdr_rdra (Z.lor (Z.land (am_rdr_rdra r) 0xffff0000) v) r)
  else if n =? 25 then
    chip_init_mask (set_am_rdr_rdra (Z.lor (Z.land (am_rdr_rdra r) 0x0000ffff) (u32 (Z.shiftl v 16))) r)
  else if n =? 30 then chip_init_mask (set_am_tdr_tdra (Z.lor (Z.land (am_tdr_tdra r) 0xffff0000) v) r)
  else if n =? 31 then
    chip_init_mask (set_am_tdr_tdra (Z.lor (Z.land (am_tdr_tdra r) 0x0000ffff) (u32 (Z.shiftl v 16))) r)
  else if n =? 76 then set_am_rdr_rlen (neg16 v) r
  else if n =? 78 then set_am_tdr_tlen (neg16 v) r
  else if 4 <=? n then set_csr_at (Z.to_nat n) v r
  else r.

(** [chip_wput(reg_offset, v)], [v] a 16-bit value. *)
Definition chip_wput `{IntHandler, TxHandler} (reg_offset v : Z) (w : world) : res world :=
  let n := rap (w_reg w) in
  if reg_offset =? A2065_RAP_OFF then Ok (upd_reg (set_rap (Z.land v 0x7f)) w)
  else if RAP_SIZE <=? n then Ok w
  else if n =? 0 then wput_csr0 v w
  else if n =? 1 then
    Ok (if flag (csr0 w) CSR0_STOP then upd_reg (set_csr_at 1 (andnot v 1)) w else w)
  else if n =? 2 then
    Ok (if flag (csr0 w) CSR0_STOP then upd_reg (set_csr_at 2 (Z.land v 0x00ff)) w else w)
  else if n =? 3 then
    Ok (if flag (csr0 w) CSR0_STOP then upd_reg (set_csr_at 3 (Z.land v 7)) w else w)
  else Ok (upd_reg (wput_ext n v) w).

Definition registers_reset (w : world) : world :=
  upd_reg (λ r,
    let r := set_csr (replicate 128 0) r in
    let r := set_csr_at 4 0x0115 (set_csr_at 0 CSR0_STOP r) in
    let r := set_am_initialized false (set_rap 0 r) in
    set_tdr_offset 0 (set_rdr_offset 0 r)) w.

(** ** Well-formedness *)

(** Types and ranges of the register unit's variables. *)
Record regs_ok (r : regs) : Prop := RegsOk {
  csr_len : length (csr r) = 128%nat;
  csr_fits : Forall (fits 16) (csr r);
  rap_fits : fits 7 (rap r);
  mode_fits : fits 16 (am_mode r);
  ladrf_fits : fits 64 (am_ladrf r);
  rlen_fits : fits 16 (am_rdr_rlen r);
  rdra_fits : fits 15 (am_rdr_rdra r);
  tlen_fits : fits 16 (am_tdr_tlen r);
  tdra_fits : fits 15 (am_tdr_tdra r);
  tdr_offset_range : 0 ≤ tdr_offset r ≤ 512;
  rdr_offset_range : 0 ≤ rdr_offset r ≤ 512;
  fakemac_len : length (fakemac r) = 6%nat;
  fakemac_bytes : Forall (fits 8) (fakemac r) }.

(** The part of the CSR0 invariant that holds at every intermediate point: the
    error bits the daemon never raises are clear, and a stopped chip is neither
    initialising, started, transmitting nor receiving. *)
Definition csr0_core (c : Z) : Prop :=
  flag c (Z.lor (Z.lor (Z.lor CSR0_ERR CSR0_BABL) CSR0_CERR) CSR0_MERR) = false
  ∧ (flag c CSR0_STOP = true →
     flag c (Z.lor (Z.lor (Z.lor CSR0_INIT CSR0_STRT) CSR0_TXON) CSR0_RXON) = false).

(** The CSR0 invariant between operations: moreover TDMD is never left set and
    INTR summarises the interrupt causes. *)
Definition csr0_inv (c : Z) : Prop :=
  csr0_core c ∧ flag c CSR0_TDMD = false ∧ flag c CSR0_INTR = flag c INT_CAUSES.

Record world_ok (w : world) : Prop := WorldOk {
  reg_ok : regs_ok (w_reg w);
  mac_ok : macs_ok (w_mac w);
  buf_len : length (transmitbuffer (w_ring w)) = 4096%nat;
  buf_bytes : Forall (fits 8) (transmitbuffer (w_ring w));
  win_ok : window_ok (w_win w);
  csr0_ok : csr0_core (csr0 w) }.

(** ** Interface laws *)

(** [w'] differs from [w] only in window bytes outside the board RAM and in the mailbox
    daemon's variables other than its queue. *)
Record ctl_frame (w w' : world) : Prop := CtlFrame {
  frame_reg : w_reg w' = w_reg w;
  frame_mac : w_mac w' = w_mac w;
  frame_ring : w_ring w' = w_ring w;
  frame_boardram : w_boardram w' = w_boardram w;
  frame_sock : w_sock w' = w_sock w;
  frame_sent : w_sent w' = w_sent w;
  frame_deferred : deferred (w_ddr3 w') = deferred (w_ddr3 w);
  frame_ram : ∀ a, w_boardram w ≤ a < w_boardram w + RAM_SIZE →
    rd8 (w_win w') a = rd8 (w_win w) a;
  frame_win : window_ok (w_win w) → window_ok (w_win w') }.

(** The bytes through which the FPGA asks: the first two slots behind the board RAM and,
    in the bridge window, the registers before it. *)
Definition request_byte (base a : Z) : Prop :=
  base + 0x8000 ≤ a < base + 0x8010 ∨ base - 0x8000 ≤ a < base - 0x7FF0.

(** They are the same in [w] and [w']. *)
Definition quiet (w w' : world) : Prop :=
  ∀ a, request_byte (w_boardram w) a → rd8 (w_win w') a = rd8 (w_win w) a.

(** An interrupt callback only writes control slots, and none the FPGA asks through. *)
Class IntHandlerOk `{IntHandler} : Prop :=
  int_handler_frame : ∀ f w, on_interrupt = Some f → ctl_frame w (f w) ∧ quiet w (f w).

(** The CSR0 bits that say whether and how the chip runs. *)
Definition RUN_BITS : Z :=
  Z.lor (Z.lor (Z.lor (Z.lor CSR0_STOP CSR0_INIT) CSR0_STRT) CSR0_INEA) CSR0_TDMD.

(** The registers without CSR0 and the ring positions. *)
Definition config (r : regs) : regs := set_csr_at 0 0 (set_tdr_offset 0 (set_rdr_offset 0 r)).

(** A frame as the socket takes it: bytes, at least one, no more than the transmit buffer
    holds. *)
Definition frame_ok (f : list Z) : Prop := (0 < length f ≤ 4096)%nat ∧ Forall (fits 8) f.

(** [l'] is [l] and further such frames. *)
Definition sent_more (l l' : list (list Z)) : Prop := ∃ fs, l' = l ++ fs ∧ Forall frame_ok fs.

#[export] Instance sent_more_preorder : PreOrder sent_more.
Proof.
  split.
  - intros l. exists []. by rewrite app_nil_r.
  - intros l1 l2 l3 (fs & -> & F) (fs' & -> & F'). exists (fs ++ fs'). by rewrite app_assoc, Forall_app.
Qed.

(** [w'] has the configuration, the addresses, the run state and the deferred writes of
    [w], and has sent what [w] has and perhaps more. *)
Record run_frame (w w' : world) : Prop := RunFrame {
  run_config : config (w_reg w') = config (w_reg w);
  run_bits : Z.land (csr0 w') RUN_BITS = Z.land (csr0 w) RUN_BITS;
  run_mac : w_mac w' = w_mac w;
  run_boardram : w_boardram w' = w_boardram w;
  run_sock : w_sock w' = w_sock w;
  run_sent : sent_more (w_sent w) (w_sent w');
  run_deferred : deferred (w_ddr3 w') = deferred (w_ddr3 w);
  run_quiet : quiet w w' }.

(** A transmit callback keeps the world well-formed, the configuration and the
    run state. *)
Class TxHandlerOk `{TxHandler} : Prop :=
  tx_handler_ok : ∀ f w n w', on_transmit = Some f → world_ok w → f w = Ok (n, w') →
    world_ok w' ∧ run_frame w w'.

#[export] Instance run_frame_preorder : PreOrder run_frame.
Proof.
  split; [by split|]. intros w1 w2 w3 [] []. split; try congruence; [by etransitivity|]. intros a Ha.
  rewrite run_quiet1 by (by rewrite run_boardram0). auto.
Qed.

(** ** Lemmas: the record *)

Lemma ctl_frame_refl w : ctl_frame w w.
Proof. by split. Qed.

Lemma ctl_frame_trans w1 w2 w3 : ctl_frame w1 w2 → ctl_frame w2 w3 → ctl_frame w1 w3.
Proof.
  intros [] []. split; try congruence; [|auto]. intros a Ha.
  rewrite frame_ram1 by congruence. auto.
Qed.

#[export] Instance ctl_frame_preorder : PreOrder ctl_frame.
Proof. split; [exact ctl_frame_refl|exact ctl_frame_trans]. Qed.

Lemma csr_at_set_len n v r : length (csr r) = 128%nat → (n < 128)%nat →
  csr_at n (set_csr_at n v r) = v.
Proof.
  intros Hl Hn. unfold csr_at, set_csr_at. cbn. rewrite nth_insert by lia.
  by rewrite decide_True.
Qed.

Lemma csr_at_set_eq n v r : regs_ok r → (n < 128)%nat → csr_at n (set_csr_at n v r) = v.
Proof. intros [Hl]. by apply csr_at_set_len. Qed.

Lemma csr_at_set_ne n m v r : n ≠ m → csr_at m (set_csr_at n v r) = csr_at m r.
Proof.
  intros Hn. unfold csr_at, set_csr_at. cbn. rewrite !nth_lookup. by rewrite list_lookup_insert_ne.
Qed.

Lemma csr0_set_csr0 v w : regs_ok (w_reg w) → csr0 (set_csr0 v w) = v.
Proof. intros. by apply csr_at_set_eq; [|lia]. Qed.

Lemma csr_at_fits n r : regs_ok r → fits 16 (csr_at n r).
Proof.
  intros [_ Hf]. unfold csr_at. rewrite nth_lookup.
  destruct (csr r !! n) eqn:E; simpl; [by apply (Forall_lookup_1 _ _ _ _ Hf E)|by split].
Qed.

Lemma csr0_fits w : world_ok w → fits 16 (csr0 w).
Proof. intros []. by apply csr_at_fits. Qed.

Lemma regs_ok_set_csr_at n v r : regs_ok r → fits 16 v → regs_ok (set_csr_at n v r).
Proof.
  intros [] Hv. split; cbn; try done; [by rewrite length_insert|by apply Forall_insert].
Qed.
#[export] Hint Resolve regs_ok_set_csr_at csr_at_fits csr0_fits : a2065.
#[export] Hint Resolve csr_at_fits csr0_fits : fits.

Lemma world_ok_set_csr0 c w : world_ok w → fits 16 c → csr0_core c → world_ok (set_csr0 c w).
Proof.
  intros [] Hf Hc. split; [by apply regs_ok_set_csr_at|done..|by rewrite csr0_set_csr0].
Qed.

Lemma ctl_frame_ok w w' : ctl_frame w w' → world_ok w → world_ok w'.
Proof.
  intros [] []. split; unfold csr0 in *; rewrite ?frame_reg0, ?frame_mac0, ?frame_ring0; auto.
Qed.

Lemma ctl_frame_csr0 w w' : ctl_frame w w' → csr0 w' = csr0 w.
Proof. intros []. unfold csr0. congruence. Qed.

(** Board RAM reads do not see a callback. *)
Lemma ctl_frame_ram_byte w w' off : ctl_frame w w' → ram_byte w' off = ram_byte w off.
Proof.
  intros []. unfold ram_byte, get_ram_byte. rewrite frame_boardram0.
  apply frame_ram0, ram_index_range.
Qed.

Lemma ctl_frame_ram_word w w' off : ctl_frame w w' → ram_word w' off = ram_word w off.
Proof.
  intros H. unfold ram_word, get_ram_word. fold (ram_byte w' off) (ram_byte w' (off + 1)).
  by rewrite !(ctl_frame_ram_byte w w').
Qed.

(** ** Lemmas: CSR0 *)

Lemma rethink_csr0_bits c i : 0 ≤ i →
  Z.testbit (rethink_csr0 c) i = if i =? 7 then flag c INT_CAUSES else Z.testbit c i.
Proof.
  intros Hi. unfold rethink_csr0.
  assert (flag (andnot c CSR0_INTR) INT_CAUSES = flag c INT_CAUSES) as ->.
  { unfold INT_CAUSES. flags_to_bits. push_bits. done. }
  destruct (Z.eqb_spec i 7) as [->|Hn].
  - destruct (flag c INT_CAUSES); push_bits; done.
  - assert (Z.testbit CSR0_INTR i = false) as E
      by (apply (Z.pow2_bits_false 7 i); lia).
    destruct (flag c INT_CAUSES); push_bits; rewrite E; push_bits; done.
Qed.

Lemma rethink_csr0_fits c : fits 16 c → fits 16 (rethink_csr0 c).
Proof. intros. unfold rethink_csr0. cbv zeta. solve_fits. Qed.

Lemma rethink_csr0_inv c : csr0_core c → flag c CSR0_TDMD = false → csr0_inv (rethink_csr0 c).
Proof.
  intros [H1 H2] H3. unfold csr0_inv, csr0_core, INT_CAUSES in *.
  flags_to_bits. rewrite !rethink_csr0_bits by lia. simpl Z.eqb. cbv iota.
  unfold INT_CAUSES. flags_to_bits. auto.
Qed.

Lemma csr0_core_set c m : csr0_core c →
  flag m (Z.lor (Z.lor (Z.lor CSR0_ERR CSR0_BABL) CSR0_CERR) CSR0_MERR) = false →
  flag m (Z.lor (Z.lor (Z.lor (Z.lor CSR0_INIT CSR0_STRT) CSR0_TXON) CSR0_RXON) CSR0_STOP) = false →
  csr0_core (Z.lor c m).
Proof. unfold csr0_core. intros [H1 H2] H3 H4. solve_bits. Qed.

Lemma csr0_core_clr c m : csr0_core c → csr0_core (andnot c m).
Proof. unfold csr0_core. intros [H1 H2]. solve_bits. Qed.

Lemma csr0_merge_fits c v : fits 16 c → fits 16 v → fits 16 (csr0_merge c v).
Proof. intros. unfold csr0_merge. cbv zeta. solve_fits. Qed.

Lemma csr0_on_fits mode c : fits 16 c → fits 16 (csr0_on mode c).
Proof. intros. unfold csr0_on. cbv zeta. repeat case_match; solve_fits. Qed.

Lemma csr0_on_core mode c : csr0_core (andnot c CSR0_STOP) →
  csr0_core (csr0_on mode (andnot c CSR0_STOP)).
Proof.
  unfold csr0_core, csr0_on. intros [H1 H2]. flags_to_bits. push_bits_in H1.
  destruct (Z.testbit mode 1), (Z.testbit mode 0); push_bits; split_bits.
Qed.

(** ** Lemmas: well-formedness is preserved *)

Lemma ram_word_fits w off : fits 16 (ram_word w off).
Proof. apply get_ram_word_fits. Qed.

Lemma ram_byte_fits w off : window_ok (w_win w) → fits 8 (ram_byte w off).
Proof. apply get_ram_byte_fits. Qed.
#[export] Hint Resolve ram_word_fits : fits.

(** A ring length in the init block is a power of two of at most 128. *)
Lemma ring_len_range x : 1 ≤ Z.shiftl 1 (Z.land x 7) ≤ 128.
Proof.
  change 7 with (Z.ones 3). rewrite Z.land_ones, Z.shiftl_mul_pow2, Z.mul_1_l
    by (try apply Z.mod_pos_bound; lia).
  pose proof (Z.mod_pos_bound x (2 ^ 3)).
  pose proof (Z.pow_le_mono_r 2 0 (x mod 2 ^ 3)). pose proof (Z.pow_le_mono_r 2 (x mod 2 ^ 3) 7).
  lia.
Qed.

Lemma ring_len_fits x : fits 16 (Z.shiftl 1 (Z.land x 7)).
Proof. pose proof (ring_len_range x). unfold fits. change (2 ^ 16) with 65536. lia. Qed.

Lemma regs_ok_mask r :
  regs_ok (set_am_rdr_rdra 0 (set_am_tdr_tdra 0 r)) → regs_ok (chip_init_mask r).
Proof. intros []. split; cbn in *; try done; try lia; solve_fits. Qed.

Lemma regs_ok_load w off r : window_ok (w_win w) → regs_ok r →
  regs_ok (chip_init_mask (load_init_block w off r)).
Proof.
  intros Hw []. apply regs_ok_mask. split; cbn; try done.
  - solve_fits.
  - solve_fits.
  - apply ring_len_fits.
  - apply ring_len_fits.
  - repeat constructor; by apply ram_byte_fits.
Qed.

Lemma csr0_chip_init w : csr0 (chip_init w) = csr0 w.
Proof. reflexivity. Qed.

Lemma world_ok_chip_init w : world_ok w → world_ok (chip_init w).
Proof.
  intros []. unfold chip_init. split; cbn -[load_init_block chip_init_mask]; try done.
  - by apply regs_ok_load.
  - split; cbn; try apply mac_ok0; [done|repeat constructor; by apply ram_byte_fits].
Qed.

Lemma world_ok_upd_reg f w : world_ok w → regs_ok (f (w_reg w)) →
  csr0_core (csr_at 0 (f (w_reg w))) → world_ok (upd_reg f w).
Proof. intros [] H1 H2. by split. Qed.

Lemma regs_ok_initialized b r : regs_ok r → regs_ok (set_am_initialized b r).
Proof. by intros []. Qed.

(** What a CSR0 write does to CSR0 before any command is executed: in a
    well-formed chip only a STOP, STRT or INIT command can break the invariant. *)
Lemma csr0_merge_bits c v i : 0 ≤ i < 16 →
  Z.testbit (csr0_merge c v) i =
  if i =? 6 then Z.testbit v 6
  else if i <? 4 then Z.testbit c i || Z.testbit v i
  else if (8 <=? i) && (i <? 15) then Z.testbit c i && negb (Z.testbit v i)
  else if i =? 15 then false else Z.testbit c i.
Proof.
  intros Hi. unfold csr0_merge. cbv zeta. push_bits.
  assert (i = 0 ∨ i = 1 ∨ i = 2 ∨ i = 3 ∨ i = 4 ∨ i = 5 ∨ i = 6 ∨ i = 7 ∨ i = 8 ∨ i = 9 ∨ i = 10
    ∨ i = 11 ∨ i = 12 ∨ i = 13 ∨ i = 14 ∨ i = 15) as Hc by lia.
  repeat destruct Hc as [->|Hc]; [..|subst i]; push_bits; done.
Qed.

(** Rewrite the bits of a merged CSR0. *)
Ltac merge_bits :=
  repeat match goal with
  | |- context [Z.testbit (csr0_merge ?c ?v) ?i] => rewrite (csr0_merge_bits c v i) by lia
  | H : context [Z.testbit (csr0_merge ?c ?v) ?i] |- _ =>
      rewrite (csr0_merge_bits c v i) in H by lia
  end; cbn [Z.eqb Z.ltb Z.leb Z.compare Pos.compare Pos.compare_cont Pos.eqb andb orb] in *.

(** ** Lemmas: a CSR0 write *)

(** STOP is only left set by the merge when it was already set. *)
Lemma csr0_merge_core c v : csr0_core c →
  flag (csr0_merge c v) CSR0_STOP = false ∨
  flag c CSR0_STOP = true ∧ flag (csr0_merge c v) (Z.lor CSR0_STRT CSR0_INIT) = false →
  csr0_core (csr0_merge c v).
Proof.
  unfold csr0_core. intros [H1 H2] H3. flags_to_bits. merge_bits. push_bits.
  destruct H3; split_bits.
Qed.

(** The same bits with STOP cleared. *)
Lemma csr0_merge_started c v : csr0_core c → csr0_core (andnot (csr0_merge c v) CSR0_STOP).
Proof.
  unfold csr0_core. intros [H1 H2]. flags_to_bits. push_bits. merge_bits. split_bits.
Qed.

(** The INIT command: IDON set, the transmitter, the receiver and STOP off. *)
Lemma csr0_merge_inited c v : csr0_core c →
  csr0_core (andnot (Z.lor (csr0_merge c v) CSR0_IDON)
    (Z.lor (Z.lor CSR0_RXON CSR0_TXON) CSR0_STOP)).
Proof.
  unfold csr0_core. intros [H1 H2]. flags_to_bits. push_bits. merge_bits. split_bits.
Qed.

Lemma set_csr0_twice a b u : set_csr0 a (set_csr0 b u) = set_csr0 a u.
Proof.
  unfold set_csr0, upd_reg, set_csr_at, set_csr. cbn. by rewrite list_insert_insert_eq.
Qed.

Lemma upd_reg_comp g f w : upd_reg (λ r, g (f r)) w = upd_reg g (upd_reg f w).
Proof. reflexivity. Qed.

Lemma csr0_csr_write n x w : (0 < n)%nat → csr0 (upd_reg (set_csr_at n x) w) = csr0 w.
Proof. intros Hn. apply csr_at_set_ne. lia. Qed.

Lemma world_ok_set_csr_at n x w : (0 < n)%nat → fits 16 x → world_ok w →
  world_ok (upd_reg (set_csr_at n x) w).
Proof.
  intros Hn Hx Hw. apply world_ok_upd_reg; [done|apply regs_ok_set_csr_at; [apply Hw|done]|].
  rewrite csr_at_set_ne by lia. apply Hw.
Qed.

Lemma world_ok_initialized b w : world_ok w → world_ok (upd_reg (set_am_initialized b) w).
Proof. intros Hw. apply world_ok_upd_reg; [done|apply regs_ok_initialized, Hw|apply Hw]. Qed.

Lemma world_ok_idon w : world_ok w → world_ok (set_csr0 (Z.lor (csr0 w) CSR0_IDON) w).
Proof.
  intros Hw. apply world_ok_set_csr0; [done| |apply csr0_core_set; [apply Hw|done..]].
  assert (H := csr0_fits w Hw). solve_fits.
Qed.

(** The init block is found through CSR1 and CSR2 only. *)
Lemma chip_init_set_csr0 c w : chip_init (set_csr0 c w) = set_csr0 c (chip_init w).
Proof.
  unfold chip_init, set_csr0.
  assert (init_block_off (w_reg (rings_reset_loopback_count (upd_reg (set_csr_at 0 c) w)))
    = init_block_off (w_reg (rings_reset_loopback_count w))) as ->; [|done].
  unfold init_block_off. cbn -[csr_at set_csr_at]. by rewrite !csr_at_set_ne.
Qed.

Section command.
Context (w : world) (Hw : world_ok w) (v : Z) (Hv : fits 16 v).
Let oreg := csr0 w.
Let w1 := set_csr0 (csr0_merge oreg v) w.

Lemma csr0_merged : csr0 w1 = csr0_merge oreg v.
Proof. apply csr0_set_csr0, Hw. Qed.

Lemma merged_fits : fits 16 (csr0_merge oreg v).
Proof. apply csr0_merge_fits; [by apply csr0_fits|done]. Qed.

(** [w1] up to its CSR0 is a well-formed world. *)
Lemma world_ok_merged_set c : fits 16 c → csr0_core c → world_ok (set_csr0 c w1).
Proof. intros. unfold w1. rewrite set_csr0_twice. by apply world_ok_set_csr0. Qed.

(** Every CSR0 command leaves a well-formed world. *)
Lemma world_ok_command : world_ok (csr0_command oreg w1).
Proof.
  assert (Hm := merged_fits). assert (Hc := csr0_ok w Hw). fold oreg in Hc.
  unfold csr0_command. cbv zeta. rewrite csr0_merged.
  destruct (flag _ CSR0_STOP && _) eqn:E1; [|destruct (flag _ CSR0_STRT && _ && _) eqn:E2;
    [|destruct (flag _ CSR0_INIT && _ && _) eqn:E3]].
  - apply (world_ok_set_csr_at 3 0 (set_csr0 CSR0_STOP w1)); [lia|done|].
    by apply world_ok_merged_set.
  - set (c := csr0_on _ _).
    assert (Hon : world_ok (set_csr0 c w1)).
    { apply world_ok_merged_set; [|by apply csr0_on_core, csr0_merge_started].
      apply csr0_on_fits. solve_fits. }
    case_match; [|done]. apply world_ok_initialized. by apply world_ok_idon, world_ok_chip_init.
  - unfold w1. rewrite chip_init_set_csr0.
    assert (Hi := world_ok_chip_init w Hw). rewrite !csr0_set_csr0 by
      (try apply regs_ok_set_csr_at; try apply Hi; solve_fits).
    rewrite !set_csr0_twice.
    rewrite (upd_reg_comp (set_csr_at 3 0) (set_am_initialized true)).
    apply world_ok_set_csr_at; [lia|done|].
    apply world_ok_initialized, world_ok_set_csr0; [done|solve_fits|].
    by apply csr0_merge_inited.
  - apply world_ok_set_csr0; [done..|]. apply csr0_merge_core; [done|].
    unfold csr0_core in Hc. clear -E1 E2 E3 Hc. destruct Hc as [_ Hc]. flags_to_bits. 
    destruct (Z.testbit (csr0_merge oreg v) 2) eqn:E; [right|by left]. split_bits.
Qed.
End command.

(** ** Lemmas: the other registers *)

Lemma neg16_fits v : fits 16 (neg16 v).
Proof. unfold neg16. apply fits_land_r; [lia|by split]. Qed.

Lemma regs_ok_fakemac_pair i v r : regs_ok r → regs_ok (set_fakemac_pair i v r).
Proof.
  intros []. split; cbn; try done; [by rewrite !length_insert|].
  apply Forall_insert; [apply Forall_insert; [done|apply fits_u8]|solve_fits].
Qed.

(** A register write outside CSR0 to CSR3. *)
Lemma wput_ext_ok n v r : 4 ≤ n → fits 16 v → regs_ok r →
  regs_ok (wput_ext n v r) ∧ csr_at 0 (wput_ext n v r) = csr_at 0 r.
Proof.
  intros Hn Hv Hr. unfold wput_ext. pose proof (neg16_fits v).
  repeat (case_match; [|]);
    try (split; [by apply regs_ok_fakemac_pair|done]);
    try (split; [by apply regs_ok_set_csr_at|apply csr_at_set_ne; lia]);
    (split; [|done]); try (apply regs_ok_mask); destruct Hr; split; cbn; try done; solve_fits.
Qed.

Lemma csr_write_ok n x w : world_ok w → csr0_inv (csr0 w) → (0 < n)%nat → fits 16 x →
  world_ok (upd_reg (set_csr_at n x) w) ∧ csr0_inv (csr0 (upd_reg (set_csr_at n x) w)).
Proof.
  intros Hw Hi Hn Hx. split; [by apply world_ok_set_csr_at|].
  by rewrite csr0_csr_write.
Qed.

(** ** Lemmas: callbacks *)

Section handlers.
Context `{Hint : IntHandler, Hintok : !IntHandlerOk}.

(** [rethink] is the CSR0 update followed by window writes outside the RAM. *)
Lemma rethink_frame w : ctl_frame (set_csr0 (rethink_csr0 (csr0 w)) w) (rethink w).
Proof.
  unfold rethink. cbv zeta. case_match; [|reflexivity].
  destruct on_interrupt eqn:E; [by apply int_handler_frame|reflexivity].
Qed.

Lemma rethink_quiet w : quiet w (rethink w).
Proof.
  unfold rethink. cbv zeta. case_match; [|done]. destruct on_interrupt eqn:E; [|done].
  by apply (int_handler_frame _ (set_csr0 _ w)).
Qed.

Lemma csr0_rethink w : world_ok w → csr0 (rethink w) = rethink_csr0 (csr0 w).
Proof.
  intros Hw. rewrite (ctl_frame_csr0 _ _ (rethink_frame w)). apply csr0_set_csr0, Hw.
Qed.

Lemma world_ok_rethink w : world_ok w → world_ok (rethink w).
Proof.
  intros Hw. apply (ctl_frame_ok _ _ (rethink_frame w)).
  apply world_ok_set_csr0; [done|by apply rethink_csr0_fits, csr0_fits|].
  unfold csr0_core. pose proof (csr0_ok w Hw) as [H1 H2].
  flags_to_bits. rewrite !rethink_csr0_bits by lia. cbn [Z.eqb Pos.eqb]. done.
Qed.

Lemma rethink_inv w : world_ok w → flag (csr0 w) CSR0_TDMD = false → csr0_inv (csr0 (rethink w)).
Proof. intros Hw Ht. rewrite csr0_rethink by done. apply rethink_csr0_inv; [apply Hw|done]. Qed.

Context `{Htx : TxHandler, Htxok : !TxHandlerOk}.

Lemma csr0_implicit_start w : world_ok w →
  world_ok (if flag (csr0 w) CSR0_TXON then w
            else set_csr0 (csr0_on (am_mode (w_reg w)) (andnot (csr0 w) CSR0_STOP)) w).
Proof.
  intros Hw. case_match; [done|]. assert (Hf := csr0_fits w Hw).
  apply world_ok_set_csr0; [done|apply csr0_on_fits; solve_fits|].
  apply csr0_on_core, csr0_core_clr, Hw.
Qed.

Lemma csr0_demand_ok w w' : world_ok w → csr0_demand w = Ok w' →
  world_ok w' ∧ flag (csr0 w') CSR0_TDMD = false.
Proof.
  intros Hw. unfold csr0_demand. destruct (flag (csr0 w) CSR0_TDMD) eqn:E; [|by intros [= <-]].
  intros H. bind_inv H. rename x into w2. injection H as <-.
  assert (Hw2 : world_ok w2).
  { destruct (am_initialized (w_reg w)); [|by injection Hx as <-].
    pose proof (csr0_implicit_start w Hw) as Hs.
    destruct on_transmit eqn:Et; [|by injection Hx as <-].
    bind_inv Hx. destruct x as [n w3]. injection Hx as <-. by eapply tx_handler_ok in Hs as [? _]. }
  split.
  - apply world_ok_set_csr0; [done| |apply csr0_core_clr, Hw2].
    assert (Hf := csr0_fits w2 Hw2). solve_fits.
  - rewrite csr0_set_csr0 by apply Hw2. solve_bits.
Qed.

Lemma wput_csr0_ok v w w' : world_ok w → fits 16 v → wput_csr0 v w = Ok w' →
  world_ok w' ∧ csr0_inv (csr0 w').
Proof.
  intros Hw Hv H. unfold wput_csr0 in H. cbv zeta in H. bind_inv H. injection H as <-.
  destruct (csr0_demand_ok _ _ (world_ok_command w Hw v Hv) Hx) as [H1 H2].
  split; [by apply world_ok_rethink|by apply rethink_inv].
Qed.

Lemma chip_wput_ok off v w w' : world_ok w → csr0_inv (csr0 w) → fits 16 v →
  chip_wput off v w = Ok w' → world_ok w' ∧ csr0_inv (csr0 w').
Proof.
  intros Hw Hi Hv. unfold chip_wput.
  destruct (off =? A2065_RAP_OFF).
  { intros [= <-]. split; [|done]. apply world_ok_upd_reg; [done| |apply Hw].
    destruct (reg_ok w Hw). split; try done. cbn. solve_fits. }
  destruct (RAP_SIZE <=? _); [by intros [= <-]|].
  destruct (Z.eqb_spec (rap (w_reg w)) 0); [by apply wput_csr0_ok|].
  destruct (Z.eqb_spec (rap (w_reg w)) 1), (Z.eqb_spec (rap (w_reg w)) 2),
    (Z.eqb_spec (rap (w_reg w)) 3); intros [= <-];
    try (case_match; [|done]; apply csr_write_ok; [done..|lia|solve_fits]).
  destruct (rap_fits _ (reg_ok w Hw)). destruct (wput_ext_ok (rap (w_reg w)) v (w_reg w)) as [H1 H2];
    [lia|done|apply Hw|].
  split; [apply world_ok_upd_reg; [done..|rewrite H2; apply Hw]|].
  unfold csr0. cbn -[wput_ext csr_at]. by rewrite H2.
Qed.
End handlers.

(** ** Specification of the initialisation block (Am7990 data sheet, table "init block") *)

Record init_block := InitBlock {
  ib_mode : Z;
  ib_padr : list Z;       (** station address, first wire byte first *)
  ib_ladrf : Z;           (** 64-bit logical address filter *)
  ib_rlen : Z;            (** log2 of the number of receive descriptors *)
  ib_rdra : Z;
  ib_tlen : Z;            (** log2 of the number of transmit descriptors *)
  ib_tdra : Z }.

Record init_block_ok (b : init_block) : Prop := InitBlockOk {
  ib_mode_fits : fits 16 (ib_mode b);
  ib_padr_len : length (ib_padr b) = 6%nat;
  ib_padr_bytes : Forall (fits 8) (ib_padr b);
  ib_ladrf_fits : fits 64 (ib_ladrf b);
  ib_rlen_fits : fits 3 (ib_rlen b);
  ib_rdra_fits : fits 24 (ib_rdra b);
  ib_rdra_aligned : Z.land (ib_rdra b) 7 = 0;
  ib_tlen_fits : fits 3 (ib_tlen b);
  ib_tdra_fits : fits 24 (ib_tdra b);
  ib_tdra_aligned : Z.land (ib_tdra b) 7 = 0 }.

(** Word [k] of a value, the low one first. *)
Definition word_at (k x : Z) : Z := u16 (Z.shiftr x (16 * k)).
Definition padr_word (b : init_block) (i : nat) : Z :=
  nth (S i) (ib_padr b) 0 * 256 + nth i (ib_padr b) 0.
Definition ring_dword (len addr : Z) : Z := Z.lor (Z.shiftl len 29) addr.

(** The twelve words of the block. *)
Definition encode_init_block (b : init_block) : list Z :=
  [ib_mode b; padr_word b 0; padr_word b 2; padr_word b 4;
   word_at 0 (ib_ladrf b); word_at 1 (ib_ladrf b); word_at 2 (ib_ladrf b); word_at 3 (ib_ladrf b);
   word_at 0 (ring_dword (ib_rlen b) (ib_rdra b)); word_at 1 (ring_dword (ib_rlen b) (ib_rdra b));
   word_at 0 (ring_dword (ib_tlen b) (ib_tdra b)); word_at 1 (ring_dword (ib_tlen b) (ib_tdra b))].

(** The block stands in board RAM at [off]. *)
Definition init_block_at (w : world) (off : Z) (b : init_block) : Prop :=
  ∀ i x, encode_init_block b !! i = Some x → ram_word w (off + 2 * Z.of_nat i) = x.

(** The chip's configuration is that of the block; ring addresses are reduced
    to the card's 32 KiB and the ring positions restart at 0. *)
Record configured (b : init_block) (w : world) : Prop := Configured {
  conf_mode : am_mode (w_reg w) = ib_mode b;
  conf_ladrf : am_ladrf (w_reg w) = ib_ladrf b;
  conf_rlen : am_rdr_rlen (w_reg w) = 2 ^ ib_rlen b;
  conf_rdra : am_rdr_rdra (w_reg w) = ib_rdra b mod 2 ^ 15;
  conf_tlen : am_tdr_tlen (w_reg w) = 2 ^ ib_tlen b;
  conf_tdra : am_tdr_tdra (w_reg w) = ib_tdra b mod 2 ^ 15;
  conf_tdr_offset : tdr_offset (w_reg w) = 0;
  conf_rdr_offset : rdr_offset (w_reg w) = 0;
  conf_fakemac : fakemac (w_reg w) = ib_padr b;
  conf_mac : mac_fakemac (w_mac w) = ib_padr b }.

Lemma word_at_bits k x i : 0 ≤ k →
  Z.testbit (word_at k x) i = (0 <=? i) && (i <? 16) && Z.testbit x (i + 16 * k).
Proof.
  intros Hk. unfold word_at, u16. destruct (Z.leb_spec 0 i); simpl.
  - push_bits. done.
  - by rewrite Z.testbit_neg_r by lia.
Qed.

Lemma word_at_fits k x : fits 16 (word_at k x).
Proof. apply fits_u16. Qed.
#[local] Hint Resolve word_at_fits : fits.

(** Decide an equality between joined words of [x], bit by bit. *)
Ltac join_words :=
  intros i Hi; unfold u32; autorewrite with bits; rewrite ?word_at_bits by lia;
  repeat match goal with
  | |- context [?a <=? ?b] => destruct (Z.leb_spec a b)
  | |- context [?a <? ?b] => destruct (Z.ltb_spec a b)
  end; cbn [andb orb]; try lia; rewrite ?orb_false_r; try done; f_equal; lia.

Lemma word_at_join2 x : fits 32 x → Z.lor (u32 (Z.shiftl (word_at 1 x) 16)) (word_at 0 x) = x.
Proof.
  intros Hx. apply (fits_bits_inj 32); [lia|solve_fits|done|]. join_words.
Qed.

Lemma word_at_join4 x : fits 64 x →
  Z.lor (Z.lor (Z.lor (Z.shiftl (word_at 3 x) 48) (Z.shiftl (word_at 2 x) 32))
    (Z.shiftl (word_at 1 x) 16)) (word_at 0 x) = x.
Proof.
  intros Hx. apply (fits_bits_inj 64); [lia|solve_fits|done|]. join_words.
Qed.

(** The two fields of a ring double word. *)
Lemma ring_dword_fits len addr : fits 3 len → fits 24 addr → fits 32 (ring_dword len addr).
Proof.
  intros. apply fits_lor; [lia|by apply fits_shiftl|by apply (fits_mono 24)].
Qed.

Lemma ring_dword_len len addr : fits 3 len → fits 24 addr →
  Z.land (Z.shiftr (ring_dword len addr) 29) 7 = len.
Proof.
  intros Hl Ha. apply (fits_bits_inj 3); [lia|apply fits_land_r; [lia|by split]|done|].
  intros i Hi. change 7 with (Z.ones 3). unfold ring_dword. push_bits.
  rewrite (fits_testbit 24 addr) by (done || lia). destruct (Z.ltb_spec i 3); [|lia].
  rewrite orb_false_r, andb_true_r. f_equal. lia.
Qed.

Lemma ring_dword_addr len addr : fits 3 len → fits 24 addr → Z.land addr 7 = 0 →
  Z.land (Z.land (ring_dword len addr) 0x00fffff8) RAM_MASK = addr mod 2 ^ 15.
Proof.
  intros Hl Ha Hz. change RAM_MASK with (Z.ones 15). rewrite Z.land_ones by lia.
  replace (Z.land (ring_dword len addr) 0x00fffff8) with addr; [done|].
  apply (fits_bits_inj 24); [lia|done|apply fits_land_r; [lia|by split]|].
  intros i Hi. change 0x00fffff8 with (Z.shiftl (Z.ones 21) 3). unfold ring_dword. push_bits.
  rewrite (Z.testbit_neg_r len) by lia. rewrite orb_false_l.
  destruct (decide (i < 3)).
  - apply (f_equal (λ y, Z.testbit y i)) in Hz. change 7 with (Z.ones 3) in Hz.
    push_bits_in Hz. rewrite (Z.testbit_neg_r (Z.ones 21)) by lia.
    destruct (Z.ltb_spec i 3); [|lia]. rewrite andb_true_r in Hz. by rewrite Hz, andb_false_r.
  - rewrite ones_testbit by lia. destruct (Z.ltb_spec (i - 3) 21); [|lia]. by rewrite andb_true_r.
Qed.

Lemma ram_word_split w off h l : window_ok (w_win w) → fits 8 h → fits 8 l →
  ram_word w off = h * 256 + l → ram_byte w off = h ∧ ram_byte w (off + 1) = l.
Proof.
  intros Hw Hh Hl H. unfold ram_word in H. rewrite get_ram_word_bytes in H by done.
  fold (ram_byte w off) (ram_byte w (off + 1)) in H.
  pose proof (ram_byte_fits w off Hw). pose proof (ram_byte_fits w (off + 1) Hw).
  unfold fits in *. change (2 ^ 8) with 256 in *. lia.
Qed.

Lemma nth_fits n (l : list Z) i : 0 ≤ n → Forall (fits n) l → fits n (nth i l 0).
Proof.
  intros Hn Hl. rewrite nth_lookup. destruct (l !! i) eqn:E; simpl.
  - by apply (Forall_lookup_1 _ _ _ _ Hl E).
  - split; [lia|]. pose proof (Z.pow_pos_nonneg 2 n). lia.
Qed.

Lemma chip_init_configured w b : world_ok w → init_block_ok b →
  init_block_at w (init_block_off (w_reg w)) b → configured b (chip_init w).
Proof.
  intros Hw Hb Hat. set (off := init_block_off (w_reg w)) in *.
  assert (Hwd : ∀ k i x, encode_init_block b !! i = Some x → k = 2 * Z.of_nat i →
    ram_word w (off + k) = x).
  { intros k i x Hx ->. by apply Hat. }
  assert (Hmac : ∀ k i j, encode_init_block b !! j = Some (padr_word b i) → k = 2 * Z.of_nat j →
    ram_byte w (off + k) = nth (S i) (ib_padr b) 0 ∧ ram_byte w (off + (k + 1)) = nth i (ib_padr b) 0).
  { intros k i j Hx Hk. rewrite Z.add_assoc. apply ram_word_split; [apply Hw| | |by apply (Hwd k j)].
    all: by apply nth_fits, Hb. }
  pose proof (Hmac 2 0%nat 1%nat eq_refl eq_refl) as [M1 M0].
  pose proof (Hmac 4 2%nat 2%nat eq_refl eq_refl) as [M3 M2].
  pose proof (Hmac 6 4%nat 3%nat eq_refl eq_refl) as [M5 M4].
  assert (Hpadr : [ram_byte w (off + 3); ram_byte w (off + 2); ram_byte w (off + 5);
    ram_byte w (off + 4); ram_byte w (off + 7); ram_byte w (off + 6)] = ib_padr b).
  { change (2 + 1) with 3 in M0. change (4 + 1) with 5 in M2. change (6 + 1) with 7 in M4.
    rewrite M0, M1, M2, M3, M4, M5.
    pose proof (ib_padr_len b Hb).
    destruct (ib_padr b) as [|? [|? [|? [|? [|? [|? [|]]]]]]]; try done. }
  assert (Hrdr := word_at_join2 _ (ring_dword_fits _ _ (ib_rlen_fits b Hb) (ib_rdra_fits b Hb))).
  assert (Htdr := word_at_join2 _ (ring_dword_fits _ _ (ib_tlen_fits b Hb) (ib_tdra_fits b Hb))).
  assert (Hw' : ∀ x, ram_word (rings_reset_loopback_count w) x = ram_word w x) by done.
  unfold chip_init, load_init_block.
  change (init_block_off (w_reg (rings_reset_loopback_count w))) with off. rewrite !Hw'.
  rewrite (Hwd 0 0%nat _ eq_refl eq_refl), (Hwd 8 4%nat _ eq_refl eq_refl),
    (Hwd 10 5%nat _ eq_refl eq_refl), (Hwd 12 6%nat _ eq_refl eq_refl),
    (Hwd 14 7%nat _ eq_refl eq_refl), (Hwd 16 8%nat _ eq_refl eq_refl),
    (Hwd 18 9%nat _ eq_refl eq_refl), (Hwd 20 10%nat _ eq_refl eq_refl),
    (Hwd 22 11%nat _ eq_refl eq_refl), Hrdr, Htdr, word_at_join4 by apply Hb.
  destruct Hb.
  split; cbn; try done.
  - by rewrite ring_dword_len, Z.shiftl_mul_pow2, Z.mul_1_l by (done || apply ib_rlen_fits0).
  - by apply ring_dword_addr.
  - by rewrite ring_dword_len, Z.shiftl_mul_pow2, Z.mul_1_l by (done || apply ib_tlen_fits0).
  - by apply ring_dword_addr.
Qed.

(** ** Lemmas: CSR0 writes without transmit demand *)

Lemma registers_reset_ok w : world_ok w → world_ok (registers_reset w) ∧ csr0_inv (csr0 (registers_reset w)).
Proof.
  intros []. split; [|by vm_compute]. split; try done.
  assert (H : regs_ok (set_csr (replicate 128 0) (w_reg w))).
  { destruct reg_ok0. split; try done. apply Forall_replicate. by split. }
  apply (regs_ok_set_csr_at 0 CSR0_STOP) in H; [|by split].
  apply (regs_ok_set_csr_at 4 0x0115) in H; [|by split].
  destruct H. split; try done; cbn; lia.
Qed.

(** A sequence of register writes, in order. *)
Fixpoint chip_wputs `{IntHandler, TxHandler} (l : list (Z * Z)) (w : world) : res world :=
  match l with
  | [] => Ok w
  | (off, v) :: l => w ← chip_wput off v w; chip_wputs l w
  end.

Lemma chip_wputs_ok `{IntHandlerOk, TxHandlerOk} l w w' :
  world_ok w → csr0_inv (csr0 w) → Forall (λ p, fits 16 p.2) l → chip_wputs l w = Ok w' →
  world_ok w' ∧ csr0_inv (csr0 w').
Proof.
  revert w. induction l as [|[off v] l IH]; intros w Hw Hi Hl Hr; [by injection Hr as <-|].
  apply Forall_cons in Hl as [Hv Hl]. cbn in Hr. bind_inv Hr.
  destruct (chip_wput_ok off v w x Hw Hi Hv Hx). by apply (IH x).
Qed.

(** A write to CSR0 of a chip whose command leaves TDMD clear runs no transmit. *)
Lemma chip_wput_csr0_plain `{IntHandler, TxHandler} v w : rap (w_reg w) = 0 →
  flag (csr0 (csr0_command (csr0 w) (set_csr0 (csr0_merge (csr0 w) v) w))) CSR0_TDMD = false →
  chip_wput A2065_RDP_OFF v w =
  Ok (rethink (csr0_command (csr0 w) (set_csr0 (csr0_merge (csr0 w) v) w))).
Proof. intros Hr Ht. unfold chip_wput, wput_csr0, csr0_demand. rewrite Hr. cbn -[csr0 csr0_command]. by rewrite Ht. Qed.

(** The three commands, as the state they leave before [rethink]. *)
Lemma csr0_command_stop v w : world_ok w → flag (csr0 w) CSR0_STOP = false → flag v CSR0_STOP = true →
  csr0_command (csr0 w) (set_csr0 (csr0_merge (csr0 w) v) w)
  = upd_reg (set_csr_at 3 0) (set_csr0 CSR0_STOP w).
Proof.
  intros Hw H1 H2. unfold csr0_command. cbv zeta. rewrite csr0_merged, H1 by done.
  replace (flag (csr0_merge (csr0 w) v) CSR0_STOP) with true; cbn [andb negb].
  - rewrite (upd_reg_comp (set_csr_at 3 0) (set_csr_at 0 CSR0_STOP)).
    fold (set_csr0 CSR0_STOP (set_csr0 (csr0_merge (csr0 w) v) w)). by rewrite set_csr0_twice.
  - flags_to_bits. merge_bits. by rewrite H1, H2.
Qed.

Lemma csr0_command_init v w : world_ok w → fits 16 v → flag (csr0 w) CSR0_STOP = true →
  flag v CSR0_INIT = true → flag v CSR0_STRT = false →
  csr0_command (csr0 w) (set_csr0 (csr0_merge (csr0 w) v) w)
  = upd_reg (set_csr_at 3 0) (upd_reg (set_am_initialized true)
      (set_csr0 (andnot (Z.lor (csr0_merge (csr0 w) v) CSR0_IDON)
        (Z.lor (Z.lor CSR0_RXON CSR0_TXON) CSR0_STOP)) (chip_init w))).
Proof.
  intros Hw Hv H1 H2 H3. pose proof (csr0_ok w Hw) as [_ Hc]. specialize (Hc H1).
  assert (Hm := merged_fits w Hw v Hv).
  unfold csr0_command. cbv zeta. rewrite csr0_merged by done.
  rewrite H1, andb_false_r.
  replace (flag (csr0_merge (csr0 w) v) CSR0_STRT) with false; cbn [andb negb].
  2: { flags_to_bits. merge_bits. known_bits. }
  replace (flag (csr0_merge (csr0 w) v) CSR0_INIT && negb (flag (csr0 w) CSR0_INIT)) with true;
    cbn [andb].
  2: { flags_to_bits. merge_bits. known_bits. }
  rewrite chip_init_set_csr0. assert (Hi := reg_ok _ (world_ok_chip_init w Hw)).
  rewrite !csr0_set_csr0 by (try apply regs_ok_set_csr_at; try apply Hi; solve_fits).
  rewrite !set_csr0_twice.
  apply (upd_reg_comp (set_csr_at 3 0) (set_am_initialized true)).
Qed.

Lemma csr0_command_start v w : world_ok w → flag (csr0 w) CSR0_INIT = true →
  flag (csr0 w) CSR0_STRT = false → flag v CSR0_STRT = true → flag v CSR0_STOP = false →
  csr0_command (csr0 w) (set_csr0 (csr0_merge (csr0 w) v) w)
  = set_csr0 (csr0_on (am_mode (w_reg w)) (andnot (csr0_merge (csr0 w) v) CSR0_STOP)) w.
Proof.
  intros Hw H1 H2 H3 H4. pose proof (csr0_ok w Hw) as [_ Hc].
  unfold csr0_command. cbv zeta. rewrite csr0_merged, flag_lor, H1, H2 by done.
  rewrite orb_true_r, andb_false_r.
  replace (flag (csr0_merge (csr0 w) v) CSR0_STOP) with false;
    [|flags_to_bits; merge_bits; split_bits].
  replace (flag (csr0_merge (csr0 w) v) CSR0_STRT) with true; cbn [andb negb];
    [|flags_to_bits; merge_bits; split_bits].
  by rewrite set_csr0_twice.
Qed.

(** INIT and STRT in one write: the mode tested is the one before the block is read. *)
Lemma csr0_command_init_start v w : world_ok w → fits 16 v → flag (csr0 w) CSR0_STOP = true →
  flag v CSR0_INIT = true → flag v CSR0_STRT = true →
  csr0_command (csr0 w) (set_csr0 (csr0_merge (csr0 w) v) w)
  = upd_reg (set_am_initialized true) (set_csr0 (Z.lor
      (csr0_on (am_mode (w_reg w)) (andnot (csr0_merge (csr0 w) v) CSR0_STOP)) CSR0_IDON)
      (chip_init w)).
Proof.
  intros Hw Hv H1 H2 H3. pose proof (csr0_ok w Hw) as [_ Hc]. specialize (Hc H1).
  assert (Hm := merged_fits w Hw v Hv). assert (Hr := reg_ok w Hw).
  unfold csr0_command. cbv zeta. rewrite csr0_merged, flag_lor, H1, andb_false_r by done.
  replace (flag (csr0_merge (csr0 w) v) CSR0_STRT && negb (flag (csr0 w) CSR0_STRT)) with true;
    cbn [andb negb orb]; [|flags_to_bits; merge_bits; known_bits].
  rewrite set_csr0_twice. change (am_mode (w_reg (set_csr0 _ w))) with (am_mode (w_reg w)).
  rewrite csr0_set_csr0 by done.
  replace (flag _ CSR0_INIT && negb _) with true.
  2: { symmetry. unfold csr0_on. flags_to_bits. 
       destruct (Z.testbit (am_mode _) 1), (Z.testbit (am_mode _) 0); push_bits; merge_bits; known_bits. }
  rewrite chip_init_set_csr0, csr0_set_csr0 by apply (world_ok_chip_init w Hw).
  by rewrite set_csr0_twice.
Qed.

(** No command: acknowledging interrupts and setting INEA. *)
Lemma csr0_command_none v w : world_ok w →
  flag v (Z.lor (Z.lor CSR0_STOP CSR0_STRT) CSR0_INIT) = false →
  csr0_command (csr0 w) (set_csr0 (csr0_merge (csr0 w) v) w)
  = set_csr0 (csr0_merge (csr0 w) v) w.
Proof.
  intros Hw H. unfold csr0_command. cbv zeta. rewrite csr0_merged by done.
  replace (flag (csr0_merge (csr0 w) v) CSR0_STOP && _) with false;
    [|flags_to_bits; merge_bits; split_bits].
  replace (flag (csr0_merge (csr0 w) v) CSR0_STRT && negb (flag (csr0 w) CSR0_STRT)) with false;
    [|flags_to_bits; merge_bits; split_bits].
  replace (flag (csr0_merge (csr0 w) v) CSR0_INIT && negb (flag (csr0 w) CSR0_INIT)) with false;
    [done|flags_to_bits; merge_bits; split_bits].
Qed.

(** After a plain CSR0 write the world is the command's, with INTR recomputed and
    control slots rewritten. *)
Lemma rethink_reg `{IntHandlerOk} w : w_reg (rethink w) = set_csr_at 0 (rethink_csr0 (csr0 w)) (w_reg w).
Proof. exact (frame_reg _ _ (rethink_frame w)). Qed.

Lemma rethink_mac `{IntHandlerOk} w : w_mac (rethink w) = w_mac w.
Proof. exact (frame_mac _ _ (rethink_frame w)). Qed.

Lemma configured_reg b w w' : configured b w → w_mac w' = w_mac w →
  (∃ l i, w_reg w' = set_am_initialized i (set_csr l (w_reg w))) → configured b w'.
Proof. intros [] Hm (l & i & Hr). split; rewrite ?Hm, ?Hr; done. Qed.

(** ** Register properties *)

(** C7: After [registers_reset], every sequence of RAP and RDP writes keeps the
    chip well-formed (16-bit CSRs, ring bases inside the card, ring positions at
    most 512, MAC addresses of six bytes) and CSR0 consistent: no error bit that
    the daemon never raises, no STRT/INIT/TXON/RXON in a stopped chip, TDMD never
    left pending, INTR equal to the disjunction of the interrupt causes. *)
Theorem chip_wput_invariant `{IntHandlerOk, TxHandlerOk} (w w' : world) (l : list (Z * Z))
  (Hw : world_ok w) (Hl : Forall (λ p, fits 16 p.2) l)
  (Hrun : chip_wputs l (registers_reset w) = Ok w') :
  world_ok w' ∧ csr0_inv (csr0 w').
Proof. destruct (registers_reset_ok w Hw). by apply (chip_wputs_ok l (registers_reset w)). Qed.

(** Writing STOP to CSR0 of a running chip leaves exactly STOP in CSR0 and 0 in
    CSR3, whatever else the write asks for; it calls no callback and changes no
    other register, no ring position and no memory. *)
Theorem chip_wput_stop `{IntHandler, TxHandler} (v : Z) (w : world)
  (Hw : world_ok w) (Hrap : rap (w_reg w) = 0)
  (Hrunning : flag (csr0 w) CSR0_STOP = false) (Hv : flag v CSR0_STOP = true) :
  chip_wput A2065_RDP_OFF v w = Ok (upd_reg (set_csr_at 3 0) (set_csr0 CSR0_STOP w)).
Proof.
  assert (Hs := csr0_command_stop v w Hw Hrunning Hv).
  assert (Hok : regs_ok (w_reg (set_csr0 CSR0_STOP w))) by (apply regs_ok_set_csr_at; [apply Hw|by split]).
  assert (Hc : csr0 (upd_reg (set_csr_at 3 0) (set_csr0 CSR0_STOP w)) = CSR0_STOP).
  { rewrite csr0_csr_write by lia. apply csr0_set_csr0, Hw. }
  rewrite chip_wput_csr0_plain by (rewrite ?Hs, ?Hc; done). rewrite Hs. f_equal.
  unfold rethink. cbv zeta. rewrite Hc. change (rethink_csr0 CSR0_STOP) with CSR0_STOP.
  assert (set_csr0 CSR0_STOP (upd_reg (set_csr_at 3 0) (set_csr0 CSR0_STOP w))
    = upd_reg (set_csr_at 3 0) (set_csr0 CSR0_STOP w)) as ->; [|by rewrite Hc].
  unfold set_csr0, upd_reg, set_csr_at, set_csr. cbn.
  by rewrite (list_insert_insert_ne _ 3 0), list_insert_insert_eq by done.
Qed.

(** C8: Writing INIT (and not STRT) to CSR0 of a stopped chip configures it from the
    initialisation block that CSR1 and CSR2 point at: mode, logical address filter,
    ring lengths and bases and station address are those the block encodes, the
    munging unit learns the station address, the wire address is kept, and CSR0
    reports IDON and INTR with the transmitter and the receiver off.  STOP in the
    same write does not prevent it. *)
Theorem chip_wput_init `{IntHandlerOk, TxHandler} (v : Z) (w : world) (b : init_block)
  (Hw : world_ok w) (Hrap : rap (w_reg w) = 0) (Hv : fits 16 v)
  (Hstopped : flag (csr0 w) CSR0_STOP = true) (Htd : flag (csr0 w) CSR0_TDMD = false)
  (Hinit : flag v CSR0_INIT = true) (Hstrt : flag v (Z.lor CSR0_STRT CSR0_TDMD) = false)
  (Hb : init_block_ok b) (Hat : init_block_at w (init_block_off (w_reg w)) b) :
  ∃ w', chip_wput A2065_RDP_OFF v w = Ok w' ∧ configured b w' ∧
    am_initialized (w_reg w') = true ∧ mac_realmac (w_mac w') = mac_realmac (w_mac w) ∧
    csr_at 3 (w_reg w') = 0 ∧
    flag (csr0 w') (Z.lor (Z.lor (Z.lor CSR0_STOP CSR0_STRT) CSR0_TXON) CSR0_RXON) = false ∧
    flag (csr0 w') CSR0_INIT = true ∧
    flag (csr0 w') CSR0_IDON = true ∧ flag (csr0 w') CSR0_INTR = true ∧
    flag (csr0 w') CSR0_INEA = flag v CSR0_INEA.
Proof.
  rewrite flag_lor in Hstrt. apply orb_false_elim in Hstrt as [Hs Ht].
  pose proof (csr0_command_init v w Hw Hv Hstopped Hinit Hs) as Hc.
  assert (Hcf := chip_init_configured w b Hw Hb Hat). assert (Hwi := world_ok_chip_init w Hw).
  assert (Hrm : mac_realmac (w_mac (chip_init w)) = mac_realmac (w_mac w)) by reflexivity.
  revert Hc Hcf Hwi Hrm. generalize (chip_init w) as wi. intros wi Hc Hcf Hwi Hrm.
  set (w1 := upd_reg (set_csr_at 3 0) _) in Hc.
  assert (Hw1 : world_ok w1) by (rewrite <-Hc; by apply world_ok_command).
  assert (Hcsr : csr0 w1 = andnot (Z.lor (csr0_merge (csr0 w) v) CSR0_IDON)
    (Z.lor (Z.lor CSR0_RXON CSR0_TXON) CSR0_STOP)).
  { unfold w1. rewrite csr0_csr_write by lia. apply csr0_set_csr0, Hwi. }
  assert (Htd1 : flag (csr0 w1) CSR0_TDMD = false).
  { rewrite Hcsr. flags_to_bits. push_bits. merge_bits. by rewrite Htd, Ht. }
  exists (rethink w1). rewrite chip_wput_csr0_plain, Hc by (rewrite ?Hc; done).
  split; [done|]. rewrite rethink_reg, rethink_mac, csr0_rethink by done.
  pose proof (csr0_ok w Hw) as [_ Hst].
  split.
  { apply (configured_reg b wi); [done|by rewrite rethink_mac|].
    rewrite rethink_reg. by eexists _, true. }
  do 2 (split; [done|]). split.
  { rewrite csr_at_set_ne by done. apply csr_at_set_eq; [|lia].
    apply regs_ok_initialized, regs_ok_set_csr_at; [apply Hwi|].
    pose proof (merged_fits w Hw v Hv). solve_fits. }
  clear Hc Hw1 Htd1. clearbody w1. unfold INT_CAUSES in *. flags_to_bits.
  rewrite !rethink_csr0_bits by lia. cbn [Z.eqb Pos.eqb]. rewrite Hcsr.
  unfold INT_CAUSES. flags_to_bits. push_bits. merge_bits. split_bits.
Qed.

(** The bits [csr0_on] turns on. *)
Lemma csr0_on_bits mode c i : 0 ≤ i →
  Z.testbit (csr0_on mode c) i =
  if i =? 4 then Z.testbit c 4 || negb (flag mode MODE_DTX)
  else if i =? 5 then Z.testbit c 5 || negb (flag mode MODE_DRX)
  else Z.testbit c i.
Proof.
  intros Hi. unfold csr0_on.
  assert (i ≠ 4 → Z.testbit CSR0_TXON i = false) by (intros; apply (Z.pow2_bits_false 4); lia).
  assert (i ≠ 5 → Z.testbit CSR0_RXON i = false) by (intros; apply (Z.pow2_bits_false 5); lia).
  destruct (Z.eqb_spec i 4) as [->|]; [|destruct (Z.eqb_spec i 5) as [->|]];
    destruct (flag mode MODE_DTX), (flag mode MODE_DRX); autorewrite with bits;
    rewrite ?H, ?H0 by lia; eval_testbit; cbn [negb]; autorewrite with boolsimp; done.
Qed.

(** Writing STRT (without STOP or TDMD) to CSR0 of an initialised, not yet started
    chip turns the transmitter on exactly when the mode does not set DTX, the
    receiver exactly when it does not set DRX, and changes nothing else of the chip
    but the acknowledged interrupt bits, INEA and INTR in CSR0. *)
Theorem chip_wput_start `{IntHandlerOk, TxHandler} (v : Z) (w : world)
  (Hw : world_ok w) (Hrap : rap (w_reg w) = 0) (Htd : flag (csr0 w) CSR0_TDMD = false)
  (Hinit : flag (csr0 w) CSR0_INIT = true)
  (Hnew : flag (csr0 w) (Z.lor (Z.lor CSR0_STRT CSR0_TXON) CSR0_RXON) = false)
  (Hstrt : flag v CSR0_STRT = true) (Hv : flag v (Z.lor CSR0_STOP CSR0_TDMD) = false) :
  ∃ w' c, chip_wput A2065_RDP_OFF v w = Ok w' ∧ ctl_frame (set_csr0 c w) w' ∧ csr0 w' = c ∧
    flag c CSR0_STRT = true ∧
    flag c CSR0_TXON = negb (flag (am_mode (w_reg w)) MODE_DTX) ∧
    flag c CSR0_RXON = negb (flag (am_mode (w_reg w)) MODE_DRX).
Proof.
  rewrite flag_lor in Hv. apply orb_false_elim in Hv as [Hs Ht].
  rewrite !flag_lor in Hnew. apply orb_false_elim in Hnew as [[N1 N2]%orb_false_elim N3].
  pose proof (csr0_command_start v w Hw Hinit N1 Hstrt Hs) as Hc.
  set (c1 := csr0_on _ _) in Hc.
  assert (Hc1 : csr0 (set_csr0 c1 w) = c1) by apply csr0_set_csr0, Hw.
  assert (Htd1 : flag c1 CSR0_TDMD = false).
  { unfold c1. flags_to_bits. rewrite csr0_on_bits by lia. cbn [Z.eqb Pos.eqb]. push_bits.
    merge_bits. by rewrite Htd, Ht. }
  exists (rethink (set_csr0 c1 w)), (rethink_csr0 c1).
  rewrite chip_wput_csr0_plain, Hc by (rewrite ?Hc, ?Hc1; done).
  assert (Hf := rethink_frame (set_csr0 c1 w)). rewrite Hc1, set_csr0_twice in Hf.
  split; [done|]. split; [done|]. split; [rewrite (ctl_frame_csr0 _ _ Hf); apply csr0_set_csr0, Hw|].
  clear Hc Hc1 Hf Htd1. flags_to_bits. rewrite !rethink_csr0_bits by lia. cbn [Z.eqb Pos.eqb].
  unfold c1. rewrite !csr0_on_bits by lia. cbn [Z.eqb Pos.eqb].
  flags_to_bits. push_bits. merge_bits. by rewrite N2, N3, Hstrt, orb_true_r.
Qed.

(** INIT and STRT written together to a stopped chip load the new mode from the
    init block, but whether the transmitter and the receiver come on is decided by
    the mode the chip had before: a block that sets DTX and DRX does not keep them
    off, and one that clears them does not turn them on. *)
Theorem init_start_stale_mode `{IntHandlerOk, TxHandler} (v : Z) (w : world) (b : init_block)
  (Hw : world_ok w) (Hrap : rap (w_reg w) = 0) (Hv : fits 16 v)
  (Hstopped : flag (csr0 w) CSR0_STOP = true) (Htd : flag (csr0 w) CSR0_TDMD = false)
  (Hinit : flag v CSR0_INIT = true) (Hstrt : flag v CSR0_STRT = true)
  (Hnt : flag v CSR0_TDMD = false)
  (Hb : init_block_ok b) (Hat : init_block_at w (init_block_off (w_reg w)) b) :
  ∃ w', chip_wput A2065_RDP_OFF v w = Ok w' ∧ configured b w' ∧
    am_mode (w_reg w') = ib_mode b ∧
    flag (csr0 w') CSR0_TXON = negb (flag (am_mode (w_reg w)) MODE_DTX) ∧
    flag (csr0 w') CSR0_RXON = negb (flag (am_mode (w_reg w)) MODE_DRX).
Proof.
  pose proof (csr0_command_init_start v w Hw Hv Hstopped Hinit Hstrt) as Hc.
  assert (Hcf := chip_init_configured w b Hw Hb Hat). assert (Hwi := world_ok_chip_init w Hw).
  revert Hc Hcf Hwi. generalize (chip_init w) as wi. intros wi Hc Hcf Hwi.
  set (w1 := upd_reg (set_am_initialized true) _) in Hc.
  assert (Hw1 : world_ok w1) by (rewrite <-Hc; by apply world_ok_command).
  assert (Hcsr : csr0 w1 = Z.lor (csr0_on (am_mode (w_reg w))
      (andnot (csr0_merge (csr0 w) v) CSR0_STOP)) CSR0_IDON) by apply csr0_set_csr0, Hwi.
  assert (Htd1 : flag (csr0 w1) CSR0_TDMD = false).
  { rewrite Hcsr. flags_to_bits. push_bits. rewrite csr0_on_bits by lia. cbn [Z.eqb Pos.eqb].
    push_bits. merge_bits. by rewrite Htd, Hnt. }
  exists (rethink w1). rewrite chip_wput_csr0_plain, Hc by (rewrite ?Hc; done).
  assert (Hcf' : configured b (rethink w1)).
  { apply (configured_reg b wi); [done|by rewrite rethink_mac|].
    rewrite rethink_reg. by eexists _, true. }
  split; [done|]. split; [done|]. split; [apply Hcf'|].
  rewrite csr0_rethink, Hcsr by done. pose proof (csr0_ok w Hw) as [_ Hst].
  clear Hc Hw1 Htd1 Hcf'. flags_to_bits. rewrite !rethink_csr0_bits by lia. cbn [Z.eqb Pos.eqb].
  autorewrite with bits. rewrite !csr0_on_bits by lia. cbn [Z.eqb Pos.eqb].
  flags_to_bits. push_bits. merge_bits. split_bits.
Qed.

(** A CSR0 write without STOP, STRT, INIT and TDMD acknowledges interrupts: each
    cause bit written as 1 is cleared and every other one kept, INEA is copied, INTR
    is what the remaining causes say, the run state is kept, and nothing outside
    CSR0 and the control slots changes. *)
Theorem chip_wput_ack `{IntHandlerOk, TxHandler} (v : Z) (w : world)
  (Hw : world_ok w) (Hrap : rap (w_reg w) = 0) (Htd : flag (csr0 w) CSR0_TDMD = false)
  (Hv : flag v (Z.lor (Z.lor (Z.lor CSR0_STOP CSR0_STRT) CSR0_INIT) CSR0_TDMD) = false) :
  ∃ w' c, chip_wput A2065_RDP_OFF v w = Ok w' ∧ ctl_frame (set_csr0 c w) w' ∧ csr0 w' = c ∧
    flag c CSR0_INTR = flag c INT_CAUSES ∧
    ∀ i, 0 ≤ i < 15 → i ≠ 7 → Z.testbit c i =
      if i =? 6 then Z.testbit v 6
      else if 8 <=? i then Z.testbit (csr0 w) i && negb (Z.testbit v i)
      else Z.testbit (csr0 w) i.
Proof.
  rewrite flag_lor in Hv. apply orb_false_elim in Hv as [Hs Ht].
  pose proof (csr0_command_none v w Hw Hs) as Hc.
  set (c1 := csr0_merge (csr0 w) v) in Hc |- *.
  assert (Hc1 : csr0 (set_csr0 c1 w) = c1) by apply csr0_set_csr0, Hw.
  exists (rethink (set_csr0 c1 w)), (rethink_csr0 c1).
  rewrite chip_wput_csr0_plain; [|done|].
  2: { fold c1. rewrite Hc, Hc1. unfold c1. flags_to_bits. merge_bits. by rewrite Htd, Ht. }
  fold c1. rewrite Hc. assert (Hf := rethink_frame (set_csr0 c1 w)). rewrite Hc1, set_csr0_twice in Hf.
  split; [done|]. split; [done|]. split; [rewrite (ctl_frame_csr0 _ _ Hf); apply csr0_set_csr0, Hw|].
  split.
  - unfold INT_CAUSES. flags_to_bits. rewrite !rethink_csr0_bits by lia. cbn [Z.eqb Pos.eqb].
    unfold INT_CAUSES. by flags_to_bits.
  - intros i Hi Hi7. rewrite rethink_csr0_bits by lia. destruct (Z.eqb_spec i 7); [lia|].
    unfold c1. rewrite csr0_merge_bits by lia. clear -Hs Ht Hi Hi7. flags_to_bits. known_bits.
    destruct (Z.eqb_spec i 6); [done|].
    destruct (Z.ltb_spec i 4), (Z.leb_spec 8 i), (Z.ltb_spec i 15), (Z.eqb_spec i 15);
      cbn [andb]; try lia; try done.
    assert (i = 0 ∨ i = 1 ∨ i = 2 ∨ i = 3) as [->|[->|[->| ->]]] by lia; known_bits.
Qed.

(** ** Register addressing *)

(** Selecting register [n] through RAP, then writing [v] to RDP. *)
Definition write_csr (n v : Z) : list (Z * Z) := [(A2065_RAP_OFF, n); (A2065_RDP_OFF, v)].

(** The registers with a meaning of their own; the others are plain storage. *)
Definition special_csrs : list Z := [8; 9; 10; 11; 12; 13; 14; 15; 24; 25; 30; 31; 76; 78; 88; 89].

Lemma wput_ext_storage n v r : 4 ≤ n < 128 → n ∉ special_csrs →
  wput_ext n v r = set_csr_at (Z.to_nat n) v r.
Proof.
  intros Hn Hs. unfold wput_ext, special_csrs in *. rewrite !not_elem_of_cons in Hs.
  repeat match goal with |- context [n =? ?k] => destruct (Z.eqb_spec n k); [lia|] end.
  by destruct (Z.leb_spec 4 n); [|lia].
Qed.

Lemma word_low h l : fits 8 l → Z.land (h * 256 + l) 0xff = l.
Proof.
  intros Hl. change 0xff with (Z.ones 8). rewrite Z.land_ones, Z.add_comm by lia.
  change 256 with (2 ^ 8). rewrite Z.mod_add by lia. by apply Z.mod_small.
Qed.

Lemma word_high h l : fits 8 h → fits 8 l → u8 (Z.shiftr (h * 256 + l) 8) = h.
Proof.
  intros Hh Hl. rewrite Z.shiftr_div_pow2, Z.add_comm by lia. change 256 with (2 ^ 8).
  rewrite Z.div_add, Z.div_small by (done || lia). by apply u8_small.
Qed.

Lemma select_rap n : 0 ≤ n < 128 → Z.land n 0x7f = n.
Proof. intros Hn. change 0x7f with (Z.ones 7). rewrite Z.land_ones by lia. apply Z.mod_small. lia. Qed.

Lemma chip_wput_rap `{IntHandler, TxHandler} v w :
  chip_wput A2065_RAP_OFF v w = Ok (upd_reg (set_rap (Z.land v 0x7f)) w).
Proof. reflexivity. Qed.

Lemma chip_wputs_write_csr `{IntHandler, TxHandler} n v w : 4 ≤ n < 128 →
  chip_wputs (write_csr n v) w = Ok (upd_reg (wput_ext n v) (upd_reg (set_rap n) w)).
Proof.
  intros Hn. unfold write_csr, chip_wputs. rewrite chip_wput_rap, bind_Ok, select_rap by lia.
  unfold chip_wput. cbn -[wput_ext RAP_SIZE Z.eqb Z.leb].
  replace (RAP_SIZE <=? n) with false by (symmetry; apply Z.leb_gt; unfold RAP_SIZE; lia).
  destruct (Z.eqb_spec n 0), (Z.eqb_spec n 1), (Z.eqb_spec n 2), (Z.eqb_spec n 3); try lia. done.
Qed.

Lemma chip_wputs_write_csr123 `{IntHandler, TxHandler} n v w :
  n = 1 ∨ n = 2 ∨ n = 3 →
  chip_wputs (write_csr n v) w =
  Ok (let w := upd_reg (set_rap n) w in
      if flag (csr0 w) CSR0_STOP then
        upd_reg (set_csr_at (Z.to_nat n) (if n =? 1 then andnot v 1
          else if n =? 2 then Z.land v 0x00ff else Z.land v 7)) w
      else w).
Proof. intros [->|[->| ->]]; reflexivity. Qed.

Lemma chip_wputs_app `{IntHandler, TxHandler} l k w :
  chip_wputs (l ++ k) w = (w ← chip_wputs l w; chip_wputs k w).
Proof.
  revert w. induction l as [|[off v] l IH]; intros w; [done|]. cbn.
  destruct (chip_wput off v w); [|done]. apply IH.
Qed.

(** The block address that CSR1 and CSR2 give. *)
Lemma init_block_off_eq r lo hi : csr_at 1 r = andnot lo 1 → csr_at 2 r = Z.land hi 0x00ff →
  fits 16 lo → init_block_off r = 2 * (lo / 2) mod 2 ^ 15.
Proof.
  intros H1 H2 Hlo. unfold init_block_off. rewrite H1, H2.
  change RAM_MASK with (Z.ones 15). rewrite Z.land_ones by lia.
  rewrite <-(Z.mul_comm (lo / 2)). change (lo / 2 * 2) with (lo / 2 ^ 1 * 2 ^ 1).
  rewrite <-Z.shiftr_div_pow2, <-Z.shiftl_mul_pow2 by lia.
  apply Z.bits_inj'. intros i Hi. push_bits.
  destruct (Z.ltb_spec i 15); [|done]. rewrite (Z.testbit_neg_r _ (i - 16)) by lia. cbn [orb andb].
  destruct (decide (i = 0)) as [->|].
  - apply andb_false_r.
  - rewrite shiftr_testbit by lia. rewrite (Z.pow2_bits_false 0 i ltac:(lia) : Z.testbit 1 i = false).
    rewrite andb_true_r. f_equal. lia.
Qed.

(** CSR1, CSR2 and CSR3 can only be written while the chip is stopped: in a running
    chip the write changes nothing but RAP.  In a stopped chip, writing the low and
    the high half of a 24-bit address to CSR1 and CSR2 makes [chip_init] read the
    init block at that address, reduced to the card's RAM and to an even offset. *)
Theorem init_address_guarded `{IntHandler, TxHandler} (w : world) (lo hi n v : Z)
  (Hw : world_ok w) (Hlo : fits 16 lo) (Hhi : fits 16 hi) (Hn : n = 1 ∨ n = 2 ∨ n = 3) :
  if flag (csr0 w) CSR0_STOP then
    ∃ w', chip_wputs (write_csr 1 lo ++ write_csr 2 hi) w = Ok w' ∧
      init_block_off (w_reg w') = 2 * (lo / 2) mod 2 ^ 15 ∧ csr0 w' = csr0 w
  else chip_wputs (write_csr n v) w = Ok (upd_reg (set_rap n) w).
Proof.
  destruct (flag (csr0 w) CSR0_STOP) eqn:E.
  - rewrite chip_wputs_app, chip_wputs_write_csr123 by auto. cbv zeta.
    change (csr0 (upd_reg (set_rap 1) w)) with (csr0 w). rewrite E, bind_Ok.
    rewrite chip_wputs_write_csr123 by auto. cbv zeta.
    change (csr0 (upd_reg (set_rap 2) ?u)) with (csr0 u).
    rewrite csr0_csr_write by lia. change (csr0 (upd_reg (set_rap 1) w)) with (csr0 w). rewrite E.
    change (Z.to_nat 1) with 1%nat. change (Z.to_nat 2) with 2%nat. cbn [Z.eqb Pos.eqb].
    eexists. split; [done|]. split; [|rewrite csr0_csr_write by lia;
      exact (csr0_csr_write 1 _ (upd_reg (set_rap 1) w) ltac:(lia))].
    pose proof (csr_len _ (reg_ok w Hw)) as Hl.
    apply (init_block_off_eq _ lo hi); [| |done]; cbn -[csr_at set_csr_at].
    + rewrite csr_at_set_ne by lia. apply (csr_at_set_len 1); [done|lia].
    + apply csr_at_set_len; [|lia]. cbn. by rewrite length_insert.
  - rewrite chip_wputs_write_csr123 by done. cbv zeta.
    change (csr0 (upd_reg (set_rap n) w)) with (csr0 w). by rewrite E.
Qed.

(** A CSR that has no function of its own (4 to 127, except the address filter,
    station address, mode, ring and chip-id registers) is storage: what is written
    through RAP and RDP is what is read back, and the chip behaves as before. *)
Theorem csr_storage_roundtrip `{IntHandler, TxHandler} (w : world) (n v : Z)
  (Hw : world_ok w) (Hn : 4 ≤ n < 128) (Hs : n ∉ special_csrs) :
  ∃ w', chip_wputs (write_csr n v) w = Ok w' ∧ chip_wget A2065_RDP_OFF w' = v ∧
    chip_wget A2065_RAP_OFF w' = n ∧ csr0 w' = csr0 w ∧ w_mac w' = w_mac w ∧
    w_win w' = w_win w ∧ w_reg w' = set_rap n (set_csr (csr (w_reg w')) (w_reg w)).
Proof.
  rewrite chip_wputs_write_csr by done. eexists. split; [done|].
  assert (He : upd_reg (wput_ext n v) (upd_reg (set_rap n) w)
    = upd_reg (set_csr_at (Z.to_nat n) v) (upd_reg (set_rap n) w))
    by (unfold upd_reg; by rewrite wput_ext_storage).
  rewrite He. split; [|split; [done|]; split;
    [exact (csr0_csr_write (Z.to_nat n) v (upd_reg (set_rap n) w) ltac:(lia))|done]].
  unfold special_csrs in Hs. rewrite !not_elem_of_cons in Hs.
  unfold chip_wget. cbn -[csr_at set_csr_at RAP_SIZE].
  change (rap (set_csr_at _ _ (set_rap n _))) with n.
  rewrite csr_at_set_len by (try apply Hw; lia).
  unfold RAP_SIZE. destruct (Z.leb_spec 128 n), (Z.eqb_spec n 0), (Z.eqb_spec n 88), (Z.eqb_spec n 89);
    try lia. done.
Qed.

(** Programming the station address through CSR12 to CSR14 changes the address that
    the receive filter compares with, but not the copy that [mungepacket] translates:
    the two units disagree until the next INIT. *)
Theorem csr_station_address_split `{IntHandler, TxHandler} (w : world) (m0 m1 m2 m3 m4 m5 : Z)
  (Hw : world_ok w) (Hm : Forall (fits 8) [m0; m1; m2; m3; m4; m5]) :
  ∃ w', chip_wputs (write_csr 12 (m1 * 256 + m0) ++ write_csr 13 (m3 * 256 + m2)
      ++ write_csr 14 (m5 * 256 + m4)) w = Ok w' ∧
    fakemac (w_reg w') = [m0; m1; m2; m3; m4; m5] ∧ w_mac w' = w_mac w.
Proof.
  rewrite chip_wputs_app, chip_wputs_write_csr, bind_Ok by lia.
  rewrite chip_wputs_app, chip_wputs_write_csr, bind_Ok, chip_wputs_write_csr by lia.
  eexists. split; [done|]. split; [|done].
  pose proof (fakemac_len _ (reg_ok w Hw)) as Hl. 
  destruct (fakemac (w_reg w)) as [|? [|? [|? [|? [|? [|? [|]]]]]]] eqn:Ef; try done.
  cbn -[Z.mul Z.add]. rewrite Ef. cbn -[Z.mul Z.add].
  rewrite !Forall_cons in Hm. destruct Hm as (? & ? & ? & ? & ? & ? & _).
  by rewrite !word_low, !word_high by assumption.
Qed.

(** ** Examples: the properties on a concrete card *)

(** No callback is registered. *)
Module NoCallbacks.
#[export] Instance no_int : IntHandler := None.
#[export] Instance no_tx : TxHandler := None.

#[export] Instance no_int_ok : IntHandlerOk.
Proof. by intros f w. Qed.

#[export] Instance no_tx_ok : TxHandlerOk.
Proof. by intros f w. Qed.
End NoCallbacks.
Import NoCallbacks.

(** The daemon's variables before [registers_reset]: all zero. *)
Definition boot_regs : regs :=
  Regs (replicate 128 0) 0 false 0 0 0 0 0 0 0 0 [0; 0x80; 0x10; 0; 4; 0x2B].
Definition boot_world (m : macs) (win : window) : world :=
  World boot_regs m (Rings (replicate 4096 0) 0 0) win 0 (-1) [] ddr3_init.

Lemma boot_world_ok m win : macs_ok m → window_ok win → world_ok (boot_world m win).
Proof.
  intros Hm Hwin. split; cbn -[replicate]; try done.
  - split; try done; try apply bytesb_Forall; try done. apply Forall_replicate. by split.
  - apply Forall_replicate. by split.
Qed.

(** The 68k fills board RAM with words from [off] on. *)
Fixpoint poke_words (off : Z) (ws : list Z) (win : window) : window :=
  match ws with
  | [] => win
  | x :: ws => poke_words (off + 2) ws (put_ram_word 0 win off x)
  end.

Lemma window_ok_poke_words off ws win : window_ok win → window_ok (poke_words off ws win).
Proof. revert off win. induction ws; cbn; auto with a2065. Qed.

(** A block at offset 0x100: four receive descriptors at 0x2000, four transmit
    descriptors at 0x1000, transmitter disabled. *)
Definition ex_block : init_block :=
  InitBlock MODE_DTX [0; 0x80; 0x10; 0xAA; 0xBB; 0xCC] 0x8000000000000001 2 0x2000 2 0x1000.

Lemma ex_block_ok : init_block_ok ex_block.
Proof. split; try done; by apply bytesb_Forall. Qed.

Definition ex_stopped : world :=
  upd_reg (set_csr_at 1 0x100) (registers_reset (boot_world ex_macs
    (poke_words 0x100 (encode_init_block ex_block) ∅))).

Lemma ex_stopped_ok : world_ok ex_stopped.
Proof.
  apply world_ok_set_csr_at; [lia|by split|].
  apply registers_reset_ok, boot_world_ok; [apply ex_macs_ok|].
  apply window_ok_poke_words, window_ok_empty.
Qed.

Lemma ex_block_at : init_block_at ex_stopped (init_block_off (w_reg ex_stopped)) ex_block.
Proof.
  intros i x Hx. do 12 (destruct i as [|i]; [injection Hx as <-; by vm_compute|]). done.
Qed.

(** The same card after INIT. *)
Definition ex_inited : world := set_csr0 (Z.lor CSR0_INIT CSR0_IDON) ex_stopped.

Lemma ex_inited_ok : world_ok ex_inited.
Proof. apply world_ok_set_csr0; [apply ex_stopped_ok|by split|by vm_compute]. Qed.

Lemma chip_wput_invariant_witness : ∃ w',
  chip_wputs (write_csr 1 0x100 ++ write_csr 0 CSR0_INIT ++ write_csr 0 (Z.lor CSR0_STRT CSR0_INEA))
    (registers_reset ex_stopped) = Ok w' ∧ world_ok w' ∧ csr0_inv (csr0 w').
Proof.
  eexists. split; [vm_compute; reflexivity|].
  apply (chip_wput_invariant ex_stopped _
    (write_csr 1 0x100 ++ write_csr 0 CSR0_INIT ++ write_csr 0 (Z.lor CSR0_STRT CSR0_INEA)));
    [apply ex_stopped_ok|repeat constructor; by vm_compute|vm_compute; reflexivity].
Defined.

Lemma chip_wput_stop_witness :
  chip_wput A2065_RDP_OFF (Z.lor CSR0_STOP CSR0_TDMD) ex_inited
  = Ok (upd_reg (set_csr_at 3 0) (set_csr0 CSR0_STOP ex_inited)).
Proof.
  apply (chip_wput_stop (Z.lor CSR0_STOP CSR0_TDMD) ex_inited); [apply ex_inited_ok|reflexivity..].
Defined.

Lemma chip_wput_init_witness : ∃ w',
  chip_wput A2065_RDP_OFF (Z.lor CSR0_INIT CSR0_INEA) ex_stopped = Ok w' ∧ configured ex_block w' ∧
  flag (csr0 w') CSR0_INTR = true ∧ am_tdr_tlen (w_reg w') = 4.
Proof.
  destruct (chip_wput_init (Z.lor CSR0_INIT CSR0_INEA) ex_stopped ex_block) as (w' & H1 & H2 & H3);
    [apply ex_stopped_ok|reflexivity|by split|reflexivity..|apply ex_block_ok|apply ex_block_at|].
  exists w'. split; [done|]. split; [done|]. split; [apply H3|]. by rewrite (conf_tlen _ _ H2).
Defined.

Lemma chip_wput_start_witness : ∃ w' c,
  chip_wput A2065_RDP_OFF CSR0_STRT ex_inited = Ok w' ∧ csr0 w' = c ∧ flag c CSR0_TXON = true.
Proof.
  destruct (chip_wput_start CSR0_STRT ex_inited) as (w' & c & H1 & _ & H2 & _ & H3 & _);
    [apply ex_inited_ok|reflexivity..|].
  by exists w', c.
Defined.

Lemma init_start_stale_mode_witness : ∃ w',
  chip_wput A2065_RDP_OFF (Z.lor CSR0_INIT CSR0_STRT) ex_stopped = Ok w' ∧
  flag (am_mode (w_reg w')) MODE_DTX = true ∧ flag (csr0 w') CSR0_TXON = true.
Proof.
  destruct (init_start_stale_mode (Z.lor CSR0_INIT CSR0_STRT) ex_stopped ex_block)
    as (w' & H1 & _ & H2 & H3 & _);
    [apply ex_stopped_ok|reflexivity|by split|reflexivity..|apply ex_block_ok|apply ex_block_at|].
  exists w'. split; [done|]. by rewrite H2.
Defined.

Lemma chip_wput_ack_witness : ∃ w' c,
  chip_wput A2065_RDP_OFF (Z.lor CSR0_IDON CSR0_INEA) ex_inited = Ok w' ∧ csr0 w' = c ∧
  Z.testbit c 8 = false ∧ Z.testbit c 6 = true.
Proof.
  destruct (chip_wput_ack (Z.lor CSR0_IDON CSR0_INEA) ex_inited) as (w' & c & H1 & _ & H2 & _ & H3);
    [apply ex_inited_ok|reflexivity..|].
  exists w', c. split; [done|]. split; [done|]. by rewrite !H3 by lia.
Defined.

Lemma init_address_guarded_witness : ∃ w',
  chip_wputs (write_csr 1 0x1235 ++ write_csr 2 0x00) ex_stopped = Ok w' ∧
  init_block_off (w_reg w') = 0x1234.
Proof.
  destruct (init_address_guarded ex_stopped 0x1235 0 1 0) as (w' & H1 & H2 & _);
    [apply ex_stopped_ok|by split|by split|by left|].
  by exists w'.
Defined.

Lemma csr_storage_roundtrip_witness : ∃ w',
  chip_wputs (write_csr 5 0xCAFE) ex_stopped = Ok w' ∧ chip_wget A2065_RDP_OFF w' = 0xCAFE.
Proof.
  destruct (csr_storage_roundtrip ex_stopped 5 0xCAFE) as (w' & H1 & H2 & _);
    [apply ex_stopped_ok|lia|by apply (bool_decide_unpack _)|by exists w'].
Defined.

Lemma csr_station_address_split_witness : ∃ w',
  chip_wputs (write_csr 12 (0x80 * 256 + 0) ++ write_csr 13 (1 * 256 + 0x10)
    ++ write_csr 14 (3 * 256 + 2)) ex_stopped = Ok w' ∧
  fakemac (w_reg w') = [0; 0x80; 0x10; 1; 2; 3] ∧ w_mac w' = ex_macs.
Proof.
  apply (csr_station_address_split ex_stopped 0 0x80 0x10 1 2 3);
    [apply ex_stopped_ok|by apply bytesb_Forall].
Defined.
