(* ===== verification/Rings.v ===== *)
(** * Descriptor rings (arm/src/rings.cpp) and the socket (arm/src/ethernet.cpp)

    [do_transmit] gathers a frame from the transmit ring and hands it to the
    socket or, in loopback mode, to [gotfunc]; [gotfunc] filters a received frame
    and scatters it over the receive ring. *)

From S2P Require Import Prelude Types Window Crc32 Mac State Registers.

(** ** Frames handed to the kernel *)

(** [ethernet_send]: the frame is appended to [w_sent]; what [send] does with it,
    and its error report, is outside the daemon. *)
Definition ethernet_send (frame : list Z) (len : Z) (w : world) : res world :=
  if (w_sock w <? 0) || (len <=? 0) then Ok w
  else f ← bslice frame 0 len; Ok (set_w_sent (w_sent w ++ [f]) w).

(** ** Descriptors *)

(** The check that a ring lies in the card: [!len || len > 512] and
    [base + (len - 1) * 8 > RAM_MASK] refuse it. *)
Definition ring_usable (base len : Z) : bool :=
  negb (len =? 0) && (len <=? 512) && (u32 (base + (len - 1) * 8) <=? RAM_MASK).

(** Board RAM offset of descriptor [i]; its word [k] is at [desc_off base i + 2 * k]. *)
Definition desc_off (base i : Z) : Z := base + i * 8.

(** [(md0 | (md1 & 0xff) << 16) & RAM_MASK] *)
Definition desc_addr (md0 md1 : Z) : Z :=
  Z.land (Z.lor md0 (Z.shiftl (Z.land md1 0xff) 16)) RAM_MASK.

(** The buffer length field holds the two's complement of the size. *)
Definition desc_size (md2 : Z) : Z := 65536 - md2.

(** [put_ram_word(off + 2, md1); put_ram_word(off + 6, md3)] *)
Definition put_desc (off md1 md3 : Z) (w : world) : world :=
  put_word (off + 6) md3 (put_word (off + 2) md1 w).

(** ** Receiving *)

Section receive.
Context `{IntHandler}.

(** The address filter, on the munged frame [d]. *)
Definition rx_accept (w : world) (d : list Z) : bool :=
  let fakemac_buf := fakemac (w_reg w) in
  let dstmac := slice d 0 6 in
  let srcmac := slice d 6 6 in
  if flag (registers_mode w) MODE_LOOP then true
  else
    let pass :=
      if flag (nth 0 dstmac 0) 0x01 then
        if negb (registers_prom w) && negb (bytes_eqb dstmac BROADCAST_MAC) then
          let hash := Z.shiftr (u32 (Z.lnot (crc32_compute dstmac))) 26 in
          flag (am_ladrf (w_reg w)) (Z.shiftl 1 hash)
        else true
      else
        negb (negb (registers_prom w) && negb (bytes_eqb dstmac fakemac_buf)
              && negb (bytes_eqb dstmac BROADCAST_MAC)) in
    pass
    && negb (bytes_eqb dstmac fakemac_buf && bytes_eqb srcmac fakemac_buf)
    && negb (bytes_eqb dstmac BROADCAST_MAC && bytes_eqb srcmac fakemac_buf).

(** [crc32_compute(d, len)] appended big-endian: [d[len++] = ...], four times. *)
Definition append_fcs (d : list Z) (len : Z) : res (list Z * Z) :=
  data ← bslice d 0 len;
  let crc := crc32_compute data in
  d ← bset d len (u8 (Z.shiftr crc 24));
  d ← bset d (len + 1) (u8 (Z.shiftr crc 16));
  d ← bset d (len + 2) (u8 (Z.shiftr crc 8));
  d ← bset d (len + 3) (u8 crc);
  Ok (d, len + 4).

(** The ring loop; the result says whether the whole frame was stored. *)
Fixpoint rx_loop (fuel : nat) (rdra rlen : Z) (d : list Z) (len insize : Z) (first : bool)
    (w : world) : res (bool * world) :=
  match fuel with
  | O => Err OutOfFuel
  | S fuel =>
    let w := upd_reg (λ r, set_rdr_offset (rdr_offset r mod rlen) r) w in
    let off := desc_off rdra (rdr_offset (w_reg w)) in
    let rmd0 := ram_word w (off + 0) in
    let rmd1 := ram_word w (off + 2) in
    let rmd2 := ram_word w (off + 4) in
    let rmd3 := ram_word w (off + 6) in
    let addr := desc_addr rmd0 rmd1 in
    if negb (flag rmd1 RX_OWN) then
      let rmd1' := if first then rmd1 else Z.lor rmd1 (Z.lor RX_BUFF RX_OFLO) in
      let w := if first then registers_csr0_set CSR0_MISS w else registers_csr0_clr CSR0_RXON w in
      Ok (false, rethink (put_word (off + 2) rmd1' w))
    else
      let rmd1 := andnot rmd1 RX_OWN in
      let w := upd_reg (λ r, set_rdr_offset (rdr_offset r + 1) r) w in
      let rmd1 := if first then Z.lor rmd1 RX_STP else rmd1 in
      let size := desc_size rmd2 in
      src ← bslice d insize size;
      let w := write_block addr src w in
      let insize := insize + size in
      let rmd1 := if len <=? insize then Z.lor rmd1 RX_ENP else rmd1 in
      let rmd3 := if len <=? insize then u16 len else rmd3 in
      let w := put_desc off rmd1 rmd3 w in
      if len <=? insize then Ok (true, w)
      else rx_loop fuel rdra rlen d len insize false w
  end.

(** [gotfunc(databuf, len)]; [stk] is what the stack array [tmp] holds on entry. *)
Definition gotfunc (stk databuf : list Z) (len : Z) (w : world) : res world :=
  if negb (flag (csr0 w) CSR0_RXON) then Ok w
  else if len <? 20 then Ok w
  else
  let rdr_rlen := am_rdr_rlen (w_reg w) in
  if negb (ring_usable (am_rdr_rdra (w_reg w)) rdr_rlen) then Ok w
  else
    src ← bslice databuf 0 len;
    d ← bblit stk 0 src;
    d ← (if flag (registers_mode w) MODE_LOOP then Ok d
         else '(_, d) ← mungepacket (w_mac w) d len; Ok d);
    if negb (rx_accept w d) then Ok w
    else
      '(d, len) ← append_fcs d len;
      '(stored, w) ← rx_loop (Z.to_nat len) (am_rdr_rdra (w_reg w)) rdr_rlen d len 0 true w;
      if (stored : bool) then
        let w := rethink (registers_csr0_set CSR0_RINT w) in
        Ok (if flag (registers_mode w) MODE_LOOP
            then upd_ring (λ g, set_loopback_iter (loopback_iter g + 1) g) w else w)
      else Ok w.

(** ** Transmitting *)

Definition tx_startable (tmd1 : Z) : bool := flag tmd1 TX_OWN && flag tmd1 TX_STP.

(** The search for a descriptor to start from: [n] steps from [start + i]. *)
Fixpoint tx_scan (n : nat) (tdra tlen start i tmd1 : Z) (w : world) : Z * world :=
  match n with
  | O => (tmd1, w)
  | S n =>
    let w := upd_reg (set_tdr_offset ((start + i) mod tlen)) w in
    let off := desc_off tdra (tdr_offset (w_reg w)) in
    let tmd1 := ram_word w (off + 2) in
    if tx_startable tmd1 then (tmd1, w) else tx_scan n tdra tlen start (i + 1) tmd1 w
  end.

(** The locals of [do_transmit] when its gather loop breaks. *)
Record tx_end := TxEnd {
  te_err : bool; te_outsize : Z; te_off : Z; te_tmd1 : Z; te_tmd3 : Z }.

(** The size of a transmit segment, clipped to the buffer. *)
Definition tx_size (tmd2 : Z) : Z :=
  let size := desc_size tmd2 in
  if MAX_PACKET_SIZE <? size then MAX_PACKET_SIZE else size.

(** [while (outsize < 60) transmitbuffer[outsize++] = 0], at the end of a frame. *)
Definition tx_pad (last : bool) (b : list Z) (outsize : Z) : res (list Z * Z) :=
  if last && (outsize <? 60) then
    b ← bblit b outsize (replicate (Z.to_nat (60 - outsize)) 0); Ok (b, 60)
  else Ok (b, outsize).

Fixpoint tx_loop (fuel : nat) (tdra tlen outsize : Z) (w : world) : res (tx_end * world) :=
  match fuel with
  | O => Err OutOfFuel
  | S fuel =>
    let w := upd_reg (λ r, set_tdr_offset (tdr_offset r mod tlen) r) w in
    let off := desc_off tdra (tdr_offset (w_reg w)) in
    let tmd0 := ram_word w (off + 0) in
    let tmd1 := ram_word w (off + 2) in
    let tmd2 := ram_word w (off + 4) in
    let tmd3 := ram_word w (off + 6) in
    let addr := desc_addr tmd0 tmd1 in
    if negb (flag tmd1 TX_OWN) then
      let tmd3 := Z.lor tmd3 (Z.lor TX_BUFF TX_UFLO) in
      let tmd1 := Z.lor tmd1 TX_ERR in
      let w := registers_csr0_clr CSR0_TXON w in
      let w := put_desc off tmd1 tmd3 w in
      Ok (TxEnd true outsize off tmd1 tmd3, w)
    else
      let tmd1 := andnot tmd1 TX_OWN in
      let size := tx_size tmd2 in
      if MAX_PACKET_SIZE <? outsize + size then
        let w := put_desc off tmd1 tmd3 w in
        Ok (TxEnd false outsize off tmd1 tmd3, w)
      else
        b ← bblit (transmitbuffer (w_ring w)) outsize (read_block w addr (Z.to_nat size));
        let outsize := outsize + size in
        '(b, outsize) ← tx_pad (flag tmd1 TX_ENP && negb (flag (registers_mode w) MODE_LOOP)) b outsize;
        let w := upd_ring (set_transmitbuffer b) w in
        let w := upd_reg (λ r, set_tdr_offset (tdr_offset r + 1) r) w in
        if flag tmd1 TX_ENP then Ok (TxEnd false outsize off tmd1 tmd3, w)
        else tx_loop fuel tdra tlen outsize (put_desc off tmd1 tmd3 w)
  end.

(** [registers_csr0_set(CSR0_TINT); rethink(); return 1] *)
Definition tx_done (w : world) : res (Z * world) := Ok (1, rethink (registers_csr0_set CSR0_TINT w)).

(** What follows the gather loop. *)
Definition tx_finish (stk : list Z) (add_fcs : bool) (e : tx_end) (w : world) : res (Z * world) :=
  let '(TxEnd err outsize off tmd1 tmd3) := e in
  if err then tx_done w
  else if (outsize <? 60) && negb (flag (registers_mode w) MODE_LOOP) then
    let tmd3 := Z.lor tmd3 (Z.lor TX_BUFF TX_UFLO) in
    let tmd1 := Z.lor tmd1 TX_ERR in
    let w := registers_csr0_clr CSR0_TXON w in
    tx_done (put_word (off + 2) tmd1 (put_word (off + 6) tmd3 w))
  else
    let mode := registers_mode w in
    let collide w :=
      put_desc off (Z.lor tmd1 TX_ERR) (Z.lor tmd3 TX_RTRY) w in
    let release w := put_desc off tmd1 tmd3 w in
    if flag mode MODE_LOOP then
      if flag mode MODE_COLL then tx_done (collide w)
      else
        let w := release w in
        w ← gotfunc stk (transmitbuffer (w_ring w)) outsize w;
        tx_done w
    else
      let coll := flag mode MODE_COLL
        || ((6 <=? outsize) && bytes_eqb (slice (transmitbuffer (w_ring w)) 0 6) (fakemac (w_reg w))) in
      if coll then tx_done (collide w)
      else
        let w := release w in
        let outsize := if flag mode MODE_DTCR && negb add_fcs then outsize - 4 else outsize in
        let w := upd_ring (set_transmitlen outsize) w in
        '(_, b) ← mungepacket (w_mac w) (transmitbuffer (w_ring w)) outsize;
        let w := upd_ring (set_transmitbuffer b) w in
        w ← ethernet_send b outsize w;
        tx_done w.

(** Enough iterations for the gather loop: every one but the last adds a byte. *)
Definition tx_fuel : nat := 4097.

Definition do_transmit (stk : list Z) (w : world) : res (Z * world) :=
  if negb (flag (csr0 w) CSR0_TXON) then Ok (0, w)
  else
  let tdr_tdra := am_tdr_tdra (w_reg w) in
  let tdr_tlen := am_tdr_tlen (w_reg w) in
  if negb (ring_usable tdr_tdra tdr_tlen) then Ok (0, w)
  else
    let w := upd_reg (λ r, set_tdr_offset (tdr_offset r mod tdr_tlen) r) w in
    let start := tdr_offset (w_reg w) in
    let tmd1 := ram_word w (desc_off tdr_tdra start + 2) in
    let '(tmd1, w) :=
      if tx_startable tmd1 then (tmd1, w)
      else tx_scan (Z.to_nat tdr_tlen) tdr_tdra tdr_tlen start 0 tmd1 w in
    if negb (tx_startable tmd1) then Ok (0, upd_reg (set_tdr_offset start) w)
    else
      let add_fcs := flag tmd1 TX_ADD_FCS in
      '(e, w) ← tx_loop tx_fuel tdr_tdra tdr_tlen 0 w;
      tx_finish stk add_fcs e w.
End receive.

(** ** Lemmas: one step of the ring code keeps the chip well-formed *)

Definition keeps (w w' : world) : Prop := world_ok w' ∧ run_frame w w'.

Lemma keeps_refl w : world_ok w → keeps w w.
Proof. by split. Qed.

Lemma keeps_trans w1 w2 w3 : keeps w1 w2 → (world_ok w2 → keeps w2 w3) → keeps w1 w3.
Proof. intros [H1 H2] H3. destruct (H3 H1). split; [done|by etransitivity]. Qed.

(** Writes to board RAM do not reach the bytes the FPGA asks through. *)
Lemma request_outside base a : request_byte base a → a < base ∨ base + RAM_SIZE ≤ a.
Proof. unfold request_byte, RAM_SIZE. lia. Qed.

Lemma keeps_put_word off v w : world_ok w → keeps w (put_word off v w).
Proof.
  intros []. split; [split; try done; by apply window_ok_put_word|]. split; try done.
  intros a Ha. by apply put_ram_word_frame, request_outside.
Qed.

Lemma keeps_put_desc off md1 md3 w : world_ok w → keeps w (put_desc off md1 md3 w).
Proof. intros Hw. eapply keeps_trans; [by apply keeps_put_word|apply keeps_put_word]. Qed.

Lemma keeps_write_block off src w : world_ok w → keeps w (write_block off src w).
Proof.
  intros []. split; [split; try done; by apply window_ok_write_block|]. split; try done.
  intros a Ha. by apply ram_write_block_frame, request_outside.
Qed.

Lemma keeps_tdr_offset o w : world_ok w → 0 ≤ o ≤ 512 → keeps w (upd_reg (set_tdr_offset o) w).
Proof. intros Hw Ho. destruct (reg_ok w Hw), Hw. split; [by split|by split]. Qed.

Lemma keeps_rdr_offset o w : world_ok w → 0 ≤ o ≤ 512 → keeps w (upd_reg (set_rdr_offset o) w).
Proof. intros Hw Ho. destruct (reg_ok w Hw), Hw. split; [by split|by split]. Qed.

Lemma keeps_buffer b w : world_ok w → length b = 4096%nat → Forall (fits 8) b →
  keeps w (upd_ring (set_transmitbuffer b) w).
Proof. intros [] ??. split; [by split|by split]. Qed.

Lemma keeps_upd_ring f w : world_ok w →
  transmitbuffer (f (w_ring w)) = transmitbuffer (w_ring w) → keeps w (upd_ring f w).
Proof. intros [] Hf. split; [|by split]. split; cbn; rewrite ?Hf; done. Qed.

Lemma world_ok_sent l w : world_ok w → world_ok (set_w_sent l w).
Proof. intros []. by split. Qed.

Lemma keeps_sent f w : frame_ok f → world_ok w → keeps w (set_w_sent (w_sent w ++ [f]) w).
Proof.
  intros Hf Hw. split; [by apply world_ok_sent|]. split; try done. exists [f]. split; [done|]. by constructor; [|constructor].
Qed.

(** What [ethernet_send] takes from the transmit buffer. *)
Lemma bslice_frame b n f : 0 < n → length b = 4096%nat → Forall (fits 8) b → bslice b 0 n = Ok f → frame_ok f.
Proof.
  intros Hn Hl Hb. unfold bslice. case_match; [done|]. intros [= <-]. unfold slice. cbn. rewrite drop_0.
  split; [rewrite length_take; lia|by apply Forall_take].
Qed.

Lemma keeps_set_csr0 c w : world_ok w → fits 16 c → csr0_core c →
  Z.land c RUN_BITS = Z.land (csr0 w) RUN_BITS → keeps w (set_csr0 c w).
Proof.
  intros Hw Hf Hc Hr. split; [by apply world_ok_set_csr0|]. split; try done.
  - unfold config, set_csr0, upd_reg, set_csr_at, set_csr. cbn. by rewrite list_insert_insert_eq.
  - by rewrite csr0_set_csr0 by apply Hw.
Qed.

(** Setting status bits, and clearing the transmitter or receiver bit. *)
Lemma keeps_csr0_set m w : world_ok w → m = CSR0_MISS ∨ m = CSR0_RINT ∨ m = CSR0_TINT →
  keeps w (registers_csr0_set m w).
Proof.
  intros Hw Hm. assert (Hf := csr0_fits w Hw). apply keeps_set_csr0; [done|..].
  - destruct Hm as [->|[->| ->]]; solve_fits.
  - apply csr0_core_set; [apply Hw|by destruct Hm as [->|[->| ->]]..].
  - rewrite Z.land_lor_distr_l.
    destruct Hm as [->|[->| ->]]; vm_compute (Z.land _ RUN_BITS) at 2; apply Z.lor_0_r.
Qed.

Lemma keeps_csr0_clr m w : world_ok w → Z.land m RUN_BITS = 0 → keeps w (registers_csr0_clr m w).
Proof.
  intros Hw Hm. assert (Hf := csr0_fits w Hw). apply keeps_set_csr0; [done|solve_fits|..].
  - apply csr0_core_clr, Hw.
  - apply Z.bits_inj'. intros i Hi. apply (f_equal (λ x, Z.testbit x i)) in Hm.
    push_bits_in Hm. push_bits. destruct (Z.testbit m i), (Z.testbit RUN_BITS i); try done;
      cbn [negb]; by rewrite ?andb_true_r, ?andb_false_r.
Qed.

Section keeps.
Context `{Hint : IntHandler, Hok : !IntHandlerOk}.

Lemma keeps_rethink w : world_ok w → keeps w (rethink w).
Proof.
  intros Hw. split; [by apply world_ok_rethink|]. pose proof (rethink_quiet w).
  destruct (rethink_frame w). split; try done; [| |by rewrite frame_sent].
  - rewrite frame_reg. unfold config, set_csr0, upd_reg, set_csr_at, set_csr. cbn.
    by rewrite list_insert_insert_eq.
  - rewrite csr0_rethink by done. apply Z.bits_inj'. intros i Hi. push_bits.
    rewrite rethink_csr0_bits by done. destruct (Z.eqb_spec i 7) as [->|]; [|done].
    change (Z.testbit RUN_BITS 7) with false. by rewrite !andb_false_r.
Qed.

Lemma keeps_tx_done n w w' : world_ok w → tx_done w = Ok (n, w') → keeps w w'.
Proof.
  intros Hw [= <- <-]. eapply keeps_trans; [apply (keeps_csr0_set CSR0_TINT); auto|].
  apply keeps_rethink.
Qed.
End keeps.

(** Chain the lemmas above through a sequence of updates. *)
Ltac keep_step :=
  first
    [ apply keeps_put_word | apply keeps_put_desc | apply keeps_write_block | apply keeps_rethink
    | apply keeps_upd_ring; [|reflexivity]
    | apply keeps_csr0_set; [|by auto] | apply keeps_csr0_clr; [|done] ].
Ltac keep :=
  first [ apply keeps_refl; assumption
        | keep_step; assumption
        | eapply keeps_trans; [|intros ?; keep_step; assumption]; keep ].

Section invariant.
Context `{Hint : IntHandler, Hok : !IntHandlerOk}.

Lemma mod_ring_range o len : 0 < len ≤ 512 → 0 ≤ o mod len ≤ 512.
Proof. intros. pose proof (Z.mod_pos_bound o len). lia. Qed.

Lemma mod_ring_next o len : 0 < len ≤ 512 → 0 ≤ o mod len + 1 ≤ 512.
Proof. intros. pose proof (Z.mod_pos_bound o len). lia. Qed.

Lemma rx_loop_keeps fuel rdra rlen d len insize first w b w' : 0 < rlen ≤ 512 → world_ok w →
  rx_loop fuel rdra rlen d len insize first w = Ok (b, w') → keeps w w'.
Proof.
  intros Hr. revert insize first w. induction fuel as [|fuel IH]; intros insize first w Hw; [done|].
  cbn [rx_loop]. cbv zeta.
  set (w1 := upd_reg (λ r, set_rdr_offset (rdr_offset r mod rlen) r) w).
  assert (K1 : keeps w w1) by (apply keeps_rdr_offset; [done|by apply mod_ring_range]).
  assert (K2 : keeps w (upd_reg (λ r, set_rdr_offset (rdr_offset r + 1) r) w1)).
  { eapply keeps_trans; [apply K1|]. intros. apply keeps_rdr_offset; [done|by apply mod_ring_next]. }
  destruct (flag _ RX_OWN); cbn [negb].
  - intros Hx. bind_inv Hx. revert Hx. case_match.
    + intros [= <- <-]. eapply keeps_trans; [apply K2|]. intros. keep.
    + intros Hx. eapply keeps_trans; [|intros; eapply IH; [done|apply Hx]].
      eapply keeps_trans; [apply K2|]. intros. keep.
  - intros [= <- <-]. eapply keeps_trans; [apply K1|]. intros. destruct first; keep.
Qed.

Lemma ring_usable_range base len : ring_usable base len = true → 0 ≤ len → 0 < len ≤ 512.
Proof.
  unfold ring_usable. intros [[H1 H2]%andb_prop _]%andb_prop Hl.
  destruct (Z.eqb_spec len 0); [done|]. apply Z.leb_le in H2. lia.
Qed.

Lemma rlen_nonneg w : world_ok w → 0 ≤ am_rdr_rlen (w_reg w).
Proof. intros Hw. apply (rlen_fits _ (reg_ok w Hw)). Qed.
Lemma tlen_nonneg w : world_ok w → 0 ≤ am_tdr_tlen (w_reg w).
Proof. intros Hw. apply (tlen_fits _ (reg_ok w Hw)). Qed.

Lemma gotfunc_keeps stk databuf len w w' : world_ok w →
  gotfunc stk databuf len w = Ok w' → keeps w w'.
Proof.
  intros Hw. unfold gotfunc. pose proof (keeps_refl w Hw) as K0.
  destruct (flag _ CSR0_RXON); cbn [negb]; [|by intros [= <-]].
  destruct (len <? 20); [by intros [= <-]|]. cbv zeta.
  destruct (ring_usable _ _) eqn:Eu; cbn [negb]; [|by intros [= <-]].
  apply ring_usable_range in Eu; [|by apply rlen_nonneg].
  intros H. bind_inv H. bind_inv H. bind_inv H. revert H.
  destruct (rx_accept w x1); cbn [negb]; [|by intros [= <-]].
  intros H. bind_inv H. destruct x2 as [d' len']. bind_inv H. destruct x2 as [stored w1].
  apply rx_loop_keeps in Hx3; [|done|done].
  destruct stored; injection H as <-; [|done].
  eapply keeps_trans; [apply Hx3|]. intros.
  destruct (flag (registers_mode (rethink _)) MODE_LOOP); keep.
Qed.

(** *** The transmit side *)

Lemma tx_scan_keeps n tdra tlen start i tmd1 w : 0 < tlen ≤ 512 → world_ok w →
  keeps w (tx_scan n tdra tlen start i tmd1 w).2.
Proof.
  intros Ht. revert i tmd1 w. induction n as [|n IH]; intros i tmd1 w Hw; [by apply keeps_refl|].
  cbn [tx_scan]. cbv zeta. set (w1 := upd_reg _ w).
  assert (K1 : keeps w w1) by (apply keeps_tdr_offset; [done|by apply mod_ring_range]).
  case_match; [done|]. eapply keeps_trans; [apply K1|]. intros. by apply IH.
Qed.

Lemma read_block_fits w off n : world_ok w → Forall (fits 8) (read_block w off n).
Proof. intros Hw. apply ram_read_block_ok, Hw. Qed.

Lemma Forall_blit (P : Z → Prop) b i s : Forall P b → Forall P s → Forall P (blit b i s).
Proof. intros. unfold blit. rewrite !Forall_app. auto using Forall_take, Forall_drop. Qed.

Lemma bblit_inv b i s b' : bblit b i s = Ok b' →
  length b' = length b ∧ (Forall (fits 8) b → Forall (fits 8) s → Forall (fits 8) b').
Proof.
  unfold bblit. destruct (Z.ltb_spec i 0), (Z.ltb_spec (Z.of_nat (length b)) (i + Z.of_nat (length s)));
    try done. cbn [orb]. intros [= <-]. split; [apply length_blit; lia|apply Forall_blit].
Qed.

Lemma Forall_zeros n : Forall (fits 8) (replicate n 0).
Proof. apply Forall_replicate. by split. Qed.

Lemma tx_pad_inv last b outsize b' outsize' : tx_pad last b outsize = Ok (b', outsize') →
  length b' = length b ∧ (Forall (fits 8) b → Forall (fits 8) b').
Proof.
  unfold tx_pad. case_match; [|by intros [= <- <-]]. intros Hx. bind_inv Hx.
  injection Hx as <- <-. apply bblit_inv in Hx0 as [Hx0 Hx1]. auto using Forall_zeros.
Qed.

Lemma tx_loop_keeps fuel tdra tlen outsize w e w' : 0 < tlen ≤ 512 → world_ok w →
  tx_loop fuel tdra tlen outsize w = Ok (e, w') → keeps w w'.
Proof.
  intros Ht. revert outsize w. induction fuel as [|fuel IH]; intros outsize w Hw; [done|].
  cbn [tx_loop]. cbv zeta.
  set (w1 := upd_reg (λ r, set_tdr_offset (tdr_offset r mod tlen) r) w).
  assert (K1 : keeps w w1) by (apply keeps_tdr_offset; [done|by apply mod_ring_range]).
  destruct (flag _ TX_OWN); cbn [negb].
  2: { intros [= <- <-]. eapply keeps_trans; [apply K1|]. intros. keep. }
  destruct (MAX_PACKET_SIZE <? _ + _).
  { intros [= <- <-]. eapply keeps_trans; [apply K1|]. intros. keep. }
  intros H. bind_inv H. bind_inv H. destruct x0 as [b outsize'].
  assert (Hb : length b = 4096%nat ∧ Forall (fits 8) b).
  { assert (H1 := proj1 K1). apply bblit_inv in Hx as [Hx1 Hx2].
    specialize (Hx2 (buf_bytes w1 H1) (read_block_fits w1 _ _ H1)).
    rewrite (buf_len w1 H1) in Hx1. apply tx_pad_inv in Hx0 as [Hx0 Hx3].
    split; [congruence|auto]. }
  set (w2 := upd_reg _ (upd_ring _ w1)) in H.
  assert (K2 : keeps w w2).
  { eapply keeps_trans; [eapply keeps_trans; [apply K1|]|]; intros.
    - destruct Hb. by apply (keeps_buffer b).
    - apply keeps_tdr_offset; [done|by apply mod_ring_next]. }
  clearbody w2. revert H. case_match; [by intros [= <- <-]|]. intros H'.
  eapply keeps_trans; [|intros; eapply IH; [done|apply H']].
  eapply keeps_trans; [apply K2|]. intros. keep.
Qed.

(** Whatever becomes of the frame, the last thing that happens is [tx_done]. *)
Lemma tx_finish_done stk add_fcs e w n w' : world_ok w →
  tx_finish stk add_fcs e w = Ok (n, w') → ∃ u, keeps w u ∧ tx_done u = Ok (n, w').
Proof.
  intros Hw. unfold tx_finish. destruct e as [err outsize off tmd1 tmd3]. cbv zeta.
  assert (D : ∀ u, keeps w u → tx_done u = Ok (n, w') → ∃ u, keeps w u ∧ tx_done u = Ok (n, w'))
    by (intros u Ku Hu; by exists u).
  destruct err; [apply D; keep|].
  destruct (_ && negb (flag _ MODE_LOOP)) eqn:E0; [apply D; keep|].
  destruct (flag (registers_mode w) MODE_LOOP).
  - destruct (flag _ MODE_COLL); [apply D; keep|].
    intros H. bind_inv H. apply (D x); [|done]. eapply keeps_trans; [|intros; by eapply gotfunc_keeps].
    keep.
  - destruct (flag _ MODE_COLL || _); [apply D; keep|].
    rewrite andb_true_r in E0. apply Z.ltb_ge in E0.
    set (size := if _ && _ then _ else _).
    assert (20 ≤ size) by (unfold size; case_match; lia). clearbody size.
    set (w1 := upd_ring (set_transmitlen size) _).
    assert (K1 : keeps w w1) by keep. assert (H1 := proj1 K1). clearbody w1.
    destruct (mungepacket_cases (w_mac w1) (transmitbuffer (w_ring w1)) size)
      as [->|(b' & -> & Hl & Hf & _)]; [apply H1|rewrite (buf_len w1 H1); lia|apply H1|done|done|].
    cbn. intros Hs. bind_inv Hs. apply (D x); [|done].
    eapply keeps_trans; [apply K1|]. intros _. unfold ethernet_send in Hx.
    assert (K2 : keeps w1 (upd_ring (set_transmitbuffer b') w1)).
    { apply keeps_buffer; [done| |done]. by rewrite Hl, (buf_len w1 H1). }
    revert Hx. destruct (_ || _) eqn:El; [by intros [= <-]|]. intros Hx. bind_inv Hx. injection Hx as <-.
    eapply keeps_trans; [apply K2|]. intros.
    apply (keeps_sent x0 (upd_ring (set_transmitbuffer b') w1)); [|done]. apply orb_false_iff in El as [_ El]. apply Z.leb_gt in El. by apply (bslice_frame b' size);
      [|rewrite Hl; apply H1| |].
Qed.

Lemma tx_finish_keeps stk add_fcs e w n w' : world_ok w →
  tx_finish stk add_fcs e w = Ok (n, w') → keeps w w'.
Proof.
  intros Hw Hf. destruct (tx_finish_done _ _ _ _ _ _ Hw Hf) as (u & Ku & Hu).
  eapply keeps_trans; [apply Ku|]. intros. by eapply keeps_tx_done.
Qed.

(** The search for the first descriptor. *)
Lemma tx_seek_keeps tdra tlen w : world_ok w → 0 < tlen ≤ 512 →
  let w1 := upd_reg (λ r, set_tdr_offset (tdr_offset r mod tlen) r) w in
  let start := tdr_offset (w_reg w1) in
  let tmd1 := ram_word w1 (desc_off tdra start + 2) in
  keeps w (if tx_startable tmd1 then (tmd1, w1)
           else tx_scan (Z.to_nat tlen) tdra tlen start 0 tmd1 w1).2.
Proof.
  intros Hw Ht w1 start tmd1.
  assert (K1 : keeps w w1) by (apply keeps_tdr_offset; [done|by apply mod_ring_range]).
  case_match; [done|]. eapply keeps_trans; [apply K1|]. intros. by apply tx_scan_keeps.
Qed.

Lemma do_transmit_keeps stk w n w' : world_ok w → do_transmit stk w = Ok (n, w') → keeps w w'.
Proof.
  intros Hw. unfold do_transmit. cbv zeta.
  destruct (flag _ CSR0_TXON); cbn [negb]; [|intros [= <- <-]; by apply keeps_refl].
  set (tdra := am_tdr_tdra _). set (tlen := am_tdr_tlen _).
  destruct (ring_usable tdra tlen) eqn:Eu; cbn [negb]; [|intros [= <- <-]; by apply keeps_refl].
  apply ring_usable_range in Eu; [|by apply tlen_nonneg].
  pose proof (tx_seek_keeps tdra tlen w Hw Eu) as K2. cbv zeta in K2.
  destruct (if tx_startable _ then _ else _) as [tmd1 w2]. cbn [snd] in K2.
  destruct (tx_startable tmd1); cbn [negb].
  - intros H. bind_inv H. destruct x as [e w3].
    eapply keeps_trans; [apply K2|]. intros. eapply keeps_trans; [by eapply tx_loop_keeps|].
    intros. by eapply tx_finish_keeps.
  - intros [= <- <-]. eapply keeps_trans; [apply K2|]. intros.
    apply keeps_tdr_offset; [done|by apply mod_ring_range].
Qed.
End invariant.

(** ** Lemmas: the loops terminate *)

Section termination.
Context `{Hint : IntHandler, Hok : !IntHandlerOk}.

Lemma bind_fuel {A B} (m : res A) (k : A → res B) :
  m ≠ Err OutOfFuel → (∀ a, m = Ok a → k a ≠ Err OutOfFuel) → (m ≫= k) ≠ Err OutOfFuel.
Proof. intros Hm Hk. destruct m as [a|e]; [by apply Hk|]. cbn. congruence. Qed.

Lemma bslice_fuel b i n : bslice b i n ≠ Err OutOfFuel.
Proof. unfold bslice. by case_match. Qed.
Lemma bblit_fuel b i s : bblit b i s ≠ Err OutOfFuel.
Proof. unfold bblit. by case_match. Qed.
Lemma bset_fuel b i v : bset b i v ≠ Err OutOfFuel.
Proof. unfold bset. by case_match. Qed.

Lemma desc_size_pos w off : 1 ≤ desc_size (ram_word w off) ≤ 65536.
Proof.
  unfold desc_size. pose proof (ram_word_fits w off) as [H1 H2]. change (2 ^ 16) with 65536 in H2. lia.
Qed.

Lemma tx_size_range w off : 1 ≤ tx_size (ram_word w off) ≤ 4096.
Proof.
  unfold tx_size, MAX_PACKET_SIZE. pose proof (desc_size_pos w off). cbv zeta.
  destruct (Z.ltb_spec 4096 (desc_size (ram_word w off))); lia.
Qed.

(** Every descriptor takes at least one byte of the frame. *)
Lemma rx_loop_fuel fuel rdra rlen d len insize first w : 0 ≤ insize < len →
  len - insize ≤ Z.of_nat fuel →
  rx_loop fuel rdra rlen d len insize first w ≠ Err OutOfFuel.
Proof.
  revert insize first w. induction fuel as [|fuel IH]; intros insize first w Hi Hf; [lia|].
  cbn [rx_loop]. cbv zeta. case_match; [done|].
  apply bind_fuel; [apply bslice_fuel|]. intros src _.
  pose proof (desc_size_pos (upd_reg (λ r, set_rdr_offset (rdr_offset r mod rlen) r) w)
    (desc_off rdra (rdr_offset (w_reg (upd_reg (λ r, set_rdr_offset (rdr_offset r mod rlen) r) w))) + 4)).
  destruct (Z.leb_spec len (insize + desc_size (ram_word
    (upd_reg (λ r, set_rdr_offset (rdr_offset r mod rlen) r) w)
    (desc_off rdra (rdr_offset (w_reg (upd_reg (λ r, set_rdr_offset (rdr_offset r mod rlen) r) w))) + 4)))).
  - done.
  - apply IH; lia.
Qed.

Lemma tx_loop_fuel fuel tdra tlen outsize w : 0 ≤ outsize ≤ 4096 → 4096 - outsize < Z.of_nat fuel →
  tx_loop fuel tdra tlen outsize w ≠ Err OutOfFuel.
Proof.
  revert outsize w. induction fuel as [|fuel IH]; intros outsize w Ho Hf; [lia|].
  cbn [tx_loop]. cbv zeta. set (w1 := upd_reg _ w).
  destruct (flag _ TX_OWN); cbn [negb]; [|done].
  pose proof (tx_size_range w1 (desc_off tdra (tdr_offset (w_reg w1)) + 4)) as Hs.
  set (size := tx_size _) in *.
  destruct (Z.ltb_spec MAX_PACKET_SIZE (outsize + size)) as [|Hm]; [done|].
  unfold MAX_PACKET_SIZE in Hm.
  apply bind_fuel; [apply bblit_fuel|]. intros b _.
  set (enp := flag _ TX_ENP). apply bind_fuel.
  { unfold tx_pad. case_match; [|done]. apply bind_fuel; [apply bblit_fuel|done]. }
  intros [b' outsize'] Hp. destruct enp; [done|].
  unfold tx_pad in Hp. cbn in Hp. injection Hp as <- <-. apply IH; lia.
Qed.

Lemma bset_inv b i v b' : bset b i v = Ok b' →
  0 ≤ i < Z.of_nat (length b) ∧ length b' = length b.
Proof.
  unfold bset. destruct (Z.ltb_spec i 0), (Z.leb_spec (Z.of_nat (length b)) i); try done.
  intros [= <-]. rewrite length_insert. lia.
Qed.

Lemma append_fcs_fuel d len : append_fcs d len ≠ Err OutOfFuel.
Proof.
  unfold append_fcs. apply bind_fuel; [apply bslice_fuel|]. intros. cbv zeta.
  do 4 (apply bind_fuel; [apply bset_fuel|]; intros). done.
Qed.

Lemma append_fcs_len d len d' len' : append_fcs d len = Ok (d', len') →
  len' = len + 4 ∧ 0 ≤ len ∧ len' ≤ Z.of_nat (length d) ∧ length d' = length d.
Proof.
  unfold append_fcs. intros H. do 5 bind_inv H. injection H as <- <-.
  apply bset_inv in Hx0, Hx1, Hx2, Hx3. lia.
Qed.

Lemma bytes_stk stk src d : length stk = 4096%nat → Forall (fits 8) stk → Forall (fits 8) src →
  bblit stk 0 src = Ok d → length d = 4096%nat ∧ Forall (fits 8) d.
Proof. intros Hl Hs Hb H. apply bblit_inv in H as [H1 H2]. split; [congruence|auto]. Qed.

Lemma bslice_Forall b i n s : Forall (fits 8) b → bslice b i n = Ok s → Forall (fits 8) s.
Proof.
  intros Hb. unfold bslice. case_match; [done|]. intros [= <-]. by apply Forall_take, Forall_drop.
Qed.

Lemma gotfunc_fuel stk databuf len w : world_ok w → length stk = 4096%nat → Forall (fits 8) stk →
  Forall (fits 8) databuf → gotfunc stk databuf len w ≠ Err OutOfFuel.
Proof.
  intros Hw Hl Hs Hd. unfold gotfunc. cbv zeta. case_match; [done|].
  destruct (Z.ltb_spec len 20); [done|]. case_match; [done|].
  apply bind_fuel; [apply bslice_fuel|]. intros src Hsrc. apply bind_fuel; [apply bblit_fuel|].
  intros d Hdd. destruct (bytes_stk _ _ _ Hl Hs (bslice_Forall _ _ _ _ Hd Hsrc) Hdd) as [Hdl Hdf].
  apply bind_fuel.
  { case_match; [done|].
    destruct (mungepacket_cases (w_mac w) d len) as [->|(b' & -> & _)]; try done; [apply Hw|lia]. }
  intros d' _. case_match; [done|]. apply bind_fuel; [apply append_fcs_fuel|].
  intros [d2 len2] (-> & ? & ?)%append_fcs_len. apply bind_fuel; [apply rx_loop_fuel; lia|].
  intros [stored w1] _. by case_match.
Qed.

Lemma tx_finish_fuel stk add_fcs e w : world_ok w → length stk = 4096%nat → Forall (fits 8) stk →
  tx_finish stk add_fcs e w ≠ Err OutOfFuel.
Proof.
  intros Hw Hl Hs. unfold tx_finish. destruct e as [err outsize off tmd1 tmd3]. cbv zeta.
  destruct err; [done|]. destruct (_ && negb (flag _ MODE_LOOP)) eqn:E0; [done|].
  destruct (flag (registers_mode w) MODE_LOOP).
  - destruct (flag _ MODE_COLL); [done|]. apply bind_fuel; [|done].
    set (w1 := put_desc _ _ _ _). assert (K : keeps w w1) by keep.
    apply gotfunc_fuel; [apply K|done|done|apply Hw].
  - destruct (flag _ MODE_COLL || _); [done|].
    rewrite andb_true_r in E0. apply Z.ltb_ge in E0.
    set (size := if _ && _ then _ else _).
    assert (20 ≤ size) by (unfold size; case_match; lia). clearbody size.
    apply bind_fuel.
    + change (mungepacket (w_mac w) (transmitbuffer (w_ring w)) size ≠ Err OutOfFuel).
      destruct (mungepacket_cases (w_mac w) (transmitbuffer (w_ring w)) size)
        as [E|(b' & E & _)]; [apply Hw|rewrite (buf_len w Hw); lia|apply Hw|done|by rewrite E..].
    + intros [n b'] _. apply bind_fuel; [|done]. unfold ethernet_send. case_match; [done|].
      apply bind_fuel; [apply bslice_fuel|done].
Qed.

Lemma do_transmit_fuel stk w : world_ok w → length stk = 4096%nat → Forall (fits 8) stk →
  do_transmit stk w ≠ Err OutOfFuel.
Proof.
  intros Hw Hl Hs. unfold do_transmit. cbv zeta. case_match; [done|].
  set (tdra := am_tdr_tdra _). set (tlen := am_tdr_tlen _).
  destruct (ring_usable tdra tlen) eqn:Eu; cbn [negb]; [|done].
  apply ring_usable_range in Eu; [|by apply tlen_nonneg].
  destruct (tx_seek_keeps tdra tlen w Hw Eu) as [K _].
  destruct (if tx_startable _ then _ else _) as [tmd1 w2]. case_match; [done|].
  apply bind_fuel; [apply tx_loop_fuel; [lia|unfold tx_fuel; lia]|].
  intros [e w3] He. apply tx_finish_fuel; [|done|done].
  by apply (tx_loop_keeps _ _ _ _ _ _ _ Eu K He).
Qed.
End termination.
