(* ===== verification/Slots.v ===== *)
(** * Control slots and facts both mailbox daemons use

    The 64-bit slots behind the board RAM, the interrupt level, and what holds of the
    chip after any locked operation, for every interrupt callback that only writes
    slots. *)

From S2P Require Import Prelude Types Window Crc32 Mac State Registers Rings.

(** ** Control slots *)

(** [main] of the doorbell daemon sets [boardram = map + DDR3_BRAM_OFF]; slots are
    addressed from [map]. *)
Definition map_base (w : world) : Z := w_boardram w - DDR3_BRAM_OFF.
Definition slot (w : world) (off : Z) : Z := rd64 (w_win w) (map_base w + off).
Definition set_slot (off val : Z) (w : world) : world :=
  set_w_win (wr64 (w_win w) (map_base w + off) val) w.

(** The interrupt line for a value of CSR0. *)
Definition int_level (c : Z) : Z := if flag c CSR0_INTR && flag c CSR0_INEA then 1 else 0.

(** ** Lemmas: slots *)

Lemma slot_set_eq off v w : slot (set_slot off v w) off = u64 v.
Proof. apply rd64_wr64. Qed.

Lemma slot_set_ne o1 o2 v w : o2 + 8 ≤ o1 ∨ o1 + 8 ≤ o2 → slot (set_slot o1 v w) o2 = slot w o2.
Proof. intros H. apply rd64_wr64_ne. change (map_base (set_slot o1 v w)) with (map_base w). lia. Qed.

(** Control slots lie behind the board RAM. *)
Lemma set_slot_frame off v w : RAM_SIZE ≤ off → ctl_frame w (set_slot off v w).
Proof.
  intros Ho. split; try done; [|apply window_ok_wr64]. intros a Ha. apply rd8_wr64.
  unfold map_base, DDR3_BRAM_OFF. lia.
Qed.

Lemma ctl_frame_keeps w w' : ctl_frame w w' → quiet w w' → world_ok w → keeps w w'.
Proof.
  intros F Q Hw. split; [by apply (ctl_frame_ok w)|]. pose proof (ctl_frame_csr0 _ _ F) as Hc.
  destruct F. split; congruence || done || by rewrite frame_sent.
Qed.

Lemma quiet_trans w1 w2 w3 : w_boardram w2 = w_boardram w1 → quiet w1 w2 → quiet w2 w3 → quiet w1 w3.
Proof. intros E H1 H2 a Ha. rewrite H2 by (by rewrite E). auto. Qed.

(** The slots from 0x8010 on are not the FPGA's. *)
Lemma set_slot_quiet off v w : 0x8010 ≤ off → quiet w (set_slot off v w).
Proof. intros Ho a Ha. apply rd8_wr64. unfold map_base, DDR3_BRAM_OFF, request_byte in *. lia. Qed.

(** The first two slots are. *)
Lemma quiet_slot w w' off : w_boardram w' = w_boardram w → quiet w w' → 0x8000 ≤ off ≤ 0x8008 →
  slot w' off = slot w off.
Proof.
  intros E Q Ho. unfold slot, map_base. rewrite E. apply le_read_ext. intros b Hb. apply Q.
  unfold request_byte, DDR3_BRAM_OFF in *. lia.
Qed.

(** ** Lemmas: register reads *)

Lemma chip_wget_fits off w : world_ok w → fits 16 (chip_wget off w).
Proof.
  intros Hw. unfold chip_wget. cbv zeta. case_match.
  { apply (fits_mono 7); [lia|]. apply (rap_fits _ (reg_ok w Hw)). }
  case_match; [by split|]. case_match; [by split|]. case_match; [by split|].
  assert (Hf : fits 16 (csr_at (Z.to_nat (rap (w_reg w))) (w_reg w))) by apply csr_at_fits, Hw.
  case_match; [|done]. solve_fits.
Qed.

(** ** Lemmas: CSR0 after an operation *)

Section operations.
Context `{Hint : IntHandler, Hok : !IntHandlerOk}.

Lemma run_frame_tdmd w w' : run_frame w w' → flag (csr0 w') CSR0_TDMD = flag (csr0 w) CSR0_TDMD.
Proof.
  intros [_ H _ _ _]. apply (f_equal (λ x, Z.testbit x 3)) in H. cbv beta in H.
  rewrite !Z.land_spec in H. change (Z.testbit RUN_BITS 3) with true in H.
  rewrite !andb_true_r in H. by flags_to_bits.
Qed.

Lemma keeps_rethink_inv w w1 : keeps w w1 → flag (csr0 w) CSR0_TDMD = false →
  csr0_inv (csr0 (rethink w1)).
Proof.
  intros [Hw1 F] Ht. apply rethink_inv; [done|]. by rewrite (run_frame_tdmd _ _ F).
Qed.

Lemma rx_loop_inv fuel rdra rlen d len insize first w w' : 0 < rlen ≤ 512 → world_ok w →
  flag (csr0 w) CSR0_TDMD = false →
  rx_loop fuel rdra rlen d len insize first w = Ok (false, w') → csr0_inv (csr0 w').
Proof.
  intros Hr. revert insize first w. induction fuel as [|fuel IH]; intros insize first w Hw Ht; [done|].
  cbn [rx_loop]. cbv zeta.
  set (w1 := upd_reg (λ r, set_rdr_offset (rdr_offset r mod rlen) r) w).
  assert (K1 : keeps w w1) by (apply keeps_rdr_offset; [done|by apply mod_ring_range]).
  assert (K2 : keeps w (upd_reg (λ r, set_rdr_offset (rdr_offset r + 1) r) w1)).
  { eapply keeps_trans; [apply K1|]. intros. apply keeps_rdr_offset; [done|by apply mod_ring_next]. }
  destruct (flag _ RX_OWN); cbn [negb].
  - intros Hx. bind_inv Hx. revert Hx. destruct (len <=? _); [done|].
    set (w3 := put_desc _ _ _ _).
    assert (K3 : keeps w w3) by (eapply keeps_trans; [apply K2|intros; keep]).
    intros Hx. apply (IH _ _ w3) in Hx; [done|apply K3|]. by rewrite (run_frame_tdmd _ _ (proj2 K3)).
  - intros [= <-]. apply (keeps_rethink_inv w); [|done]. eapply keeps_trans; [apply K1|]. intros.
    destruct first; keep.
Qed.

Lemma gotfunc_inv stk databuf len w w' : world_ok w → csr0_inv (csr0 w) →
  gotfunc stk databuf len w = Ok w' → csr0_inv (csr0 w').
Proof.
  intros Hw Hi. pose proof (proj1 (proj2 Hi)) as Ht. unfold gotfunc.
  destruct (flag _ CSR0_RXON); cbn [negb]; [|by intros [= <-]].
  destruct (len <? 20); [by intros [= <-]|]. cbv zeta.
  destruct (ring_usable _ _) eqn:Eu; cbn [negb]; [|by intros [= <-]].
  apply ring_usable_range in Eu; [|by apply rlen_nonneg].
  intros H. bind_inv H. bind_inv H. bind_inv H. revert H.
  destruct (rx_accept w x1); cbn [negb]; [|by intros [= <-]].
  intros H. bind_inv H. destruct x2 as [d' len']. bind_inv H. destruct x2 as [stored w1].
  destruct stored; injection H as <-; [|by eapply rx_loop_inv].
  apply rx_loop_keeps in Hx3; [|done|done].
  assert (I : csr0_inv (csr0 (rethink (registers_csr0_set CSR0_RINT w1)))).
  { apply (keeps_rethink_inv w); [|done]. eapply keeps_trans; [apply Hx3|]. intros. keep. }
  by destruct (flag (registers_mode (rethink _)) MODE_LOOP).
Qed.

Lemma chip_wput_fuel `{Htx : TxHandler} off v w : world_ok w → fits 16 v →
  (∀ f u, on_transmit = Some f → world_ok u → f u ≠ Err OutOfFuel) →
  chip_wput off v w ≠ Err OutOfFuel.
Proof.
  intros Hw Hv Hf. unfold chip_wput. do 2 (case_match; [done|]). case_match.
  - unfold wput_csr0. cbv zeta. pose proof (world_ok_command w Hw v Hv) as Hc. revert Hc.
    generalize (csr0_command (csr0 w) (set_csr0 (csr0_merge (csr0 w) v) w)). intros u Hu.
    apply bind_fuel; [|done]. unfold csr0_demand. case_match; [|done]. apply bind_fuel; [|done].
    case_match; [|done]. pose proof (csr0_implicit_start u Hu) as Hs. destruct on_transmit eqn:E; [|done].
    apply bind_fuel; [by apply Hf|]. by intros [].
  - repeat case_match; done.
Qed.


(** The search for a frame only moves the ring position. *)
Lemma tx_scan_csr0 n tdra tlen start i tmd1 w : csr0 (tx_scan n tdra tlen start i tmd1 w).2 = csr0 w.
Proof.
  revert i tmd1 w. induction n as [|n IH]; intros i tmd1 w; cbn [tx_scan]; [done|]. cbv zeta.
  case_match; [done|]. by rewrite IH.
Qed.

Lemma do_transmit_inv stk w n w' : world_ok w → csr0_inv (csr0 w) →
  do_transmit stk w = Ok (n, w') → csr0_inv (csr0 w').
Proof.
  intros Hw Hi. pose proof (proj1 (proj2 Hi)) as Ht. unfold do_transmit. cbv zeta.
  destruct (flag _ CSR0_TXON); cbn [negb]; [|by intros [= <- <-]].
  set (tdra := am_tdr_tdra _). set (tlen := am_tdr_tlen _).
  destruct (ring_usable tdra tlen) eqn:Eu; cbn [negb]; [|by intros [= <- <-]].
  apply ring_usable_range in Eu; [|by apply tlen_nonneg].
  pose proof (tx_seek_keeps tdra tlen w Hw Eu) as K2. cbv zeta in K2. revert K2.
  set (w1 := upd_reg _ w). set (p := if tx_startable _ then _ else _). intros K2.
  assert (C2 : csr0 p.2 = csr0 w) by (unfold p; case_match; [done|by rewrite tx_scan_csr0]).
  clearbody p. destruct p as [tmd1 w2]. cbn [snd] in *.
  destruct (tx_startable tmd1); cbn [negb].
  - intros H. bind_inv H. destruct x as [e w3].
    apply tx_loop_keeps in Hx as K3; [|done|apply K2].
    destruct (tx_finish_done _ _ _ _ _ _ (proj1 K3) H) as (u & Ku & Hu).
    injection Hu as _ <-. apply (keeps_rethink_inv w); [|done].
    eapply keeps_trans; [apply K2|]. intros _. eapply keeps_trans; [apply K3|]. intros _.
    eapply keeps_trans; [apply Ku|]. intros. keep.
  - intros [= _ <-]. change (csr0_inv (csr0 w2)). by rewrite C2.
Qed.

(** The chip's state: what the lock protects. *)
Definition chip_ok (w : world) : Prop := world_ok w ∧ csr0_inv (csr0 w).

Lemma chip_ok_frame w w' : ctl_frame w w' → chip_ok w → chip_ok w'.
Proof.
  intros F [Hw Hi]. split; [by apply (ctl_frame_ok w)|]. by rewrite (ctl_frame_csr0 _ _ F).
Qed.

Lemma chip_ok_wput `{Htx : TxHandler, Htxok : !TxHandlerOk} off v w w' : chip_ok w → fits 16 v →
  chip_wput off v w = Ok w' → chip_ok w'.
Proof. intros [Hw Hi]. by apply chip_wput_ok. Qed.

Lemma chip_ok_transmit stk w n w' : chip_ok w → do_transmit stk w = Ok (n, w') → chip_ok w'.
Proof. intros [Hw Hi] H. split; [by eapply do_transmit_keeps|by eapply do_transmit_inv]. Qed.

Lemma chip_ok_receive stk b n w w' : chip_ok w → gotfunc stk b n w = Ok w' → chip_ok w'.
Proof. intros [Hw Hi] H. split; [by eapply gotfunc_keeps|by eapply gotfunc_inv]. Qed.

(** What a register write leaves alone: the postponed writes, the board RAM pointer and
    the bytes the FPGA asks through. *)
Definition env_frame (w w' : world) : Prop :=
  deferred (w_ddr3 w') = deferred (w_ddr3 w) ∧ w_boardram w' = w_boardram w ∧ quiet w w'.

#[export] Instance env_frame_preorder : PreOrder env_frame.
Proof.
  split; [by split|]. intros w1 w2 w3 (D1 & B1 & Q1) (D2 & B2 & Q2).
  split_and!; [congruence..|by apply (quiet_trans _ w2)].
Qed.

Lemma env_frame_wput `{Htx : TxHandler, Htxok : !TxHandlerOk} off v w w' :
  world_ok w → fits 16 v → chip_wput off v w = Ok w' → env_frame w w'.
Proof.
  intros Hw Hv. unfold chip_wput. case_match; [by intros [= <-]|]. case_match; [by intros [= <-]|].
  case_match; [|repeat case_match; by intros [= <-]].
  unfold wput_csr0. cbv zeta. pose proof (world_ok_command w Hw v Hv) as Hc. revert Hc.
  set (u := csr0_command _ _). intros Hu. assert (D : env_frame w u).
  { unfold u, csr0_command. cbv zeta. repeat case_match; done. }
  clearbody u. intros Hx. bind_inv Hx. injection Hx as <-. etransitivity; [apply D|].
  assert (R : env_frame x (rethink x)) by (pose proof (rethink_quiet x); by destruct (rethink_frame x)).
  etransitivity; [|apply R]. unfold csr0_demand in Hx0. destruct (flag _ CSR0_TDMD); [|by injection Hx0 as <-].
  bind_inv Hx0. injection Hx0 as <-. change (env_frame u x0).
  destruct (am_initialized _); [|by injection Hx as <-]. revert Hx.
  pose proof (csr0_implicit_start u Hu) as Hs. revert Hs.
  set (u1 := if flag (csr0 u) CSR0_TXON then u else _). intros Hs.
  assert (D1 : env_frame u u1) by (unfold u1; by case_match).
  clearbody u1. destruct on_transmit as [f|] eqn:Ef; [|by intros [= <-]].
  intros Hy. apply bind_Ok_inv in Hy as [[n u2] [Hy Hz]]. injection Hz as <-.
  destruct (tx_handler_ok f u1 n u2 Ef Hs Hy) as [_ []]. etransitivity; [apply D1|]. by split.
Qed.
End operations.
