(* ===== verification/Descriptors.v ===== *)
(** * Descriptor rings in board RAM

    How the words of a ring's descriptors and the buffers they point at are laid
    out, and what a descriptor update leaves alone.  Shared by the transmit and the
    receive specifications. *)

From S2P Require Import Prelude Types Window Mac State Registers Rings.

(** Word [k] of descriptor [i]. *)
Definition desc_word (w : world) (base i k : Z) : Z := ram_word w (desc_off base i + 2 * k).

(** The buffer a descriptor points at: address and size. *)
Definition buf_addr (w : world) (base i : Z) : Z := desc_addr (desc_word w base i 0) (desc_word w base i 1).
Definition buf_size (w : world) (base i : Z) : Z := desc_size (desc_word w base i 2).

(** [a] is a byte of the ring of [len] descriptors at [base], or of a block of [n] bytes. *)
Definition in_ring (base len a : Z) : Prop := in_block base (8 * len) a.

(** The block of [n] bytes at [addr] has no byte in the ring. *)
Definition apart_ring (base len addr n : Z) : Prop :=
  ∀ k, 0 ≤ k < n → ¬ in_ring base len (addr + k).

(** ** Lemmas *)

Lemma ram_word_put_eq off v w : fits 16 v → ram_word (put_word off v w) off = v.
Proof. apply get_put_word_eq. Qed.

Lemma ram_word_put_ne o1 o2 v w : words_apart o1 o2 → ram_word (put_word o1 v w) o2 = ram_word w o2.
Proof. apply get_put_word_ne. Qed.

Lemma desc_apart base i j a b len : 0 ≤ i < len → 0 ≤ j < len → len ≤ 512 →
  0 ≤ a ≤ 3 → 0 ≤ b ≤ 3 → (i ≠ j ∨ a ≠ b) →
  words_apart (desc_off base i + 2 * a) (desc_off base j + 2 * b).
Proof.
  unfold words_apart, desc_off. intros Hi Hj Hl Ha Hb Hne.
  replace (base + j * 8 + 2 * b - (base + i * 8 + 2 * a)) with (2 * (4 * (j - i) + (b - a))) by lia.
  set (d := 4 * (j - i) + (b - a)). assert (d ≠ 0 ∧ - 2048 < d < 2048) as [Hd Hr] by lia.
  clearbody d. destruct (decide (0 < d)).
  - rewrite Z.mod_small by lia. lia.
  - replace (2 * d) with ((2 ^ 15 + 2 * d) + (-1) * 2 ^ 15) by lia.
    rewrite Z.mod_add, Z.mod_small by lia. lia.
Qed.

(** A word of the ring and a byte outside it. *)
Lemma ring_byte_apart base len i k d a : 0 ≤ i < len → len ≤ 512 → 0 ≤ k ≤ 3 → 0 ≤ d ≤ 1 →
  ¬ in_ring base len a → Ram68k.addr (desc_off base i + 2 * k + d) ≠ Ram68k.addr a.
Proof.
  intros Hi Hl Hk Hd Ha He. apply Ha. unfold in_ring, in_block, desc_off, Ram68k.addr in *.
  rewrite Zminus_mod, <-He, <-Zminus_mod.
  replace (base + i * 8 + 2 * k + d - base) with (8 * i + 2 * k + d) by lia.
  rewrite Z.mod_small by lia. lia.
Qed.

Lemma put_desc_word base len i j k m1 m3 w : 0 ≤ i < len → 0 ≤ j < len → len ≤ 512 → 0 ≤ k ≤ 3 →
  fits 16 m1 → fits 16 m3 →
  desc_word (put_desc (desc_off base i) m1 m3 w) base j k =
  if decide (j = i ∧ k = 1) then m1 else if decide (j = i ∧ k = 3) then m3 else desc_word w base j k.
Proof.
  intros Hi Hj Hl Hk H1 H3. unfold desc_word, put_desc.
  change (desc_off base i + 6) with (desc_off base i + 2 * 3).
  change (desc_off base i + 2) with (desc_off base i + 2 * 1).
  destruct (decide (j = i ∧ k = 1)) as [[-> ->]|E1];
    [|destruct (decide (j = i ∧ k = 3)) as [[-> ->]|E2]].
  - rewrite ram_word_put_ne by (apply (desc_apart base i i 3 1 len); lia).
    by apply ram_word_put_eq.
  - by apply ram_word_put_eq.
  - assert (i ≠ j ∨ (k ≠ 1 ∧ k ≠ 3)) by lia.
    rewrite !ram_word_put_ne by (apply (desc_apart base i j _ k len); lia). done.
Qed.

Lemma put_desc_byte base len i m1 m3 w a : 0 ≤ i < len → len ≤ 512 → ¬ in_ring base len a →
  ram_byte (put_desc (desc_off base i) m1 m3 w) a = ram_byte w a.
Proof.
  intros Hi Hl Ha. unfold put_desc.
  change (desc_off base i + 6) with (desc_off base i + 2 * 3).
  change (desc_off base i + 2) with (desc_off base i + 2 * 1).
  pose proof (ring_byte_apart base len i) as H.
  assert (H0 : ∀ k, 0 ≤ k ≤ 3 → Ram68k.addr (desc_off base i + 2 * k) ≠ Ram68k.addr a).
  { intros k Hk. rewrite <-(Z.add_0_r (desc_off base i + 2 * k)). apply H; auto; lia. }
  etransitivity; apply get_byte_put_word_ne; (apply H0; lia) || (apply H; auto; lia).
Qed.

Lemma put_desc_block base len i m1 m3 w addr n : 0 ≤ i < len → len ≤ 512 →
  apart_ring base len addr (Z.of_nat n) →
  read_block (put_desc (desc_off base i) m1 m3 w) addr n = read_block w addr n.
Proof.
  intros Hi Hl Ha. apply ram_read_block_ext. intros k Hk.
  apply (put_desc_byte base len); [done|done|]. apply Ha. lia.
Qed.

(** ** Examples: a started card *)

(** A block that starts after the ring, and wraps to before it at most. *)
Lemma apart_ring_after base len addr n : 0 ≤ base → 0 ≤ len → base + 8 * len ≤ addr → addr + n ≤ 2 ^ 15 →
  apart_ring base len addr n.
Proof.
  intros Hb Hl Ha Hn k Hk. unfold in_ring, in_block. rewrite Z.mod_small by lia. lia.
Qed.

(** A started card with four transmit descriptors at 0x1000 and receive descriptors
    at 0x2000; the ring contents are those of [win]. *)
Definition card_regs (mode c off : Z) : regs :=
  Regs (c :: replicate 127 0) 0 true mode 0 4 0x2000 4 0x1000 off 0 [0; 0x80; 0x10; 0xAA; 0xBB; 0xCC].
Definition card (mode c off : Z) (win : window) : world :=
  World (card_regs mode c off) ex_macs (Rings (replicate 4096 0) 0 0) win 0 3 [] ddr3_init.

Lemma card_ok mode c off win : fits 16 mode → fits 16 c → csr0_core c → 0 ≤ off ≤ 512 →
  window_ok win → world_ok (card mode c off win).
Proof.
  intros Hm Hc Hcore Ho Hwin. split; try done; [|apply ex_macs_ok|apply Forall_replicate; by split].
  split; try done; [|by apply bytesb_Forall]. constructor; [done|]. apply Forall_replicate. by split.
Qed.

(** CSR0 of an initialised and started chip. *)
Definition CSR0_RUNNING : Z := Z.lor (Z.lor (Z.lor CSR0_INIT CSR0_STRT) CSR0_TXON) CSR0_RXON.
