(* ===== verification/Transmit.v ===== *)
(** * Transmission: what [do_transmit] sends

    The specification of a frame as the driver lays it out, a chain of owned
    descriptors from STP to ENP, and the proof that [do_transmit] sends exactly
    that frame and returns the descriptors. *)

From S2P Require Import Prelude Types Window Crc32 Mac State Registers Rings Descriptors.

(** ** Specification *)

(** The bytes of segment [i]. *)
Definition tx_seg_len (w : world) (base i : Z) : Z := tx_size (desc_word w base i 2).
Definition tx_seg (w : world) (base i : Z) : list Z :=
  read_block w (buf_addr w base i) (Z.to_nat (tx_seg_len w base i)).

(** The owned descriptors of one frame, from [i] to the first one with ENP. *)
Inductive tx_chain (w : world) (base len : Z) : Z → list Z → Prop :=
| chain_last i :
    0 ≤ i < len → flag (desc_word w base i 1) TX_OWN = true →
    flag (desc_word w base i 1) TX_ENP = true → tx_chain w base len i [i]
| chain_more i l :
    0 ≤ i < len → flag (desc_word w base i 1) TX_OWN = true →
    flag (desc_word w base i 1) TX_ENP = false → i ∉ l →
    tx_chain w base len ((i + 1) mod len) l → tx_chain w base len i (i :: l).

(** No buffer of the chain overlaps the ring. *)
Definition tx_apart (w : world) (base len i : Z) : Prop :=
  apart_ring base len (buf_addr w base i) (tx_seg_len w base i).

(** The frame in memory, and padded to the Ethernet minimum. *)
Definition tx_data (w : world) (base : Z) (l : list Z) : list Z := concat (map (tx_seg w base) l).
Definition pad60 (f : list Z) : list Z := f ++ replicate (60 - length f) 0.

(** [i] is the first descriptor, counting [s] steps from [start], that the chip
    owns and that starts a frame. *)
Definition tx_first (w : world) (base len start i : Z) : Prop :=
  ∃ s, 0 ≤ s < len ∧ i = (start + s) mod len ∧ tx_startable (desc_word w base i 1) = true ∧
  ∀ s', 0 ≤ s' < s → tx_startable (desc_word w base ((start + s') mod len) 1) = false.

(** Ownership handed back to the host. *)
Definition release (base i : Z) (w : world) : world :=
  put_desc (desc_off base i) (andnot (desc_word w base i 1) TX_OWN) (desc_word w base i 3) w.
Fixpoint releases (base : Z) (l : list Z) (w : world) : world :=
  match l with [] => w | i :: l => releases base l (release base i w) end.

(** ** Lemmas *)

Lemma desc_word_fits w base i k : fits 16 (desc_word w base i k).
Proof. apply ram_word_fits. Qed.
#[export] Hint Resolve desc_word_fits : fits.

Lemma release_word base len i j k w : 0 ≤ i < len → 0 ≤ j < len → len ≤ 512 → 0 ≤ k ≤ 3 →
  desc_word (release base i w) base j k =
  if decide (j = i ∧ k = 1) then andnot (desc_word w base j 1) TX_OWN else desc_word w base j k.
Proof.
  intros. unfold release. rewrite (put_desc_word base len) by (done || solve_fits).
  repeat case_decide; naive_solver.
Qed.

Lemma release_seg base len i j w : 0 ≤ i < len → 0 ≤ j < len → len ≤ 512 → i ≠ j →
  tx_apart w base len j → tx_seg (release base i w) base j = tx_seg w base j.
Proof.
  intros Hi Hj Hl Hne Ha. unfold tx_seg, buf_addr, tx_seg_len.
  rewrite !(release_word base len) by lia. rewrite !decide_False by naive_solver.
  apply (put_desc_block base len); [done|done|].
  unfold tx_apart, tx_seg_len in Ha. rewrite Z2Nat.id; [done|].
  pose proof (tx_size_range w (desc_off base j + 2 * 2)). unfold desc_word. lia.
Qed.

Lemma release_apart base len i j w : 0 ≤ i < len → 0 ≤ j < len → len ≤ 512 → i ≠ j →
  tx_apart w base len j → tx_apart (release base i w) base len j.
Proof.
  intros. unfold tx_apart, buf_addr, tx_seg_len. rewrite !(release_word base len) by lia.
  by rewrite !decide_False by naive_solver.
Qed.

Lemma tx_chain_range w base len i l : tx_chain w base len i l → Forall (λ j, 0 ≤ j < len) l.
Proof. induction 1; auto. Qed.

Lemma tx_chain_head w base len i l : tx_chain w base len i l → ∃ l', l = i :: l'.
Proof. inversion 1; eauto. Qed.

Lemma tx_chain_release base len i j w l : 0 ≤ i < len → len ≤ 512 → i ∉ l →
  tx_chain w base len j l → tx_chain (release base i w) base len j l.
Proof.
  intros Hi Hl Hn Hc. induction Hc as [j|j l Hj Ho He Hnj Hc IH].
  - apply chain_last; [done|..]; rewrite (release_word base len), decide_False by (set_solver || lia); done.
  - apply chain_more; [done|..|apply IH; set_solver];
      rewrite ?(release_word base len), ?decide_False by (set_solver || lia); done.
Qed.

Lemma releases_word base len l j k w : Forall (λ i, 0 ≤ i < len) l → 0 ≤ j < len → len ≤ 512 →
  0 ≤ k ≤ 3 →
  desc_word (releases base l w) base j k =
  if decide (j ∈ l ∧ k = 1) then andnot (desc_word w base j 1) TX_OWN else desc_word w base j k.
Proof.
  intros Hf Hj Hl Hk. revert w. induction Hf as [|i l Hi Hf IH]; intros w; cbn.
  - by rewrite decide_False by set_solver.
  - rewrite IH, !(release_word base len) by lia.
    destruct (decide (k = 1)) as [->|]; [|by rewrite !decide_False by naive_solver].
    destruct (decide (j = i)) as [->|].
    + rewrite (decide_True (P := i = i ∧ 1 = 1)), (decide_True (P := i ∈ i :: l ∧ 1 = 1)) by set_solver.
      case_decide; [|done]. unfold andnot. rewrite <-Z.land_assoc. f_equal.
    + rewrite (decide_False (P := j = i ∧ 1 = 1)) by naive_solver.
      destruct (decide (j ∈ l)).
      * rewrite !decide_True by set_solver. done.
      * rewrite !decide_False by set_solver. done.
Qed.

(** One iteration of the gather loop, in terms of the descriptor. *)
Lemma tx_loop_step fuel base len outsize w i :
  tdr_offset (w_reg w) mod len = i → flag (desc_word w base i 1) TX_OWN = true →
  outsize + tx_seg_len w base i ≤ 4096 →
  tx_loop (S fuel) base len outsize w =
  (let tmd1 := andnot (desc_word w base i 1) TX_OWN in
   b ← bblit (transmitbuffer (w_ring w)) outsize (tx_seg w base i);
   '(b, n) ← tx_pad (flag tmd1 TX_ENP && negb (flag (registers_mode w) MODE_LOOP)) b
               (outsize + tx_seg_len w base i);
   let w2 := upd_reg (set_tdr_offset (i + 1)) (upd_ring (set_transmitbuffer b) w) in
   if flag tmd1 TX_ENP then
     Ok (TxEnd false n (desc_off base i) tmd1 (desc_word w base i 3), w2)
   else tx_loop fuel base len n (release base i w2)).
Proof.
  intros Hi Ho Hs. cbn [tx_loop]. cbv zeta.
  change (tdr_offset (w_reg (upd_reg (λ r, set_tdr_offset (tdr_offset r mod len) r) w)))
    with (tdr_offset (w_reg w) mod len). rewrite Hi.
  change (ram_word (upd_reg ?f w) (desc_off base i + 0)) with (desc_word w base i 0).
  change (ram_word (upd_reg ?f w) (desc_off base i + 2)) with (desc_word w base i 1).
  change (ram_word (upd_reg ?f w) (desc_off base i + 4)) with (desc_word w base i 2).
  change (ram_word (upd_reg ?f w) (desc_off base i + 6)) with (desc_word w base i 3).
  rewrite Ho. cbn [negb]. fold (tx_seg_len w base i).
  destruct (Z.ltb_spec MAX_PACKET_SIZE (outsize + tx_seg_len w base i)) as [Hm|_];
    [unfold MAX_PACKET_SIZE in Hm; lia|].
  change (transmitbuffer (w_ring (upd_reg ?f w))) with (transmitbuffer (w_ring w)).
  change (registers_mode (upd_reg (λ r, set_tdr_offset (tdr_offset r mod len) r) w)) with (registers_mode w).
  change (read_block (upd_reg ?f w)) with (read_block w).
  fold (buf_addr w base i). fold (tx_seg w base i).
  destruct (bblit _ _ _) as [b|e]; [|done]. cbn [mbind res_bind].
  destruct (tx_pad _ _ _) as [[b' n]|e]; [|done]. cbn [mbind res_bind].
  rewrite <-Hi. reflexivity.
Qed.

Lemma length_read_block w addr n : length (read_block w addr n) = n.
Proof. apply length_ram_read_block. Qed.

Lemma tx_seg_len_range w base i : 1 ≤ tx_seg_len w base i ≤ 4096.
Proof. apply tx_size_range. Qed.

Lemma length_tx_seg w base i : Z.of_nat (length (tx_seg w base i)) = tx_seg_len w base i.
Proof.
  unfold tx_seg. rewrite length_read_block. pose proof (tx_seg_len_range w base i). lia.
Qed.

Lemma take_blit b i s : (i ≤ length b)%nat → take (i + length s) (blit b i s) = take i b ++ s.
Proof.
  intros Hi. unfold blit. rewrite app_assoc. apply take_app_length'.
  rewrite length_app, length_take. lia.
Qed.

(** What the frame looks like at the end: padded unless in loopback. *)
Definition tx_out (w : world) (f : list Z) : list Z :=
  if flag (registers_mode w) MODE_LOOP then f else pad60 f.

(** The padding step appends the zeros of [pad60]. *)
Lemma tx_pad_out w b f : length b = 4096%nat → take (length f) b = f → Forall (fits 8) b →
  ∃ b', tx_pad (negb (flag (registers_mode w) MODE_LOOP)) b (Z.of_nat (length f))
        = Ok (b', Z.of_nat (length (tx_out w f)))
  ∧ length b' = 4096%nat ∧ take (length (tx_out w f)) b' = tx_out w f ∧ Forall (fits 8) b'.
Proof.
  intros Hb Hf Hbytes. unfold tx_pad, tx_out.
  destruct (flag (registers_mode w) MODE_LOOP); cbn [negb andb]; [by exists b|].
  unfold pad60. rewrite length_app, length_replicate.
  assert (Hfl : (length f ≤ 4096)%nat) by (rewrite <-Hf, length_take; lia).
  destruct (Z.ltb_spec (Z.of_nat (length f)) 60).
  - rewrite bblit_Ok by (rewrite ?length_replicate; lia). cbn [mbind res_bind]. rewrite Nat2Z.id.
    replace (Z.to_nat (60 - Z.of_nat (length f))) with (60 - length f)%nat by lia.
    eexists. split; [do 2 f_equal; lia|]. split; [rewrite length_blit; rewrite ?length_replicate; lia|].
    split; [|apply Forall_blit; [done|apply Forall_zeros]].
    pose proof (take_blit b (length f) (replicate (60 - length f) 0)) as E.
    rewrite length_replicate, Hf in E. apply E. lia.
  - replace (60 - length f)%nat with 0%nat by lia. rewrite app_nil_r, Nat.add_0_r. by exists b.
Qed.

Lemma flag_release_enp x : flag (andnot x TX_OWN) TX_ENP = flag x TX_ENP.
Proof. flags_to_bits. push_bits. done. Qed.

Lemma releases_upd base l f g w :
  releases base l (upd_reg f (upd_ring g w)) = upd_reg f (upd_ring g (releases base l w)).
Proof. revert w. induction l as [|i l IH]; intros w; [done|]. cbn. apply (IH (release base i w)). Qed.

Lemma tx_chain_inv w base len i l : tx_chain w base len i (i :: l) → 0 ≤ i < len ∧
  ((flag (desc_word w base i 1) TX_ENP = true ∧ l = []) ∨
   (flag (desc_word w base i 1) TX_ENP = false ∧ (i ∉ l) ∧ tx_chain w base len ((i + 1) mod len) l)).
Proof. inversion 1; auto. Qed.

Lemma tx_chain_ext w w' base len i l : (∀ j k, desc_word w base j k = desc_word w' base j k) →
  tx_chain w base len i l → tx_chain w' base len i l.
Proof. intros E. induction 1; constructor; rewrite <-?E; auto. Qed.

(** Segments of the chain are not disturbed by returning an earlier descriptor. *)
Lemma release_aparts base len i w l : 0 ≤ i < len → len ≤ 512 → i ∉ l →
  Forall (λ j, 0 ≤ j < len) l → Forall (tx_apart w base len) l →
  Forall (tx_apart (release base i w) base len) l.
Proof.
  intros Hi Hl Hn Hr Ha. rewrite Forall_forall in *. intros j Hj.
  apply release_apart; auto. set_solver.
Qed.

Lemma release_data base len i w l : 0 ≤ i < len → len ≤ 512 → i ∉ l →
  Forall (λ j, 0 ≤ j < len) l → Forall (tx_apart w base len) l →
  tx_data (release base i w) base l = tx_data w base l.
Proof.
  intros Hi Hl Hn Hr Ha. unfold tx_data. f_equal. apply map_ext_in. intros j Hj.
  rewrite <-list_elem_of_In in Hj. rewrite Forall_forall in *.
  apply (release_seg base len); auto. set_solver.
Qed.

(** Copying one segment into the transmit buffer. *)
Lemma tx_gather w base i outsize : world_ok w → 0 ≤ outsize →
  outsize + tx_seg_len w base i ≤ 4096 →
  ∃ b, bblit (transmitbuffer (w_ring w)) outsize (tx_seg w base i) = Ok b ∧
    length b = 4096%nat ∧ Forall (fits 8) b ∧
    take (Z.to_nat outsize + length (tx_seg w base i)) b
    = take (Z.to_nat outsize) (transmitbuffer (w_ring w)) ++ tx_seg w base i.
Proof.
  intros Hw Ho Hs. pose proof (length_tx_seg w base i). pose proof (buf_len w Hw).
  rewrite bblit_Ok by lia. eexists. split; [done|].
  split; [rewrite length_blit; lia|]. split; [|apply take_blit; lia].
  apply Forall_blit; [apply Hw|by apply read_block_fits].
Qed.

(** The gather loop over a whole chain. *)
Lemma tx_loop_chain base len w i l fuel outsize :
  tx_chain w base len i l → len ≤ 512 → Forall (tx_apart w base len) l → world_ok w →
  tdr_offset (w_reg w) mod len = i → 0 ≤ outsize →
  outsize + Z.of_nat (length (tx_data w base l)) ≤ 4096 → (length l ≤ fuel)%nat →
  ∃ l' j tb,
    let out := tx_out w (take (Z.to_nat outsize) (transmitbuffer (w_ring w)) ++ tx_data w base l) in
    l = l' ++ [j] ∧ length tb = 4096%nat ∧ Forall (fits 8) tb ∧ take (length out) tb = out ∧
    tx_loop fuel base len outsize w = Ok (
      TxEnd false (Z.of_nat (length out)) (desc_off base j)
        (andnot (desc_word w base j 1) TX_OWN) (desc_word w base j 3),
      upd_reg (set_tdr_offset (j + 1)) (upd_ring (set_transmitbuffer tb) (releases base l' w))).
Proof.
  intros Hc Hl. revert w i fuel outsize Hc. induction l as [|i0 l IH]; intros w i fuel outsize Hc;
    [by inversion Hc|]. intros Ha Hw Hi Ho Hsum Hfuel.
  destruct (tx_chain_head _ _ _ _ _ Hc) as [l0 [= -> <-]].
  destruct fuel as [|fuel]; [cbn in Hfuel; lia|].
  apply Forall_cons in Ha as [Ha0 Ha].
  pose proof (length_tx_seg w base i) as Hsl. pose proof (buf_len w Hw) as Hbl.
  assert (Hsum' : Z.of_nat (length (tx_data w base (i :: l)))
    = tx_seg_len w base i + Z.of_nat (length (tx_data w base l))).
  { unfold tx_data. cbn. rewrite length_app. lia. }
  pose proof (tx_seg_len_range w base i).
  assert (Hown : flag (desc_word w base i 1) TX_OWN = true) by (by inversion Hc).
  rewrite (tx_loop_step _ _ _ _ _ i) by (done || lia). cbv zeta.
  destruct (tx_gather w base i outsize Hw Ho ltac:(lia)) as (b & -> & Hb1 & Hb2 & Htake).
  cbn [mbind res_bind]. set (f0 := take (Z.to_nat outsize) (transmitbuffer (w_ring w))) in *.
  assert (Hf0 : length f0 = Z.to_nat outsize) by (unfold f0; rewrite length_take; lia).
  assert (Hlen : length (f0 ++ tx_seg w base i) = Z.to_nat (outsize + tx_seg_len w base i))
    by (rewrite length_app; lia).
  rewrite flag_release_enp. destruct (tx_chain_inv _ _ _ _ _ Hc) as [Hr [[Henp ->]|(Henp & Hn & Hc')]].
  - rewrite Henp. cbn [andb].
    replace (outsize + tx_seg_len w base i) with (Z.of_nat (length (f0 ++ tx_seg w base i))) by lia.
    destruct (tx_pad_out w b (f0 ++ tx_seg w base i))
      as (tb & -> & Htb & Hout & Htf); [done|by rewrite length_app, Hf0|done|].
    exists [], i, tb. cbv zeta. unfold tx_data. cbn [map concat]. rewrite app_nil_r. auto.
  - rewrite Henp. cbn [andb tx_pad]. cbn [mbind res_bind].
    set (w3 := release base i (upd_reg _ (upd_ring _ w))).
    assert (Hw3 : world_ok w3).
    { apply keeps_put_desc, keeps_tdr_offset; [|lia]. by apply keeps_buffer. }
    pose proof (tx_chain_range _ _ _ _ _ Hc') as Hrl.
    assert (Hd3 : tx_data w3 base l = tx_data w base l) 
      by exact (release_data base len i w l Hr Hl Hn Hrl Ha).
    destruct (IH w3 ((i + 1) mod len) fuel (outsize + tx_seg_len w base i))
      as (l' & j & tb & -> & Htb & Htf & Hout & E); [..|].
    + apply (tx_chain_ext (release base i w)); [done|]. by apply tx_chain_release.
    + exact (release_aparts base len i w l Hr Hl Hn Hrl Ha).
    + done.
    + done.
    + lia.
    + rewrite Hd3. lia.
    + cbn in Hfuel. lia.
    + assert (Eout : tx_out w3 (take (Z.to_nat (outsize + tx_seg_len w base i))
          (transmitbuffer (w_ring w3)) ++ tx_data w3 base (l' ++ [j]))
        = tx_out w (f0 ++ tx_data w base (i :: l' ++ [j]))).
      { rewrite Hd3. unfold tx_data at 2. cbn [map concat]. rewrite app_assoc.
        change (transmitbuffer (w_ring w3)) with b. rewrite <-Hlen.
        rewrite length_app, Hf0, Htake. done. }
      cbv zeta in Hout, E. rewrite Eout in Hout, E. exists (i :: l'), j, tb. cbv zeta.
      split; [done|]. split; [done|]. split; [done|]. split; [done|].
      rewrite E. rewrite Forall_app, Forall_singleton in Hrl. destruct Hrl as [_ Hj].
      assert (i ≠ j) by (clear -Hn; set_solver).
      change (desc_word w3 base j ?k) with (desc_word (release base i w) base j k).
      rewrite !(release_word base len) by lia. rewrite !decide_False by lia. do 2 f_equal.
      cbn [releases]. unfold w3. 
      change (release base i (upd_reg ?f (upd_ring ?g w))) with (upd_reg f (upd_ring g (release base i w))).
      by rewrite releases_upd.
Qed.

(** ** Lemmas: the search for the first descriptor *)

Lemma tx_scan_found n base len start k s tmd w : k ≤ s < k + Z.of_nat n →
  tx_startable (desc_word w base ((start + s) mod len) 1) = true →
  (∀ s', k ≤ s' < s → tx_startable (desc_word w base ((start + s') mod len) 1) = false) →
  tx_scan n base len start k tmd w
  = (desc_word w base ((start + s) mod len) 1, upd_reg (set_tdr_offset ((start + s) mod len)) w).
Proof.
  revert k tmd w. induction n as [|n IH]; intros k tmd w Hs Hf Hn; [lia|]. cbn [tx_scan]. cbv zeta.
  change (tdr_offset (w_reg (upd_reg (set_tdr_offset ?o) w))) with o.
  change (ram_word (upd_reg ?f w) (desc_off base ?i + 2)) with (desc_word w base i 1).
  destruct (decide (s = k)) as [->|].
  - by rewrite Hf.
  - rewrite Hn by lia. rewrite (IH (k + 1)); [done|lia|done|]. intros s' Hs'. apply Hn. lia.
Qed.

Lemma tx_scan_none n base len start k tmd w : tx_startable tmd = false →
  (∀ s', k ≤ s' < k + Z.of_nat n → tx_startable (desc_word w base ((start + s') mod len) 1) = false) →
  ∃ tmd' o, tx_scan n base len start k tmd w = (tmd', upd_reg (set_tdr_offset o) w) ∧
    tx_startable tmd' = false.
Proof.
  revert k tmd w. induction n as [|n IH]; intros k tmd w Ht Hn.
  - exists tmd, (tdr_offset (w_reg w)). split; [|done]. by destruct w as [[] ? ? ? ? ? ?].
  - cbn [tx_scan]. cbv zeta.
    change (tdr_offset (w_reg (upd_reg (set_tdr_offset ?o) w))) with o.
    change (ram_word (upd_reg ?f w) (desc_off base ?i + 2)) with (desc_word w base i 1).
    rewrite Hn by lia.
    destruct (IH (k + 1) (desc_word w base ((start + k) mod len) 1)
      (upd_reg (set_tdr_offset ((start + k) mod len)) w)) as (tmd' & o & E & Ht'); [apply Hn; lia| |].
    + intros s' Hs'. apply Hn. lia.
    + exists tmd', o. by rewrite E.
Qed.

(** [do_transmit] up to the gather loop, when there is a frame to send. *)
Lemma do_transmit_seek `{IntHandler} stk w i : world_ok w → flag (csr0 w) CSR0_TXON = true →
  ring_usable (am_tdr_tdra (w_reg w)) (am_tdr_tlen (w_reg w)) = true →
  tx_first w (am_tdr_tdra (w_reg w)) (am_tdr_tlen (w_reg w)) (tdr_offset (w_reg w)) i →
  do_transmit stk w =
  ('(e, w') ← tx_loop tx_fuel (am_tdr_tdra (w_reg w)) (am_tdr_tlen (w_reg w)) 0
      (upd_reg (set_tdr_offset i) w);
   tx_finish stk (flag (desc_word w (am_tdr_tdra (w_reg w)) i 1) TX_ADD_FCS) e w').
Proof.
  intros Hw Hon Hu (s & Hs & -> & Hf & Hn).
  pose proof (ring_usable_range _ _ Hu (tlen_nonneg w Hw)) as Hlen.
  unfold do_transmit. cbv zeta. rewrite Hon, Hu. cbn [negb].
  set (base := am_tdr_tdra (w_reg w)) in *. set (len := am_tdr_tlen (w_reg w)) in *.
  change (tdr_offset (w_reg (upd_reg ?f w))) with (tdr_offset (w_reg w) mod len).
  change (ram_word (upd_reg ?f w) (desc_off base ?i + 2)) with (desc_word w base i 1).
  change (upd_reg (λ r, set_tdr_offset (tdr_offset r mod len) r) w)
    with (upd_reg (set_tdr_offset (tdr_offset (w_reg w) mod len)) w).
  assert (Hm : ∀ k, (tdr_offset (w_reg w) mod len + k) mod len = (tdr_offset (w_reg w) + k) mod len)
    by (intros; apply Z.add_mod_idemp_l; lia).
  destruct (tx_startable (desc_word w base (tdr_offset (w_reg w) mod len) 1)) eqn:E0.
  - assert (s = 0) as ->.
    { destruct (decide (s = 0)); [done|]. specialize (Hn 0 ltac:(lia)).
      rewrite Z.add_0_r in Hn. congruence. }
    rewrite Z.add_0_r in *. by rewrite E0.
  - set (w1 := upd_reg _ w). rewrite (tx_scan_found _ _ _ _ _ s); [..|lia| |]; rewrite ?Hm.
    + change (desc_word w1 base ?a 1) with (desc_word w base a 1). by rewrite Hf.
    + done.
    + intros s' Hs'. rewrite Hm. apply Hn. lia.
Qed.

(** ** Lemmas: after the gather loop *)

Section finish.
Context `{Hint : IntHandler, Hok : !IntHandlerOk}.

(** The end of a transmission: TINT, interrupt, and nothing else of the card. *)
Lemma tx_done_spec w : world_ok w → ∃ w', tx_done w = Ok (1, w') ∧
  w_sent w' = w_sent w ∧ w_ring w' = w_ring w ∧ flag (csr0 w') CSR0_TINT = true ∧
  tdr_offset (w_reg w') = tdr_offset (w_reg w) ∧ (∀ a, ram_byte w' a = ram_byte w a) ∧
  (∀ a, ram_word w' a = ram_word w a).
Proof.
  intros Hw. eexists. split; [done|]. set (w1 := registers_csr0_set CSR0_TINT w).
  assert (K : keeps w w1) by (apply keeps_csr0_set; auto).
  assert (F := rethink_frame w1). split; [exact (frame_sent _ _ F)|].
  split; [exact (frame_ring _ _ F)|]. split.
  { rewrite csr0_rethink by apply K. unfold w1, registers_csr0_set. rewrite csr0_set_csr0 by apply Hw.
    flags_to_bits. rewrite rethink_csr0_bits by lia. cbn [Z.eqb Pos.eqb]. push_bits. done. }
  split; [by rewrite (frame_reg _ _ F)|].
  split; intros a; [apply (ctl_frame_ram_byte _ _ a F)|apply (ctl_frame_ram_word _ _ a F)].
Qed.
End finish.

(** Releasing the last descriptor of a chain as [tx_finish] does. *)
Lemma releases_app base l k w : releases base (l ++ k) w = releases base k (releases base l w).
Proof. revert w. induction l as [|i l IH]; intros w; [done|apply IH]. Qed.

Lemma release_last base len l j w : Forall (λ i, 0 ≤ i < len) (l ++ [j]) → len ≤ 512 → j ∉ l →
  put_desc (desc_off base j) (andnot (desc_word w base j 1) TX_OWN) (desc_word w base j 3)
    (releases base l w) = releases base (l ++ [j]) w.
Proof.
  intros Hf Hl Hn. rewrite Forall_app, Forall_singleton in Hf. destruct Hf as [Hf Hj].
  rewrite releases_app. cbn. unfold release.
  rewrite !(releases_word base len) by (done || lia). by rewrite !decide_False by naive_solver.
Qed.

Lemma tx_chain_nodup w base len i l : tx_chain w base len i l → NoDup l.
Proof. induction 1; constructor; auto; [set_solver|constructor]. Qed.

Lemma length_pad60 f : (60 ≤ length (pad60 f))%nat.
Proof. unfold pad60. rewrite length_app, length_replicate. lia. Qed.

Lemma releases_upd_reg base l f w : releases base l (upd_reg f w) = upd_reg f (releases base l w).
Proof. revert w. induction l as [|i l IH]; intros w; [done|]. cbn. apply (IH (release base i w)). Qed.

Lemma length_tx_data w base l : (length l ≤ length (tx_data w base l))%nat.
Proof.
  induction l as [|i l IH]; [done|]. unfold tx_data in *. cbn. rewrite length_app.
  pose proof (length_tx_seg w base i). pose proof (tx_seg_len_range w base i). lia.
Qed.

(** A frame is ready: the transmitter is on, the ring usable, and the first owned
    STP descriptor from the ring position starts a complete chain [l] of at most
    4096 bytes, in buffers outside the ring. *)
Record tx_ready (w : world) (i : Z) (l : list Z) : Prop := TxReady {
  ready_on : flag (csr0 w) CSR0_TXON = true;
  ready_usable : ring_usable (am_tdr_tdra (w_reg w)) (am_tdr_tlen (w_reg w)) = true;
  ready_first : tx_first w (am_tdr_tdra (w_reg w)) (am_tdr_tlen (w_reg w)) (tdr_offset (w_reg w)) i;
  ready_chain : tx_chain w (am_tdr_tdra (w_reg w)) (am_tdr_tlen (w_reg w)) i l;
  ready_apart : Forall (tx_apart w (am_tdr_tdra (w_reg w)) (am_tdr_tlen (w_reg w))) l;
  ready_fits : (length (tx_data w (am_tdr_tdra (w_reg w)) l) ≤ 4096)%nat }.

(** [do_transmit] on a ready frame, up to [tx_finish]. *)
Lemma do_transmit_gathered `{IntHandler} stk w i l : world_ok w → tx_ready w i l →
  let base := am_tdr_tdra (w_reg w) in
  let out := tx_out w (tx_data w base l) in
  ∃ l' j tb, l = l' ++ [j] ∧ length tb = 4096%nat ∧ Forall (fits 8) tb ∧
    take (length out) tb = out ∧
    do_transmit stk w = tx_finish stk (flag (desc_word w base i 1) TX_ADD_FCS)
      (TxEnd false (Z.of_nat (length out)) (desc_off base j)
        (andnot (desc_word w base j 1) TX_OWN) (desc_word w base j 3))
      (upd_reg (set_tdr_offset (j + 1)) (upd_ring (set_transmitbuffer tb) (releases base l' w))).
Proof.
  intros Hw [Hon Hu Hf Hc Ha Hfit] base out.
  pose proof (ring_usable_range _ _ Hu (tlen_nonneg w Hw)) as Hlen.
  pose proof (length_tx_data w base l). fold base in Hfit.
  assert (Hi : 0 ≤ i < am_tdr_tlen (w_reg w)).
  { destruct Hf as (s & _ & -> & _). apply Z.mod_pos_bound. lia. }
  set (w2 := upd_reg (set_tdr_offset i) w).
  destruct (tx_loop_chain base (am_tdr_tlen (w_reg w)) w2 i l tx_fuel 0)
    as (l' & j & tb & Hl & Htb & Hbytes & Htake & E); try done; [..|exists l', j, tb].
  - by apply (tx_chain_ext w).
  - lia.
  - apply keeps_tdr_offset; [done|lia].
  - apply Z.mod_small. lia.
  - change (tx_data w2 base l) with (tx_data w base l). lia.
  - unfold tx_fuel. lia.
  - split; [done|]. split; [done|]. split; [done|]. split; [exact Htake|].
    rewrite (do_transmit_seek stk w i) by done. fold base w2. rewrite E. cbn [mbind res_bind].
    unfold w2. rewrite releases_upd_reg. reflexivity.
Qed.

(** The length handed to the socket: in DTCR mode the driver's own FCS is cut off
    unless the descriptor asks for it. *)
Definition wire_len (w : world) (i n : Z) : Z :=
  if flag (registers_mode w) MODE_DTCR
     && negb (flag (desc_word w (am_tdr_tdra (w_reg w)) i 1) TX_ADD_FCS) then n - 4 else n.

(** The frame of the chain as it leaves, before address translation. *)
Definition tx_frame (w : world) (l : list Z) : list Z := pad60 (tx_data w (am_tdr_tdra (w_reg w)) l).

Section properties.
Context `{Hint : IntHandler, Hok : !IntHandlerOk}.

(** The state in which [tx_finish] runs is well-formed and has the old registers. *)
Lemma gathered_ok w base l' j tb : world_ok w → 0 ≤ j < 512 → length tb = 4096%nat →
  Forall (fits 8) tb →
  world_ok (upd_reg (set_tdr_offset (j + 1)) (upd_ring (set_transmitbuffer tb) (releases base l' w))).
Proof.
  intros Hw Hj Hl Hb.
  assert (H : world_ok (releases base l' w)).
  { clear Hj. revert w Hw. induction l' as [|i l IH]; intros w Hw; [done|].
    apply IH. by apply keeps_put_desc. }
  apply keeps_tdr_offset; [|lia]. by apply keeps_buffer.
Qed.

(** Fields that returning descriptors does not touch. *)
Lemma releases_fields base l w :
  w_reg (releases base l w) = w_reg w ∧ w_mac (releases base l w) = w_mac w ∧
  w_sock (releases base l w) = w_sock w ∧ w_sent (releases base l w) = w_sent w.
Proof. revert w. induction l as [|i l IH]; intros w; [done|]. apply (IH (release base i w)). Qed.

Lemma take_slice (b : list Z) n : slice b 0 n = take n b.
Proof. done. Qed.

(** The beginning of the buffer is the beginning of the frame. *)
Lemma take_frame_head (tb f : list Z) n : take (length f) tb = f → (n ≤ length f)%nat → take n tb = take n f.
Proof. intros <- Hn. rewrite length_take in Hn. rewrite take_take. f_equal. lia. Qed.

Lemma tx_finish_send stk fcs n n' off tmd1 tmd3 w b' : world_ok w →
  n' = (if flag (registers_mode w) MODE_DTCR && negb fcs then n - 4 else n) →
  flag (registers_mode w) (Z.lor MODE_LOOP MODE_COLL) = false → 60 ≤ n ≤ 4096 → 0 ≤ w_sock w →
  take 6 (transmitbuffer (w_ring w)) ≠ fakemac (w_reg w) → length b' = 4096%nat →
  mungepacket (w_mac w) (transmitbuffer (w_ring w)) n' = Ok (n', b') →
  tx_finish stk fcs (TxEnd false n off tmd1 tmd3) w =
  tx_done (set_w_sent (w_sent w ++ [take (Z.to_nat n') b'])
    (upd_ring (set_transmitbuffer b') (upd_ring (set_transmitlen n') (put_desc off tmd1 tmd3 w)))).
Proof.
  intros Hw Hn' Hm Hn Hsock Hdst Hb Hmp. rewrite flag_lor in Hm. apply orb_false_elim in Hm as [Hlp Hcl].
  unfold tx_finish. cbv zeta. rewrite Hlp, Hcl. cbn [negb orb].
  destruct (Z.ltb_spec n 60); [lia|]. cbn [andb].
  rewrite take_slice. destruct (bytes_eqb_spec (take 6 (transmitbuffer (w_ring w))) (fakemac (w_reg w)));
    [done|]. rewrite andb_false_r, <-Hn'.
  change (w_mac (upd_ring ?f (put_desc off tmd1 tmd3 w))) with (w_mac w).
  change (transmitbuffer (w_ring (upd_ring (set_transmitlen n') (put_desc off tmd1 tmd3 w))))
    with (transmitbuffer (w_ring w)).
  rewrite Hmp. cbn [mbind res_bind]. unfold ethernet_send.
  change (w_sock (upd_ring ?f (upd_ring ?g (put_desc off tmd1 tmd3 w)))) with (w_sock w).
  assert (56 ≤ n' ≤ 4096) by (destruct (_ && _); lia).
  destruct (Z.ltb_spec (w_sock w) 0), (Z.leb_spec n' 0); try lia. cbn [orb].
  rewrite bslice_Ok by lia. reflexivity.
Qed.

Lemma tx_finish_collide stk fcs n off tmd1 tmd3 w :
  flag (registers_mode w) MODE_LOOP = true ∨ 60 ≤ n →
  flag (registers_mode w) MODE_COLL = true ∨
  flag (registers_mode w) MODE_LOOP = false ∧ take 6 (transmitbuffer (w_ring w)) = fakemac (w_reg w) →
  tx_finish stk fcs (TxEnd false n off tmd1 tmd3) w =
  tx_done (put_desc off (Z.lor tmd1 TX_ERR) (Z.lor tmd3 TX_RTRY) w).
Proof.
  intros Hn Hc. unfold tx_finish. cbv zeta. destruct (flag (registers_mode w) MODE_LOOP); cbn [negb].
  - rewrite andb_false_r. by destruct Hc as [->|[? _]].
  - destruct Hn as [?|Hn]; [done|]. destruct (Z.ltb_spec n 60); [lia|]. destruct (Z.leb_spec 6 n); [|lia]. cbn [andb].
    rewrite take_slice. destruct (bytes_eqb_spec (take 6 (transmitbuffer (w_ring w))) (fakemac (w_reg w)));
      [by rewrite orb_true_r|]. destruct Hc as [->|[_ ?]]; done.
Qed.
End properties.

Lemma ready_facts w i l l' j : world_ok w → tx_ready w i l → l = l' ++ [j] →
  0 < am_tdr_tlen (w_reg w) ≤ 512 ∧ Forall (λ k, 0 ≤ k < am_tdr_tlen (w_reg w)) l ∧
  0 ≤ j < am_tdr_tlen (w_reg w) ∧ j ∉ l'.
Proof.
  intros Hw [_ Hu _ Hc _ _] ->. pose proof (tx_chain_range _ _ _ _ _ Hc) as Hr.
  split; [by apply (ring_usable_range _ _ Hu), tlen_nonneg|]. split; [done|].
  rewrite Forall_app, Forall_singleton in Hr. split; [apply Hr|].
  apply tx_chain_nodup, NoDup_app in Hc. set_solver.
Qed.

Lemma wire_len_range w i n : 60 ≤ n → 56 ≤ wire_len w i n ≤ n.
Proof. unfold wire_len. destruct (_ && _); lia. Qed.

(** The state in which [tx_finish] runs on a ready frame. *)
Lemma gathered_state w i l l' j tb : world_ok w → tx_ready w i l → l = l' ++ [j] →
  length tb = 4096%nat → Forall (fits 8) tb →
  let w2 := upd_reg (set_tdr_offset (j + 1)) (upd_ring (set_transmitbuffer tb)
              (releases (am_tdr_tdra (w_reg w)) l' w)) in
  world_ok w2 ∧ w_reg w2 = set_tdr_offset (j + 1) (w_reg w) ∧ w_mac w2 = w_mac w ∧
  w_sock w2 = w_sock w ∧ w_sent w2 = w_sent w.
Proof.
  intros Hw Hr Hl Htb Hbytes w2. destruct (ready_facts w i l l' j Hw Hr Hl) as (Hlen & _ & Hj & _).
  destruct (releases_fields (am_tdr_tdra (w_reg w)) l' w) as (Fr & Fm & Fs & Ft).
  split; [apply gathered_ok; auto; lia|]. split; [unfold w2; cbn; by rewrite Fr|]. done.
Qed.

(** ** Transmit properties *)

(** C2: A frame that the driver has queued as a chain of owned descriptors is sent:
    [do_transmit] finds the first STP descriptor from the ring position, hands the
    concatenation of the chain's buffers, zero-padded to 60 bytes and translated by
    [mungepacket], to the socket as one frame, raises TINT, moves the ring position
    past the chain, clears OWN in exactly the descriptors of the chain and leaves
    every other descriptor word as it was. *)
Theorem do_transmit_sends `{IntHandlerOk} (stk : list Z) (w : world) (i : Z) (l : list Z)
  (Hw : world_ok w) (Hr : tx_ready w i l)
  (Hmode : flag (registers_mode w) (Z.lor MODE_LOOP MODE_COLL) = false)
  (Hdst : take 6 (tx_frame w l) ≠ fakemac (w_reg w)) (Hsock : 0 ≤ w_sock w) :
  let base := am_tdr_tdra (w_reg w) in
  let frame := tx_frame w l in
  let n := wire_len w i (Z.of_nat (length frame)) in
  ∃ tb, length tb = 4096%nat ∧ take (length frame) tb = frame ∧
  ∀ b', mungepacket (w_mac w) tb n = Ok (n, b') →
  ∃ w', do_transmit stk w = Ok (1, w') ∧ w_sent w' = w_sent w ++ [take (Z.to_nat n) b'] ∧
    flag (csr0 w') CSR0_TINT = true ∧
    Some (tdr_offset (w_reg w')) = (λ j, j + 1) <$> last l ∧
    ∀ j k, 0 ≤ j < am_tdr_tlen (w_reg w) → 0 ≤ k ≤ 3 →
      desc_word w' base j k =
      if decide (j ∈ l ∧ k = 1) then andnot (desc_word w base j 1) TX_OWN else desc_word w base j k.
Proof.
  intros base frame n.
  destruct (do_transmit_gathered stk w i l Hw Hr) as (l' & j & tb & Hl & Htb & Hbytes & Htake & E).
  assert (Hout : tx_out w (tx_data w base l) = frame).
  { unfold tx_out. rewrite flag_lor in Hmode. by apply orb_false_elim in Hmode as [-> _]. }
  fold base in Htake, E. rewrite Hout in Htake, E.
  destruct (ready_facts w i l l' j Hw Hr Hl) as (Hlen & Hrange & Hj & Hn).
  assert (H60 : (60 ≤ length frame)%nat) by apply length_pad60.
  assert (H4096 : (length frame ≤ 4096)%nat) by (rewrite <-Htake, length_take; lia).
  pose proof (wire_len_range w i (Z.of_nat (length frame)) ltac:(lia)) as Hn'. fold n in Hn'.
  exists tb. split; [done|]. split; [done|]. intros b' Hmp.
  assert (length b' = 4096%nat ∧ Forall (fits 8) b') as [Hb' Hbb].
  { destruct (mungepacket_cases (w_mac w) tb n) as [E'|(b2 & E' & Hb2 & Hb2' & _)];
      [apply Hw|lia|done|lia|congruence|]. rewrite Hmp in E'. injection E' as ->. split; [congruence|done]. }
  rewrite E. destruct (gathered_state w i l l' j tb Hw Hr Hl Htb Hbytes) as (Hw2 & Hreg & Fm & Fs & Ft).
  fold base in Hw2, Hreg, Fm, Fs, Ft. set (w2 := upd_reg _ (upd_ring _ _)) in *.
  rewrite (tx_finish_send stk _ _ n _ _ _ w2 b'); [|done|..].
  - set (w3 := set_w_sent _ _).
    assert (Hw3 : world_ok w3).
    { apply world_ok_sent, keeps_buffer; [|done|done].
      apply keeps_upd_ring; [|done]. by apply keeps_put_desc. }
    destruct (tx_done_spec w3 Hw3) as (w' & Ed & Hsent & _ & Hti & Htd & _ & Hram).
    exists w'. split; [exact Ed|]. split; [rewrite Hsent; by rewrite <-Ft|].
    split; [done|]. split; [by rewrite Htd, Hl, last_snoc|].
    intros j0 k Hj0 Hk. unfold desc_word at 1. rewrite Hram.
    rewrite <-(releases_word base (am_tdr_tlen (w_reg w))) by (done || lia).
    rewrite Hl, <-(release_last base (am_tdr_tlen (w_reg w))) by (rewrite <-?Hl; done || lia). done.
  - unfold registers_mode. by rewrite Hreg.
  - unfold registers_mode in *. by rewrite Hreg.
  - lia.
  - by rewrite Fs.
  - rewrite Hreg. change (transmitbuffer (w_ring w2)) with tb.
    by rewrite (take_frame_head tb frame) by (done || lia).
  - done.
  - rewrite Fm. exact Hmp.
Qed.

(** C38: A collision, forced by MODE_COLL (with or without MODE_LOOP) or, outside
    loopback, detected because the frame is addressed to the card itself, sends and
    loops back nothing: the last descriptor of the chain comes back with ERR in TMD1
    and RTRY in TMD3, every descriptor of the chain is given back, no other word of the
    transmit ring changes, and TINT is raised. *)
Theorem do_transmit_collision `{IntHandlerOk} (stk : list Z) (w : world) (i : Z) (l : list Z)
  (Hw : world_ok w) (Hr : tx_ready w i l)
  (Hcoll : flag (registers_mode w) MODE_COLL = true ∨
    flag (registers_mode w) MODE_LOOP = false ∧ take 6 (tx_frame w l) = fakemac (w_reg w)) :
  let base := am_tdr_tdra (w_reg w) in
  ∃ w' z, do_transmit stk w = Ok (1, w') ∧ last l = Some z ∧ w_sent w' = w_sent w ∧
    flag (csr0 w') CSR0_TINT = true ∧ tdr_offset (w_reg w') = z + 1 ∧
    desc_word w' base z 1 = Z.lor (andnot (desc_word w base z 1) TX_OWN) TX_ERR ∧
    desc_word w' base z 3 = Z.lor (desc_word w base z 3) TX_RTRY ∧
    (∀ j, j ∈ l → flag (desc_word w' base j 1) TX_OWN = false) ∧
    ∀ j k, 0 ≤ j < am_tdr_tlen (w_reg w) → 0 ≤ k ≤ 3 → ¬ (j ∈ l ∧ k = 1) → ¬ (j = z ∧ k = 3) →
      desc_word w' base j k = desc_word w base j k.
Proof.
  intros base.
  destruct (do_transmit_gathered stk w i l Hw Hr) as (l' & z & tb & Hl & Htb & Hbytes & Htake & E).
  fold base in Htake, E. set (out := tx_out w (tx_data w base l)) in *.
  destruct (ready_facts w i l l' z Hw Hr Hl) as (Hlen & Hrange & Hz & Hn).
  assert (H60 : flag (registers_mode w) MODE_LOOP = false → out = tx_frame w l ∧ (60 ≤ length out)%nat).
  { intros Hlp. unfold out, tx_out. rewrite Hlp. split; [done|]. apply length_pad60. }
  destruct (gathered_state w i l l' z tb Hw Hr Hl Htb Hbytes) as (Hw2 & Hreg & Fm & Fs & Ft).
  fold base in Hw2, Hreg, Fm, Fs, Ft. set (w2 := upd_reg _ (upd_ring _ _)) in *.
  assert (Hmode : registers_mode w2 = registers_mode w) by (unfold registers_mode; by rewrite Hreg).
  rewrite tx_finish_collide in E; rewrite ?Hmode.
  2: { destruct (flag (registers_mode w) MODE_LOOP); [by left|right]. destruct (H60 eq_refl). lia. }
  2: { destruct Hcoll as [?|[Hlp Hself]]; [by left|right]. split; [done|]. destruct (H60 Hlp) as [Eo Ho].
       rewrite Hreg. change (transmitbuffer (w_ring w2)) with tb.
       by rewrite (take_frame_head tb out), Eo by (done || lia). }
  set (w3 := put_desc _ _ _ w2) in E.
  assert (Hw3 : world_ok w3) by (by apply keeps_put_desc).
  destruct (tx_done_spec w3 Hw3) as (w' & Ed & Hsent & _ & Hti & Htd & _ & Hram).
  assert (Hd : ∀ j k, desc_word w' base j k = desc_word w3 base j k) by (intros; apply Hram).
  assert (Hd3 : ∀ j k, 0 ≤ j < am_tdr_tlen (w_reg w) → 0 ≤ k ≤ 3 → desc_word w3 base j k =
    if decide (j = z ∧ k = 1) then Z.lor (andnot (desc_word w base z 1) TX_OWN) TX_ERR
    else if decide (j = z ∧ k = 3) then Z.lor (desc_word w base z 3) TX_RTRY
    else desc_word (releases base l' w) base j k).
  { intros j k Hj Hk. unfold w3. by rewrite (put_desc_word base (am_tdr_tlen (w_reg w)))
      by (done || lia || solve_fits). }
  exists w', z. rewrite E, !Hd. split; [exact Ed|]. split; [by rewrite Hl, last_snoc|].
  split; [by rewrite Hsent|]. split; [done|]. split; [by rewrite Htd; unfold w3; cbn|].
  split; [rewrite Hd3 by lia; by rewrite decide_True|].
  split; [rewrite Hd3 by lia; by rewrite decide_False, decide_True by lia|].
  assert (Hl' : Forall (λ j, 0 ≤ j < am_tdr_tlen (w_reg w)) l').
  { rewrite Hl, Forall_app in Hrange. apply Hrange. }
  split.
  2:{ intros j k Hj Hk N1 N2. rewrite Hd, Hd3 by done.
      rewrite !decide_False by (rewrite Hl in N1; set_solver).
      rewrite (releases_word base (am_tdr_tlen (w_reg w))) by (done || lia).
      rewrite decide_False; [done|]. rewrite Hl in N1. set_solver. }
  intros j Hj. rewrite Hd. rewrite Forall_forall in Hrange. rewrite Hd3 by (auto || lia).
  case_decide as E1; [flags_to_bits; by push_bits|]. rewrite decide_False by lia.
  rewrite (releases_word base (am_tdr_tlen (w_reg w))), decide_True.
  - flags_to_bits. by push_bits.
  - split; [|done]. clear -Hj Hl E1. set_solver.
  - apply Forall_forall. intros j' Hj'. apply Hrange. clear -Hj' Hl. set_solver.
  - auto.
  - lia.
  - lia.
Qed.

(** With no owned STP descriptor in the ring (or the transmitter off, or a ring
    outside the card) [do_transmit] reports 0 and does nothing but reduce the ring
    position: no frame, no interrupt, no descriptor is touched. *)
Theorem do_transmit_idle `{IntHandler} (stk : list Z) (w : world) (Hw : world_ok w)
  (Hidle : flag (csr0 w) CSR0_TXON = false ∨
    ring_usable (am_tdr_tdra (w_reg w)) (am_tdr_tlen (w_reg w)) = false ∨
    ∀ j, 0 ≤ j < am_tdr_tlen (w_reg w) →
      tx_startable (desc_word w (am_tdr_tdra (w_reg w)) j 1) = false) :
  ∃ o, do_transmit stk w = Ok (0, upd_reg (set_tdr_offset o) w).
Proof.
  unfold do_transmit. cbv zeta. set (base := am_tdr_tdra (w_reg w)) in *.
  set (len := am_tdr_tlen (w_reg w)) in *.
  assert (Hsame : upd_reg (set_tdr_offset (tdr_offset (w_reg w))) w = w)
    by (by destruct w as [[] ? ? ? ? ? ?]).
  destruct (flag (csr0 w) CSR0_TXON); cbn [negb]; [|exists (tdr_offset (w_reg w)); by rewrite Hsame].
  destruct (ring_usable base len) eqn:Eu; cbn [negb]; [|exists (tdr_offset (w_reg w)); by rewrite Hsame].
  destruct Hidle as [?|[?|Hn]]; [done..|].
  pose proof (ring_usable_range _ _ Eu (tlen_nonneg w Hw)) as Hlen.
  change (tdr_offset (w_reg (upd_reg ?f w))) with (tdr_offset (w_reg w) mod len).
  change (ram_word (upd_reg ?f w) (desc_off base ?i + 2)) with (desc_word w base i 1).
  assert (Hm : ∀ x, 0 ≤ x mod len < len) by (intros; apply Z.mod_pos_bound; lia).
  rewrite (Hn (tdr_offset (w_reg w) mod len)) by apply Hm.
  set (w1 := upd_reg _ w). exists (tdr_offset (w_reg w) mod len).
  destruct (tx_scan_none (Z.to_nat len) base len (tdr_offset (w_reg w) mod len) 0
    (desc_word w base (tdr_offset (w_reg w) mod len) 1) w1) as (tmd & o & -> & Ht); [by apply Hn|..].
  - intros s _. apply Hn, Hm.
  - rewrite Ht. done.
Qed.

(** [do_transmit] always terminates: the gather loop ends within 4097 iterations and
    the receive loop of a looped-back frame within one iteration per byte, for any
    ring contents; and whenever it returns, the card is well-formed and keeps its
    configuration, addresses, STOP, INIT, STRT and INEA. *)
Theorem do_transmit_total `{IntHandlerOk} (stk : list Z) (w : world) (Hw : world_ok w)
  (Hl : length stk = 4096%nat) (Hs : Forall (fits 8) stk) :
  do_transmit stk w ≠ Err OutOfFuel ∧
  ∀ n w', do_transmit stk w = Ok (n, w') → world_ok w' ∧ run_frame w w'.
Proof. split; [by apply do_transmit_fuel|]. intros n w'. by apply do_transmit_keeps. Qed.

(** ** Examples *)

Import NoCallbacks.

(** Two segments, of 20 bytes at 0x3000 and 30 bytes at 0x3100, in descriptors 3 and 0. *)
Definition ex_tx_win : window :=
  poke_words 0x3000 [0xFFFF; 0xFFFF; 0xFFFF; 0x0080; 0x10AA; 0xBBCC; 0x0800] (
  poke_words 0x1018 [0x3000; Z.lor TX_OWN TX_STP; 65536 - 20; 0] (
  poke_words 0x1000 [0x3100; Z.lor TX_OWN TX_ENP; 65536 - 30; 0] ∅)).
Definition ex_tx (mode off : Z) : world := card mode CSR0_RUNNING off ex_tx_win.

Lemma ex_tx_ok mode : fits 16 mode → world_ok (ex_tx mode 2).
Proof.
  intros Hm. apply card_ok; [done|by split|by vm_compute|lia|].
  repeat apply window_ok_poke_words. apply window_ok_empty.
Qed.

Lemma ex_tx_ready mode : tx_ready (ex_tx mode 2) 3 [3; 0].
Proof.
  split.
  - by vm_compute.
  - by vm_compute.
  - exists 1. split; [done|]. split; [done|]. split; [by vm_compute|].
    intros s Hs. assert (s = 0) as -> by lia. by vm_compute.
  - apply chain_more; [done|by vm_compute|by vm_compute|set_solver|].
    apply chain_last; [done|by vm_compute|by vm_compute].
  - constructor; [|constructor; [|constructor]]; apply apart_ring_after; by vm_compute.
  - vm_compute. lia.
Qed.

(** A buffer that starts with the example frame is translated without a checksum. *)
Lemma ex_tx_munge tb : length tb = 4096%nat → take 60 tb = tx_frame (ex_tx 0 2) [3; 0] →
  mungepacket ex_macs tb 60 = Ok (60, swap_fields ex_macs tb).
Proof.
  intros Hl Ht. rewrite munge_spec; [|apply ex_macs_ok|apply ex_macs_differ|lia|done].
  replace (recheck ex_macs tb) with false; [done|].
  rewrite <-(take_drop 60 tb), Ht. generalize (drop 60 tb). intros r. by vm_compute.
Qed.

Lemma do_transmit_sends_witness : ∃ w' f, do_transmit [] (ex_tx 0 2) = Ok (1, w') ∧
  w_sent w' = [f] ∧ flag (desc_word w' 0x1000 0 1) TX_OWN = false.
Proof.
  destruct (do_transmit_sends [] (ex_tx 0 2) 3 [3; 0]) as (tb & Htb & Htake & H);
    [by apply ex_tx_ok|apply ex_tx_ready|by vm_compute|by vm_compute|done|].
  assert (Hn : length (tx_frame (ex_tx 0 2) [3; 0]) = 60%nat) by (by vm_compute).
  rewrite Hn in Htake, H.
  destruct (H (swap_fields ex_macs tb)) as (w' & H1 & H2 & _ & _ & H3).
  { by apply ex_tx_munge. }
  exists w', (take 60 (swap_fields ex_macs tb)). split; [exact H1|]. split; [exact H2|].
  change (flag (desc_word w' (am_tdr_tdra (w_reg (ex_tx 0 2))) 0 1) TX_OWN = false).
  rewrite H3 by (cbn; lia). by vm_compute.
Defined.

(** The collision diagnostic: LOOP, COLL and DTCR. *)
Lemma do_transmit_collision_witness : ∃ w',
  do_transmit [] (ex_tx (Z.lor (Z.lor MODE_LOOP MODE_COLL) MODE_DTCR) 2) = Ok (1, w') ∧
  w_sent w' = [] ∧ flag (csr0 w') CSR0_TINT = true.
Proof.
  destruct (do_transmit_collision [] (ex_tx (Z.lor (Z.lor MODE_LOOP MODE_COLL) MODE_DTCR) 2) 3 [3; 0])
    as (w' & z & H1 & _ & H2 & H3 & _);
    [by apply ex_tx_ok|apply ex_tx_ready|left; by vm_compute|].
  exists w'. split; [exact H1|]. split; [exact H2|exact H3].
Defined.

Lemma do_transmit_idle_witness : ∃ o,
  do_transmit [] (card 0 CSR0_RUNNING 2 ∅)
  = Ok (0, upd_reg (set_tdr_offset o) (card 0 CSR0_RUNNING 2 ∅)).
Proof.
  apply (do_transmit_idle [] (card 0 CSR0_RUNNING 2 ∅)).
  - apply card_ok; [by split|by split|by vm_compute|lia|apply window_ok_empty].
  - do 2 right. intros j Hj. change (0 ≤ j < 4) in Hj.
    assert (j = 0 ∨ j = 1 ∨ j = 2 ∨ j = 3) as [->|[->|[->| ->]]] by lia; by vm_compute.
Defined.

Lemma do_transmit_total_witness :
  do_transmit (replicate 4096 0) (ex_tx MODE_LOOP 2) ≠ Err OutOfFuel.
Proof.
  apply (do_transmit_total (replicate 4096 0) (ex_tx MODE_LOOP 2)); [by apply ex_tx_ok|done|].
  apply Forall_zeros.
Defined.
