(* ===== verification/Receive.v ===== *)
(** * Reception: what [gotfunc] stores

    The specification of a receive buffer chain and of the address filter, and the
    proof that an accepted frame is scattered over the chain so that the driver reads
    back exactly the frame and its FCS. *)

From S2P Require Import Prelude Types Window Crc32 Mac State Registers Rings Descriptors.

(** ** Specification *)

(** The owned descriptors that [n] bytes need, from descriptor [i] on. *)
Inductive rx_chain (w : world) (base len : Z) : Z → Z → list Z → Prop :=
| rx_last i n :
    0 ≤ i < len → flag (desc_word w base i 1) RX_OWN = true → n ≤ buf_size w base i →
    rx_chain w base len i n [i]
| rx_more i n l :
    0 ≤ i < len → flag (desc_word w base i 1) RX_OWN = true → buf_size w base i < n →
    i ∉ l → rx_chain w base len ((i + 1) mod len) (n - buf_size w base i) l →
    rx_chain w base len i n (i :: l).

(** [a] is a byte of the buffer of descriptor [i]. *)
Definition in_buf (w : world) (base i a : Z) : Prop :=
  in_block (buf_addr w base i) (buf_size w base i) a.

(** The buffers of a chain overlap neither the ring nor each other. *)
Fixpoint bufs_apart (w : world) (base len : Z) (l : list Z) : Prop :=
  match l with
  | [] => True
  | i :: l => apart_ring base len (buf_addr w base i) (buf_size w base i) ∧
      (∀ j k, j ∈ l → 0 ≤ k < buf_size w base i → ¬ in_buf w base j (buf_addr w base i + k)) ∧
      bufs_apart w base len l
  end.

Fixpoint bufs_total (w : world) (base : Z) (l : list Z) : Z :=
  match l with [] => 0 | i :: l => buf_size w base i + bufs_total w base l end.

(** What the driver reads from the buffers of a chain. *)
Definition rx_read (w : world) (base : Z) (l : list Z) : list Z :=
  concat (map (λ i, read_block w (buf_addr w base i) (Z.to_nat (buf_size w base i))) l).

(** RMD1 of a filled descriptor. *)
Definition rx_md1 (first last : bool) (md1 : Z) : Z :=
  let md1 := andnot md1 RX_OWN in
  let md1 := if first then Z.lor md1 RX_STP else md1 in
  if last then Z.lor md1 RX_ENP else md1.

(** The descriptor words after [total] bytes were stored over [l], whose last
    element is [z]; [s] is the descriptor that gets STP. *)
Definition rx_after (w : world) (base total : Z) (s : option Z) (z : Z) (l : list Z) (j k : Z) : Z :=
  if decide (j ∈ l ∧ k = 1) then
    rx_md1 (bool_decide (s = Some j)) (bool_decide (j = z)) (desc_word w base j 1)
  else if decide (j = z ∧ k = 3) then u16 total
  else desc_word w base j k.

(** ** Lemmas: storing one segment *)

(** One descriptor filled with [src]. *)
Definition rx_fill (base i : Z) (src : list Z) (first last : bool) (total : Z) (w : world) : world :=
  put_desc (desc_off base i) (rx_md1 first last (desc_word w base i 1))
    (if last then u16 total else desc_word w base i 3) (write_block (buf_addr w base i) src w).

(** One iteration of the store loop, in terms of the descriptor. *)
Lemma rx_loop_step `{IntHandler} fuel base len d total insize first w i :
  rdr_offset (w_reg w) mod len = i → flag (desc_word w base i 1) RX_OWN = true →
  rx_loop (S fuel) base len d total insize first w =
  (src ← bslice d insize (buf_size w base i);
   let n := insize + buf_size w base i in
   let w1 := rx_fill base i src first (total <=? n) total (upd_reg (set_rdr_offset (i + 1)) w) in
   if total <=? n then Ok (true, w1) else rx_loop fuel base len d total n false w1).
Proof.
  intros Hi Ho. cbn [rx_loop]. cbv zeta.
  change (rdr_offset (w_reg (upd_reg (λ r, set_rdr_offset (rdr_offset r mod len) r) w)))
    with (rdr_offset (w_reg w) mod len). rewrite Hi.
  change (ram_word (upd_reg ?f w) (desc_off base i + 0)) with (desc_word w base i 0).
  change (ram_word (upd_reg ?f w) (desc_off base i + 2)) with (desc_word w base i 1).
  change (ram_word (upd_reg ?f w) (desc_off base i + 4)) with (desc_word w base i 2).
  change (ram_word (upd_reg ?f w) (desc_off base i + 6)) with (desc_word w base i 3).
  rewrite Ho. cbn [negb]. fold (buf_size w base i). fold (buf_addr w base i).
  destruct (bslice _ _ _) as [src|e]; [|done]. cbn [mbind res_bind].
  rewrite <-Hi. destruct (total <=? _); reflexivity.
Qed.

(** The address of a buffer does not depend on RMD1. *)
Lemma desc_addr_md1 m0 m1 m1' : desc_addr m0 m1 = desc_addr m0 m1'.
Proof.
  unfold desc_addr. change RAM_MASK with (Z.ones 15). apply Z.bits_inj'. intros i Hi. push_bits.
  destruct (Z.ltb_spec i 15); [|by rewrite !andb_false_r].
  by rewrite !(Z.testbit_neg_r _ (i - 16)) by lia.
Qed.

Lemma rx_md1_fits first last m : fits 16 m → fits 16 (rx_md1 first last m).
Proof. intros. unfold rx_md1. cbv zeta. destruct first, last; solve_fits. Qed.

(** Membership in a block only depends on the cell. *)
Lemma in_block_addr off n a b : Ram68k.addr a = Ram68k.addr b → in_block off n a → in_block off n b.
Proof.
  unfold in_block, Ram68k.addr. intros E. by rewrite Zminus_mod, E, <-Zminus_mod.
Qed.

Lemma in_block_offset off n a : in_block off n a →
  ∃ k, 0 ≤ k < n ∧ Ram68k.addr (off + k) = Ram68k.addr a.
Proof.
  intros H. exists ((a - off) mod 2 ^ 15). pose proof (Z.mod_pos_bound (a - off) (2 ^ 15)).
  split; [unfold in_block in H; lia|]. apply addr_eq_offset; lia.
Qed.

Lemma apart_ring_in base len addr n a : apart_ring base len addr n → in_ring base len a →
  ¬ in_block addr n a.
Proof.
  intros Hp Hr (k & Hk & E)%in_block_offset. apply (Hp k Hk).
  by apply (in_block_addr _ _ a).
Qed.

Lemma ring_word_in base len i k d : 0 ≤ i < len → len ≤ 512 → 0 ≤ k ≤ 3 → 0 ≤ d ≤ 1 →
  in_ring base len (desc_off base i + 2 * k + d).
Proof.
  intros. unfold in_ring, in_block, desc_off.
  replace (base + i * 8 + 2 * k + d - base) with (8 * i + 2 * k + d) by lia.
  rewrite Z.mod_small by lia. lia.
Qed.

Lemma write_block_word base len j k addr src w : 0 ≤ j < len → len ≤ 512 → 0 ≤ k ≤ 3 →
  Z.of_nat (length src) ≤ 2 ^ 15 → apart_ring base len addr (Z.of_nat (length src)) →
  desc_word (write_block addr src w) base j k = desc_word w base j k.
Proof.
  intros Hj Hl Hk Hs Ha.
  assert (E : ∀ a, in_ring base len a → ram_byte (write_block addr src w) a = ram_byte w a).
  { intros a Hr. apply get_write_block_out; [done|]. by eapply apart_ring_in. }
  unfold desc_word, ram_word, get_ram_word.
  fold (ram_byte (write_block addr src w) (desc_off base j + 2 * k))
    (ram_byte (write_block addr src w) (desc_off base j + 2 * k + 1)).
  rewrite !E; [done| |].
  - by apply (ring_word_in base len j k 1).
  - rewrite <-(Z.add_0_r (_ + 2 * k)). by apply (ring_word_in base len j k 0).
Qed.

Section fill.
Context (base len i : Z) (src : list Z) (first last : bool) (total : Z) (w : world).
Context (Hi : 0 ≤ i < len) (Hl : len ≤ 512).
Context (Hs : Z.of_nat (length src) = buf_size w base i) (Hs15 : buf_size w base i ≤ 2 ^ 15).
Context (Ha : apart_ring base len (buf_addr w base i) (buf_size w base i)).
Let w1 := rx_fill base i src first last total w.

Lemma rx_fill_word j k : 0 ≤ j < len → 0 ≤ k ≤ 3 →
  desc_word w1 base j k =
  if decide (j = i ∧ k = 1) then rx_md1 first last (desc_word w base i 1)
  else if decide (j = i ∧ k = 3) then (if last then u16 total else desc_word w base i 3)
  else desc_word w base j k.
Proof.
  intros Hj Hk. unfold w1, rx_fill. rewrite (put_desc_word base len); auto.
  - do 2 (case_decide; [done|]). apply (write_block_word base len); auto; [lia|by rewrite Hs].
  - apply rx_md1_fits, ram_word_fits.
  - destruct last; auto with fits. apply ram_word_fits.
Qed.

Lemma rx_fill_byte a : ¬ in_ring base len a → ¬ in_buf w base i a → ram_byte w1 a = ram_byte w a.
Proof.
  intros Hr Hb. unfold w1, rx_fill. rewrite (put_desc_byte base len) by done.
  apply get_write_block_out; [lia|]. unfold in_buf in Hb. by rewrite Hs.
Qed.

Lemma rx_fill_read : Forall (fits 8) src →
  read_block w1 (buf_addr w base i) (Z.to_nat (buf_size w base i)) = src.
Proof.
  intros Hf. replace (Z.to_nat (buf_size w base i)) with (length src) by lia.
  unfold w1, rx_fill. rewrite (put_desc_block base len) by (done || by rewrite Hs).
  apply ram_read_write_block; [lia|done].
Qed.
End fill.

(** ** Lemmas: the descriptors that remain *)

Lemma rx_chain_range w base len i n l : rx_chain w base len i n l → Forall (λ j, 0 ≤ j < len) l.
Proof. induction 1; auto. Qed.

Lemma rx_chain_head w base len i n l : rx_chain w base len i n l → ∃ l', l = i :: l'.
Proof. inversion 1; eauto. Qed.

Lemma rx_chain_inv w base len i n l : rx_chain w base len i n (i :: l) →
  0 ≤ i < len ∧ flag (desc_word w base i 1) RX_OWN = true ∧
  ((n ≤ buf_size w base i ∧ l = []) ∨
   (buf_size w base i < n ∧ (i ∉ l) ∧
    rx_chain w base len ((i + 1) mod len) (n - buf_size w base i) l)).
Proof. inversion 1; subst; split; auto 6. Qed.

(** Two worlds that agree on the descriptors of [l] have the same chains and buffers. *)
Definition same_descs (w w' : world) (base : Z) (l : list Z) : Prop :=
  ∀ j k, j ∈ l → 0 ≤ k ≤ 3 → desc_word w' base j k = desc_word w base j k.

Lemma same_descs_buf w w' base l j : same_descs w w' base l → j ∈ l →
  buf_addr w' base j = buf_addr w base j ∧ buf_size w' base j = buf_size w base j.
Proof. intros H Hj. unfold buf_addr, buf_size. by rewrite !H by (done || lia). Qed.

Lemma same_descs_chain w w' base len i n l : same_descs w w' base l →
  rx_chain w base len i n l → rx_chain w' base len i n l.
Proof.
  intros H Hc. induction Hc as [i n Hi Ho Hn|i n l Hi Ho Hn Hni Hc IH].
  - destruct (same_descs_buf _ _ _ _ i H) as [_ E]; [set_solver|].
    apply rx_last; [done|rewrite H by (set_solver || lia); done|by rewrite E].
  - destruct (same_descs_buf _ _ _ _ i H) as [_ E]; [set_solver|].
    apply rx_more; [done|rewrite H by (set_solver || lia); done|by rewrite E|done|].
    rewrite E. apply IH. intros j k Hj. apply H. set_solver.
Qed.

Lemma same_descs_apart w w' base len l : same_descs w w' base l →
  bufs_apart w base len l → bufs_apart w' base len l.
Proof.
  induction l as [|i l IH]; [done|]. intros H (H1 & H2 & H3).
  destruct (same_descs_buf _ _ _ _ i H) as [E1 E2]; [set_solver|].
  split; [by rewrite E1, E2|]. split; [|apply IH; [|done]; intros j k Hj; apply H; set_solver].
  intros j k Hj Hk. rewrite E2 in Hk. destruct (same_descs_buf _ _ _ _ j H) as [E3 E4]; [set_solver|].
  unfold in_buf. rewrite E1, E3, E4. by apply H2.
Qed.

Lemma same_descs_total w w' base l : same_descs w w' base l →
  bufs_total w' base l = bufs_total w base l.
Proof.
  induction l as [|i l IH]; [done|]. intros H. cbn.
  destruct (same_descs_buf _ _ _ _ i H) as [_ ->]; [set_solver|].
  rewrite IH; [done|]. intros j k Hj. apply H. set_solver.
Qed.

Lemma buf_size_range w base i : 1 ≤ buf_size w base i ≤ 65536.
Proof. apply desc_size_pos. Qed.

Lemma bufs_total_nonneg w base l : 0 ≤ bufs_total w base l.
Proof. induction l as [|i l IH]; cbn; [done|]. pose proof (buf_size_range w base i). lia. Qed.

(** The buffers of [l], placed as in [w], read in [w']. *)
Definition rx_read_at (w w' : world) (base : Z) (l : list Z) : list Z :=
  concat (map (λ i, read_block w' (buf_addr w base i) (Z.to_nat (buf_size w base i))) l).

Lemma slice_app (d : list Z) i n m : slice d i n ++ slice d (i + n) m = slice d i (n + m).
Proof.
  unfold slice. rewrite <-(drop_drop d n i), <-(take_drop n (take (n + m) (drop i d))).
  rewrite take_take, Nat.min_l by lia. f_equal. by rewrite skipn_firstn_comm, Nat.add_comm, Nat.add_sub.
Qed.

Lemma rx_after_last w base total (first : bool) i j k :
  rx_after w base total (if first then Some i else None) i [i] j k =
  if decide (j = i ∧ k = 1) then rx_md1 first true (desc_word w base i 1)
  else if decide (j = i ∧ k = 3) then u16 total else desc_word w base j k.
Proof.
  unfold rx_after. destruct (decide (j = i)) as [->|Hn].
  - destruct (decide (k = 1)) as [->|].
    + rewrite !decide_True by set_solver. rewrite (bool_decide_eq_true_2 (i = i)) by done.
      destruct first; [by rewrite bool_decide_eq_true_2|by rewrite bool_decide_eq_false_2].
    + rewrite (decide_False (P := i ∈ [i] ∧ k = 1)), (decide_False (P := i = i ∧ k = 1)) by naive_solver.
      done.
  - rewrite (decide_False (P := j ∈ [i] ∧ k = 1)), (decide_False (P := j = i ∧ k = 1)) by set_solver.
    by rewrite !decide_False by naive_solver.
Qed.

Lemma rx_after_cons w w1 base len total (first : bool) i z l j k :
  (∀ j k, 0 ≤ j < len → 0 ≤ k ≤ 3 → desc_word w1 base j k =
     if decide (j = i ∧ k = 1) then rx_md1 first false (desc_word w base i 1) else desc_word w base j k) →
  i ∉ l → z ∈ l → 0 ≤ j < len → 0 ≤ k ≤ 3 →
  rx_after w1 base total None z l j k =
  rx_after w base total (if first then Some i else None) z (i :: l) j k.
Proof.
  intros Hw1 Hi Hz Hj Hk. assert (z ≠ i) by congruence. unfold rx_after.
  rewrite (bool_decide_eq_false_2 (None = Some j)) by done.
  destruct (decide (j = i)) as [->|Hn].
  - rewrite (decide_False (P := i ∈ l ∧ k = 1)) by naive_solver.
    rewrite (decide_False (P := i = z ∧ k = 3)) by naive_solver. rewrite Hw1 by done.
    destruct (decide (k = 1)) as [->|].
    + rewrite !decide_True by set_solver. rewrite (bool_decide_eq_false_2 (i = z)) by done.
      destruct first; [by rewrite bool_decide_eq_true_2|by rewrite bool_decide_eq_false_2].
    + by rewrite !decide_False by naive_solver.
  - rewrite !Hw1 by lia. rewrite !(decide_False (P := j = i ∧ _)) by naive_solver.
    destruct (decide (j ∈ l ∧ k = 1)) as [[Hjl ->]|Hnl].
    + rewrite (decide_True (P := j ∈ i :: l ∧ 1 = 1)) by set_solver.
      destruct first; [by rewrite (bool_decide_eq_false_2 (Some i = Some j)) by congruence|done].
    + by rewrite (decide_False (P := j ∈ i :: l ∧ k = 1)) by set_solver.
Qed.

Section loop.
Context `{Hint : IntHandler} (base len total : Z) (d : list Z).
Context (Hlen : len ≤ 512) (Hd : Z.of_nat (length d) ≤ 2 ^ 15) (Hbytes : Forall (fits 8) d).

Lemma rx_loop_chain l w i insize first fuel :
  rx_chain w base len i (total - insize) l → bufs_apart w base len l →
  rdr_offset (w_reg w) mod len = i → 0 ≤ insize →
  insize + bufs_total w base l ≤ Z.of_nat (length d) → (length l ≤ fuel)%nat →
  ∃ z win, let w' := set_w_win win (upd_reg (set_rdr_offset (z + 1)) w) in
    last l = Some z ∧ rx_loop fuel base len d total insize first w = Ok (true, w') ∧
    (∀ j k, 0 ≤ j < len → 0 ≤ k ≤ 3 → desc_word w' base j k
       = rx_after w base total (if first then Some i else None) z l j k) ∧
    (∀ a, ¬ in_ring base len a → (∀ j, j ∈ l → ¬ in_buf w base j a) →
       ram_byte w' a = ram_byte w a) ∧
    rx_read_at w w' base l = slice d (Z.to_nat insize) (Z.to_nat (bufs_total w base l)).
Proof.
  revert w i insize first fuel. induction l as [|i0 l IH]; intros w i insize first fuel Hc;
    [by inversion Hc|]. intros Ha Hi Hin Htot Hfuel.
  destruct (rx_chain_head _ _ _ _ _ _ Hc) as [? [= -> <-]]. destruct Ha as (Har & Hab & Ha).
  destruct (rx_chain_inv _ _ _ _ _ _ Hc) as (Hr & Ho & Hcase). cbn in Htot.
  pose proof (buf_size_range w base i) as Hsz. pose proof (bufs_total_nonneg w base l) as Htl.
  destruct fuel as [|fuel]; [cbn in Hfuel; lia|].
  rewrite (rx_loop_step _ _ _ _ _ _ _ _ i) by done. rewrite bslice_Ok by lia. cbn [mbind res_bind].
  cbv zeta. set (src := slice d _ _).
  assert (Hsrc : Z.of_nat (length src) = buf_size w base i) by (unfold src; rewrite length_slice; lia).
  assert (Hsb : Forall (fits 8) src) by (by apply Forall_take, Forall_drop).
  destruct Hcase as [[Hn ->]|(Hn & Hni & Hc')].
  - destruct (Z.leb_spec total (insize + buf_size w base i)); [|lia].
    set (w1 := rx_fill _ _ _ _ _ _ _). exists i, (w_win w1). cbv zeta.
    split; [done|]. split; [done|]. split; [|split].
    + intros j k Hj Hk. etransitivity;
        [exact (rx_fill_word base len i src first true total w Hr Hlen Hsrc ltac:(lia) Har j k Hj Hk)|].
      symmetry. apply rx_after_last.
    + intros a Hna Hnb. apply (rx_fill_byte base len i src first true total w); auto; try lia.
      apply Hnb. set_solver.
    + unfold rx_read_at. cbn [map concat bufs_total]. rewrite app_nil_r, Z.add_0_r.
      exact (rx_fill_read base len i src first true total w Hr Hlen Hsrc ltac:(lia) Har Hsb).
  - destruct (Z.leb_spec total (insize + buf_size w base i)); [lia|].
    set (w1 := rx_fill _ _ _ _ _ _ _).
    assert (Hw1 : ∀ j k, 0 ≤ j < len → 0 ≤ k ≤ 3 → desc_word w1 base j k =
      if decide (j = i ∧ k = 1) then rx_md1 first false (desc_word w base i 1) else desc_word w base j k).
    { intros j k Hj Hk. etransitivity;
        [exact (rx_fill_word base len i src first false total w Hr Hlen Hsrc ltac:(lia) Har j k Hj Hk)|].
      repeat case_decide; try done. naive_solver. }
    pose proof (rx_chain_range _ _ _ _ _ _ Hc') as Hrl. rewrite Forall_forall in Hrl.
    assert (Hsame : same_descs w w1 base l).
    { intros j k Hj Hk. rewrite Hw1 by auto. rewrite decide_False; [done|]. intros [-> _]. done. }
    destruct (IH w1 ((i + 1) mod len) (insize + buf_size w base i) false fuel)
      as (z & win & Hz & E & Hwords & Hbyte & Hread).
    { eapply same_descs_chain; [done|]. by rewrite Z.sub_add_distr. }
    { by eapply same_descs_apart. }
    { done. } { lia. }
    { rewrite (same_descs_total w) by done. lia. } { cbn in Hfuel. lia. }
    assert (Hzl : z ∈ l) by (by apply last_Some_elem_of).
    exists z, win. cbv zeta. split; [by rewrite last_cons, Hz|]. split; [exact E|].
    split; [|split].
    + intros j k Hj Hk. etransitivity; [exact (Hwords j k Hj Hk)|].
      by apply (rx_after_cons w w1 base len).
    + intros a Hna Hnb. rewrite Hbyte; [|done|].
      * apply (rx_fill_byte base len i src first false total w); auto; [lia|]. apply Hnb. set_solver.
      * intros j Hj. destruct (same_descs_buf _ _ _ _ j Hsame Hj) as [E1 E2].
        unfold in_buf. rewrite E1, E2. apply Hnb. set_solver.
    + unfold rx_read_at in *. cbn [map concat bufs_total].
      rewrite Z2Nat.inj_add, <-slice_app by lia. f_equal.
      * etransitivity;
          [|exact (rx_fill_read base len i src first false total w Hr Hlen Hsrc ltac:(lia) Har Hsb)].
        apply ram_read_block_ext. intros k Hk. apply Hbyte; [apply Har; lia|].
        intros j Hj. destruct (same_descs_buf _ _ _ _ j Hsame Hj) as [E1 E2].
        unfold in_buf. rewrite E1, E2. apply Hab; [done|lia].
      * rewrite <-Z2Nat.inj_add by lia. rewrite (same_descs_total w) in Hread by done.
        rewrite <-Hread. f_equal. apply map_ext_in. intros j Hj%list_elem_of_In.
        by destruct (same_descs_buf _ _ _ _ j Hsame Hj) as [-> ->].
Qed.
End loop.

(** ** Lemmas: [gotfunc] *)

(** The four FCS bytes as [gotfunc] appends them, most significant first. *)
Definition be32 (x : Z) : list Z :=
  [u8 (Z.shiftr x 24); u8 (Z.shiftr x 16); u8 (Z.shiftr x 8); u8 x].

Lemma insert_blit1 (d : list Z) i v : (i < length d)%nat → <[i := v]> d = blit d i [v].
Proof.
  intros Hi. apply list_eq. intros j. rewrite lookup_blit by (cbn; lia). cbn [length].
  destruct (decide (j = i)) as [->|].
  - rewrite list_lookup_insert_eq, decide_True by lia. by rewrite Nat.sub_diag.
  - rewrite list_lookup_insert_ne, decide_False by lia. done.
Qed.

Lemma blit_snoc (d : list Z) i s v : (i + length s < length d)%nat →
  <[(i + length s)%nat := v]> (blit d i s) = blit d i (s ++ [v]).
Proof.
  intros Hi. apply list_eq. intros j. rewrite lookup_blit by (rewrite length_app; cbn; lia).
  rewrite length_app. cbn [length]. destruct (decide (j = i + length s)%nat) as [->|].
  - rewrite list_lookup_insert_eq by (rewrite length_blit; lia).
    rewrite decide_True, lookup_app_r by lia.
    by replace (i + length s - i - length s)%nat with 0%nat by lia.
  - rewrite list_lookup_insert_ne, lookup_blit by lia.
    case_decide; [rewrite decide_True, lookup_app_l by lia|rewrite decide_False by lia]; done.
Qed.

(** Appending the FCS of the first [len] bytes. *)
Lemma append_fcs_spec d len : 0 ≤ len → len + 4 ≤ Z.of_nat (length d) →
  append_fcs d len
  = Ok (blit d (Z.to_nat len) (be32 (crc32_compute (take (Z.to_nat len) d))), len + 4).
Proof.
  intros Hl Hd. unfold append_fcs. rewrite bslice_Ok by lia. cbn [mbind res_bind]. cbv zeta.
  change (slice d (Z.to_nat 0) (Z.to_nat len)) with (take (Z.to_nat len) d).
  set (crc := crc32_compute _). set (n := Z.to_nat len).
  rewrite bset_Ok by lia. cbn [mbind res_bind]. fold n. rewrite insert_blit1 by lia.
  assert (Hs : ∀ s m, m = len + Z.of_nat (length s) → Z.of_nat (length s) < 4 →
    ∀ v, bset (blit d n s) m v = Ok (blit d n (s ++ [v]))).
  { intros s m -> Hm v. rewrite bset_Ok by (rewrite length_blit; lia).
    replace (Z.to_nat (len + Z.of_nat (length s))) with (n + length s)%nat by lia.
    by rewrite blit_snoc by lia. }
  rewrite !Hs by (cbn; lia). cbn [mbind res_bind].
  rewrite Hs by (cbn; lia). cbn [mbind res_bind]. rewrite Hs by (cbn; lia). done.
Qed.

Lemma append_fcs_overflow d len : 0 ≤ len ≤ Z.of_nat (length d) → Z.of_nat (length d) < len + 4 →
  append_fcs d len = Err OutOfBounds.
Proof.
  intros Hl Hd. pose proof (append_fcs_fuel d len) as Hf.
  destruct (append_fcs d len) as [[d' len']|[]] eqn:E; [|done..].
  apply append_fcs_len in E. lia.
Qed.

(** The frame that [gotfunc] works on: copied to the stack array, then translated. *)
Definition rx_munged (stk databuf : list Z) (len : Z) (w : world) (d : list Z) : Prop :=
  let tmp := blit stk 0 (take (Z.to_nat len) databuf) in
  if flag (registers_mode w) MODE_LOOP then d = tmp else mungepacket (w_mac w) tmp len = Ok (len, d).

(** The receiver is on and the frame is one it can take. *)
Record rx_open (stk databuf : list Z) (len : Z) (w : world) : Prop := RxOpen {
  open_on : flag (csr0 w) CSR0_RXON = true;
  open_usable : ring_usable (am_rdr_rdra (w_reg w)) (am_rdr_rlen (w_reg w)) = true;
  open_len : 20 ≤ len ≤ 4096;
  open_buf : len ≤ Z.of_nat (length databuf);
  open_bytes : Forall (fits 8) databuf;
  open_stk : length stk = 4096%nat;
  open_stk_bytes : Forall (fits 8) stk }.

Section gotfunc.
Context `{Hint : IntHandler, Hok : !IntHandlerOk}.
Context (stk databuf : list Z) (len : Z) (w : world) (d : list Z).
Context (Hw : world_ok w) (Ho : rx_open stk databuf len w) (Hm : rx_munged stk databuf len w d).

Lemma rx_munged_ok : length d = 4096%nat ∧ Forall (fits 8) d.
Proof.
  destruct Ho as [_ _ Hl Hb Hbb Hs Hsb]. unfold rx_munged in Hm.
  set (tmp := blit stk 0 (take (Z.to_nat len) databuf)) in Hm.
  assert (Ht : length tmp = 4096%nat) by (unfold tmp; rewrite length_blit; rewrite ?length_take; lia).
  assert (Htb : Forall (fits 8) tmp) by (apply Forall_blit; [done|by apply Forall_take]).
  destruct (flag (registers_mode w) MODE_LOOP); [by subst d|].
  destruct (mungepacket_cases (w_mac w) tmp len) as [E|(b' & E & H1 & H2 & _)];
    [apply Hw|lia|done|lia|congruence|]. rewrite Hm in E. injection E as ->. split; [congruence|done].
Qed.

Lemma gotfunc_open : gotfunc stk databuf len w =
  if negb (rx_accept w d) then Ok w
  else
    '(d, len) ← append_fcs d len;
    '(stored, w) ← rx_loop (Z.to_nat len) (am_rdr_rdra (w_reg w)) (am_rdr_rlen (w_reg w)) d len 0 true w;
    if (stored : bool) then
      let w := rethink (registers_csr0_set CSR0_RINT w) in
      Ok (if flag (registers_mode w) MODE_LOOP
          then upd_ring (λ g, set_loopback_iter (loopback_iter g + 1) g) w else w)
    else Ok w.
Proof.
  destruct Ho as [H1 H2 Hl Hb Hbb Hs Hsb]. unfold gotfunc. rewrite H1. cbn [negb].
  destruct (Z.ltb_spec len 20); [lia|]. cbv zeta. rewrite H2. cbn [negb].
  rewrite bslice_Ok by lia. cbn [mbind res_bind].
  change (slice databuf (Z.to_nat 0) (Z.to_nat len)) with (take (Z.to_nat len) databuf).
  rewrite bblit_Ok by (rewrite ?length_take; lia). cbn [mbind res_bind].
  change (Z.to_nat 0) with 0%nat. unfold rx_munged in Hm.
  destruct (flag (registers_mode w) MODE_LOOP).
  - by rewrite <-Hm.
  - rewrite Hm. done.
Qed.

(** The end of a reception: RINT, interrupt, and nothing else of the card. *)
Lemma rx_done_spec w1 : world_ok w1 →
  let w2 := rethink (registers_csr0_set CSR0_RINT w1) in
  let w' := if flag (registers_mode w2) MODE_LOOP
            then upd_ring (λ g, set_loopback_iter (loopback_iter g + 1) g) w2 else w2 in
  flag (csr0 w') CSR0_RINT = true ∧ rdr_offset (w_reg w') = rdr_offset (w_reg w1) ∧
  w_sent w' = w_sent w1 ∧ (∀ a, ram_byte w' a = ram_byte w1 a) ∧ (∀ a, ram_word w' a = ram_word w1 a).
Proof.
  intros Hw1 w2 w'. set (w3 := registers_csr0_set CSR0_RINT w1) in *.
  assert (K : keeps w1 w3) by (apply keeps_csr0_set; auto).
  assert (F := rethink_frame w3). fold w2 in F.
  assert (Hc : flag (csr0 w2) CSR0_RINT = true).
  { unfold w2. rewrite csr0_rethink by apply K. unfold w3, registers_csr0_set.
    rewrite csr0_set_csr0 by apply Hw1. flags_to_bits. rewrite rethink_csr0_bits by lia.
    cbn [Z.eqb Pos.eqb]. push_bits. done. }
  assert (H : flag (csr0 w2) CSR0_RINT = true ∧ rdr_offset (w_reg w2) = rdr_offset (w_reg w1) ∧
    w_sent w2 = w_sent w1 ∧ (∀ a, ram_byte w2 a = ram_byte w1 a) ∧ (∀ a, ram_word w2 a = ram_word w1 a)).
  { split; [done|]. split; [by rewrite (frame_reg _ _ F)|]. split; [exact (frame_sent _ _ F)|].
    split; intros a; [apply (ctl_frame_ram_byte _ _ a F)|apply (ctl_frame_ram_word _ _ a F)]. }
  unfold w'. by destruct (flag (registers_mode w2) MODE_LOOP).
Qed.
End gotfunc.

(** The driver's view after reception, in terms of the buffers before it. *)
Lemma rx_read_moved w w1 w' base len total s z l : Forall (λ j, 0 ≤ j < len) l →
  (∀ a, ram_byte w' a = ram_byte w1 a) →
  (∀ j k, 0 ≤ j < len → 0 ≤ k ≤ 3 → desc_word w' base j k = rx_after w base total s z l j k) →
  rx_read w' base l = rx_read_at w w1 base l.
Proof.
  intros Hr Hb Hwd. unfold rx_read, rx_read_at. f_equal. apply map_ext_in. intros j Hj%list_elem_of_In.
  rewrite Forall_forall in Hr. specialize (Hr j Hj).
  assert (Ea : buf_addr w' base j = buf_addr w base j).
  { unfold buf_addr. rewrite (desc_addr_md1 _ _ (desc_word w base j 1)), Hwd by lia.
    unfold rx_after. by rewrite !decide_False by lia. }
  assert (Es : buf_size w' base j = buf_size w base j).
  { unfold buf_size. rewrite Hwd by lia. unfold rx_after. by rewrite !decide_False by lia. }
  rewrite Ea, Es. apply list_eq. intros i.
  destruct (decide (i < Z.to_nat (buf_size w base j))%nat).
  - unfold read_block. rewrite !ram_read_block_lookup by done. f_equal. apply Hb.
  - rewrite !lookup_ge_None_2; [done|unfold read_block; rewrite length_ram_read_block; lia..].
Qed.

Lemma rx_chain_length w base len i n l : rx_chain w base len i n l → 0 < n → Z.of_nat (length l) ≤ n.
Proof.
  induction 1 as [i n|i n l ? ? ? ? ? IH]; intros Hn; cbn; [lia|].
  pose proof (buf_size_range w base i). lia.
Qed.

Lemma rx_chain_total w base len i n l : rx_chain w base len i n l → n ≤ bufs_total w base l.
Proof. induction 1 as [|i n l ? ? ? ? ? IH]; cbn; lia. Qed.

(** ** Receive properties *)

(** C3: An accepted frame is delivered: when the descriptors from the ring position on
    offer enough owned buffers for the frame and its FCS, [gotfunc] fills them so that
    the driver, reading the buffers in ring order, finds the frame followed by its
    CRC-32; each used descriptor is given back with OWN clear, the first carries STP,
    the last carries ENP and the total length, all other descriptor words are
    unchanged, the ring position is behind the last one, and RINT is raised. *)
Theorem gotfunc_delivers `{IntHandlerOk} (stk databuf : list Z) (len : Z) (w : world) (d l : list Z)
  (Hw : world_ok w) (Ho : rx_open stk databuf len w) (Hm : rx_munged stk databuf len w d)
  (Hacc : rx_accept w d = true) (Hlen : len ≤ 4092)
  (Hc : rx_chain w (am_rdr_rdra (w_reg w)) (am_rdr_rlen (w_reg w))
          (rdr_offset (w_reg w) mod am_rdr_rlen (w_reg w)) (len + 4) l)
  (Ha : bufs_apart w (am_rdr_rdra (w_reg w)) (am_rdr_rlen (w_reg w)) l)
  (Ht : bufs_total w (am_rdr_rdra (w_reg w)) l ≤ 4096) :
  let base := am_rdr_rdra (w_reg w) in
  let frame := take (Z.to_nat len) d in
  ∃ w' z, gotfunc stk databuf len w = Ok w' ∧ last l = Some z ∧
    take (Z.to_nat len + 4) (rx_read w' base l) = frame ++ be32 (crc32_compute frame) ∧
    (∀ j k, 0 ≤ j < am_rdr_rlen (w_reg w) → 0 ≤ k ≤ 3 → desc_word w' base j k =
       rx_after w base (len + 4) (head l) z l j k) ∧
    rdr_offset (w_reg w') = z + 1 ∧ flag (csr0 w') CSR0_RINT = true ∧ w_sent w' = w_sent w.
Proof.
  intros base frame. destruct (rx_munged_ok stk databuf len w d Hw Ho Hm) as [Hdl Hdb].
  pose proof (open_len _ _ _ _ Ho) as Hl.
  pose proof (ring_usable_range _ _ (open_usable _ _ _ _ Ho) (rlen_nonneg w Hw)) as Hrl.
  rewrite (gotfunc_open stk databuf len w d) by done. rewrite Hacc. cbn [negb].
  rewrite append_fcs_spec by lia. cbn [mbind res_bind]. fold frame.
  set (d2 := blit d (Z.to_nat len) (be32 (crc32_compute frame))).
  assert (Hd2 : length d2 = 4096%nat) by (unfold d2; rewrite length_blit; [done|cbn; lia]).
  assert (Hb2 : Forall (fits 8) d2).
  { apply Forall_blit; [done|]. repeat constructor; apply fits_u8. }
  assert (Htk : take (Z.to_nat len + 4) d2 = frame ++ be32 (crc32_compute frame)).
  { unfold d2, blit. rewrite app_assoc. apply take_app_length'.
    rewrite length_app. unfold frame. rewrite length_take. cbn. lia. }
  fold base in Hc, Ha, Ht. pose proof (rx_chain_range _ _ _ _ _ _ Hc) as Hrange.
  pose proof (rx_chain_length _ _ _ _ _ _ Hc ltac:(lia)) as Hll.
  pose proof (rx_chain_total _ _ _ _ _ _ Hc) as Htot.
  destruct (rx_chain_head _ _ _ _ _ _ Hc) as [l0 El].
  destruct (rx_loop_chain base (am_rdr_rlen (w_reg w)) (len + 4) d2 (proj2 Hrl)
    ltac:(rewrite Hd2; lia) Hb2
    l w (rdr_offset (w_reg w) mod am_rdr_rlen (w_reg w)) 0 true (Z.to_nat (len + 4)))
    as (z & win & Hz & E & Hwords & _ & Hread); [by rewrite Z.sub_0_r|done|done|lia|lia|lia|].
  fold base. rewrite E. cbn [mbind res_bind]. set (w1 := set_w_win _ _) in *.
  assert (Hw1 : world_ok w1) by (apply (rx_loop_keeps _ _ _ _ _ _ _ _ _ _ Hrl Hw E)).
  destruct (rx_done_spec w1 Hw1) as (Hri & Hof & Hse & Hby & Hwo).
  eexists _, z. split; [reflexivity|]. split; [done|]. cbv zeta in Hri, Hof, Hse, Hby, Hwo |- *.
  set (w' := if flag _ MODE_LOOP then _ else _) in *.
  assert (Hwd : ∀ j k, 0 ≤ j < am_rdr_rlen (w_reg w) → 0 ≤ k ≤ 3 → desc_word w' base j k =
    rx_after w base (len + 4) (head l) z l j k).
  { intros j k Hj Hk. rewrite El at 1. transitivity (desc_word w1 base j k); [apply Hwo|].
    exact (Hwords j k Hj Hk). }
  split; [|split; [done|split; [done|split; [done|done]]]].
  rewrite (rx_read_moved w w1 w' base (am_rdr_rlen (w_reg w)) (len + 4) (head l) z) by done.
  rewrite Hread. unfold slice. rewrite drop_0, take_take, <-Htk. f_equal. lia.
Qed.

(** Writing back the word just read changes no byte. *)
Lemma put_word_same off w a : window_ok (w_win w) →
  ram_byte (put_word off (ram_word w off) w) a = ram_byte w a.
Proof.
  intros Hw. unfold ram_byte, put_word, ram_word. cbn [w_boardram w_win set_w_win].
  unfold put_ram_word. rewrite !get_put_byte, get_ram_word_bytes by done.
  pose proof (get_ram_byte_fits (w_boardram w) (w_win w) off Hw).
  pose proof (get_ram_byte_fits (w_boardram w) (w_win w) (off + 1) Hw).
  case_decide as E; [|case_decide as E2; [|done]].
  - rewrite <-(get_ram_byte_addr _ _ _ _ E), u8_u8. unfold u8.
    rewrite Z.add_comm. change 256 with (2 ^ 8). rewrite Z.mod_add by lia. by apply Z.mod_small.
  - rewrite <-(get_ram_byte_addr _ _ _ _ E2). by apply word_high.
Qed.

(** C39: When the host owns the descriptor at the ring position, an accepted frame is
    lost: MISS is raised, the frame is stored nowhere (every byte of board RAM reads as
    before), the ring position does not advance and the receiver stays on. *)
Theorem gotfunc_miss `{IntHandlerOk} (stk databuf : list Z) (len : Z) (w : world) (d : list Z)
  (Hw : world_ok w) (Ho : rx_open stk databuf len w) (Hm : rx_munged stk databuf len w d)
  (Hacc : rx_accept w d = true) (Hlen : len ≤ 4092)
  (Hown : flag (desc_word w (am_rdr_rdra (w_reg w))
            (rdr_offset (w_reg w) mod am_rdr_rlen (w_reg w)) 1) RX_OWN = false) :
  ∃ w', gotfunc stk databuf len w = Ok w' ∧
    flag (csr0 w') CSR0_MISS = true ∧ flag (csr0 w') CSR0_RXON = true ∧
    (∀ a, ram_byte w' a = ram_byte w a) ∧
    rdr_offset (w_reg w') = rdr_offset (w_reg w) mod am_rdr_rlen (w_reg w).
Proof.
  destruct (rx_munged_ok stk databuf len w d Hw Ho Hm) as [Hdl Hdb].
  pose proof (open_len _ _ _ _ Ho) as Hl. pose proof (open_on _ _ _ _ Ho) as Hon.
  pose proof (ring_usable_range _ _ (open_usable _ _ _ _ Ho) (rlen_nonneg w Hw)) as Hrl.
  rewrite (gotfunc_open stk databuf len w d) by done. rewrite Hacc. cbn [negb].
  rewrite append_fcs_spec by lia. cbn [mbind res_bind].
  destruct (Z.to_nat (len + 4)) as [|fuel] eqn:Ef; [lia|]. cbn [rx_loop]. cbv zeta.
  set (base := am_rdr_rdra (w_reg w)) in *. set (i := rdr_offset (w_reg w) mod am_rdr_rlen (w_reg w)) in *.
  set (w1 := upd_reg (λ r, set_rdr_offset (rdr_offset r mod _) r) w).
  change (rdr_offset (w_reg w1)) with i.
  change (ram_word w1 (desc_off base i + 2)) with (desc_word w base i 1). rewrite Hown. cbn [negb].
  cbn [mbind res_bind]. eexists. split; [done|].
  set (w2 := registers_csr0_set CSR0_MISS w1). set (w3 := put_word _ _ w2).
  assert (K1 : keeps w w1) by (apply keeps_rdr_offset; [done|by apply mod_ring_range]).
  assert (K2 : keeps w1 w2) by (apply keeps_csr0_set; [apply K1|auto]).
  assert (K3 : keeps w2 w3) by apply keeps_put_word, K2.
  assert (F := rethink_frame w3).
  assert (Hc3 : csr0 w3 = Z.lor (csr0 w) CSR0_MISS) by (apply (csr0_set_csr0 _ w1), K1).
  rewrite csr0_rethink, Hc3 by apply K3. split; [|split; [|split]].
  - flags_to_bits. rewrite rethink_csr0_bits by lia. cbn [Z.eqb Pos.eqb]. push_bits. done.
  - flags_to_bits. rewrite rethink_csr0_bits by lia. cbn [Z.eqb Pos.eqb]. push_bits. done.
  - intros a. rewrite (ctl_frame_ram_byte _ _ a F). change (ram_byte (set_csr0 ?c w3) a) with (ram_byte w3 a).
    apply (put_word_same (desc_off base i + 2) w2 a), (win_ok w Hw).
  - by rewrite (frame_reg _ _ F).
Qed.

(** The stack array of [gotfunc] has no room for the FCS of a frame of more than
    4092 bytes: accepting a frame of 4093 to 4096 bytes writes past its end. *)
Theorem gotfunc_fcs_overflow `{IntHandler} (stk databuf : list Z) (len : Z) (w : world) (d : list Z)
  (Hw : world_ok w) (Ho : rx_open stk databuf len w) (Hm : rx_munged stk databuf len w d)
  (Hacc : rx_accept w d = true) (Hlen : 4092 < len) :
  gotfunc stk databuf len w = Err OutOfBounds.
Proof.
  destruct (rx_munged_ok stk databuf len w d Hw Ho Hm) as [Hdl Hdb].
  pose proof (open_len _ _ _ _ Ho).
  rewrite (gotfunc_open stk databuf len w d) by done. rewrite Hacc. cbn [negb].
  by rewrite append_fcs_overflow by lia.
Qed.

(** [gotfunc] terminates on every frame and every ring contents: a descriptor takes at
    least one byte, so the loop ends within [len + 4] iterations; whenever it returns,
    the card is well-formed and keeps its configuration and run state. *)
Theorem gotfunc_total `{IntHandlerOk} (stk databuf : list Z) (len : Z) (w : world)
  (Hw : world_ok w) (Hl : length stk = 4096%nat) (Hs : Forall (fits 8) stk)
  (Hd : Forall (fits 8) databuf) :
  gotfunc stk databuf len w ≠ Err OutOfFuel ∧
  ∀ w', gotfunc stk databuf len w = Ok w' → world_ok w' ∧ run_frame w w'.
Proof. split; [by apply gotfunc_fuel|]. intros w'. by apply gotfunc_keeps. Qed.

(** ** The address filter on the wire *)

Definition group_bit (a : list Z) : bool := flag (nth 0 a 0) 1.

(** The logical address filter has the bit of the group address [a]. *)
Definition ladrf_hit (w : world) (a : list Z) : bool :=
  flag (am_ladrf (w_reg w)) (Z.shiftl 1 (Z.shiftr (u32 (Z.lnot (crc32_compute a))) 26)).

Section filter.
Context (m : macs) (Hf : group_bit (mac_fakemac m) = false) (Hr : group_bit (mac_realmac m) = false).

Lemma swap_is_fake a : swap_mac m a = mac_fakemac m ↔ a = mac_realmac m.
Proof.
  unfold swap_mac. destruct (bytes_eqb_spec a (mac_fakemac m)), (bytes_eqb_spec a (mac_realmac m));
    split; congruence.
Qed.

Lemma swap_group a : group_bit (swap_mac m a) = group_bit a.
Proof.
  unfold swap_mac. destruct (bytes_eqb_spec a (mac_fakemac m)), (bytes_eqb_spec a (mac_realmac m));
    congruence.
Qed.

Lemma swap_group_id a : group_bit a = true → swap_mac m a = a.
Proof.
  unfold swap_mac. destruct (bytes_eqb_spec a (mac_fakemac m)), (bytes_eqb_spec a (mac_realmac m));
    congruence.
Qed.

Lemma swap_is_broadcast a : swap_mac m a = BROADCAST_MAC ↔ a = BROADCAST_MAC.
Proof.
  split; intros H; [|by subst; apply swap_group_id].
  assert (Hg : group_bit a = true) by (by rewrite <-swap_group, H).
  by rewrite swap_group_id in H.
Qed.
End filter.

(** C12: The receive filter, in terms of the addresses on the wire: outside loopback, and
    when the station address is the one the translation uses, a frame is accepted if
    and only if the card is promiscuous, or the frame is addressed to the card's wire
    address, or is a broadcast, or is a multicast whose hash bit is set in the logical
    address filter, unless the card itself sent it to itself or as a broadcast.  Of its own
    transmissions these two are all it rejects: its own hashed multicasts and, in
    promiscuous mode, its own frames to others are accepted. *)
Theorem rx_accept_wire (w : world) (tmp d : list Z) (len : Z) (Hw : world_ok w)
  (Hmode : flag (registers_mode w) MODE_LOOP = false)
  (Hsync : fakemac (w_reg w) = mac_fakemac (w_mac w))
  (Hf : group_bit (mac_fakemac (w_mac w)) = false) (Hr : group_bit (mac_realmac (w_mac w)) = false)
  (Ht : (116 ≤ length tmp)%nat) (Htb : Forall (fits 8) tmp) (Hl : 20 ≤ len)
  (Hm : mungepacket (w_mac w) tmp len = Ok (len, d)) :
  let dst := slice tmp 0 6 in
  let src := slice tmp 6 6 in
  let real := mac_realmac (w_mac w) in
  rx_accept w d = true ↔
  (registers_prom w = true ∨ dst = real ∨ dst = BROADCAST_MAC ∨
   (group_bit dst = true ∧ ladrf_hit w dst = true)) ∧
  ¬ (src = real ∧ (dst = real ∨ dst = BROADCAST_MAC)).
Proof.
  intros dst src real.
  destruct (mungepacket_cases (w_mac w) tmp len (mac_ok w Hw) Ht Htb Hl)
    as [E|(b' & E & _ & _ & H0 & H6)]; [congruence|].
  rewrite Hm in E. injection E as <-. fold dst in H0. fold src in H6.
  unfold rx_accept. rewrite Hmode, H0, H6, Hsync. cbv zeta.
  fold (group_bit (swap_mac (w_mac w) dst)). rewrite swap_group by done.
  fold (ladrf_hit w (swap_mac (w_mac w) dst)).
  pose proof (swap_is_fake (w_mac w) dst) as Fd. pose proof (swap_is_fake (w_mac w) src) as Fs.
  pose proof (swap_is_broadcast (w_mac w) Hf Hr dst) as Fb.
  assert (Hbd : dst = BROADCAST_MAC → group_bit dst = true) by (by intros ->).
  assert (Hrd : dst = real → group_bit dst = false) by (by intros ->).
  destruct (group_bit dst) eqn:Eg; [rewrite (swap_group_id (w_mac w) Hf Hr dst Eg) in *|];
    repeat match goal with |- context [bytes_eqb ?a ?b] => destruct (bytes_eqb_spec a b) end;
    destruct (registers_prom w); cbn [negb andb]; rewrite ?andb_true_r, ?andb_false_r; naive_solver.
Qed.

(** ** Examples *)

Import NoCallbacks.

(** A broadcast frame of 60 bytes, and two receive buffers of 40 and 30 bytes. *)
Definition ex_rx_frame : list Z :=
  BROADCAST_MAC ++ [2; 0; 0; 0; 0; 7] ++ [0x12; 0x34] ++ map Z.of_nat (seq 1 46).
Definition ex_rx_win : window :=
  poke_words 0x2000 [0x4100; RX_OWN; 65536 - 40; 0; 0x4000; RX_OWN; 65536 - 30; 0] ∅.
Definition ex_rx (win : window) : world := card 0 CSR0_RUNNING 0 win.
Definition ex_stk : list Z := replicate 4096 0.

(** The frame in [gotfunc]'s array after translation. *)
Definition ex_rx_d (frame : list Z) : list Z :=
  swap_fields ex_macs (blit ex_stk 0 (take (length frame) frame)).

Lemma ex_rx_ok win : window_ok win → world_ok (ex_rx win).
Proof. intros. by apply card_ok; [by split|by split|by vm_compute|lia|]. Qed.

Lemma ex_rx_win_ok : window_ok ex_rx_win.
Proof. apply window_ok_poke_words, window_ok_empty. Qed.

Lemma ex_rx_open frame win : (20 ≤ length frame ≤ 4096)%nat → bytesb frame = true →
  rx_open ex_stk frame (Z.of_nat (length frame)) (ex_rx win).
Proof.
  intros Hl Hb. split; [by vm_compute|by vm_compute|lia|lia|by apply bytesb_Forall|done|].
  apply Forall_zeros.
Qed.

Lemma ex_rx_munged win : rx_munged ex_stk ex_rx_frame 60 (ex_rx win) (ex_rx_d ex_rx_frame).
Proof. by vm_compute. Qed.

Lemma ex_rx_accept win : rx_accept (ex_rx win) (ex_rx_d ex_rx_frame) = true.
Proof. by vm_compute. Qed.

Lemma gotfunc_delivers_witness : ∃ w', gotfunc ex_stk ex_rx_frame 60 (ex_rx ex_rx_win) = Ok w' ∧
  take 60 (rx_read w' 0x2000 [0; 1]) = ex_rx_frame ∧
  desc_word w' 0x2000 1 1 = RX_ENP ∧ desc_word w' 0x2000 1 3 = 64.
Proof.
  destruct (gotfunc_delivers ex_stk ex_rx_frame 60 (ex_rx ex_rx_win) (ex_rx_d ex_rx_frame) [0; 1])
    as (w' & z & H1 & Hz & H2 & H3 & _).
  - apply ex_rx_ok, ex_rx_win_ok.
  - apply (ex_rx_open ex_rx_frame); [cbn; lia|done].
  - apply ex_rx_munged.
  - apply ex_rx_accept.
  - lia.
  - apply rx_more; [done|by vm_compute|by vm_compute|set_solver|].
    apply rx_last; [done|by vm_compute|by vm_compute].
  - split; [by apply apart_ring_after; vm_compute|]. split; [|split; [by apply apart_ring_after; vm_compute|]].
    + intros j k Hj Hk. apply list_elem_of_singleton in Hj as ->. change (0 ≤ k < 40) in Hk.
      change (¬ in_block 0x4000 30 (0x4100 + k)). unfold in_block. rewrite Z.mod_small by lia. lia.
    + split; [|done]. intros j k Hj. by apply not_elem_of_nil in Hj.
  - by vm_compute.
  - exists w'. injection Hz as <-. split; [exact H1|].
    change (am_rdr_rdra (w_reg (ex_rx ex_rx_win))) with 0x2000 in *.
    change (am_rdr_rlen (w_reg (ex_rx ex_rx_win))) with 4 in *.
    split; [|split].
    + apply (f_equal (take 60)) in H2. rewrite take_take in H2. etransitivity; [exact H2|].
      by vm_compute.
    + rewrite (H3 1 1) by lia. by vm_compute.
    + rewrite (H3 1 3) by lia. by vm_compute.
Defined.

Lemma gotfunc_miss_witness : ∃ w', gotfunc ex_stk ex_rx_frame 60 (ex_rx ∅) = Ok w' ∧
  flag (csr0 w') CSR0_MISS = true.
Proof.
  destruct (gotfunc_miss ex_stk ex_rx_frame 60 (ex_rx ∅) (ex_rx_d ex_rx_frame)) as (w' & H1 & H2 & _).
  - apply ex_rx_ok, window_ok_empty.
  - apply (ex_rx_open ex_rx_frame); [cbn; lia|done].
  - apply ex_rx_munged.
  - apply ex_rx_accept.
  - lia.
  - by vm_compute.
  - exists w'. split; [exact H1|exact H2].
Defined.

(** A frame that fills the array. *)
Definition ex_rx_big : list Z := ex_rx_frame ++ replicate 4036 0.

Lemma gotfunc_fcs_overflow_witness : gotfunc ex_stk ex_rx_big 4096 (ex_rx ex_rx_win) = Err OutOfBounds.
Proof.
  apply (gotfunc_fcs_overflow ex_stk ex_rx_big 4096 (ex_rx ex_rx_win) (ex_rx_d ex_rx_big)).
  - apply ex_rx_ok, ex_rx_win_ok.
  - apply (ex_rx_open ex_rx_big); [vm_compute; lia|by vm_compute].
  - by vm_compute.
  - by vm_compute.
  - lia.
Defined.

Lemma gotfunc_total_witness : gotfunc ex_stk ex_rx_frame 60 (ex_rx ex_rx_win) ≠ Err OutOfFuel.
Proof.
  apply (gotfunc_total ex_stk ex_rx_frame 60 (ex_rx ex_rx_win));
    [apply ex_rx_ok, ex_rx_win_ok|done|apply Forall_zeros|by apply bytesb_Forall].
Defined.

Lemma rx_accept_wire_witness : rx_accept (ex_rx ∅) (ex_rx_d ex_rx_frame) = true.
Proof.
  apply (rx_accept_wire (ex_rx ∅) (blit ex_stk 0 ex_rx_frame) (ex_rx_d ex_rx_frame) 60).
  - apply ex_rx_ok, window_ok_empty.
  - done.
  - by vm_compute.
  - by vm_compute.
  - by vm_compute.
  - vm_compute. lia.
  - apply Forall_blit; [apply Forall_zeros|by apply bytesb_Forall].
  - lia.
  - by vm_compute.
  - split; [right; right; left; by vm_compute|]. intros [H _]. by vm_compute in H.
Defined.
