(* ===== verification/Doorbell.v ===== *)
(** * The doorbell daemon (arm/src/main_doorbell.cpp)

    The main program of the flat-DDR3 build: the FPGA posts 68k register writes in
    the CMD slot, the daemon executes them, and publishes CSR0 to CSR3 and the
    interrupt line in the CSR and INT slots.  Here every iteration of the command loop
    and every received frame is one step; how the threads interleave inside a step is the
    subject of DoorbellThreads.v and DoorbellSafe.v. *)

From S2P Require Import Prelude Types Window Crc32 Mac State Registers Rings Descriptors Slots.

(** ** Publishing the chip's state *)

Definition pack_csrs (c0 c1 c2 c3 : Z) : Z :=
  Z.lor (Z.lor (Z.lor c0 (Z.shiftl c1 16)) (Z.shiftl c2 32)) (Z.shiftl c3 48).

Definition push_csr_shadow (w : world) : world :=
  set_slot DDR3_CSR_OFF
    (pack_csrs (csr0 w) (registers_csr 1 w) (registers_csr 2 w) (registers_csr 3 w)) w.

Definition update_int_state (w : world) : world := set_slot DDR3_INT_OFF (int_level (csr0 w)) w.

Definition on_interrupt_cb (w : world) : world := update_int_state (push_csr_shadow w).

#[export] Instance doorbell_int : IntHandler := Some on_interrupt_cb.

Definition on_transmit_cb (stk : list Z) (w : world) : res (Z * world) :=
  '(r, w) ← do_transmit stk w;
  Ok (r, update_int_state (push_csr_shadow w)).

(** ** The two loops *)

(** One pass of the command loop of [main]; [stk] is the stack below the call. *)
Definition cmd_step (stk : list Z) (w : world) : res world :=
  let cmd := slot w DDR3_CMD_OFF in
  if flag cmd DDR3_CMD_PENDING_BIT then
    let rap_v := Z.land (Z.shiftr cmd DDR3_CMD_RAP_SHIFT) DDR3_CMD_RAP_MASK in
    let data := Z.land (Z.shiftr cmd DDR3_CMD_DATA_SHIFT) DDR3_CMD_DATA_MASK in
    let htx : TxHandler := Some (on_transmit_cb stk) in
    w ← chip_wput A2065_RAP_OFF rap_v w;
    w ← chip_wput A2065_RDP_OFF data w;
    let w := set_slot DDR3_CMD_OFF 0 w in
    Ok (update_int_state (push_csr_shadow w))
  else Ok w.

(** One pass of [rx_thread], [ethernet_recv] having put [len] bytes in [rxbuf]. *)
Definition rx_step (stk rxbuf : list Z) (len : Z) (w : world) : res world :=
  if 0 <? len then
    w ← gotfunc stk rxbuf len w;
    Ok (update_int_state (push_csr_shadow w))
  else Ok w.

(** ** The card's addresses *)

Definition write_mbx_mac (mac : list Z) (w : world) : world :=
  let val := Z.lor (Z.lor (Z.lor (Z.lor 1 (Z.shiftl (nth 2 mac 0) 32)) (Z.shiftl (nth 3 mac 0) 40))
    (Z.shiftl (nth 4 mac 0) 48)) (Z.shiftl (nth 5 mac 0) 56) in
  set_slot DDR3_MAC_OFF val w.

Definition mac_low_is_zero (m : list Z) : bool :=
  Z.lor (Z.lor (nth 3 m 0) (nth 4 m 0)) (nth 5 m 0) =? 0.

(** FNV-1a over the host name, mixed with the process id and the time. *)
Definition fnv1a (host : list Z) : Z :=
  fold_left (λ h p, u32 (Z.lxor h (u8 p) * 16777619)) host 2166136261.

Definition derive_unique_low (host : list Z) (pid time : Z) (m : list Z) : list Z :=
  let h := Z.lxor (Z.lxor (fnv1a host) (u32 pid)) (u32 time) in
  let m := <[3%nat := Z.land (Z.shiftr h 16) 0xff]> m in
  let m := <[4%nat := Z.land (Z.shiftr h 8) 0xff]> m in
  let m := <[5%nat := Z.land h 0xff]> m in
  if mac_low_is_zero m then <[5%nat := 0x01]> m else m.

(** [ethernet_read_iface_mac]: [hw] is the answer of the SIOCGIFHWADDR request, if any;
    an address whose low half is zero does not count. *)
Definition ethernet_read_iface_mac (hw : option (list Z)) : option (list Z) :=
  match hw with
  | Some out => if mac_low_is_zero out then None else Some out
  | None => None
  end.

(** The address computed by [daemon_set_default_mac]: [iface_mac] is what
    [ethernet_get_mac] gives, [eth0] the hardware address of eth0. *)
Definition default_mac (iface_mac : list Z) (eth0 : option (list Z)) (host : list Z) (pid time : Z) :
    list Z :=
  let realmac :=
    if mac_low_is_zero iface_mac then
      match ethernet_read_iface_mac eth0 with Some fb => fb | None => derive_unique_low host pid time iface_mac end
    else iface_mac in
  [COMMODORE_OUI0; COMMODORE_OUI1; COMMODORE_OUI2; nth 3 realmac 0; nth 4 realmac 0; nth 5 realmac 0].

Definition daemon_set_default_mac (iface_mac : list Z) (eth0 : option (list Z)) (host : list Z)
    (pid time : Z) (w : world) : world :=
  let mac := default_mac iface_mac eth0 host pid time in
  registers_set_fakemac mac (upd_mac (mac_set_addresses mac mac) w).

(** ** Start-up *)

(** [main] between [mmap] and the loops. *)
Definition daemon_start (iface_mac : list Z) (eth0 : option (list Z)) (host : list Z) (pid time : Z)
    (w : world) : world :=
  let w := set_w_boardram DDR3_BRAM_OFF w in
  let w := set_slot DDR3_CMD_OFF 0 w in
  let w := set_slot DDR3_CSR_OFF 0 w in
  let w := set_slot DDR3_INT_OFF 0 w in
  let w := registers_reset w in
  let w := daemon_set_default_mac iface_mac eth0 host pid time w in
  let w := write_mbx_mac (fakemac (w_reg w)) w in
  update_int_state (push_csr_shadow w).

(** [test_boardram]: the number of failed checks after the writes. *)
Definition test_boardram (w : world) : bool * world :=
  let w := put_word 0x0000 0xDEAD w in
  let w := put_word 0x0002 0xBEEF w in
  let w := put_word 0x7FFE 0x1234 w in
  let w := put_word 0x0100 0xAAAA w in
  let w := put_word 0x0102 0x5555 w in
  let f1 := negb (ram_word w 0x0000 =? 0xDEAD) in
  let f2 := negb (ram_word w 0x0002 =? 0xBEEF) in
  let f3 := negb (ram_word w 0x7FFE =? 0x1234) in
  let f4 := negb (ram_word w 0x0100 =? 0xAAAA) in
  let f5 := negb (ram_word w 0x0102 =? 0x5555) in
  let w := put_word 0x0200 0x0000 w in
  let w := set_w_win (put_ram_byte (w_boardram w) (w_win w) 0x0200 0xCA) w in
  let w := set_w_win (put_ram_byte (w_boardram w) (w_win w) 0x0201 0xFE) w in
  let f6 := negb (ram_word w 0x0200 =? 0xCAFE) in
  (f1 || f2 || f3 || f4 || f5 || f6, w).

(** ** The system *)

(** The word the FPGA posts for a 68k write of [data] with RAP holding [rap]. *)
Definition cmd_word (rap data : Z) : Z := Z.lor (Z.lor 1 (Z.shiftl rap 1)) (Z.shiftl data 8).

(** What the slots must say. *)
Record published (w : world) : Prop := Published {
  pub_csr : slot w DDR3_CSR_OFF
    = pack_csrs (csr0 w) (registers_csr 1 w) (registers_csr 2 w) (registers_csr 3 w);
  pub_int : slot w DDR3_INT_OFF = int_level (csr0 w) }.

(** The steps of the running system: the 68k writes a byte of board RAM, the FPGA posts
    a register write, the command loop makes a pass, a frame arrives. *)
Inductive sys_step (stk : list Z) : world → world → Prop :=
| sys_ram off v w :
    sys_step stk w (set_w_win (put_ram_byte (w_boardram w) (w_win w) off v) w)
| sys_post rap data w : fits 7 rap → fits 16 data →
    sys_step stk w (set_slot DDR3_CMD_OFF (cmd_word rap data) w)
| sys_cmd w w' : cmd_step stk w = Ok w' → sys_step stk w w'
| sys_rx rxbuf len w w' : Forall (fits 8) rxbuf → rx_step stk rxbuf len w = Ok w' → sys_step stk w w'.

(** The system invariant. *)
Record sys_ok (w : world) : Prop := SysOk {
  sys_world : world_ok w;
  sys_csr0 : csr0_inv (csr0 w);
  sys_pub : published w }.

(** ** Lemmas: slots *)

Ltac slot_lia := unfold DDR3_CMD_OFF, DDR3_CSR_OFF, DDR3_INT_OFF, DDR3_MAC_OFF, RAM_SIZE; lia.

Lemma push_frame w : ctl_frame w (push_csr_shadow w).
Proof. by apply set_slot_frame. Qed.

Lemma int_frame w : ctl_frame w (update_int_state w).
Proof. by apply set_slot_frame. Qed.

Lemma on_interrupt_frame w : ctl_frame w (on_interrupt_cb w).
Proof. etransitivity; [apply push_frame|apply int_frame]. Qed.

Lemma on_interrupt_quiet w : quiet w (on_interrupt_cb w).
Proof.
  apply (quiet_trans _ (push_csr_shadow w)); [done|..]; by apply set_slot_quiet.
Qed.

#[export] Instance doorbell_int_ok : IntHandlerOk.
Proof. intros f w [= <-]. split; [apply on_interrupt_frame|apply on_interrupt_quiet]. Qed.

Lemma doorbell_tx_ok stk : @TxHandlerOk (Some (on_transmit_cb stk)).
Proof.
  intros f w n w' [= <-] Hw H. unfold on_transmit_cb in H. bind_inv H. destruct x as [r w1].
  injection H as <- <-. apply do_transmit_keeps in Hx; [|done].
  eapply keeps_trans; [apply Hx|]. intros. by apply ctl_frame_keeps; [apply on_interrupt_frame|apply on_interrupt_quiet|].
Qed.

(** ** Lemmas: publishing *)

Lemma pack_csrs_fits c0 c1 c2 c3 : fits 16 c0 → fits 16 c1 → fits 16 c2 → fits 16 c3 →
  fits 64 (pack_csrs c0 c1 c2 c3).
Proof. intros. unfold pack_csrs. solve_fits. Qed.

Lemma registers_csr_fits n w : world_ok w → fits 16 (registers_csr n w).
Proof. intros Hw. unfold registers_csr. case_match; [by apply csr_at_fits, Hw|by split]. Qed.

Lemma ctl_frame_registers_csr n w w' : ctl_frame w w' → registers_csr n w' = registers_csr n w.
Proof. intros []. unfold registers_csr. by rewrite frame_reg. Qed.

(** After the two calls at the end of each step the slots say what the chip says. *)
Lemma on_interrupt_published w : world_ok w → published (on_interrupt_cb w).
Proof.
  intros Hw. pose proof (on_interrupt_frame w) as F.
  split; rewrite ?(ctl_frame_csr0 _ _ F), ?(ctl_frame_registers_csr _ _ _ F).
  - unfold on_interrupt_cb, update_int_state. rewrite slot_set_ne by slot_lia.
    unfold push_csr_shadow. rewrite slot_set_eq. apply u64_small.
    apply pack_csrs_fits; auto using registers_csr_fits, csr0_fits.
  - unfold on_interrupt_cb, update_int_state. rewrite slot_set_eq.
    change (csr0 (push_csr_shadow w)) with (csr0 w). unfold int_level. by case_match.
Qed.

Lemma published_ext w w' : w_reg w' = w_reg w → slot w' DDR3_CSR_OFF = slot w DDR3_CSR_OFF →
  slot w' DDR3_INT_OFF = slot w DDR3_INT_OFF → published w → published w'.
Proof.
  intros E1 E2 E3 [H1 H2]. split; unfold csr0, registers_csr in *; rewrite E1; congruence.
Qed.

(** Reading a field of a packed CSR word gives the register back. *)
Lemma pack_csrs_word c0 c1 c2 c3 : fits 16 c0 → fits 16 c1 → fits 16 c2 → fits 16 c3 →
  word_at 0 (pack_csrs c0 c1 c2 c3) = c0 ∧ word_at 1 (pack_csrs c0 c1 c2 c3) = c1 ∧
  word_at 2 (pack_csrs c0 c1 c2 c3) = c2 ∧ word_at 3 (pack_csrs c0 c1 c2 c3) = c3.
Proof.
  intros H0 H1 H2 H3. unfold pack_csrs.
  split_and!; (apply (fits_bits_inj 16); [lia|apply word_at_fits|done|]; intros i Hi;
    rewrite word_at_bits by lia; destruct (Z.leb_spec 0 i), (Z.ltb_spec i 16); try lia; cbn [andb];
    push_bits).
  all: repeat match goal with
    | H : fits 16 ?c |- context [Z.testbit ?c ?j] =>
        first [rewrite (fits_testbit 16 c j H) by lia | rewrite (Z.testbit_neg_r c j) by lia]
    end; rewrite ?orb_false_r, ?orb_false_l; f_equal; lia.
Qed.

(** ** Lemmas: every step keeps the invariant *)

Lemma sys_ok_publish w : world_ok w → csr0_inv (csr0 w) → sys_ok (on_interrupt_cb w).
Proof.
  intros Hw Hi. pose proof (on_interrupt_frame w) as F. split.
  - by apply (ctl_frame_ok w).
  - by rewrite (ctl_frame_csr0 _ _ F).
  - by apply on_interrupt_published.
Qed.

Lemma cmd_step_ok stk w w' : sys_ok w → cmd_step stk w = Ok w' → sys_ok w'.
Proof.
  intros [Hw Hi Hp]. unfold cmd_step. case_match; [|by intros [= <-]]. cbv zeta.
  intros Hx. bind_inv Hx. bind_inv Hx. injection Hx as <-.
  pose proof (doorbell_tx_ok stk) as Htx.
  apply (@chip_wput_ok _ _ (Some (on_transmit_cb stk)) Htx) in Hx0 as [Hw1 Hi1];
    [|done|done|solve_fits].
  apply (@chip_wput_ok _ _ (Some (on_transmit_cb stk)) Htx) in Hx1 as [Hw2 Hi2];
    [|done|done|solve_fits].
  apply sys_ok_publish.
  - apply (ctl_frame_ok x0); [by apply set_slot_frame|done].
  - done.
Qed.

(** A pass of the receive loop does nothing, or publishes. *)
Lemma rx_step_publishes stk rxbuf len w w' : world_ok w → csr0_inv (csr0 w) →
  rx_step stk rxbuf len w = Ok w' → w' = w ∨ sys_ok w'.
Proof.
  intros Hw Hi. unfold rx_step. case_match; [|intros [= <-]; by left]. intros Hx. bind_inv Hx. injection Hx as <-.
  right. apply sys_ok_publish; [by eapply gotfunc_keeps|by eapply gotfunc_inv].
Qed.

Lemma rx_step_ok stk rxbuf len w w' : sys_ok w → rx_step stk rxbuf len w = Ok w' → sys_ok w'.
Proof. intros Hs Hx. destruct Hs as [Hw Hi Hp]. by destruct (rx_step_publishes _ _ _ _ _ Hw Hi Hx) as [->|]. Qed.

Lemma sys_step_ok stk w w' : sys_ok w → sys_step stk w w' → sys_ok w'.
Proof.
  intros Hs Hst. destruct Hst as [off v w|rap data w Hr Hd|w w' H|rxbuf len w w' _ H].
  - destruct Hs as [[] Hi Hp]. split; [split; try done; by apply window_ok_put_byte|done|].
    apply (published_ext w); try done; apply le_read_ext; intros b Hb; apply put_ram_byte_frame;
      unfold map_base, DDR3_BRAM_OFF, DDR3_CSR_OFF, DDR3_INT_OFF, RAM_SIZE in *; cbn in Hb; lia.
  - destruct Hs as [Hw Hi Hp]. pose proof (set_slot_frame DDR3_CMD_OFF (cmd_word rap data) w) as F.
    split; [by apply (ctl_frame_ok w), Hw; apply F|done|].
    apply (published_ext w); try done; apply slot_set_ne; slot_lia.
  - by apply (cmd_step_ok stk w).
  - by apply (rx_step_ok stk rxbuf len w).
Qed.

(** ** Lemmas: commands and addresses *)

Lemma cmd_word_fits rap data : fits 7 rap → fits 16 data → fits 64 (cmd_word rap data).
Proof.
  intros. unfold cmd_word. apply fits_lor; [lia|apply fits_lor; [lia|by split|]|].
  - apply fits_shiftl; [lia|lia|]. by apply (fits_mono 7).
  - apply fits_shiftl; [lia|lia|]. by apply (fits_mono 16).
Qed.

Lemma cmd_word_pending rap data : flag (cmd_word rap data) DDR3_CMD_PENDING_BIT = true.
Proof.
  unfold DDR3_CMD_PENDING_BIT. rewrite (flag_testbit 0 : ∀ x, _ → flag x 1 = Z.testbit x 0) by lia.
  unfold cmd_word. push_bits. done.
Qed.

Lemma cmd_word_rap rap data : fits 7 rap →
  Z.land (Z.shiftr (cmd_word rap data) DDR3_CMD_RAP_SHIFT) DDR3_CMD_RAP_MASK = rap.
Proof.
  intros Hr. apply (fits_bits_inj 7); [lia|apply fits_land_r; [lia|by split]|done|].
  intros i Hi. unfold cmd_word, DDR3_CMD_RAP_SHIFT. change DDR3_CMD_RAP_MASK with (Z.ones 7).
  push_bits. destruct (Z.ltb_spec i 7); [|lia]. rewrite (Z.testbit_neg_r data) by lia.
  rewrite (fits_testbit 1 1 (i + 1)) by (by split || lia).
  rewrite orb_false_r, andb_true_r. cbn [orb]. f_equal. lia.
Qed.

Lemma cmd_word_data rap data : fits 7 rap → fits 16 data →
  Z.land (Z.shiftr (cmd_word rap data) DDR3_CMD_DATA_SHIFT) DDR3_CMD_DATA_MASK = data.
Proof.
  intros Hr Hd. apply (fits_bits_inj 16); [lia|apply fits_land_r; [lia|by split]|done|].
  intros i Hi. unfold cmd_word, DDR3_CMD_DATA_SHIFT. change DDR3_CMD_DATA_MASK with (Z.ones 16).
  push_bits. destruct (Z.ltb_spec i 16); [|lia].
  rewrite (fits_testbit 1 1 (i + 8)) by (by split || lia).
  rewrite (fits_testbit 7 rap) by (done || lia). rewrite andb_true_r. cbn [orb]. f_equal. lia.
Qed.

Lemma mac_low_zero_iff m : Forall (fits 8) m → mac_low_is_zero m = true ↔
  nth 3 m 0 = 0 ∧ nth 4 m 0 = 0 ∧ nth 5 m 0 = 0.
Proof.
  intros Hm. unfold mac_low_is_zero. rewrite Z.eqb_eq, !Z.lor_eq_0_iff. tauto.
Qed.

Lemma derive_unique_low_ok host pid time m : length m = 6%nat →
  mac_low_is_zero (derive_unique_low host pid time m) = false.
Proof.
  intros Hm. unfold derive_unique_low. cbv zeta. case_match eqn:E; [|done].
  destruct m as [|? [|? [|? [|? [|? [|? [|]]]]]]]; try done. unfold mac_low_is_zero in *. cbn in *.
  apply Z.eqb_eq in E. rewrite !Z.lor_eq_0_iff in E. destruct E as [[-> ->] _]. done.
Qed.

Lemma default_mac_ok iface_mac eth0 host pid time :
  length iface_mac = 6%nat → Forall (fits 8) iface_mac →
  (∀ m, eth0 = Some m → length m = 6%nat ∧ Forall (fits 8) m) →
  length (default_mac iface_mac eth0 host pid time) = 6%nat ∧
  Forall (fits 8) (default_mac iface_mac eth0 host pid time).
Proof.
  intros Hl Hb He. split; [done|]. unfold default_mac. cbv zeta.
  set (r := if mac_low_is_zero iface_mac then _ else _).
  assert (Hr : Forall (fits 8) r).
  { unfold r, ethernet_read_iface_mac, derive_unique_low. cbv zeta.
    destruct (mac_low_is_zero iface_mac); [|done].
    assert (Hd : Forall (fits 8) (derive_unique_low host pid time iface_mac)).
    { unfold derive_unique_low. cbv zeta. case_match; repeat apply Forall_insert; auto;
        try (by split); solve_fits. }
    destruct eth0 as [m|]; [destruct (mac_low_is_zero m); [done|by apply (He m)]|done]. }
  do 6 (constructor; [first [by split | by apply nth_fits]|]). constructor.
Qed.

Lemma daemon_start_ok iface_mac eth0 host pid time w : world_ok w →
  length iface_mac = 6%nat → Forall (fits 8) iface_mac →
  (∀ m, eth0 = Some m → length m = 6%nat ∧ Forall (fits 8) m) →
  sys_ok (daemon_start iface_mac eth0 host pid time w).
Proof.
  intros Hw Hl Hb He. destruct (default_mac_ok iface_mac eth0 host pid time Hl Hb He) as [Ml Mb].
  unfold daemon_start. cbv zeta. set (w1 := set_slot DDR3_INT_OFF 0 _).
  assert (Hw1 : world_ok w1).
  { do 3 (eapply ctl_frame_ok; [by apply set_slot_frame|]). by destruct Hw. }
  destruct (registers_reset_ok w1 Hw1) as [Hw2 Hi2]. revert Hw2 Hi2.
  generalize (registers_reset w1). intros w2 Hw2 Hi2. apply sys_ok_publish.
  - eapply ctl_frame_ok; [by apply set_slot_frame|].
    unfold daemon_set_default_mac, registers_set_fakemac. cbv zeta. destruct Hw2. split; try done.
    destruct reg_ok. by split.
  - exact Hi2.
Qed.

(** ** Lemmas: a pass of a loop ends *)

Lemma on_transmit_fuel stk w : world_ok w → length stk = 4096%nat → Forall (fits 8) stk →
  on_transmit_cb stk w ≠ Err OutOfFuel.
Proof.
  intros. unfold on_transmit_cb. apply bind_fuel; [by apply do_transmit_fuel|]. by intros [].
Qed.

(** Read a word back through writes of this word and of others. *)
Ltac ram_readback :=
  repeat first [ rewrite ram_word_put_eq by (split; vm_compute; congruence)
               | rewrite ram_word_put_ne by (split; vm_compute; congruence) ]; reflexivity.

(** ** Doorbell properties *)

(** C1: From start-up on, as long as the passes of the two loops do not overlap, whatever
    the 68k writes to board RAM, whatever register writes the FPGA posts and whatever frames
    arrive between them, in any order: after every pass of the command loop and of the
    receive loop the chip state is well-formed, CSR0 is consistent, the CSR slot holds CSR0
    to CSR3 and the INT slot is 1 exactly when INTR and INEA are both set.  When passes
    overlap the chip stays well-formed ([doorbell_lock_safe]), but the INT slot can be wrong
    ([race_lost_interrupt]). *)
Theorem doorbell_invariant (stk iface_mac host : list Z) (eth0 : option (list Z)) (pid time : Z)
  (w w' : world) (Hw : world_ok w) (Hl : length iface_mac = 6%nat) (Hb : Forall (fits 8) iface_mac)
  (He : ∀ m, eth0 = Some m → length m = 6%nat ∧ Forall (fits 8) m)
  (Hrun : rtc (sys_step stk) (daemon_start iface_mac eth0 host pid time w) w') : sys_ok w'.
Proof.
  pose proof (daemon_start_ok iface_mac eth0 host pid time w Hw Hl Hb He) as Hs.
  induction Hrun as [|x y z Hxy _ IH]; [done|]. apply IH. by apply (sys_step_ok stk x).
Qed.

(** C4: A posted register write is executed as the 68k meant it: the pass of the command
    loop decodes the register number and the data from the CMD slot, performs exactly the
    RAP write and the RDP write, clears the slot, and publishes the resulting CSR0 to
    CSR3 and the interrupt line. *)
Theorem doorbell_executes (stk : list Z) (rap data : Z) (w w2 : world)
  (Hs : sys_ok w) (Hr : fits 7 rap) (Hd : fits 16 data)
  (Hexec : @chip_wputs _ (Some (on_transmit_cb stk)) (write_csr rap data)
             (set_slot DDR3_CMD_OFF (cmd_word rap data) w) = Ok w2) :
  ∃ w', cmd_step stk (set_slot DDR3_CMD_OFF (cmd_word rap data) w) = Ok w' ∧
    w_reg w' = w_reg w2 ∧ w_sent w' = w_sent w2 ∧ (∀ a, ram_byte w' a = ram_byte w2 a) ∧
    slot w' DDR3_CMD_OFF = 0 ∧ slot w' DDR3_INT_OFF = int_level (csr0 w2) ∧
    word_at 0 (slot w' DDR3_CSR_OFF) = csr0 w2 ∧
    ∀ k, 1 ≤ k ≤ 3 → word_at k (slot w' DDR3_CSR_OFF) = registers_csr k w2.
Proof.
  set (w0 := set_slot _ _ w) in *.
  assert (Hs0 : sys_ok w0) by (apply (sys_step_ok stk w); [done|by constructor]).
  assert (Hcmd : slot w0 DDR3_CMD_OFF = cmd_word rap data).
  { unfold w0. rewrite slot_set_eq. by apply u64_small, cmd_word_fits. }
  unfold cmd_step. rewrite Hcmd, cmd_word_pending, cmd_word_rap, cmd_word_data by done. cbv zeta.
  unfold write_csr, chip_wputs in Hexec. bind_inv Hexec. bind_inv Hexec. injection Hexec as ->.
  rewrite Hx. cbn [mbind res_bind]. rewrite Hx0. cbn [mbind res_bind]. eexists. split; [done|].
  pose proof (doorbell_tx_ok stk) as Htx. destruct Hs0 as [Hw0 Hi0 _].
  apply (@chip_wput_ok _ _ (Some (on_transmit_cb stk)) Htx) in Hx as [Hw1 Hi1];
    [|done|done|by apply (fits_mono 7)].
  apply (@chip_wput_ok _ _ (Some (on_transmit_cb stk)) Htx) in Hx0 as [Hw2 Hi2]; [|done..].
  set (w3 := set_slot DDR3_CMD_OFF 0 w2).
  assert (F3 : ctl_frame w2 w3) by (by apply set_slot_frame).
  assert (Hw3 : world_ok w3) by (by apply (ctl_frame_ok w2)).
  assert (F : ctl_frame w2 (on_interrupt_cb w3)) by (etransitivity; [apply F3|apply on_interrupt_frame]).
  destruct (on_interrupt_published w3 Hw3) as [P1 P2].
  rewrite ?(ctl_frame_registers_csr _ _ _ F), ?(ctl_frame_csr0 _ _ F) in P1, P2.
  fold (on_interrupt_cb w3).
  split; [apply F|]. split; [apply F|]. split; [intros; by apply ctl_frame_ram_byte|].
  split.
  { unfold on_interrupt_cb, update_int_state, push_csr_shadow.
    rewrite !slot_set_ne by slot_lia. unfold w3. by rewrite slot_set_eq. }
  split; [done|]. rewrite P1.
  destruct (pack_csrs_word (csr0 w2) (registers_csr 1 w2) (registers_csr 2 w2) (registers_csr 3 w2))
    as (E0 & E1 & E2 & E3); auto using registers_csr_fits, csr0_fits.
  split; [done|]. intros k Hk. assert (k = 1 ∨ k = 2 ∨ k = 3) as [->|[->| ->]] by lia; done.
Qed.

(** The published CSR0 is the raw register: when a frame was missed, [chip_wget]
    reports the summary bit ERR, but the CSR slot that the FPGA serves to the 68k does
    not contain it. *)
Theorem shadow_lacks_err (w : world) (Hs : sys_ok w) (Hrap : rap (w_reg w) = 0)
  (Hmiss : flag (csr0 w) CSR0_MISS = true) :
  flag (chip_wget A2065_RDP_OFF w) CSR0_ERR = true ∧
  flag (word_at 0 (slot w DDR3_CSR_OFF)) CSR0_ERR = false ∧
  chip_wget A2065_RDP_OFF w = Z.lor (word_at 0 (slot w DDR3_CSR_OFF)) CSR0_ERR.
Proof.
  destruct Hs as [Hw [[Hc _] _] [P1 _]]. rewrite P1.
  destruct (pack_csrs_word (csr0 w) (registers_csr 1 w) (registers_csr 2 w) (registers_csr 3 w))
    as (-> & _); auto using registers_csr_fits, csr0_fits.
  assert (E : chip_wget A2065_RDP_OFF w = Z.lor (csr0 w) CSR0_ERR).
  { unfold chip_wget. cbv zeta. cbn [Z.eqb A2065_RDP_OFF A2065_RAP_OFF]. rewrite Hrap.
    change (csr_at (Z.to_nat 0) (w_reg w)) with (csr0 w). cbn -[csr0 CSR0_ERRORS].
    replace (flag (csr0 w) CSR0_ERRORS) with true; [done|].
    unfold CSR0_ERRORS. rewrite !flag_lor, Hmiss. by rewrite orb_true_r. }
  rewrite E. split; [|split; [|done]].
  - flags_to_bits. by push_bits.
  - rewrite !flag_lor in Hc. by repeat (apply orb_false_elim in Hc as [Hc _]).
Qed.

(** The default station address is a Commodore address with a low half that is never
    zero, whether it comes from the selected interface, from eth0 or from the host-name
    hash; it is the interface's own low half when that is usable; and since both the
    station and the wire address are set to it, frames are not translated until a driver
    programs another station address. *)
Theorem default_mac_unique (iface_mac host : list Z) (eth0 : option (list Z)) (pid time : Z)
  (w : world) (Hl : length iface_mac = 6%nat) :
  let w' := daemon_set_default_mac iface_mac eth0 host pid time w in
  let mac := fakemac (w_reg w') in
  take 3 mac = [0x00; 0x80; 0x10] ∧ mac_low_is_zero mac = false ∧
  (mac_low_is_zero iface_mac = false → drop 3 mac = drop 3 iface_mac) ∧
  w_mac w' = Macs mac mac ∧
  ∀ packet len, 20 ≤ len → mungepacket (w_mac w') packet len = Ok (len, packet).
Proof.
  intros w' mac. unfold mac, w', daemon_set_default_mac, default_mac. cbv zeta. cbn [fakemac w_reg].
  split; [done|]. split.
  - change (mac_low_is_zero (if mac_low_is_zero iface_mac then
      match ethernet_read_iface_mac eth0 with Some fb => fb
      | None => derive_unique_low host pid time iface_mac end else iface_mac) = false).
    destruct (mac_low_is_zero iface_mac) eqn:E; [|done].
    destruct (ethernet_read_iface_mac eth0) as [fb|] eqn:E0; [|by apply derive_unique_low_ok].
    unfold ethernet_read_iface_mac in E0. repeat case_match; congruence.
  - split; [|split; [done|]].
    + intros E. cbn -[mac_low_is_zero]. rewrite E.
      by destruct iface_mac as [|? [|? [|? [|? [|? [|? [|]]]]]]].
    + intros packet len Hlen. unfold mungepacket. destruct (Z.ltb_spec len 20); [lia|].
      match goal with |- context [bytes_eqb ?a ?b] => by destruct (bytes_eqb_spec a b) end.
Qed.

(** The board RAM self-test passes on every window: it reports no failure, whatever
    the memory held before. *)
Theorem test_boardram_passes (w : world) : (test_boardram w).1 = false.
Proof.
  unfold test_boardram. cbv zeta. cbn [fst].
  set (w5 := put_word 0x0102 0x5555 _).
  assert (E1 : ram_word w5 0x0000 = 0xDEAD) by (unfold w5; ram_readback).
  assert (E2 : ram_word w5 0x0002 = 0xBEEF) by (unfold w5; ram_readback).
  assert (E3 : ram_word w5 0x7FFE = 0x1234) by (unfold w5; ram_readback).
  assert (E4 : ram_word w5 0x0100 = 0xAAAA) by (unfold w5; ram_readback).
  assert (E5 : ram_word w5 0x0102 = 0x5555) by (unfold w5; ram_readback).
  rewrite E1, E2, E3, E4, E5. clearbody w5. cbn [negb Z.eqb Pos.eqb orb].
  unfold ram_word, get_ram_word. cbn [w_win w_boardram set_w_win]. rewrite !get_put_byte.
  by rewrite (decide_False (P := Ram68k.addr 0x0201 = Ram68k.addr 0x0200)), !decide_True by done.
Qed.

(** C33: Every pass of the command loop and of the receive loop ends: no register write, no
    ring contents and no frame makes the daemon run out of the bounds chosen for its
    loops. *)
Theorem doorbell_total (stk rxbuf : list Z) (len : Z) (w : world) (Hs : sys_ok w)
  (Hl : length stk = 4096%nat) (Hb : Forall (fits 8) stk) (Hrx : Forall (fits 8) rxbuf) :
  cmd_step stk w ≠ Err OutOfFuel ∧ rx_step stk rxbuf len w ≠ Err OutOfFuel.
Proof.
  destruct Hs as [Hw Hi _]. split.
  - unfold cmd_step. case_match; [|done]. cbv zeta. pose proof (doorbell_tx_ok stk) as Htx.
    assert (Hf : ∀ off v u, world_ok u → fits 16 v →
      @chip_wput _ (Some (on_transmit_cb stk)) off v u ≠ Err OutOfFuel).
    { intros off v u Hu Hv. apply chip_wput_fuel; [done|done|]. intros f u' [= <-] Hu'.
      by apply on_transmit_fuel. }
    apply bind_fuel; [apply Hf; [done|solve_fits]|]. intros w1 H1.
    apply (@chip_wput_ok _ _ (Some (on_transmit_cb stk)) Htx) in H1 as [Hw1 _];
      [|done|done|solve_fits].
    apply bind_fuel; [apply Hf; [done|solve_fits]|done].
  - unfold rx_step. case_match; [|done]. apply bind_fuel; [by apply gotfunc_fuel|done].
Qed.

(** ** Examples *)

Definition ex_boot : world := boot_world ex_macs ∅.
Definition ex_started : world :=
  daemon_start [2; 0; 0; 1; 2; 3] None [109; 105; 115; 116; 101; 114] 4242 1700000000 ex_boot.
Definition ex_stack : list Z := replicate 4096 0.

Lemma ex_boot_ok : world_ok ex_boot.
Proof. apply boot_world_ok; [apply ex_macs_ok|apply window_ok_empty]. Qed.

Lemma ex_started_ok : sys_ok ex_started.
Proof. by apply daemon_start_ok; [apply ex_boot_ok|done|apply bytesb_Forall|]. Qed.

Lemma doorbell_invariant_witness : ∃ w',
  cmd_step ex_stack (set_slot DDR3_CMD_OFF (cmd_word 0 CSR0_INEA) ex_started) = Ok w' ∧ sys_ok w'.
Proof.
  destruct (is_ok_Ok (cmd_step ex_stack (set_slot DDR3_CMD_OFF (cmd_word 0 CSR0_INEA) ex_started)))
    as [w' E]; [by vm_compute|].
  exists w'. split; [exact E|].
  apply (doorbell_invariant ex_stack [2; 0; 0; 1; 2; 3] [109; 105; 115; 116; 101; 114] None 4242
    1700000000 ex_boot w'); [apply ex_boot_ok|done|by apply bytesb_Forall|done|].
  fold ex_started. eapply rtc_l; [apply (sys_post ex_stack 0 CSR0_INEA); by split|].
  eapply rtc_l; [apply sys_cmd, E|apply rtc_refl].
Defined.

Lemma doorbell_executes_witness : ∃ w2 w',
  cmd_step ex_stack (set_slot DDR3_CMD_OFF (cmd_word 0 CSR0_INEA) ex_started) = Ok w' ∧
  w_reg w' = w_reg w2 ∧ slot w' DDR3_CMD_OFF = 0.
Proof.
  destruct (is_ok_Ok (@chip_wputs _ (Some (on_transmit_cb ex_stack)) (write_csr 0 CSR0_INEA)
    (set_slot DDR3_CMD_OFF (cmd_word 0 CSR0_INEA) ex_started))) as [w2 E]; [by vm_compute|].
  destruct (doorbell_executes ex_stack 0 CSR0_INEA ex_started w2) as (w' & H1 & H2 & _ & _ & H3 & _);
    [apply ex_started_ok|by split|by split|exact E|].
  exists w2, w'. split; [exact H1|]. split; [exact H2|exact H3].
Defined.

(** A running card that has missed a frame. *)
Definition ex_missed : world :=
  on_interrupt_cb (set_csr0 (Z.lor (Z.lor CSR0_RUNNING CSR0_MISS) CSR0_INTR) ex_boot).

Lemma ex_missed_ok : sys_ok ex_missed.
Proof.
  apply sys_ok_publish; [|by vm_compute].
  apply world_ok_set_csr0; [apply ex_boot_ok|by split|by vm_compute].
Qed.

Lemma shadow_lacks_err_witness :
  flag (chip_wget A2065_RDP_OFF ex_missed) CSR0_ERR = true ∧
  flag (word_at 0 (slot ex_missed DDR3_CSR_OFF)) CSR0_ERR = false.
Proof.
  destruct (shadow_lacks_err ex_missed) as (H1 & H2 & _); [apply ex_missed_ok|done|done|].
  split; [exact H1|exact H2].
Defined.

Lemma default_mac_unique_witness :
  mac_low_is_zero (fakemac (w_reg (daemon_set_default_mac [0; 0; 0; 0; 0; 0] None [97] 1 2 ex_boot)))
  = false.
Proof. by apply (default_mac_unique [0; 0; 0; 0; 0; 0] [97] None 1 2 ex_boot). Defined.

Lemma doorbell_total_witness : cmd_step ex_stack ex_started ≠ Err OutOfFuel.
Proof.
  apply (doorbell_total ex_stack [] 0 ex_started);
    [apply ex_started_ok|done|apply Forall_zeros|constructor].
Defined.
