(* ===== verification/Remote.v ===== *)
(** * Board RAM behind the mailbox (arm/src/boardram_remote.cpp)

    In the mailbox build the board RAM lives in the FPGA; every access is a request in
    the RAM_REQ slot of the shared window that the FPGA's adapter answers in RAM_RSP.
    The adapter's source is not part of the repository: it is the parameter [fpga], what
    happens to the window and to the adapter's own state between two accesses of the
    daemon, and [RamPeer] states what DESIGN.md documents of it.  [reg_service_cb] is the
    callback that serves register requests while a transfer waits. *)

From S2P Require Import Prelude Types Window.

Definition MBX_RAM_REQ : Z := 0x8010.
Definition MBX_RAM_RSP : Z := 0x8018.

(** The unit's [map] pointer (null or not), the window behind it, and the rest: the
    adapter's state and whatever the callback touches. *)
Record mbx (E : Type) := Mbx {
  m_map : bool;
  m_win : window;
  m_env : E }.
Arguments Mbx {E}.
Arguments m_map {E}.
Arguments m_win {E}.
Arguments m_env {E}.

(** The number of polls of one attempt. *)
Definition POLLS : nat := Z.to_nat 10000.

Section transfer.
Context {E : Type} (fpga : mbx E → mbx E) (reg_service_cb : option (mbx E → mbx E)).
Implicit Types m : mbx E.

(** The unit's [rd64] and [wr64]. *)
Definition mbx_rd64 (off : Z) m : Z := rd64 (m_win m) off.
Definition mbx_wr64 (off val : Z) m : mbx E := Mbx (m_map m) (wr64 (m_win m) off val) (m_env m).

Definition boardram_remote_init m : mbx E := Mbx true (m_win m) (m_env m).

(** [1 | write << 1 | (off & 0x7FFE) << 2 | wdata << 17] *)
Definition ram_req (off write wdata : Z) : Z :=
  Z.lor (Z.lor (Z.lor 1 (Z.shiftl write 1)) (Z.shiftl (Z.land off 0x7FFE) 2)) (Z.shiftl wdata 17).

(** The inner loop: poll RAM_RSP, [n] polls left. *)
Fixpoint xfer_poll (n : nat) m : option Z * mbx E :=
  match n with
  | O => (None, m)
  | S n =>
      let m := fpga m in
      let rsp := mbx_rd64 MBX_RAM_RSP m in
      if flag rsp 1 then
        let m := mbx_wr64 MBX_RAM_RSP 0 (fpga m) in
        let m := mbx_wr64 MBX_RAM_REQ 0 (fpga m) in
        (Some (u16 (Z.shiftr rsp 1)), m)
      else xfer_poll n (match reg_service_cb with Some cb => cb m | None => m end)
  end.

(** The outer loop: post the request and poll, [n] attempts left. *)
Fixpoint xfer_attempt (n : nat) (req : Z) m : option Z * mbx E :=
  match n with
  | O => (None, m)
  | S n =>
      match xfer_poll POLLS (mbx_wr64 MBX_RAM_REQ req (fpga m)) with
      | (Some v, m) => (Some v, m)
      | (None, m) => xfer_attempt n req m
      end
  end.

Definition boardram_xfer (off write wdata : Z) m : Z * mbx E :=
  if negb (m_map m) then (0xFFFF, m)
  else
    match xfer_attempt 3 (ram_req off write wdata) m with
    | (Some v, m) => (v, m)
    | (None, m) => (0xFFFF, mbx_wr64 MBX_RAM_REQ 0 (fpga m))
    end.

Definition boardram_rb (off : Z) m : Z * mbx E :=
  let '(w, m) := boardram_xfer (Z.land off 0x7FFE) 0 0 m in
  (if flag off 1 then u8 (Z.land w 0xFF) else u8 (Z.shiftr w 8), m).

Definition boardram_rw (off : Z) m : Z * mbx E := boardram_xfer (Z.land off 0x7FFE) 0 0 m.

Definition boardram_wb (off val : Z) m : mbx E :=
  let '(old, m) := boardram_xfer (Z.land off 0x7FFE) 0 0 m in
  let nw := if flag off 1 then Z.lor (Z.land old 0xFF00) val
            else Z.lor (Z.shiftl val 8) (Z.land old 0x00FF) in
  (boardram_xfer (Z.land off 0x7FFE) 1 (u16 nw) m).2.

Definition boardram_ww (off val : Z) m : mbx E :=
  (boardram_xfer (Z.land off 0x7FFE) 1 val m).2.

(** ** The accessors of boardram_access.h in the mailbox build *)

Definition remote_get_byte (off : Z) m : Z * mbx E := boardram_rb (Z.land off RAM_MASK) m.
Definition remote_get_word (off : Z) m : Z * mbx E := boardram_rw (Z.land off RAM_MASK) m.
Definition remote_put_byte (off v : Z) m : mbx E := boardram_wb (Z.land off RAM_MASK) v m.
Definition remote_put_word (off v : Z) m : mbx E := boardram_ww (Z.land off RAM_MASK) v m.

Fixpoint remote_read_block (off : Z) (len : nat) m : list Z * mbx E :=
  match len with
  | O => ([], m)
  | S n =>
      let '(b, m) := boardram_rb (Z.land off RAM_MASK) m in
      let '(bs, m) := remote_read_block (off + 1) n m in
      (b :: bs, m)
  end.

Fixpoint remote_write_block (off : Z) (src : list Z) m : mbx E :=
  match src with
  | [] => m
  | v :: src => remote_write_block (off + 1) src (boardram_wb (Z.land off RAM_MASK) v m)
  end.

(** ** The self-test of main_ddr3.cpp *)

Fixpoint remote_writes (l : list (Z * Z)) m : mbx E :=
  match l with [] => m | (off, v) :: l => remote_writes l (boardram_ww off v m) end.

(** Read each offset back; whether a value differs. *)
Fixpoint remote_verify (l : list (Z * Z)) m : bool * mbx E :=
  match l with
  | [] => (false, m)
  | (off, v) :: l =>
      let '(x, m) := boardram_rw off m in
      let '(f, m) := remote_verify l m in
      (negb (x =? v) || f, m)
  end.

Definition remote_patterns : list (Z * Z) :=
  [(0x0000, 0xDEAD); (0x0002, 0xBEEF); (0x7FFE, 0x1234); (0x0100, 0xAAAA); (0x0102, 0x5555)].

Definition remote_test_boardram m : bool * mbx E :=
  let m := remote_writes remote_patterns m in
  let '(f, m) := remote_verify remote_patterns m in
  let m := boardram_ww 0x0200 0x0000 m in
  let m := boardram_wb 0x0200 0xCA m in
  let m := boardram_wb 0x0201 0xFE m in
  let '(f', m) := remote_verify [(0x0200, 0xCAFE)] m in
  (f || f', m).
End transfer.

(** ** What the adapter promises *)

(** A request as the adapter sees it, and the stages of a transfer. *)
Inductive phase :=
| Idle                                     (* nothing asked, nothing answered *)
| Busy (patience : nat) (off write wdata : Z)  (* asked; answers within [patience] polls *)
| Answered                                 (* RAM_RSP says ready *)
| Acked.                                   (* RAM_RSP cleared, RAM_REQ not yet *)

(** Memories are compared byte by byte. *)
Definition mem_eq : relation (Z → Z) := pointwise_relation Z eq.

#[export] Instance load8_proper : Proper (mem_eq ==> eq ==> eq) Ram68k.load8.
Proof. intros m m' Hm o o' <-. apply Hm. Qed.
#[export] Instance load16_proper : Proper (mem_eq ==> eq ==> eq) Ram68k.load16.
Proof. intros m m' Hm o o' <-. unfold Ram68k.load16. by rewrite Hm. Qed.
#[export] Instance store8_proper : Proper (mem_eq ==> eq ==> eq ==> mem_eq) Ram68k.store8.
Proof. intros m m' Hm o o' <- v v' <- a. unfold Ram68k.store8. by case_match. Qed.
#[export] Instance store16_proper : Proper (mem_eq ==> eq ==> eq ==> mem_eq) Ram68k.store16.
Proof. intros m m' Hm o o' <- v v' <-. unfold Ram68k.store16. by rewrite Hm. Qed.

(** Blocks of the card's memory. *)
Fixpoint load_block (r : Z → Z) (off : Z) (n : nat) : list Z :=
  match n with O => [] | S n => Ram68k.load8 r off :: load_block r (off + 1) n end.
Fixpoint store_block (r : Z → Z) (off : Z) (src : list Z) : Z → Z :=
  match src with [] => r | v :: src => store_block (Ram68k.store8 r off v) (off + 1) src end.

Lemma load_block_proper r r' off n : mem_eq r r' → load_block r off n = load_block r' off n.
Proof. intros Hr. revert off. induction n; intros; cbn; [done|]. f_equal; [by rewrite Hr|auto]. Qed.

Lemma store_block_proper r r' off src : mem_eq r r' →
  mem_eq (store_block r off src) (store_block r' off src).
Proof. revert r r' off. induction src as [|v src IH]; intros; cbn; [done|]. apply IH. by rewrite H. Qed.

Section peer.
Context {E : Type}.

Definition rsp_ready (m : mbx E) : bool := flag (mbx_rd64 MBX_RAM_RSP m) 1.

(** DESIGN.md: a pending RAM_REQ (bit 0, bit 1 the direction, bits 16:2 the offset, bits
    32:17 the data) is picked up, performed on the 32 KB of big-endian words, and answered
    in RAM_RSP (bit 0, the word read in bits 16:1); the adapter works on a request once,
    and takes the next after it has seen the slot free.  The callback leaves the two
    slots and the memory alone. *)
Class RamPeer (fpga : mbx E → mbx E) (cb : option (mbx E → mbx E)) := {
  peer_ram : E → Z → Z;
  peer_at : phase → mbx E → Prop;
  peer_ram_byte e a : fits 8 (peer_ram e a);
  peer_mapped p m : peer_at p m → m_map m = true;
  peer_rest p m : peer_at p m → p = Idle ∨ p = Answered ∨ p = Acked →
    peer_at p (fpga m) ∧ mem_eq (peer_ram (m_env (fpga m))) (peer_ram (m_env m));
  peer_post m off write wdata : peer_at Idle m →
    fits 15 off → Z.land off 1 = 0 → write = 0 ∨ write = 1 → fits 16 wdata →
    ∃ n, (n < POLLS)%nat ∧
      peer_at (Busy n off write wdata) (mbx_wr64 MBX_RAM_REQ (ram_req off write wdata) (fpga m));
  peer_busy n off write wdata m : peer_at (Busy n off write wdata) m →
    (∃ k, n = S k ∧ rsp_ready (fpga m) = false ∧ peer_at (Busy k off write wdata) (fpga m) ∧
       mem_eq (peer_ram (m_env (fpga m))) (peer_ram (m_env m)))
    ∨ (peer_at Answered (fpga m) ∧ rsp_ready (fpga m) = true ∧
       if write =? 0 then
         Z.land (Z.shiftr (mbx_rd64 MBX_RAM_RSP (fpga m)) 1) 0xFFFF
           = Ram68k.load16 (peer_ram (m_env m)) off ∧
         mem_eq (peer_ram (m_env (fpga m))) (peer_ram (m_env m))
       else mem_eq (peer_ram (m_env (fpga m))) (Ram68k.store16 (peer_ram (m_env m)) off wdata));
  peer_service f n off write wdata m : cb = Some f → peer_at (Busy n off write wdata) m →
    peer_at (Busy n off write wdata) (f m) ∧ mem_eq (peer_ram (m_env (f m))) (peer_ram (m_env m));
  peer_ack m : peer_at Answered m → peer_at Acked (mbx_wr64 MBX_RAM_RSP 0 m);
  peer_release m : peer_at Acked m → peer_at Idle (mbx_wr64 MBX_RAM_REQ 0 m) }.
End peer.

(** ** Lemmas: words and their bytes *)

Lemma word_land_low h l : fits 8 h → fits 8 l → Z.land (h * 256 + l) 0xFF = l.
Proof.
  intros Hh Hl. change 0xFF with (Z.ones 8). rewrite Z.land_ones by lia.
  symmetry. apply Z.mod_unique_pos with h; [done|lia].
Qed.

Lemma word_land_high h l : fits 8 h → fits 8 l → Z.land (h * 256 + l) 0xFF00 = h * 256.
Proof.
  intros Hh Hl. rewrite <-(word_of_bytes h l Hh Hl).
  replace (h * 256) with (Z.shiftl h 8) by (rewrite Z.shiftl_mul_pow2; lia).
  apply Z.bits_inj'. intros i Hi. push_bits.
  change 0xFF00 with (Z.shiftl (Z.ones 8) 8). rewrite shiftl_testbit by lia.
  destruct (decide (i < 8)); [by rewrite (Z.testbit_neg_r h), (Z.testbit_neg_r (Z.ones 8)), andb_false_r by lia|].
  rewrite (fits_testbit 8 l i), orb_false_r, ones_testbit by (done || lia).
  destruct (Z.ltb_spec (i - 8) 8); [by rewrite andb_true_r|].
  by rewrite (fits_testbit 8 h) by (done || lia).
Qed.

Lemma word_replace_low h l v : fits 8 h → fits 8 l → fits 8 v →
  Z.lor (Z.land (h * 256 + l) 0xFF00) v = h * 256 + v.
Proof.
  intros. rewrite word_land_high, <-(word_of_bytes h v) by done. f_equal.
  rewrite Z.shiftl_mul_pow2; lia.
Qed.

Lemma word_replace_high h l v : fits 8 h → fits 8 l → fits 8 v →
  Z.lor (Z.shiftl v 8) (Z.land (h * 256 + l) 0xFF) = v * 256 + l.
Proof. intros. by rewrite word_land_low, word_of_bytes. Qed.

(** The word that holds the byte [off] starts at [off & 0x7FFE]. *)
Lemma aligned_fits off : fits 15 (Z.land off 0x7FFE).
Proof. apply fits_land_r; [lia|by split]. Qed.

Lemma aligned_even off : Z.land (Z.land off 0x7FFE) 1 = 0.
Proof. rewrite <-Z.land_assoc. apply Z.land_0_r. Qed.

Lemma aligned_twice off : Z.land (Z.land off RAM_MASK) 0x7FFE = Z.land off 0x7FFE.
Proof. by rewrite <-Z.land_assoc. Qed.

Lemma flag_masked off : flag (Z.land off RAM_MASK) 1 = flag off 1.
Proof. unfold flag. by rewrite <-Z.land_assoc. Qed.

Lemma addr_aligned off :
  Ram68k.addr off = Z.land off 0x7FFE + if flag off 1 then 1 else 0.
Proof.
  unfold Ram68k.addr. rewrite <-Z.land_ones by lia. change (Z.ones 15) with (Z.lor 0x7FFE 1).
  rewrite Z.land_lor_distr_r, <-Z.add_nocarry_lor.
  - f_equal. unfold flag. change 1 with (Z.ones 1) at 1 2. rewrite !Z.land_ones by lia.
    pose proof (Z.mod_pos_bound off (2 ^ 1)). destruct (Z.eqb_spec (off mod 2 ^ 1) 0); simpl; lia.
  - by rewrite (Z.land_comm off 1), Z.land_assoc, aligned_even.
Qed.

Lemma addr_aligned_word off d : 0 ≤ d ≤ 1 →
  Ram68k.addr (Z.land off 0x7FFE + d) = Z.land off 0x7FFE + d.
Proof.
  intros Hd. apply Z.mod_small. pose proof (aligned_fits off) as [H1 H2].
  pose proof (aligned_even off) as H3. change 1 with (Z.ones 1) in H3.
  rewrite Z.land_ones in H3 by lia. pose proof (Z.div_mod (Z.land off 0x7FFE) (2 ^ 1)). lia.
Qed.

(** ** Lemmas: a transfer *)

Section correct.
Context {E : Type} {fpga : mbx E → mbx E} {cb : option (mbx E → mbx E)} `{!RamPeer fpga cb}.
Implicit Types m : mbx E.

(** The memory behind the mailbox. *)
Definition ram_of m : Z → Z := peer_ram (m_env m).

(** What a finished transfer has done, from the memory [r] it started with. *)
Definition xfer_done (off write wdata : Z) (r : Z → Z) (v : Z) m : Prop :=
  peer_at Idle m ∧
  if write =? 0 then v = Ram68k.load16 r off ∧ mem_eq (ram_of m) r
  else mem_eq (ram_of m) (Ram68k.store16 r off wdata).

#[local] Instance mem_eq_equiv : Equivalence mem_eq.
Proof. unfold mem_eq. apply _. Qed.

(** The reply is read, both slots are cleared, the adapter is idle again. *)
Lemma xfer_close off write wdata r v m :
  peer_at Answered m →
  (if write =? 0 then v = Ram68k.load16 r off ∧ mem_eq (ram_of m) r
   else mem_eq (ram_of m) (Ram68k.store16 r off wdata)) →
  xfer_done off write wdata r v
    (mbx_wr64 MBX_RAM_REQ 0 (fpga (mbx_wr64 MBX_RAM_RSP 0 (fpga m)))).
Proof.
  intros Ha Hr. destruct (peer_rest _ _ Ha) as [Ha1 R1]; [by auto|].
  pose proof (peer_ack _ Ha1) as Hc. destruct (peer_rest _ _ Hc) as [Hc1 R2]; [by auto|].
  cbn [m_env mbx_wr64] in R2. split; [by apply peer_release|].
  assert (R : mem_eq (ram_of (mbx_wr64 MBX_RAM_REQ 0 (fpga (mbx_wr64 MBX_RAM_RSP 0 (fpga m)))))
    (ram_of m)) by (unfold ram_of; cbn [m_env mbx_wr64]; by rewrite R2, R1).
  destruct (write =? 0); [destruct Hr; split; [done|]|]; by rewrite R.
Qed.

Lemma service_keeps o n off write wdata m : o = cb → peer_at (Busy n off write wdata) m →
  let m' := match o with Some f => f m | None => m end in
  peer_at (Busy n off write wdata) m' ∧ mem_eq (ram_of m') (ram_of m).
Proof. destruct o as [f|]; intros Eo Hb; [by apply peer_service|by split]. Qed.

Lemma xfer_poll_done k n off write wdata r m : (n < k)%nat →
  peer_at (Busy n off write wdata) m → mem_eq (ram_of m) r →
  ∃ v m', xfer_poll fpga cb k m = (Some v, m') ∧ xfer_done off write wdata r v m'.
Proof.
  revert n m. induction k as [|k IH]; intros n m Hn Hb Hr; [lia|]. cbn [xfer_poll]. cbv zeta.
  destruct (peer_busy _ _ _ _ _ Hb) as [(j & -> & Hrdy & Hb' & R) | (Ha & Hrdy & Hres)];
    unfold rsp_ready in Hrdy; rewrite Hrdy.
  - assert (Hr' : mem_eq (ram_of (fpga m)) r) by (unfold ram_of in *; by rewrite R).
    destruct (service_keeps cb _ _ _ _ _ eq_refl Hb') as [Hb'' R'].
    apply (IH j); [lia|done|]. by rewrite R'.
  - do 2 eexists. split; [reflexivity|]. apply xfer_close; [done|]. unfold ram_of in *.
    destruct (write =? 0).
    + destruct Hres as [Hv R]. rewrite R. split; [|done]. rewrite <-Hr, <-Hv.
      change 0xFFFF with (Z.ones 16). by rewrite Z.land_ones by lia.
    + by rewrite Hres, Hr.
Qed.

Lemma boardram_xfer_done off write wdata m : peer_at Idle m →
  fits 15 off → Z.land off 1 = 0 → write = 0 ∨ write = 1 → fits 16 wdata →
  xfer_done off write wdata (ram_of m) (boardram_xfer fpga cb off write wdata m).1
    (boardram_xfer fpga cb off write wdata m).2.
Proof.
  intros Hi Ho He Hw Hd. unfold boardram_xfer. rewrite (peer_mapped _ _ Hi). cbn [negb].
  destruct (peer_post m off write wdata Hi Ho He Hw Hd) as (n & Hn & Hb).
  destruct (peer_rest _ _ Hi) as [_ R]; [by auto|].
  destruct (xfer_poll_done POLLS n off write wdata (ram_of m) _ Hn Hb R) as (v & m' & E1 & E2).
  cbn [xfer_attempt]. by rewrite E1.
Qed.

(** Writing one byte of a word through a read of the other is a byte store. *)
Lemma store_half r off v nw : (∀ a, fits 8 (r a)) → fits 8 v →
  let e := Z.land off 0x7FFE in
  nw = (if flag off 1 then Z.lor (Z.land (Ram68k.load16 r e) 0xFF00) v
        else Z.lor (Z.shiftl v 8) (Z.land (Ram68k.load16 r e) 0x00FF)) →
  fits 16 nw ∧ mem_eq (Ram68k.store16 r e nw) (Ram68k.store8 r off v).
Proof.
  intros Hr Hv e ->. pose proof (addr_aligned_word off 0) as A0. pose proof (addr_aligned_word off 1) as A1.
  pose proof (addr_aligned off) as A. rewrite Z.add_0_r in A0. fold e in A, A0, A1.
  unfold Ram68k.load16, Ram68k.load8. rewrite A0, A1 by lia.
  pose proof (Hr e) as Hh. pose proof (Hr (e + 1)) as Hl.
  assert (Hu : ∀ x y, fits 8 x → fits 8 y → fits 16 (x * 256 + y) ∧ u8 ((x * 256 + y) / 256) = x
    ∧ u8 (x * 256 + y) = y).
  { intros x y Hx Hy. unfold fits in *. split; [lia|]. split.
    - rewrite Z.div_add_l, Z.div_small, Z.add_0_r by lia. by apply u8_small.
    - symmetry. apply Z.mod_unique_pos with x; lia. }
  unfold mem_eq, pointwise_relation, Ram68k.store16, Ram68k.store8.
  rewrite A0, A1, A by lia. destruct (flag off 1).
  - rewrite word_replace_low by done. destruct (Hu (r e) v Hh Hv) as (H1 & H2 & H3).
    split; [done|]. intros a. rewrite H2, H3.
    destruct (Z.eqb_spec a (e + 1)); [by rewrite u8_small|]. by destruct (Z.eqb_spec a e) as [->|].
  - rewrite word_replace_high by done. destruct (Hu v (r (e + 1)) Hv Hl) as (H1 & H2 & H3).
    split; [done|]. intros a. rewrite H2, H3, Z.add_0_r.
    destruct (Z.eqb_spec a (e + 1)) as [->|].
    + by destruct (Z.eqb_spec (e + 1) e); [lia|].
    + destruct (Z.eqb_spec a e); [by rewrite u8_small|done].
Qed.

Lemma load_half r off : (∀ a, fits 8 (r a)) →
  let w := Ram68k.load16 r (Z.land off 0x7FFE) in
  (if flag off 1 then u8 (Z.land w 0xFF) else u8 (Z.shiftr w 8)) = Ram68k.load8 r off.
Proof.
  intros Hr w. unfold w, Ram68k.load16, Ram68k.load8.
  pose proof (addr_aligned_word off 0) as A0. rewrite Z.add_0_r in A0.
  rewrite A0, addr_aligned_word, (addr_aligned off) by lia. destruct (flag off 1).
  - rewrite word_land_low by done. by apply u8_small.
  - pose proof (Hr (Z.land off 0x7FFE)). pose proof (Hr (Z.land off 0x7FFE + 1)).
    unfold fits in *. rewrite Z.add_0_r, Z.shiftr_div_pow2, Z.div_add_l, Z.div_small, Z.add_0_r by lia.
    by apply u8_small.
Qed.

(** The accessors, from an idle mailbox. *)

Lemma remote_get_byte_ok off m : peer_at Idle m →
  let '(v, m') := remote_get_byte fpga cb off m in
  v = Ram68k.load8 (ram_of m) off ∧ peer_at Idle m' ∧ mem_eq (ram_of m') (ram_of m).
Proof.
  intros Hi. unfold remote_get_byte, boardram_rb. rewrite aligned_twice, flag_masked.
  destruct (boardram_xfer_done (Z.land off 0x7FFE) 0 0 m) as [Hi' [Hv R]];
    auto using aligned_fits, aligned_even; [by split|].
  destruct (boardram_xfer _ _ _ _ _ m) as [w m']. cbn [fst snd] in *. subst w.
  split; [apply load_half, peer_ram_byte|done].
Qed.

Lemma remote_get_word_ok off m : peer_at Idle m → Z.land off 1 = 0 →
  let '(v, m') := remote_get_word fpga cb off m in
  v = Ram68k.load16 (ram_of m) off ∧ peer_at Idle m' ∧ mem_eq (ram_of m') (ram_of m).
Proof.
  intros Hi He. unfold remote_get_word, boardram_rw. rewrite aligned_twice.
  destruct (boardram_xfer_done (Z.land off 0x7FFE) 0 0 m) as [Hi' [Hv R]];
    auto using aligned_fits, aligned_even; [by split|].
  destruct (boardram_xfer _ _ _ _ _ m) as [w m']. cbn [fst snd] in *. subst w.
  split; [|done]. unfold Ram68k.load16, Ram68k.load8. pose proof (addr_aligned off) as A.
  unfold flag in A. rewrite He in A. cbn in A. rewrite Z.add_0_r in A.
  unfold Ram68k.addr in *. by rewrite <-A, Zplus_mod_idemp_l, Z.mod_mod.
Qed.

Lemma remote_put_byte_ok off v m : peer_at Idle m → fits 8 v →
  let m' := remote_put_byte fpga cb off v m in
  peer_at Idle m' ∧ mem_eq (ram_of m') (Ram68k.store8 (ram_of m) off v).
Proof.
  intros Hi Hv. unfold remote_put_byte, boardram_wb. rewrite aligned_twice, flag_masked.
  destruct (boardram_xfer_done (Z.land off 0x7FFE) 0 0 m) as [Hi' [Hw R]];
    auto using aligned_fits, aligned_even; [by split|].
  destruct (boardram_xfer _ _ _ _ _ m) as [w m1]. cbn [fst snd] in *. subst w.
  destruct (store_half (ram_of m) off v _ (λ a, peer_ram_byte _ a) Hv eq_refl) as [Hf S]. cbv zeta.
  rewrite u16_small by done.
  match goal with |- context [boardram_xfer _ _ _ 1 ?x m1] =>
    destruct (boardram_xfer_done (Z.land off 0x7FFE) 1 x m1) as [Hi2 R2];
      auto using aligned_fits, aligned_even end.
  split; [done|]. cbn [Z.eqb] in R2. by rewrite R2, R.
Qed.

Lemma remote_put_word_ok off v m : peer_at Idle m → Z.land off 1 = 0 → fits 16 v →
  let m' := remote_put_word fpga cb off v m in
  peer_at Idle m' ∧ mem_eq (ram_of m') (Ram68k.store16 (ram_of m) off v).
Proof.
  intros Hi He Hv. unfold remote_put_word, boardram_ww. rewrite aligned_twice.
  destruct (boardram_xfer_done (Z.land off 0x7FFE) 1 v m) as [Hi' R];
    auto using aligned_fits, aligned_even.
  split; [done|]. cbn [Z.eqb] in R. rewrite R. intros a.
  unfold Ram68k.store16, Ram68k.store8. pose proof (addr_aligned off) as A.
  unfold flag in A. rewrite He in A. cbn in A. rewrite Z.add_0_r in A.
  unfold Ram68k.addr in *. by rewrite <-A, Zplus_mod_idemp_l, Z.mod_mod.
Qed.

Lemma remote_read_block_ok off n m : peer_at Idle m →
  let '(bs, m') := remote_read_block fpga cb off n m in
  bs = load_block (ram_of m) off n ∧ peer_at Idle m' ∧ mem_eq (ram_of m') (ram_of m).
Proof.
  revert off m. induction n as [|n IH]; intros off m Hi; cbn [remote_read_block load_block]; [done|].
  pose proof (remote_get_byte_ok off m Hi) as H1. unfold remote_get_byte in H1.
  destruct (boardram_rb _ _ _ m) as [b m1]. destruct H1 as (-> & Hi1 & R1).
  specialize (IH (off + 1) m1 Hi1). destruct (remote_read_block _ _ _ n m1) as [bs m2].
  destruct IH as (-> & Hi2 & R2). split; [|split; [done|by rewrite R2]]. f_equal.
  by apply load_block_proper.
Qed.

Lemma remote_write_block_ok off src m : peer_at Idle m → Forall (fits 8) src →
  let m' := remote_write_block fpga cb off src m in
  peer_at Idle m' ∧ mem_eq (ram_of m') (store_block (ram_of m) off src).
Proof.
  revert off m. induction src as [|v src IH]; intros off m Hi Hs;
    cbn [remote_write_block store_block]; [by split|].
  apply Forall_cons in Hs as [Hv Hs].
  destruct (remote_put_byte_ok off v m Hi Hv) as [Hi1 R1]. unfold remote_put_byte in *.
  destruct (IH (off + 1) _ Hi1 Hs) as [Hi2 R2]. split; [done|]. rewrite R2.
  by apply store_block_proper.
Qed.
End correct.

(** ** Lemmas: what no transfer changes *)

Section invariant.
Context {E : Type} (fpga : mbx E → mbx E) (cb : option (mbx E → mbx E)) (Q : mbx E → Prop).
Context (Qfpga : ∀ m, Q m → Q (fpga m)) (Qwrite : ∀ off v m, Q m → Q (mbx_wr64 off v m))
  (Qcb : ∀ f m, cb = Some f → Q m → Q (f m)).

Lemma xfer_poll_keeps n m : Q m → Q (xfer_poll fpga cb n m).2.
Proof.
  revert m. induction n as [|n IH]; intros m H; [done|]. cbn [xfer_poll]. cbv zeta.
  destruct (flag _ 1); [cbn [snd]; auto 6|]. apply IH. destruct cb eqn:Ec; auto.
Qed.

Lemma xfer_attempt_keeps n req m : Q m → Q (xfer_attempt fpga cb n req m).2.
Proof.
  revert m. induction n as [|n IH]; intros m H; [done|]. cbn [xfer_attempt].
  pose proof (xfer_poll_keeps POLLS (mbx_wr64 MBX_RAM_REQ req (fpga m))) as K.
  destruct (xfer_poll _ _ _ _) as [[v|] m1]; cbn [snd] in *; auto.
Qed.

Lemma boardram_xfer_keeps off write wdata m : Q m → Q (boardram_xfer fpga cb off write wdata m).2.
Proof.
  intros H. unfold boardram_xfer. destruct (m_map m); cbn [negb]; [|done].
  pose proof (xfer_attempt_keeps 3 (ram_req off write wdata) m H) as K.
  destruct (xfer_attempt _ _ _ _ _) as [[v|] m1]; cbn [snd] in *; auto.
Qed.

Lemma boardram_rb_keeps off m : Q m → Q (boardram_rb fpga cb off m).2.
Proof.
  intros H. unfold boardram_rb. pose proof (boardram_xfer_keeps (Z.land off 0x7FFE) 0 0 m H).
  by destruct (boardram_xfer _ _ _ _ _ _).
Qed.

Lemma boardram_wb_keeps off v m : Q m → Q (boardram_wb fpga cb off v m).
Proof.
  intros H. unfold boardram_wb. pose proof (boardram_xfer_keeps (Z.land off 0x7FFE) 0 0 m H).
  destruct (boardram_xfer _ _ _ 0 _ _). by apply boardram_xfer_keeps.
Qed.

Lemma remote_read_block_keeps off n m : Q m → Q (remote_read_block fpga cb off n m).2.
Proof.
  revert off m. induction n as [|n IH]; intros off m H; [done|]. cbn [remote_read_block].
  pose proof (boardram_rb_keeps (Z.land off RAM_MASK) m H). destruct (boardram_rb _ _ _ _) as [b m1].
  specialize (IH (off + 1) m1). destruct (remote_read_block _ _ _ _ _). auto.
Qed.

Lemma remote_write_block_keeps off src m : Q m → Q (remote_write_block fpga cb off src m).
Proof. revert off m. induction src as [|v src IH]; intros off m H; [done|]. by apply IH, boardram_wb_keeps. Qed.
End invariant.

(** ** Properties *)

(** C15: With an adapter that behaves as documented and answers each request within the
    polls of the first attempt, the mailbox accessors implement the card memory the 68k
    addresses: whatever its delay below those 10000 polls and
    whatever register requests are served meanwhile, byte and block reads and word reads
    at even offsets return exactly what the abstract big-endian memory holds, byte, block
    and word writes change it exactly as the abstract stores do, and every call leaves
    the mailbox idle for the next one. *)
Theorem remote_ram_refines {E : Type} (fpga : mbx E → mbx E) (cb : option (mbx E → mbx E))
  (P : RamPeer fpga cb) (m : mbx E) (off v : Z) (src : list Z) (n : nat)
  (Hi : peer_at Idle m) (Hv : fits 8 v) (Hs : Forall (fits 8) src) :
  (let '(x, m') := remote_get_byte fpga cb off m in
   x = Ram68k.load8 (ram_of m) off ∧ peer_at Idle m' ∧ mem_eq (ram_of m') (ram_of m)) ∧
  (let '(x, m') := remote_read_block fpga cb off n m in
   x = load_block (ram_of m) off n ∧ peer_at Idle m' ∧ mem_eq (ram_of m') (ram_of m)) ∧
  (let m' := remote_put_byte fpga cb off v m in
   peer_at Idle m' ∧ mem_eq (ram_of m') (Ram68k.store8 (ram_of m) off v)) ∧
  (let m' := remote_write_block fpga cb off src m in
   peer_at Idle m' ∧ mem_eq (ram_of m') (store_block (ram_of m) off src)) ∧
  (Z.land off 1 = 0 →
   (let '(x, m') := remote_get_word fpga cb off m in
    x = Ram68k.load16 (ram_of m) off ∧ peer_at Idle m' ∧ mem_eq (ram_of m') (ram_of m)) ∧
   ∀ x, fits 16 x → let m' := remote_put_word fpga cb off x m in
     peer_at Idle m' ∧ mem_eq (ram_of m') (Ram68k.store16 (ram_of m) off x)).
Proof.
  split; [by apply remote_get_byte_ok|]. split; [by apply remote_read_block_ok|].
  split; [by apply remote_put_byte_ok|]. split; [by apply remote_write_block_ok|].
  intros He. split; [by apply remote_get_word_ok|]. intros. by apply remote_put_word_ok.
Qed.

(** ** The self-test passes *)

Section selftest.
Context {E : Type} {fpga : mbx E → mbx E} {cb : option (mbx E → mbx E)} `{!RamPeer fpga cb}.

(** An even offset inside the memory, and a word. *)
Definition word_ok (p : Z * Z) : Prop := fits 15 p.1 ∧ Z.land p.1 1 = 0 ∧ fits 16 p.2.

Fixpoint store_words (r : Z → Z) (l : list (Z * Z)) : Z → Z :=
  match l with [] => r | (off, v) :: l => store_words (Ram68k.store16 r off v) l end.

Lemma store_words_proper r r' l : mem_eq r r' → mem_eq (store_words r l) (store_words r' l).
Proof. revert r r'. induction l as [|[o v] l IH]; intros; cbn; [done|]. apply IH. by rewrite H. Qed.

Lemma masked_id off : fits 15 off → Z.land off RAM_MASK = off.
Proof. intros Ho. change RAM_MASK with (Z.ones 15). rewrite Z.land_ones by lia. by apply Z.mod_small. Qed.

Lemma remote_writes_ok l m : peer_at Idle m → Forall word_ok l →
  peer_at Idle (remote_writes fpga cb l m) ∧
  mem_eq (ram_of (remote_writes fpga cb l m)) (store_words (ram_of m) l).
Proof.
  revert m. induction l as [|[o v] l IH]; intros m Hi Hl; cbn [remote_writes store_words]; [by split|].
  apply Forall_cons in Hl as [(Ho & He & Hv) Hl]. cbn [fst snd] in *.
  destruct (remote_put_word_ok o v m Hi He Hv) as [Hi1 R1]. unfold remote_put_word in *.
  rewrite masked_id in Hi1, R1 by done. destruct (IH _ Hi1 Hl) as [Hi2 R2]. split; [done|].
  rewrite R2. by apply store_words_proper.
Qed.

Lemma remote_verify_ok l m r : peer_at Idle m → Forall word_ok l → mem_eq (ram_of m) r →
  Forall (λ p, Ram68k.load16 r p.1 = p.2) l →
  let '(f, m') := remote_verify fpga cb l m in f = false ∧ peer_at Idle m' ∧ mem_eq (ram_of m') r.
Proof.
  revert m. induction l as [|[o v] l IH]; intros m Hi Hl Hr Hv; cbn [remote_verify]; [done|].
  apply Forall_cons in Hl as [(Ho & He & _) Hl]. apply Forall_cons in Hv as [Hv Hvl]. cbn [fst snd] in *.
  pose proof (remote_get_word_ok o m Hi He) as H1. unfold remote_get_word in H1.
  rewrite masked_id in H1 by done. destruct (boardram_rw _ _ o m) as [x m1].
  destruct H1 as (-> & Hi1 & R1).
  specialize (IH m1 Hi1 Hl (transitivity R1 Hr) Hvl). destruct (remote_verify _ _ l m1) as [f m2].
  destruct IH as (-> & H2 & H3). split; [|done]. by rewrite Hr, Hv, Z.eqb_refl.
Qed.

Lemma remote_patterns_ok : Forall word_ok remote_patterns.
Proof. repeat (constructor; [by vm_compute|]). constructor. Qed.

(** With a documented adapter the self-test reports no failure, whatever the memory held. *)
Lemma remote_test_passes m : peer_at Idle m → (remote_test_boardram fpga cb m).1 = false.
Proof.
  intros Hi. unfold remote_test_boardram. cbv zeta.
  destruct (remote_writes_ok remote_patterns m Hi remote_patterns_ok) as [Hi1 R1].
  pose proof (remote_verify_ok remote_patterns _ _ Hi1 remote_patterns_ok R1) as HV.
  destruct (remote_verify _ _ remote_patterns _) as [f m2].
  destruct HV as (-> & Hi2 & R2); [repeat (constructor; [by vm_compute|]); constructor|].
  destruct (remote_put_word_ok 0x0200 0x0000 m2 Hi2 eq_refl ltac:(by split)) as [Hi3 R3].
  destruct (remote_put_byte_ok 0x0200 0xCA _ Hi3 ltac:(by split)) as [Hi4 R4].
  destruct (remote_put_byte_ok 0x0201 0xFE _ Hi4 ltac:(by split)) as [Hi5 R5].
  pose proof (remote_verify_ok [(0x0200, 0xCAFE)] _ _ Hi5
    ltac:(repeat constructor; by vm_compute) (reflexivity _)) as HV.
  unfold remote_put_byte, remote_put_word in *.
  change (Z.land 0x0200 RAM_MASK) with 0x0200 in *. change (Z.land 0x0201 RAM_MASK) with 0x0201 in *.
  destruct (remote_verify _ _ [(0x0200, 0xCAFE)] _) as [f' m6]. destruct HV as (-> & _); [|done].
  constructor; [|constructor]. cbn [fst snd]. rewrite R5, R4. by vm_compute.
Qed.
End selftest.

(** ** An adapter *)

(** A concrete adapter: it ignores the mailbox for [f_deaf] rounds, then performs each
    pending request once, and waits for the slot to be freed. *)
Module ExampleAdapter.
Record adapter := Adapter { f_ram : window; f_deaf : Z; f_served : bool }.

Definition mem (e : adapter) (a : Z) : Z := u8 (rd8 (f_ram e) a).

Definition perform (req : Z) (e : adapter) : Z * adapter :=
  let off := Z.land (Z.shiftr req 2) 0x7FFF in
  let data := Z.land (Z.shiftr req 17) 0xFFFF in
  if flag req 2 then
    (0, Adapter (wr8 (wr8 (f_ram e) off (data / 256)) (off + 1) data) 0 true)
  else (mem e off * 256 + mem e (off + 1), Adapter (f_ram e) 0 true).

Definition step (m : mbx adapter) : mbx adapter :=
  let e := m_env m in
  let req := mbx_rd64 MBX_RAM_REQ m in
  if 0 <? f_deaf e then Mbx (m_map m) (m_win m) (Adapter (f_ram e) (f_deaf e - 1) (f_served e))
  else if flag req 1 then
    if f_served e then m
    else let '(v, e') := perform req e in
         Mbx (m_map m) (wr64 (m_win m) MBX_RAM_RSP (Z.lor 1 (Z.shiftl v 1))) e'
  else Mbx (m_map m) (m_win m) (Adapter (f_ram e) (f_deaf e) false).

Definition at_phase (p : phase) (m : mbx adapter) : Prop :=
  m_map m = true ∧ f_deaf (m_env m) = 0 ∧
  match p with
  | Idle => flag (mbx_rd64 MBX_RAM_REQ m) 1 = false
  | Busy n off write wdata =>
      f_served (m_env m) = false ∧ fits 15 off ∧ Z.land off 1 = 0 ∧ (write = 0 ∨ write = 1) ∧
      fits 16 wdata ∧ mbx_rd64 MBX_RAM_REQ m = ram_req off write wdata
  | Answered | Acked => flag (mbx_rd64 MBX_RAM_REQ m) 1 = true ∧ f_served (m_env m) = true
  end.

(** The fields of a request. *)
Lemma even_aligned off : fits 15 off → Z.land off 1 = 0 → Z.land off 0x7FFE = off.
Proof.
  intros Hf He. pose proof (addr_aligned off) as A. unfold flag, Ram68k.addr in A.
  rewrite He in A. cbn in A. rewrite Z.add_0_r in A. rewrite <-A. by apply Z.mod_small.
Qed.

Lemma ram_req_fits off write wdata : write = 0 ∨ write = 1 → fits 16 wdata →
  fits 64 (ram_req off write wdata).
Proof.
  intros Hw Hd. unfold ram_req. apply fits_lor; [lia| |].
  - apply fits_lor; [lia| |].
    + apply fits_lor; [lia|by split|]. destruct Hw as [-> | ->]; by split.
    + apply fits_shiftl; [lia|lia|]. apply (fits_mono 15); [lia|]. apply aligned_fits.
  - apply fits_shiftl; [lia|lia|]. by apply (fits_mono 16); [lia|].
Qed.

Lemma ram_req_decode off write wdata : fits 15 off → Z.land off 1 = 0 →
  write = 0 ∨ write = 1 → fits 16 wdata →
  let req := ram_req off write wdata in
  flag req 1 = true ∧ flag req 2 = negb (write =? 0) ∧
  Z.land (Z.shiftr req 2) 0x7FFF = off ∧ Z.land (Z.shiftr req 17) 0xFFFF = wdata.
Proof.
  intros Ho He Hw Hd req. unfold req, ram_req. rewrite even_aligned by done.
  set (d := Z.lor 1 (Z.shiftl write 1)).
  assert (D : fits 2 d ∧ flag d 1 = true ∧ flag d 2 = negb (write =? 0))
    by (unfold d; destruct Hw as [-> | ->]; by split).
  destruct D as (Df & D1 & D2).
  assert (Sh : ∀ x k i, i < k → Z.testbit (Z.shiftl x k) i = false).
  { intros x k i Hi. destruct (decide (0 ≤ i)); [|apply Z.testbit_neg_r; lia].
    rewrite shiftl_testbit by done. apply Z.testbit_neg_r. lia. }
  split_and!.
  - rewrite <-D1. flags_to_bits. rewrite !Z.lor_spec, !Sh by lia. by rewrite !orb_false_r.
  - rewrite <-D2. flags_to_bits. rewrite !Z.lor_spec, !Sh by lia. by rewrite !orb_false_r.
  - apply (fits_bits_inj 15); [lia|apply fits_land_r; [lia|by split]|done|]. intros i Hi.
    change 0x7FFF with (Z.ones 15). push_bits. destruct (Z.ltb_spec i 15); [|lia].
    rewrite (fits_testbit 2 d) by (done || lia). rewrite (Z.testbit_neg_r wdata) by lia.
    rewrite andb_true_r, orb_false_r. simpl. f_equal. lia.
  - apply (fits_bits_inj 16); [lia|apply fits_land_r; [lia|by split]|done|]. intros i Hi.
    change 0xFFFF with (Z.ones 16). push_bits. destruct (Z.ltb_spec i 16); [|lia].
    rewrite (fits_testbit 2 d), (fits_testbit 15 off) by (done || lia).
    rewrite andb_true_r. simpl. f_equal. lia.
Qed.

Lemma reply_decode v : fits 16 v →
  let rsp := u64 (Z.lor 1 (Z.shiftl v 1)) in
  flag rsp 1 = true ∧ Z.land (Z.shiftr rsp 1) 0xFFFF = v.
Proof.
  intros Hv rsp. unfold rsp. rewrite u64_small.
  2:{ apply fits_lor; [lia|by split|]. apply fits_shiftl; [lia..|]. by apply (fits_mono 16); [lia|]. }
  split; [flags_to_bits; by push_bits|].
  apply (fits_bits_inj 16); [lia|apply fits_land_r; [lia|by split]|done|]. intros i Hi.
  change 0xFFFF with (Z.ones 16). push_bits. destruct (Z.ltb_spec i 16); [|lia].
  rewrite (fits_testbit 1 1) by (by split || lia). rewrite andb_true_r. simpl. f_equal. lia.
Qed.

Lemma mem_byte e a : fits 8 (mem e a).
Proof. apply fits_u8. Qed.

Lemma slots_apart m : mbx_rd64 MBX_RAM_REQ (mbx_wr64 (E := adapter) MBX_RAM_RSP 0 m)
  = mbx_rd64 MBX_RAM_REQ m.
Proof. apply rd64_wr64_ne. unfold MBX_RAM_REQ, MBX_RAM_RSP. lia. Qed.

Lemma step_rest p m : at_phase p m → p = Idle ∨ p = Answered ∨ p = Acked →
  at_phase p (step m) ∧ f_ram (m_env (step m)) = f_ram (m_env m).
Proof.
  unfold at_phase, step. intros (Hm & Hd & H) Hp. rewrite Hd. cbn [Z.ltb Z.compare].
  destruct Hp as [-> | [-> | ->]]; [by rewrite H|..]; destruct H as [H1 H2]; rewrite H1, H2; auto.
Qed.

(** A pending request is answered in the next round. *)
Lemma step_busy n off write wdata m : at_phase (Busy n off write wdata) m →
  at_phase Answered (step m) ∧ rsp_ready (step m) = true ∧
  if write =? 0 then
    Z.land (Z.shiftr (mbx_rd64 MBX_RAM_RSP (step m)) 1) 0xFFFF = Ram68k.load16 (mem (m_env m)) off
    ∧ mem_eq (mem (m_env (step m))) (mem (m_env m))
  else mem_eq (mem (m_env (step m))) (Ram68k.store16 (mem (m_env m)) off wdata).
Proof.
  intros (Hm & Hd & Hs & Ho & He & Hw & Hx & Hr).
  destruct (ram_req_decode off write wdata Ho He Hw Hx) as (D1 & D2 & D3 & D4).
  pose proof (addr_aligned_word off) as A. rewrite even_aligned in A by done.
  pose proof (A 0) as A0. rewrite Z.add_0_r in A0.
  unfold step. rewrite Hd, Hr, D1, Hs. cbn [Z.ltb Z.compare].
  unfold perform. rewrite D2, D3, D4.
  assert (V : fits 16 (mem (m_env m) off * 256 + mem (m_env m) (off + 1))).
  { pose proof (mem_byte (m_env m) off). pose proof (mem_byte (m_env m) (off + 1)).
    unfold fits in *. lia. }
  assert (Q : ∀ v (e' : adapter), mbx_rd64 MBX_RAM_REQ (Mbx (m_map m) (wr64 (m_win m) MBX_RAM_RSP v) e')
    = mbx_rd64 MBX_RAM_REQ m).
  { intros. apply rd64_wr64_ne. unfold MBX_RAM_REQ, MBX_RAM_RSP. lia. }
  destruct Hw as [-> | ->]; cbn [Z.eqb negb].
  - destruct (reply_decode _ V) as [R1 R2]. unfold at_phase, rsp_ready. rewrite Q, Hr, D1.
    unfold mbx_rd64. cbn [m_win m_map m_env f_deaf f_served]. rewrite rd64_wr64.
    split_and!; try done. rewrite R2. unfold Ram68k.load16, Ram68k.load8. by rewrite A0, A by lia.
  - destruct (reply_decode 0) as [R1 R2]; [by split|]. unfold at_phase, rsp_ready. rewrite Q, Hr, D1.
    unfold mbx_rd64. cbn [m_win m_map m_env f_deaf f_served]. rewrite rd64_wr64.
    split_and!; try done. intros a. unfold mem, Ram68k.store16, Ram68k.store8. cbn [f_ram].
    rewrite A0, A, !rd8_wr8 by lia.
    destruct (Z.eqb_spec a (off + 1)), (Z.eqb_spec a off); repeat case_decide; try lia;
      by rewrite ?u8_u8.
Qed.

#[export] Instance example_peer : RamPeer step None.
Proof.
  refine {| peer_ram := mem; peer_at := at_phase |}.
  - apply mem_byte.
  - by intros p m [].
  - intros p m H Hp. destruct (step_rest p m H Hp) as [H1 H2]. split; [done|]. intros a.
    unfold mem. by rewrite H2.
  - intros m off write wdata H Ho He Hw Hd. exists 0%nat. split; [unfold POLLS; lia|].
    destruct (step_rest _ _ H) as [(H1 & H2 & H3) _]; [by auto|].
    assert (S : f_served (m_env (step m)) = false).
    { destruct H as (_ & Hdf & Hq). unfold step. by rewrite Hdf, Hq. }
    split_and!; try done. unfold mbx_rd64. cbn [m_win mbx_wr64]. rewrite rd64_wr64.
    by apply u64_small, ram_req_fits.
  - intros n off write wdata m H. right. by apply (step_busy n).
  - done.
  - intros m (H1 & H2 & H3 & H4). split_and!; [done|done|by rewrite slots_apart|done].
  - intros m (H1 & H2 & _). split_and!; [done|done|]. unfold mbx_rd64. cbn [m_win mbx_wr64].
    by rewrite rd64_wr64.
Defined.
End ExampleAdapter.

Import ExampleAdapter.

(** A mapped mailbox in front of an adapter whose memory holds 0x1234 at offset 0x100. *)
Definition ex_mbx (deaf : Z) : mbx adapter :=
  boardram_remote_init (Mbx false ∅ (Adapter (wr8 (wr8 ∅ 0x100 0x12) 0x101 0x34) deaf false)).

Lemma remote_ram_refines_witness :
  (remote_get_byte step None 0x101 (ex_mbx 0)).1 = 0x34 ∧
  mem (m_env (remote_put_byte step None 0x101 0xAB (ex_mbx 0))) 0x101 = 0xAB.
Proof.
  destruct (remote_ram_refines step None example_peer (ex_mbx 0) 0x101 0xAB [] 0)
    as (H1 & _ & H2 & _); [by vm_compute|by split|by constructor|].
  split; [|etransitivity; [exact (proj2 H2 0x101)|by vm_compute]].
  destruct (remote_get_byte _ _ _ _) as [v m']. cbn [fst]. by rewrite (proj1 H1).
Defined.

(** ** Time-outs *)

(** States of the mailbox from which the adapter never answers. *)
Class Deaf {E : Type} (fpga : mbx E → mbx E) (cb : option (mbx E → mbx E))
    (D : mbx E → Prop) : Prop := {
  deaf_step m : D m → D (fpga m);
  deaf_service f m : cb = Some f → D m → D (f m);
  deaf_post req m : D m → D (mbx_wr64 MBX_RAM_REQ req m);
  deaf_silent m : D m → rsp_ready m = false }.

Section timeout.
Context {E : Type} {fpga : mbx E → mbx E} {cb : option (mbx E → mbx E)}.

Lemma xfer_poll_deaf D `{!Deaf fpga cb D} n m : D m →
  (xfer_poll fpga cb n m).1 = None ∧ D (xfer_poll fpga cb n m).2.
Proof.
  revert m. induction n as [|n IH]; intros m Hm; [done|]. cbn [xfer_poll]. cbv zeta.
  pose proof (deaf_step m Hm) as H1. pose proof (deaf_silent _ H1) as H2. unfold rsp_ready in H2.
  rewrite H2. apply IH. destruct cb as [f|] eqn:Ecb; [by apply (deaf_service f)|done].
Qed.

Lemma xfer_attempt_deaf D `{!Deaf fpga cb D} n req m : D m →
  (xfer_attempt fpga cb n req m).1 = None ∧ D (xfer_attempt fpga cb n req m).2.
Proof.
  revert m. induction n as [|n IH]; intros m Hm; [done|]. cbn [xfer_attempt].
  destruct (xfer_poll_deaf D POLLS (mbx_wr64 MBX_RAM_REQ req (fpga m))) as [H1 H2];
    [by apply deaf_post, deaf_step|].
  destruct (xfer_poll _ _ _ _) as [[v|] m']; [done|]. by apply IH.
Qed.
End timeout.

(** When the adapter does not answer, a transfer gives up after three attempts of ten
    thousand polls: it returns 0xFFFF, withdraws the request, and the accessors read 0xFF
    bytes and 0xFFFF words; the caller gets no other sign of the failure. *)
Theorem remote_timeout {E : Type} (fpga : mbx E → mbx E) (cb : option (mbx E → mbx E))
  (D : mbx E → Prop) (HD : Deaf fpga cb D) (m : mbx E) (off write wdata : Z)
  (Hm : D m) (Hmap : m_map m = true) :
  (boardram_xfer fpga cb off write wdata m).1 = 0xFFFF ∧
  mbx_rd64 MBX_RAM_REQ (boardram_xfer fpga cb off write wdata m).2 = 0 ∧
  D (boardram_xfer fpga cb off write wdata m).2 ∧
  (remote_get_byte fpga cb off m).1 = 0xFF ∧ (remote_get_word fpga cb off m).1 = 0xFFFF.
Proof.
  assert (X : ∀ o wr d, let '(v, m') := boardram_xfer fpga cb o wr d m in
    v = 0xFFFF ∧ mbx_rd64 MBX_RAM_REQ m' = 0 ∧ D m').
  { intros o wr d. unfold boardram_xfer. rewrite Hmap. cbn [negb].
    destruct (xfer_attempt_deaf D 3 (ram_req o wr d) m Hm) as [H1 H2].
    destruct (xfer_attempt _ _ _ _ _) as [[v|] m']; [done|]. split; [done|]. split.
    - unfold mbx_rd64. cbn [m_win mbx_wr64]. by rewrite rd64_wr64.
    - by apply deaf_post, deaf_step. }
  unfold remote_get_byte, boardram_rb, remote_get_word, boardram_rw.
  pose proof (X off write wdata) as X1.
  pose proof (X (Z.land (Z.land off RAM_MASK) 0x7FFE) 0 0) as X2.
  destruct (boardram_xfer _ _ off _ _ m) as [v m'], (boardram_xfer _ _ _ 0 0 m) as [v2 m2].
  destruct X1 as (-> & H2 & H3), X2 as (-> & _). split_and!; try done. cbn [fst].
  by destruct (flag _ 1).
Qed.

(** An adapter that is not there at all. *)
Definition ex_absent (m : mbx unit) : mbx unit := m.

#[export] Instance ex_absent_deaf : Deaf ex_absent None (λ m, rsp_ready m = false).
Proof.
  split; [done..| |done]. intros req m Hm. unfold rsp_ready, mbx_rd64 in *. cbn [m_win mbx_wr64].
  by rewrite rd64_wr64_ne by (unfold MBX_RAM_REQ, MBX_RAM_RSP; lia).
Qed.

Lemma remote_timeout_witness :
  (remote_get_word ex_absent None 0x100 (Mbx true ∅ ())).1 = 0xFFFF.
Proof.
  by apply (remote_timeout ex_absent None _ ex_absent_deaf (Mbx true ∅ ()) 0x100 0 0).
Defined.

(** A byte write whose read half times out destroys the other byte of the word: if the
    adapter does not answer the read but recovers in time for the write, the addressed
    byte is stored and its neighbour becomes 0xFF, whatever it held. *)
Theorem remote_byte_timeout {E : Type} (fpga : mbx E → mbx E) (cb : option (mbx E → mbx E))
  (P : RamPeer fpga cb) (m m1 : mbx E) (off v : Z) (Hmap : m_map m = true) (Hv : fits 8 v)
  (Hread : xfer_attempt fpga cb 3 (ram_req (Z.land off 0x7FFE) 0 0) m = (None, m1))
  (Hback : peer_at Idle (mbx_wr64 MBX_RAM_REQ 0 (fpga m1))) :
  let m' := boardram_wb fpga cb off v m in
  ram_of m' (Ram68k.addr off) = v ∧ ram_of m' (Z.lxor (Ram68k.addr off) 1) = 0xFF.
Proof.
  intros m'. unfold m', boardram_wb. set (m2 := mbx_wr64 MBX_RAM_REQ 0 (fpga m1)) in *.
  assert (Hx : boardram_xfer fpga cb (Z.land off 0x7FFE) 0 0 m = (0xFFFF, m2))
    by (unfold boardram_xfer; by rewrite Hmap, Hread).
  rewrite Hx.
  set (h := if flag off 1 then 0xFF else v). set (l := if flag off 1 then v else 0xFF).
  assert (Hh : fits 8 h) by (unfold h; destruct (flag off 1); [by split|done]).
  assert (Hl : fits 8 l) by (unfold l; destruct (flag off 1); [done|by split]).
  match goal with |- context [boardram_xfer _ _ _ 1 (u16 ?x) _] => assert (Ex : x = h * 256 + l) end.
  { unfold h, l. change 0xFFFF with (0xFF * 256 + 0xFF).
    destruct (flag off 1); [by apply word_replace_low|by apply word_replace_high]. }
  rewrite Ex, u16_small by (unfold fits in *; lia).
  destruct (boardram_xfer_done (Z.land off 0x7FFE) 1 (h * 256 + l) m2) as [_ R];
    auto using aligned_fits, aligned_even; [unfold fits in *; lia|].
  cbn [Z.eqb] in R. rewrite !(R _). unfold Ram68k.store16, Ram68k.store8.
  pose proof (addr_aligned_word off 0) as A0. rewrite Z.add_0_r in A0.
  rewrite A0, addr_aligned_word, addr_aligned by lia.
  rewrite Z.div_add_l, Z.div_small, Z.add_0_r, (u8_small h) by (unfold fits in *; lia).
  replace (u8 (h * 256 + l)) with l by (apply Z.mod_unique_pos with h; [done|lia]).
  set (e := Z.land off 0x7FFE). assert (X : Z.lxor e 1 = e + 1 ∧ Z.lxor (e + 1) 1 = e).
  { assert (Z.lxor e 1 = e + 1) as E1 by (symmetry; apply Z.add_nocarry_lxor, aligned_even).
    split; [done|]. by rewrite <-E1, Z.lxor_assoc, Z.lxor_nilpotent, Z.lxor_0_r. }
  destruct X as [X1 X2]. unfold h, l. destruct (flag off 1).
  - rewrite X2, !Z.eqb_refl. by destruct (Z.eqb_spec e (e + 1)); [lia|].
  - rewrite Z.add_0_r, X1, !Z.eqb_refl. by destruct (Z.eqb_spec e (e + 1)); [lia|].
Qed.

Lemma remote_byte_timeout_witness :
  let m := ex_mbx 30004 in
  mem (m_env m) 0x101 = 0x34 ∧ mem (m_env (boardram_wb step None 0x100 0x56 m)) 0x101 = 0xFF.
Proof.
  intros m. split; [by vm_compute|].
  destruct (xfer_attempt step None 3 (ram_req (Z.land 0x100 0x7FFE) 0 0) m) as [o m1] eqn:Hr.
  assert (Ho : o = None).
  { apply (f_equal fst) in Hr. cbn [fst] in Hr. rewrite <-Hr. by vm_compute. }
  subst o. refine (proj2 (remote_byte_timeout step None example_peer m m1 0x100 0x56 _ _ Hr _));
    [done|by split|].
  apply (f_equal snd) in Hr. cbn [snd] in Hr. rewrite <-Hr.
  change (peer_at Idle ?x) with (at_phase Idle x). split_and!; by vm_compute.
Defined.
