(* ===== verification/MainDdr3.v ===== *)
(** * The mailbox daemon (arm/src/main_ddr3.cpp)

    The earlier main program: every register access of the 68k is a request in the
    REG_REQ slot that the daemon answers in REG_RSP; the interrupt line is the INT slot,
    which the daemon holds for a number of passes.  While a board RAM transfer waits
    (Remote.v), requests are served by [service_bridge_safe], which postpones data port
    writes in a queue; here a call of it is a step of its own, between two operations of
    the main loop.  The pauses ([usleep]) and the debug output have no effect here. *)

From S2P Require Import Prelude Types Window Crc32 Mac State Registers Rings Slots Remote.

Definition MBX_REQ_OFF : Z := 0x8000.
Definition MBX_RSP_OFF : Z := 0x8008.
Definition MBX_INT_OFF : Z := 0x8020.
Definition MBX_MAC_OFF : Z := 0x8028.
Definition INT_HOLD_ITER : Z := 100.

(** ** The interrupt line and the callbacks *)

Definition schedule_tdmd_retry (w : world) : world :=
  if tdmd_retry (w_ddr3 w) <? 16 then upd_ddr3 (set_tdmd_retry 16) w else w.

Definition assert_mbx_int (w : world) : world :=
  let w := set_slot MBX_INT_OFF 1 w in
  let w := set_slot MBX_INT_OFF 1 w in
  let w := set_slot MBX_INT_OFF 1 w in
  upd_ddr3 (λ d, set_int_hold INT_HOLD_ITER (set_last_mbx_int 1 d)) w.

Definition mbx_on_interrupt_cb (w : world) : world := assert_mbx_int w.

#[export] Instance mbx_int : IntHandler := Some mbx_on_interrupt_cb.

Definition mbx_on_transmit_cb (stk : list Z) (w : world) : res (Z * world) :=
  '(r, w) ← do_transmit stk w;
  Ok (r, if r =? 0 then schedule_tdmd_retry w else w).

Definition mbx_rx_step (stk rxbuf : list Z) (len : Z) (w : world) : res world :=
  if 0 <? len then gotfunc stk rxbuf len w else Ok w.

Definition write_mbx_int (w : world) : world :=
  let val := int_level (csr0 w) in
  if val =? last_mbx_int (w_ddr3 w) then w
  else upd_ddr3 (set_last_mbx_int val) (set_slot MBX_INT_OFF val w).

(** ** Requests *)

Definition req_rw (req : Z) : bool := flag (Z.shiftr req 1) 1.
Definition req_addr (req : Z) : Z := Z.land (Z.shiftr req 2) 0xFF.
Definition req_data (req : Z) : Z := Z.land (Z.shiftr req 10) 0xFFFF.

(** [wr64(MBX_RSP_OFF, 1 | result << 1); wr64(MBX_REQ_OFF, 0)] *)
Definition mbx_reply (result : Z) (w : world) : world :=
  set_slot MBX_REQ_OFF 0 (set_slot MBX_RSP_OFF (Z.lor 1 (Z.shiftl result 1)) w).

(** [if (int_hold > 0) int_hold = 1]: after an operation that cleared INTR. *)
Definition release_hold (w : world) : world :=
  if negb (flag (csr0 w) CSR0_INTR) && (0 <? int_hold (w_ddr3 w))
  then upd_ddr3 (set_int_hold 1) w else w.

(** The part of [service_bridge] before the reply. *)
Definition before_reply (rw : bool) (addr data result : Z) (w : world) : world :=
  let w := if negb rw && (addr =? 0) && flag result CSR0_INTR && flag result CSR0_INEA
           then assert_mbx_int w else w in
  if rw && (addr =? 0) && flag data (Z.lor (Z.lor CSR0_INIT CSR0_TDMD) CSR0_STRT)
     && flag (Z.lor data (csr0 w)) CSR0_INEA
  then assert_mbx_int w else w.

Definition service_bridge (stk : list Z) (w : world) : res world :=
  let req := slot w MBX_REQ_OFF in
  if negb (flag req 1) then Ok w
  else
    let rw := req_rw req in
    let addr := req_addr req in
    let data := req_data req in
    let result := if rw then 0 else chip_wget addr w in
    let w := before_reply rw addr data result w in
    let w := mbx_reply result w in
    if rw then
      let htx : TxHandler := Some (mbx_on_transmit_cb stk) in
      w ← chip_wput addr data w;
      let w := if (addr =? 0) && flag data CSR0_INIT && flag (csr0 w) CSR0_INTR
               then assert_mbx_int w else w in
      Ok (if addr =? 0 then release_hold w else w)
    else Ok w.

(** ** Postponed writes *)

Definition enqueue (data : Z) (d : ddr3) : ddr3 :=
  let next := (deferred_csr0_head d + 1) mod 8 in
  if next =? deferred_csr0_tail d then d
  else
    let d := set_deferred_csr0_queue
      (<[Z.to_nat (deferred_csr0_head d) := data]> (deferred_csr0_queue d)) d in
    set_deferred_csr0_head next d.

Definition service_bridge_safe (stk : list Z) (w : world) : res world :=
  let req := slot w MBX_REQ_OFF in
  if negb (flag req 1) then Ok w
  else
    let rw := req_rw req in
    let addr := req_addr req in
    let data := req_data req in
    let result := if rw then 0 else chip_wget addr w in
    let w := mbx_reply result w in
    if rw then
      if addr =? A2065_RAP_OFF then
        let htx : TxHandler := Some (mbx_on_transmit_cb stk) in chip_wput addr data w
      else Ok (if addr =? 0 then upd_ddr3 (enqueue data) w else w)
    else Ok w.

(** ** The main loop *)

(** [while (deferred_csr0_tail != deferred_csr0_head) ...].  The queue holds at most seven
    entries and nothing is added here, so eight rounds empty it ([drain_writes]). *)
Fixpoint drain (fuel : nat) (stk : list Z) (w : world) : res world :=
  let d := w_ddr3 w in
  if deferred_csr0_tail d =? deferred_csr0_head d then Ok w
  else
    match fuel with
    | O => Err OutOfFuel
    | S fuel =>
        let saved := nth (Z.to_nat (deferred_csr0_tail d)) (deferred_csr0_queue d) 0 in
        let w := upd_ddr3 (set_deferred_csr0_tail ((deferred_csr0_tail d + 1) mod 8)) w in
        let htx : TxHandler := Some (mbx_on_transmit_cb stk) in
        w ← chip_wput 0 saved w;
        drain fuel stk (release_hold w)
    end.

(** The [tdmd_retry] block. *)
Definition retry_transmit (stk : list Z) (w : world) : res world :=
  if 0 <? tdmd_retry (w_ddr3 w) then
    let w := upd_ddr3 (λ d, set_tdmd_retry (tdmd_retry d - 1) d) w in
    if flag (csr0 w) CSR0_TXON then
      '(r, w) ← do_transmit stk w;
      Ok (if r =? 0 then w else upd_ddr3 (set_tdmd_retry 0) w)
    else Ok (upd_ddr3 (set_tdmd_retry 0) w)
  else Ok w.

(** The interrupt line at the end of a pass; [refresh] is the local [int_refresh]. *)
Definition hold_or_write (w : world) : world :=
  if 0 <? int_hold (w_ddr3 w) then upd_ddr3 (λ d, set_int_hold (int_hold d - 1) d) w
  else write_mbx_int w.

Definition refresh_int (refresh : Z) (w : world) : Z * world :=
  if last_mbx_int (w_ddr3 w) =? 1 then
    if 10 <=? refresh + 1 then (0, set_slot MBX_INT_OFF 1 w) else (refresh + 1, w)
  else (0, w).

Definition mbx_pass (stk : list Z) (s : Z * world) : res (Z * world) :=
  let '(refresh, w) := s in
  w ← service_bridge stk w;
  w ← drain 8 stk w;
  w ← retry_transmit stk w;
  Ok (refresh_int refresh (hold_or_write w)).

(** ** Start-up *)

Definition mbx_write_mac (mac : list Z) (w : world) : world :=
  let val := Z.lor (Z.lor (Z.lor (Z.lor 1 (Z.shiftl (nth 2 mac 0) 32)) (Z.shiftl (nth 3 mac 0) 40))
    (Z.shiftl (nth 4 mac 0) 48)) (Z.shiftl (nth 5 mac 0) 56) in
  set_slot MBX_MAC_OFF val w.

(** [host_mac] is what [ethernet_get_mac] gives. *)
Definition mbx_set_default_mac (host_mac : list Z) (w : world) : world :=
  let mac := [COMMODORE_OUI0; COMMODORE_OUI1; COMMODORE_OUI2;
              nth 3 host_mac 0; nth 4 host_mac 0; nth 5 host_mac 0] in
  registers_set_fakemac mac (upd_mac (mac_set_addresses mac mac) w).

(** [main] from the mapping to the loop; the adapter's slots are those of Remote.v. *)
Definition mbx_clear_slots (w : world) : world :=
  let w := set_slot MBX_RSP_OFF 1 w in
  let w := set_slot MBX_RSP_OFF 0 w in
  let w := set_slot MBX_REQ_OFF 0 w in
  let w := set_slot MBX_RAM_REQ 0 w in
  let w := set_slot MBX_RAM_RSP 0 w in
  set_slot MBX_INT_OFF 0 w.

Definition mbx_setup (host_mac : list Z) (w : world) : world :=
  let w := registers_reset w in
  let w := mbx_set_default_mac host_mac w in
  mbx_write_mac (fakemac (w_reg w)) w.

Definition mbx_start (host_mac : list Z) (w : world) : world :=
  mbx_setup host_mac (Nat.iter 5 mbx_clear_slots w).

(** ** The queue as a list *)

(** The postponed writes, oldest first. *)
Definition queued (d : ddr3) : list Z :=
  (λ i, nth (Z.to_nat ((deferred_csr0_tail d + Z.of_nat i) mod 8)) (deferred_csr0_queue d) 0)
  <$> seq 0 (Z.to_nat ((deferred_csr0_head d - deferred_csr0_tail d) mod 8)).

Record queue_ok (d : ddr3) : Prop := QueueOk {
  queue_len : length (deferred_csr0_queue d) = 8%nat;
  queue_head : 0 ≤ deferred_csr0_head d < 8;
  queue_tail : 0 ≤ deferred_csr0_tail d < 8;
  queue_fits : Forall (fits 16) (deferred_csr0_queue d) }.

(** The specification of the drain: the writes [l] go to the data port one by one, each
    taken off the queue first. *)
Definition pop (w : world) : world :=
  upd_ddr3 (λ d, set_deferred_csr0_tail ((deferred_csr0_tail d + 1) mod 8) d) w.

Fixpoint run_writes (stk : list Z) (l : list Z) (w : world) : res world :=
  match l with
  | [] => Ok w
  | x :: l =>
      w ← @chip_wput mbx_int (Some (mbx_on_transmit_cb stk)) 0 x (pop w);
      run_writes stk l (release_hold w)
  end.

(** ** Lemmas: callbacks *)

Ltac mbx_lia := unfold MBX_REQ_OFF, MBX_RSP_OFF, MBX_INT_OFF, MBX_MAC_OFF, MBX_RAM_REQ, MBX_RAM_RSP,
  RAM_SIZE; lia.

(** Changes of the daemon's variables that leave the queue alone. *)
Lemma upd_ddr3_frame f w : deferred (f (w_ddr3 w)) = deferred (w_ddr3 w) → ctl_frame w (upd_ddr3 f w).
Proof. by split. Qed.

Lemma slot_frame off v w u : RAM_SIZE ≤ off → ctl_frame w u → ctl_frame w (set_slot off v u).
Proof. intros Ho F. etransitivity; [apply F|by apply set_slot_frame]. Qed.

Lemma assert_frame w : ctl_frame w (assert_mbx_int w).
Proof.
  unfold assert_mbx_int. cbv zeta. etransitivity; [|by apply upd_ddr3_frame].
  do 3 (apply slot_frame; [done|]). reflexivity.
Qed.

Lemma assert_quiet w : quiet w (assert_mbx_int w).
Proof.
  apply (quiet_trans _ (set_slot MBX_INT_OFF 1 (set_slot MBX_INT_OFF 1 w))); [done|..];
    [apply (quiet_trans _ (set_slot MBX_INT_OFF 1 w)); [done|..]|]; by apply set_slot_quiet.
Qed.

#[export] Instance mbx_int_ok : IntHandlerOk.
Proof. intros f w [= <-]. split; [apply assert_frame|apply assert_quiet]. Qed.

Lemma retry_frame w : ctl_frame w (schedule_tdmd_retry w).
Proof. unfold schedule_tdmd_retry. case_match; [by apply upd_ddr3_frame|reflexivity]. Qed.

Lemma release_frame w : ctl_frame w (release_hold w).
Proof. unfold release_hold. case_match; [by apply upd_ddr3_frame|reflexivity]. Qed.

Lemma mbx_tx_ok stk : @TxHandlerOk (Some (mbx_on_transmit_cb stk)).
Proof.
  intros f w n w' [= <-] Hw H. unfold mbx_on_transmit_cb in H. bind_inv H. destruct x as [r w1].
  injection H as <- <-. apply do_transmit_keeps in Hx; [|done]. case_match; [|done].
  eapply keeps_trans; [apply Hx|]. intros.
  apply ctl_frame_keeps; [apply retry_frame| |done]. unfold schedule_tdmd_retry. by case_match.
Qed.

Lemma reply_frame v w : ctl_frame w (mbx_reply v w).
Proof. unfold mbx_reply. do 2 (apply slot_frame; [done|]). reflexivity. Qed.

Lemma before_reply_frame rw addr data v w : ctl_frame w (before_reply rw addr data v w).
Proof.
  unfold before_reply. cbv zeta.
  assert (F : ∀ b : bool, ctl_frame w (if b then assert_mbx_int w else w))
    by (intros []; [apply assert_frame|reflexivity]).
  case_match; [etransitivity; [apply F|apply assert_frame]|apply F].
Qed.

Lemma req_data_fits req : fits 16 (req_data req).
Proof. apply fits_land_r; [lia|by split]. Qed.

(** ** Lemmas: the queue *)

Lemma mod8_step a i : 0 ≤ a < 8 → (a + 1 + i) mod 8 = ((a + 1) mod 8 + i) mod 8.
Proof. intros. by rewrite Zplus_mod_idemp_l. Qed.

Lemma length_queued d : length (queued d)
  = Z.to_nat ((deferred_csr0_head d - deferred_csr0_tail d) mod 8).
Proof. unfold queued. by rewrite length_fmap, length_seq. Qed.

(** Elements are equal where the queue is not written. *)
Lemma queued_lookup d i : (i < length (queued d))%nat →
  queued d !! i = Some (nth (Z.to_nat ((deferred_csr0_tail d + Z.of_nat i) mod 8))
    (deferred_csr0_queue d) 0).
Proof.
  intros Hi. rewrite length_queued in Hi. unfold queued.
  by rewrite list_lookup_fmap, lookup_seq_lt by done.
Qed.

(** The number of entries and its two extremes. *)
Lemma queue_diff d : queue_ok d →
  let n := (deferred_csr0_head d - deferred_csr0_tail d) mod 8 in
  0 ≤ n < 8 ∧ (deferred_csr0_tail d + n) mod 8 = deferred_csr0_head d ∧
  (n = 0 ↔ deferred_csr0_tail d = deferred_csr0_head d) ∧
  (n = 7 ↔ (deferred_csr0_head d + 1) mod 8 = deferred_csr0_tail d).
Proof.
  intros [_ Hh Ht _] n. unfold n. rewrite Zplus_mod_idemp_r.
  replace (deferred_csr0_tail d + (deferred_csr0_head d - deferred_csr0_tail d))
    with (deferred_csr0_head d) by lia.
  rewrite (Z.mod_small (deferred_csr0_head d)) by lia.
  pose proof (Z.mod_pos_bound (deferred_csr0_head d - deferred_csr0_tail d) 8).
  Z.to_euclidean_division_equations. split_and!; lia.
Qed.

Lemma queue_ok_enqueue x d : queue_ok d → fits 16 x → queue_ok (enqueue x d).
Proof.
  intros Hd Hx. unfold enqueue. cbv zeta. case_match; [done|]. destruct Hd. split; cbn.
  - by rewrite length_insert.
  - apply Z.mod_pos_bound. lia.
  - done.
  - by apply Forall_insert.
Qed.

Lemma queue_ok_deferred d d' : deferred d' = deferred d → queue_ok d → queue_ok d'.
Proof. intros [= E1 E2 E3] []. split; congruence. Qed.

Lemma queued_deferred d d' : deferred d' = deferred d → queued d' = queued d.
Proof. unfold queued. by intros [= -> -> ->]. Qed.

Lemma queued_enqueue x d : queue_ok d →
  queued (enqueue x d) = if (length (queued d) <? 7)%nat then queued d ++ [x] else queued d.
Proof.
  intros Hd. pose proof (queue_diff d Hd) as (Hn & He & _ & H7). cbv zeta in *.
  set (n := (deferred_csr0_head d - deferred_csr0_tail d) mod 8) in *.
  assert (Hl : length (queued d) = Z.to_nat n) by apply length_queued.
  unfold enqueue. cbv zeta. destruct (Z.eqb_spec ((deferred_csr0_head d + 1) mod 8) (deferred_csr0_tail d))
    as [E|E].
  { destruct (Nat.ltb_spec (length (queued d)) 7); [lia|done]. }
  destruct (Nat.ltb_spec (length (queued d)) 7) as [Hlt|]; [|lia].
  set (d' := set_deferred_csr0_head _ _).
  assert (Hn' : (deferred_csr0_head d' - deferred_csr0_tail d') mod 8 = n + 1).
  { unfold d'. cbn. destruct Hd as [_ Hh Ht _]. unfold n in *.
    Z.to_euclidean_division_equations. lia. }
  assert (Hl' : length (queued d') = S (length (queued d))) by (rewrite length_queued, Hn', Hl; lia).
  apply list_eq. intros i. destruct (decide (i < length (queued d'))%nat) as [Hi|Hi].
  2:{ rewrite !lookup_ge_None_2; [done|rewrite length_app; cbn; lia|lia]. }
  rewrite queued_lookup by done. unfold d' at 1 2. cbn [deferred_csr0_tail deferred_csr0_queue
    set_deferred_csr0_head set_deferred_csr0_queue].
  destruct Hd as [Hq Hh Ht _]. rewrite nth_insert by lia.
  destruct (decide (i = length (queued d))) as [->|Hne].
  - rewrite Hl, Z2Nat.id, He by lia. rewrite decide_True by done.
    rewrite lookup_app_r, Hl, Nat.sub_diag by lia. done.
  - rewrite decide_False; [|unfold n in *; Z.to_euclidean_division_equations; lia].
    rewrite lookup_app_l, queued_lookup by lia. done.
Qed.

Lemma queued_nil d : queue_ok d → queued d = [] ↔ deferred_csr0_tail d = deferred_csr0_head d.
Proof.
  intros Hd. pose proof (queue_diff d Hd) as (Hn & _ & H0 & _). cbv zeta in *.
  rewrite <-length_zero_iff_nil, length_queued, <-H0. lia.
Qed.

Lemma queued_pop d x l : queue_ok d → queued d = x :: l →
  let d' := set_deferred_csr0_tail ((deferred_csr0_tail d + 1) mod 8) d in
  x = nth (Z.to_nat (deferred_csr0_tail d)) (deferred_csr0_queue d) 0 ∧ queue_ok d' ∧ queued d' = l.
Proof.
  intros Hd E d'. pose proof (queue_diff d Hd) as (Hn & _). cbv zeta in Hn.
  set (n := (deferred_csr0_head d - deferred_csr0_tail d) mod 8) in *.
  assert (Hl : length (queued d) = Z.to_nat n) by apply length_queued.
  assert (Hpos : 0 < n) by (rewrite E in Hl; cbn in Hl; lia).
  destruct Hd as [Hq Hh Ht Hf].
  assert (Hn' : (deferred_csr0_head d' - deferred_csr0_tail d') mod 8 = n - 1).
  { unfold d', n in *. cbn. Z.to_euclidean_division_equations. lia. }
  assert (Hl' : length (queued d') = length l).
  { rewrite length_queued, Hn'. rewrite E in Hl. cbn in Hl. lia. }
  split; [|split].
  - pose proof (queued_lookup d 0) as H0. rewrite E in H0. cbn in H0.
    rewrite Z.add_0_r, Z.mod_small in H0 by lia. specialize (H0 ltac:(lia)). congruence.
  - split; cbn; try done. apply Z.mod_pos_bound. lia.
  - apply list_eq. intros i. destruct (decide (i < length l)%nat) as [Hi|Hi].
    2:{ rewrite !lookup_ge_None_2; [done|lia|lia]. }
    rewrite queued_lookup by lia. unfold d'. cbn [deferred_csr0_tail deferred_csr0_queue
      set_deferred_csr0_tail]. rewrite <-mod8_step by done.
    pose proof (queued_lookup d (S i)) as HS. rewrite E in HS.
    change ((x :: l) !! S i) with (l !! i) in HS. rewrite HS by (cbn; lia). do 4 f_equal. lia.
Qed.

(** Postponed writes are 16-bit values. *)
Lemma queued_fits d : queue_ok d → Forall (fits 16) (queued d).
Proof.
  intros Hd. apply Forall_lookup. intros i x Hx. pose proof (lookup_lt_Some _ _ _ Hx) as Hi.
  rewrite queued_lookup in Hx by done. injection Hx as <-. destruct Hd as [Hq _ _ Hf].
  apply Forall_nth; [done|]. pose proof (Z.mod_pos_bound (deferred_csr0_tail d + Z.of_nat i) 8). lia.
Qed.

(** The state the daemon maintains: the chip and the queue. *)
Record mbx_ok (w : world) : Prop := MbxOk {
  mbx_chip : chip_ok w;
  mbx_queue : queue_ok (w_ddr3 w) }.

Lemma mbx_ok_frame w w' : ctl_frame w w' → mbx_ok w → mbx_ok w'.
Proof.
  intros F [Hc Hq]. split; [by apply (chip_ok_frame w)|].
  by apply (queue_ok_deferred (w_ddr3 w)); [apply F|].
Qed.

Lemma mbx_ok_wput stk off v w w' : mbx_ok w → fits 16 v →
  @chip_wput mbx_int (Some (mbx_on_transmit_cb stk)) off v w = Ok w' →
  mbx_ok w' ∧ env_frame w w'.
Proof.
  intros [Hc Hq] Hv H. pose proof (mbx_tx_ok stk) as Htx.
  assert (D : env_frame w w').
  { by eapply (@env_frame_wput _ _ (Some (mbx_on_transmit_cb stk)) Htx); [apply Hc| |]. }
  split; [|done]. split; [by eapply (@chip_ok_wput _ _ (Some (mbx_on_transmit_cb stk)) Htx)|].
  by apply (queue_ok_deferred (w_ddr3 w)); [apply D|].
Qed.

Lemma mbx_ok_pop w x l : mbx_ok w → queued (w_ddr3 w) = x :: l →
  mbx_ok (pop w) ∧ queued (w_ddr3 (pop w)) = l ∧ fits 16 x.
Proof.
  intros [Hc Hq] E. pose proof (queued_fits _ Hq) as Hf. rewrite E in Hf.
  apply Forall_cons in Hf as [Hx _]. destruct (queued_pop _ _ _ Hq E) as (_ & Hq' & E').
  split; [|done]. split; [|done]. destruct Hc as [[] Hi]. split; [|done]. by split.
Qed.

(** The drain executes the postponed writes in the order they were made. *)
Lemma drain_writes fuel stk w : mbx_ok w → (length (queued (w_ddr3 w)) ≤ fuel)%nat →
  drain fuel stk w = run_writes stk (queued (w_ddr3 w)) w.
Proof.
  revert w. induction fuel as [|fuel IH]; intros w Hw Hl.
  - assert (E : queued (w_ddr3 w) = []) by (apply nil_length_inv; lia).
    rewrite E. apply (queued_nil _ (mbx_queue w Hw)) in E. cbn [drain run_writes]. cbv zeta.
    by rewrite E, Z.eqb_refl.
  - cbn [drain]. cbv zeta. destruct (queued (w_ddr3 w)) as [|x l] eqn:E.
    + apply (queued_nil _ (mbx_queue w Hw)) in E. by rewrite E, Z.eqb_refl.
    + destruct (Z.eqb_spec (deferred_csr0_tail (w_ddr3 w)) (deferred_csr0_head (w_ddr3 w))) as [E0|_].
      { apply (queued_nil _ (mbx_queue w Hw)) in E0. congruence. }
      destruct (mbx_ok_pop _ _ _ Hw E) as (Hp & El & Hx).
      destruct (queued_pop _ _ _ (mbx_queue w Hw) E) as (<- & _ & _). cbn [run_writes].
      change (upd_ddr3 _ w) with (pop w).
      destruct (@chip_wput mbx_int (Some (mbx_on_transmit_cb stk)) 0 x (pop w)) as [w1|] eqn:Ew;
        cbn [mbind res_bind]; [|done].
      apply mbx_ok_wput in Ew as [Hw1 [D1 _]]; [|done|done].
      pose proof (release_frame w1) as F. rewrite IH.
      * f_equal. by rewrite (queued_deferred _ _ (frame_deferred _ _ F)), (queued_deferred _ _ D1).
      * by apply (mbx_ok_frame w1).
      * rewrite (queued_deferred _ _ (frame_deferred _ _ F)), (queued_deferred _ _ D1), El. cbn in Hl. lia.
Qed.

Lemma run_writes_ok stk l w w' : mbx_ok w → queued (w_ddr3 w) = l →
  run_writes stk l w = Ok w' → mbx_ok w' ∧ queued (w_ddr3 w') = [].
Proof.
  revert w. induction l as [|x l IH]; intros w Hw E; cbn [run_writes]; [by intros [= <-]|].
  intros H. bind_inv H. destruct (mbx_ok_pop _ _ _ Hw E) as (Hp & El & Hx').
  apply mbx_ok_wput in Hx as [Hw1 [D1 _]]; [|done|done]. pose proof (release_frame x0) as F.
  apply IH in H; [done|by apply (mbx_ok_frame x0)|].
  by rewrite (queued_deferred _ _ (frame_deferred _ _ F)), (queued_deferred _ _ D1).
Qed.

(** ** Lemmas: every step keeps the invariant *)

Lemma mbx_ok_upd f w : deferred (f (w_ddr3 w)) = deferred (w_ddr3 w) → mbx_ok w → mbx_ok (upd_ddr3 f w).
Proof. intros. by apply (mbx_ok_frame w); [apply upd_ddr3_frame|]. Qed.

Lemma mbx_ok_transmit stk w n w' : mbx_ok w → do_transmit stk w = Ok (n, w') → mbx_ok w'.
Proof.
  intros [Hc Hq] H. split; [by eapply chip_ok_transmit|].
  apply do_transmit_keeps in H as [_ []]; [|apply Hc]. by apply (queue_ok_deferred (w_ddr3 w)).
Qed.

Lemma mbx_ok_receive stk b n w w' : mbx_ok w → gotfunc stk b n w = Ok w' → mbx_ok w'.
Proof.
  intros [Hc Hq] H. split; [by eapply chip_ok_receive|].
  apply gotfunc_keeps in H as [_ []]; [|apply Hc]. by apply (queue_ok_deferred (w_ddr3 w)).
Qed.

Lemma service_bridge_ok stk w w' : mbx_ok w → service_bridge stk w = Ok w' → mbx_ok w'.
Proof.
  intros Hw. unfold service_bridge. cbv zeta. case_match; [by intros [= <-]|].
  set (w1 := mbx_reply _ _).
  assert (Hw1 : mbx_ok w1).
  { apply (mbx_ok_frame w); [|done]. etransitivity; [apply before_reply_frame|apply reply_frame]. }
  clearbody w1. case_match; [|by intros [= <-]]. intros Hx. bind_inv Hx. injection Hx as <-.
  apply mbx_ok_wput in Hx0 as [Hx0 _]; [|done|apply req_data_fits].
  assert (H2 : ∀ b : bool, mbx_ok (if b then assert_mbx_int x else x)).
  { intros []; [|done]. apply (mbx_ok_frame x); [apply assert_frame|done]. }
  case_match; [|apply H2]. eapply mbx_ok_frame; [apply release_frame|apply H2].
Qed.

Lemma enqueue_ok data w : mbx_ok w → fits 16 data → mbx_ok (upd_ddr3 (enqueue data) w).
Proof.
  intros [[Hw Hi] Hq] Hd. split; [split; [|done]|by apply queue_ok_enqueue].
  by destruct Hw.
Qed.

Lemma service_bridge_safe_ok stk w w' : mbx_ok w → service_bridge_safe stk w = Ok w' → mbx_ok w'.
Proof.
  intros Hw. unfold service_bridge_safe. cbv zeta. case_match; [by intros [= <-]|].
  set (w1 := mbx_reply _ w).
  assert (Hw1 : mbx_ok w1) by (apply (mbx_ok_frame w); [apply reply_frame|done]).
  clearbody w1. case_match; [|by intros [= <-]]. case_match.
  - intros Hx. by apply mbx_ok_wput in Hx as [Hx _]; [|done|apply req_data_fits].
  - intros [= <-]. case_match; [|done]. apply enqueue_ok; [done|apply req_data_fits].
Qed.

Lemma drain_ok stk w w' : mbx_ok w → drain 8 stk w = Ok w' → mbx_ok w' ∧ queued (w_ddr3 w') = [].
Proof.
  intros Hw. rewrite drain_writes by (done || rewrite length_queued;
    pose proof (queue_diff _ (mbx_queue w Hw)) as [? _]; cbv zeta in *; lia).
  by apply run_writes_ok.
Qed.

Lemma retry_transmit_ok stk w w' : mbx_ok w → retry_transmit stk w = Ok w' → mbx_ok w'.
Proof.
  intros Hw. unfold retry_transmit. case_match; [|by intros [= <-]]. cbv zeta.
  set (w1 := upd_ddr3 _ w). assert (Hw1 : mbx_ok w1) by (by apply mbx_ok_upd). clearbody w1.
  case_match.
  - intros Hx. bind_inv Hx. destruct x as [r w2]. injection Hx as <-.
    apply mbx_ok_transmit in Hx0; [|done]. case_match; [done|by apply mbx_ok_upd].
  - intros [= <-]. by apply mbx_ok_upd.
Qed.

Lemma hold_or_write_frame w : ctl_frame w (hold_or_write w).
Proof.
  unfold hold_or_write, write_mbx_int. cbv zeta. repeat case_match; try reflexivity.
  - by apply upd_ddr3_frame.
  - etransitivity; [|by apply upd_ddr3_frame]. by apply set_slot_frame.
Qed.

Lemma refresh_int_frame r w : ctl_frame w (refresh_int r w).2.
Proof. unfold refresh_int. repeat case_match; try reflexivity. by apply set_slot_frame. Qed.

Lemma mbx_pass_ok stk r w r' w' : mbx_ok w → mbx_pass stk (r, w) = Ok (r', w') →
  mbx_ok w' ∧ queued (w_ddr3 w') = [].
Proof.
  intros Hw. unfold mbx_pass. intros H. bind_inv H. bind_inv H. bind_inv H.
  apply service_bridge_ok in Hx; [|done]. apply drain_ok in Hx0 as [Hx0 E]; [|done].
  assert (F : ctl_frame x1 w').
  { etransitivity; [apply hold_or_write_frame|]. pose proof (refresh_int_frame r (hold_or_write x1)) as F.
    injection H as E'. by rewrite E' in F. }
  assert (E1 : queued (w_ddr3 x1) = []).
  { unfold retry_transmit in Hx1. destruct (0 <? _); [|by injection Hx1 as <-]. cbv zeta in Hx1.
    destruct (flag _ CSR0_TXON); [|injection Hx1 as <-; done].
    bind_inv Hx1. destruct x2 as [n w2].
    assert (E2 : queued (w_ddr3 w2) = []).
    { apply do_transmit_keeps in Hx2 as [_ []]; [|apply mbx_ok_upd, Hx0; done].
      by rewrite (queued_deferred _ _ run_deferred). }
    injection Hx1 as <-. by case_match. }
  split; [|by rewrite (queued_deferred _ _ (frame_deferred _ _ F))].
  apply (mbx_ok_frame x1); [done|]. by apply retry_transmit_ok in Hx1.
Qed.

(** ** Lemmas: every pass ends *)

Section fuel.
Context (stk : list Z) (Hl : length stk = 4096%nat) (Hb : Forall (fits 8) stk).

Lemma mbx_wput_fuel off v w : world_ok w → fits 16 v →
  @chip_wput mbx_int (Some (mbx_on_transmit_cb stk)) off v w ≠ Err OutOfFuel.
Proof.
  intros Hw Hv. apply (@chip_wput_fuel mbx_int); [done|done|]. intros f u [= <-] Hu.
  unfold mbx_on_transmit_cb. apply bind_fuel; [by apply do_transmit_fuel|]. by intros [].
Qed.

Lemma service_bridge_fuel w : mbx_ok w → service_bridge stk w ≠ Err OutOfFuel.
Proof.
  intros Hw. unfold service_bridge. cbv zeta. case_match; [done|]. set (w1 := mbx_reply _ _).
  assert (Hw1 : mbx_ok w1).
  { apply (mbx_ok_frame w); [|done]. etransitivity; [apply before_reply_frame|apply reply_frame]. }
  clearbody w1. case_match; [|done].
  apply bind_fuel; [|done]. apply mbx_wput_fuel; [apply Hw1|apply req_data_fits].
Qed.

Lemma run_writes_fuel l w : mbx_ok w → queued (w_ddr3 w) = l → run_writes stk l w ≠ Err OutOfFuel.
Proof.
  revert w. induction l as [|x l IH]; intros w Hw E; cbn [run_writes]; [done|].
  destruct (mbx_ok_pop _ _ _ Hw E) as (Hp & El & Hx). apply bind_fuel; [apply mbx_wput_fuel; [apply Hp|done]|].
  intros w1 H1. apply mbx_ok_wput in H1 as [Hw1 [D1 _]]; [|done|done]. pose proof (release_frame w1) as F.
  apply IH; [by apply (mbx_ok_frame w1)|].
  by rewrite (queued_deferred _ _ (frame_deferred _ _ F)), (queued_deferred _ _ D1).
Qed.

Lemma drain_fuel w : mbx_ok w → drain 8 stk w ≠ Err OutOfFuel.
Proof.
  intros Hw. rewrite drain_writes by (done || rewrite length_queued;
    pose proof (queue_diff _ (mbx_queue w Hw)) as [? _]; cbv zeta in *; lia).
  by apply run_writes_fuel.
Qed.

Lemma mbx_pass_fuel r w : mbx_ok w → mbx_pass stk (r, w) ≠ Err OutOfFuel.
Proof.
  intros Hw. unfold mbx_pass. apply bind_fuel; [by apply service_bridge_fuel|]. intros w1 H1.
  apply service_bridge_ok in H1; [|done]. apply bind_fuel; [by apply drain_fuel|]. intros w2 H2.
  apply drain_ok in H2 as [H2 _]; [|done]. apply bind_fuel; [|done].
  unfold retry_transmit. case_match; [|done]. cbv zeta. case_match; [|done].
  apply bind_fuel; [|by intros []]. apply do_transmit_fuel; [|done|done]. by apply mbx_ok_upd.
Qed.

Lemma mbx_rx_fuel rxbuf len w : mbx_ok w → Forall (fits 8) rxbuf → mbx_rx_step stk rxbuf len w ≠ Err OutOfFuel.
Proof. intros Hw Hr. unfold mbx_rx_step. case_match; [|done]. apply gotfunc_fuel; try done. apply Hw. Qed.
End fuel.

(** ** The system *)

(** The steps of the running system: the 68k writes board RAM, the FPGA posts a request,
    a request is served during a transfer, the main loop makes a pass, a frame arrives. *)
Inductive mbx_step (stk : list Z) : Z * world → Z * world → Prop :=
| mbx_ram r off v w :
    mbx_step stk (r, w) (r, set_w_win (put_ram_byte (w_boardram w) (w_win w) off v) w)
| mbx_post r req w : mbx_step stk (r, w) (r, set_slot MBX_REQ_OFF req w)
| mbx_safe r w w' : service_bridge_safe stk w = Ok w' → mbx_step stk (r, w) (r, w')
| mbx_loop s s' : mbx_pass stk s = Ok s' → mbx_step stk s s'
| mbx_rx r rxbuf len w w' : mbx_rx_step stk rxbuf len w = Ok w' → mbx_step stk (r, w) (r, w').

Lemma mbx_step_ok stk s s' : mbx_ok s.2 → mbx_step stk s s' → mbx_ok s'.2.
Proof.
  intros Hw Hst. destruct Hst as [r off v w|r req w|r w w' H|[r w] [r' w'] H|r rxbuf len w w' H];
    cbn [snd] in *.
  - destruct Hw as [[[] Hi] Hq]. split; [|done]. split; [|done].
    split; try done. by apply window_ok_put_byte.
  - apply (mbx_ok_frame w); [by apply set_slot_frame|done].
  - by eapply service_bridge_safe_ok.
  - by apply mbx_pass_ok in H as [H _].
  - unfold mbx_rx_step in H. revert H. case_match; [|by intros [= <-]]. by apply mbx_ok_receive.
Qed.

(** ** Lemmas: start-up *)

Lemma clear_slots_frame w : ctl_frame w (mbx_clear_slots w).
Proof. unfold mbx_clear_slots. cbv zeta. do 6 (apply slot_frame; [done|]). reflexivity. Qed.

Lemma clear_slots_iter_frame n w : ctl_frame w (Nat.iter n mbx_clear_slots w).
Proof.
  induction n as [|n IH]; [reflexivity|]. cbn [Nat.iter nat_rect].
  etransitivity; [apply IH|apply clear_slots_frame].
Qed.

Lemma mbx_ok_reset w : world_ok w → queue_ok (w_ddr3 w) → mbx_ok (registers_reset w).
Proof. intros Hw Hq. split; [by apply registers_reset_ok|exact Hq]. Qed.

Lemma mbx_ok_default_mac host_mac w : mbx_ok w → length host_mac = 6%nat →
  Forall (fits 8) host_mac → mbx_ok (mbx_set_default_mac host_mac w).
Proof.
  intros [[Hw Hi] Hq] Hl Hb. split; [split; [|exact Hi]|exact Hq].
  unfold mbx_set_default_mac, registers_set_fakemac. cbv zeta.
  set (mac := [_; _; _; _; _; _]).
  assert (Hm : Forall (fits 8) mac).
  { repeat (apply Forall_cons; split); first [done|by split|by apply nth_fits]. }
  destruct Hw. split; try done. destruct reg_ok. by split.
Qed.

Lemma queue_ok_init : queue_ok ddr3_init.
Proof. split; try done. by repeat constructor. Qed.

Lemma mbx_setup_ok host_mac w : world_ok w → queue_ok (w_ddr3 w) →
  length host_mac = 6%nat → Forall (fits 8) host_mac → mbx_ok (mbx_setup host_mac w).
Proof.
  intros Hw Hq Hl Hb. unfold mbx_setup. cbv zeta. pose proof (mbx_ok_reset w Hw Hq) as H1.
  revert H1. generalize (registers_reset w). intros w2 H2.
  eapply mbx_ok_frame; [apply (slot_frame MBX_MAC_OFF); [done|reflexivity]|].
  by apply mbx_ok_default_mac.
Qed.

Lemma mbx_start_ok host_mac w : world_ok w → w_ddr3 w = ddr3_init →
  length host_mac = 6%nat → Forall (fits 8) host_mac → mbx_ok (mbx_start host_mac w).
Proof.
  intros Hw Hd Hl Hb. pose proof (clear_slots_iter_frame 5 w) as F.
  apply mbx_setup_ok; [by apply (ctl_frame_ok w)| |done|done].
  apply (queue_ok_deferred (w_ddr3 w)); [apply F|]. rewrite Hd. apply queue_ok_init.
Qed.

(** ** Properties *)

(** C19: From start-up on, whatever requests the FPGA posts, whatever the 68k writes to
    board RAM and whatever frames arrive, however many requests [service_bridge_safe]
    answers between these steps, after every step of the mailbox daemon the chip state is
    well-formed, CSR0 is consistent, and the queue of postponed writes is well-formed; and
    a pass of the main loop during which no request is postponed leaves the queue empty.
    No pass and no reception runs out of the rounds given to its loops, the eight of the
    drain included.  A pass and the reception of a frame are single steps here; for single accesses see
    [mbx_sections_atomic] and [deferred_queue_threads]. *)
Theorem mbx_invariant (stk host_mac : list Z) (w w' : world) (r : Z)
  (Hw : world_ok w) (Hd : w_ddr3 w = ddr3_init)
  (Hl : length host_mac = 6%nat) (Hb : Forall (fits 8) host_mac)
  (Hrun : rtc (mbx_step stk) (0, mbx_start host_mac w) (r, w')) :
  world_ok w' ∧ csr0_inv (csr0 w') ∧ queue_ok (w_ddr3 w') ∧
  (∀ r2 w2, mbx_pass stk (r, w') = Ok (r2, w2) → queued (w_ddr3 w2) = []) ∧
  (length stk = 4096%nat → Forall (fits 8) stk →
   mbx_pass stk (r, w') ≠ Err OutOfFuel ∧
   ∀ rxbuf len, Forall (fits 8) rxbuf → mbx_rx_step stk rxbuf len w' ≠ Err OutOfFuel).
Proof.
  pose proof (mbx_start_ok host_mac w Hw Hd Hl Hb) as Hs.
  assert (Hok : mbx_ok (r, w').2).
  { assert (Hs0 : mbx_ok (0, mbx_start host_mac w).2) by done. revert Hs0. clear Hs.
    induction Hrun as [|x y z Hxy _ IH]; intros Hs; [done|]. apply IH. by eapply mbx_step_ok. }
  cbn [snd] in Hok. destruct Hok as [[H1 H2] H3]. split_and!; try done.
  - intros r2 w2 Hp. by apply mbx_pass_ok in Hp as [_ Hp].
  - intros Hls Hbs. split; [by apply mbx_pass_fuel|]. intros rxbuf len Hx. by apply mbx_rx_fuel.
Qed.

(** The state in which [service_bridge] performs a write: the reply has been posted. *)
Definition replied (addr data : Z) (w : world) : world :=
  mbx_reply 0 (before_reply true addr data 0 w).

(** The request word of a 68k access (DESIGN.md). *)
Definition reg_req (rw : bool) (addr data : Z) : Z :=
  Z.lor (Z.lor (Z.lor 1 (Z.shiftl (Z.b2z rw) 1)) (Z.shiftl addr 2)) (Z.shiftl data 10).

Lemma reg_req_decode rw addr data : fits 8 addr → fits 16 data →
  let req := reg_req rw addr data in
  flag req 1 = true ∧ req_rw req = rw ∧ req_addr req = addr ∧ req_data req = data ∧ fits 64 req.
Proof.
  intros Ha Hd req. unfold req, reg_req. set (d := Z.lor 1 (Z.shiftl (Z.b2z rw) 1)).
  assert (D : fits 2 d ∧ Z.testbit d 0 = true ∧ Z.testbit d 1 = rw) by (unfold d; by destruct rw).
  destruct D as (Df & D0 & D1).
  assert (Sh : ∀ x k i, i < k → Z.testbit (Z.shiftl x k) i = false).
  { intros x k i Hi. destruct (decide (0 ≤ i)); [|apply Z.testbit_neg_r; lia].
    rewrite shiftl_testbit by done. apply Z.testbit_neg_r. lia. }
  unfold req_rw, req_addr, req_data. split_and!.
  - flags_to_bits. rewrite !Z.lor_spec, !Sh by lia. by rewrite !orb_false_r.
  - flags_to_bits. rewrite shiftr_testbit, !Z.lor_spec, !Sh by lia. by rewrite !orb_false_r.
  - apply (fits_bits_inj 8); [lia|apply fits_land_r; [lia|by split]|done|]. intros i Hi.
    change 0xFF with (Z.ones 8). push_bits. destruct (Z.ltb_spec i 8); [|lia].
    rewrite (fits_testbit 2 d) by (done || lia). rewrite (Z.testbit_neg_r data) by lia.
    rewrite andb_true_r, orb_false_r. simpl. f_equal. lia.
  - apply (fits_bits_inj 16); [lia|apply fits_land_r; [lia|by split]|done|]. intros i Hi.
    change 0xFFFF with (Z.ones 16). push_bits. destruct (Z.ltb_spec i 16); [|lia].
    rewrite (fits_testbit 2 d), (fits_testbit 8 addr) by (done || lia).
    rewrite andb_true_r. simpl. f_equal. lia.
  - apply fits_lor; [lia|apply fits_lor; [lia| |]|].
    + by apply (fits_mono 2).
    + apply fits_shiftl; [lia..|]. by apply (fits_mono 8).
    + apply fits_shiftl; [lia..|]. by apply (fits_mono 16).
Qed.

(** The reply is in the slots, and nothing of the chip has changed. *)
Lemma mbx_reply_slots v w : fits 16 v →
  slot (mbx_reply v w) MBX_RSP_OFF = Z.lor 1 (Z.shiftl v 1) ∧ slot (mbx_reply v w) MBX_REQ_OFF = 0.
Proof.
  intros Hv. unfold mbx_reply. rewrite slot_set_ne, !slot_set_eq by mbx_lia. split; [|done].
  apply u64_small, fits_lor; [lia|by split|]. apply fits_shiftl; [lia..|]. by apply (fits_mono 16).
Qed.

(** C20: A posted register access is answered as the 68k meant it.  A read is answered with
    [chip_wget] of the port, the request is cleared, and neither the chip nor the board
    RAM nor the network notices.  A write is acknowledged first and then performed: the
    acknowledgement is posted while the chip still has its old state, and when the write
    has been executed the reply is still in the slot and the request is clear. *)
Theorem mbx_executes (stk : list Z) (addr data : Z) (w : world)
  (Hw : mbx_ok w) (Ha : fits 8 addr) (Hd : fits 16 data) :
  (∃ w', service_bridge stk (set_slot MBX_REQ_OFF (reg_req false addr data) w) = Ok w' ∧
     slot w' MBX_RSP_OFF = Z.lor 1 (Z.shiftl (chip_wget addr w) 1) ∧ slot w' MBX_REQ_OFF = 0 ∧
     w_reg w' = w_reg w ∧ w_sent w' = w_sent w ∧ ∀ a, ram_byte w' a = ram_byte w a) ∧
  (let w0 := set_slot MBX_REQ_OFF (reg_req true addr data) w in
   w_reg (replied addr data w0) = w_reg w ∧
   ∀ w2, @chip_wput mbx_int (Some (mbx_on_transmit_cb stk)) addr data (replied addr data w0) = Ok w2 →
   ∃ w', service_bridge stk w0 = Ok w' ∧
     w_reg w' = w_reg w2 ∧ w_sent w' = w_sent w2 ∧ (∀ a, ram_byte w' a = ram_byte w2 a) ∧
     slot w' MBX_RSP_OFF = 1 ∧ slot w' MBX_REQ_OFF = 0).
Proof.
  assert (Hpost : ∀ rw, let w0 := set_slot MBX_REQ_OFF (reg_req rw addr data) w in
    ctl_frame w w0 ∧ slot w0 MBX_REQ_OFF = reg_req rw addr data).
  { intros rw w0. split; [by apply set_slot_frame|]. unfold w0. rewrite slot_set_eq.
    by apply u64_small, reg_req_decode. }
  assert (Hrep : ∀ rw v w0, ctl_frame w w0 → ctl_frame w (mbx_reply v (before_reply rw addr data v w0))).
  { intros rw v w0 F. etransitivity; [apply F|]. etransitivity; [apply before_reply_frame|apply reply_frame]. }
  split.
  - destruct (Hpost false) as [F E]. destruct (reg_req_decode false addr data Ha Hd) as (D1 & D2 & D3 & D4 & _).
    unfold service_bridge. rewrite E, D1, D2, D3, D4. cbv zeta. cbn [negb].
    eexists. split; [done|]. specialize (Hrep false (chip_wget addr w) _ F).
    destruct (mbx_reply_slots (chip_wget addr w) (before_reply false addr data (chip_wget addr w)
      (set_slot MBX_REQ_OFF (reg_req false addr data) w))) as [S1 S2];
      [apply chip_wget_fits; apply Hw|].
    split_and!; [exact S1|exact S2|apply Hrep|apply Hrep|]. intros a. by apply ctl_frame_ram_byte.
  - intros w0. destruct (Hpost true) as [F E]. fold w0 in F, E. unfold replied.
    specialize (Hrep true 0 _ F). split; [apply Hrep|]. intros w2 Hx.
    destruct (reg_req_decode true addr data Ha Hd) as (D1 & D2 & D3 & D4 & _).
    unfold service_bridge. rewrite E, D1, D2, D3, D4. cbv zeta. cbn [negb]. rewrite Hx.
    cbn [mbind res_bind]. eexists. split; [done|].
    apply mbx_ok_wput in Hx as [Hw2 (_ & B & Q)]; [|by apply (mbx_ok_frame w)|done].
    set (w1 := mbx_reply 0 _) in *.
    destruct (mbx_reply_slots 0 (before_reply true addr data 0 w0)) as [S1 S2]; [by split|].
    assert (T : ∀ b c : bool, let u := if b then assert_mbx_int w2 else w2 in
      let u' := if c then release_hold u else u in
      ctl_frame w2 u' ∧ quiet w2 u').
    { intros b c u u'. assert (F1 : ctl_frame w2 u ∧ quiet w2 u).
      { unfold u. destruct b; [split; [apply assert_frame|apply assert_quiet]|split; [reflexivity|done]]. }
      unfold u'. destruct c; [|done]. split; [etransitivity; [apply F1|apply release_frame]|].
      unfold release_hold. case_match; apply F1. }
    match goal with |- context [if ?b then assert_mbx_int w2 else w2] =>
      match goal with |- context [if ?c then release_hold _ else _] => destruct (T b c) as [F2 Q2] end end.
    cbv zeta in F2, Q2. split_and!; [apply F2|apply F2|intros; by apply ctl_frame_ram_byte|..].
    + rewrite (quiet_slot _ _ _ (frame_boardram _ _ F2) Q2), (quiet_slot _ _ _ B Q) by mbx_lia. done.
    + rewrite (quiet_slot _ _ _ (frame_boardram _ _ F2) Q2), (quiet_slot _ _ _ B Q) by mbx_lia. done.
Qed.

(** ** Lemmas: served during a transfer *)

(** The 68k writes the values [l] to the port [addr] one after the other while a transfer
    waits. *)
Fixpoint serve_writes (stk : list Z) (l : list (Z * Z)) (w : world) : res world :=
  match l with
  | [] => Ok w
  | (addr, x) :: l =>
      w ← service_bridge_safe stk (set_slot MBX_REQ_OFF (reg_req true addr x) w);
      serve_writes stk l w
  end.

Lemma safe_request stk addr x w : fits 8 addr → fits 16 x →
  service_bridge_safe stk (set_slot MBX_REQ_OFF (reg_req true addr x) w)
  = let w1 := mbx_reply 0 (set_slot MBX_REQ_OFF (reg_req true addr x) w) in
    if addr =? A2065_RAP_OFF then Ok (upd_reg (set_rap (Z.land x 0x7f)) w1)
    else Ok (if addr =? 0 then upd_ddr3 (enqueue x) w1 else w1).
Proof.
  intros Ha Hx. destruct (reg_req_decode true addr x Ha Hx) as (D1 & D2 & D3 & D4 & D5).
  unfold service_bridge_safe. rewrite slot_set_eq, (u64_small (reg_req true addr x) D5).
  rewrite D1, D2, D3, D4. cbv zeta. cbn [negb].
  destruct (addr =? A2065_RAP_OFF) eqn:E; [|done]. unfold chip_wput. by rewrite E.
Qed.

Lemma posted_frame addr x w :
  ctl_frame w (mbx_reply 0 (set_slot MBX_REQ_OFF (reg_req true addr x) w)).
Proof. etransitivity; [by apply (set_slot_frame MBX_REQ_OFF)|apply reply_frame]. Qed.

(** A data port write is appended, or dropped when seven are waiting. *)
Lemma safe_defers stk x w : mbx_ok w → fits 16 x →
  ∃ w', serve_writes stk [(0, x)] w = Ok w' ∧ mbx_ok w' ∧
    queued (w_ddr3 w') = take 7 (queued (w_ddr3 w) ++ [x]) ∧ w_reg w' = w_reg w ∧
    slot w' MBX_RSP_OFF = 1.
Proof.
  intros Hw Hx. cbn [serve_writes]. rewrite safe_request by (done || by split). cbv zeta.
  cbn [Z.eqb A2065_RAP_OFF mbind res_bind].
  pose proof (posted_frame 0 x w) as F. set (w1 := mbx_reply 0 _) in *.
  assert (Hw1 : mbx_ok w1) by (by apply (mbx_ok_frame w)).
  eexists. split; [done|]. split; [by apply enqueue_ok|]. split; [|split; [apply F|]].
  - change (w_ddr3 (upd_ddr3 (enqueue x) w1)) with (enqueue x (w_ddr3 w1)).
    rewrite queued_enqueue by apply Hw1. rewrite (queued_deferred _ _ (frame_deferred _ _ F)).
    assert (Hl : (length (queued (w_ddr3 w)) ≤ 7)%nat).
    { rewrite length_queued. pose proof (queue_diff _ (mbx_queue w Hw)) as [? _]. cbv zeta in *. lia. }
    destruct (Nat.ltb_spec (length (queued (w_ddr3 w))) 7).
    + rewrite take_ge; [done|]. rewrite length_app. cbn. lia.
    + rewrite take_app_length'; [done|lia].
  - change (slot (upd_ddr3 (enqueue x) w1) MBX_RSP_OFF) with (slot w1 MBX_RSP_OFF).
    by apply (mbx_reply_slots 0).
Qed.

Lemma take_take_app {A} n (k l : list A) : take n (take n k ++ l) = take n (k ++ l).
Proof.
  rewrite !take_app, take_take, Nat.min_id, length_take. do 2 f_equal. lia.
Qed.

Lemma serve_writes_cons stk a x l w w' : serve_writes stk [(a, x)] w = Ok w' →
  serve_writes stk ((a, x) :: l) w = serve_writes stk l w'.
Proof. cbn [serve_writes]. intros H. bind_inv H. injection H as ->. by rewrite Hx. Qed.

(** C36: The queue of postponed writes is a FIFO of seven entries: data port writes that
    arrive during a transfer are acknowledged at once and wait in the order they came,
    those beyond the seventh are dropped although they were acknowledged, none of them
    touches the chip, and the next pass of the main loop performs the waiting ones in
    that order, each exactly once. *)
Theorem deferred_fifo (stk l : list Z) (w : world) (Hw : mbx_ok w) (Hl : Forall (fits 16) l) :
  let kept := take 7 (queued (w_ddr3 w) ++ l) in
  ∃ w', serve_writes stk (pair 0 <$> l) w = Ok w' ∧ queued (w_ddr3 w') = kept ∧
    w_reg w' = w_reg w ∧ (l ≠ [] → slot w' MBX_RSP_OFF = 1) ∧
    drain 8 stk w' = run_writes stk kept w' ∧
    ∀ w2, drain 8 stk w' = Ok w2 → queued (w_ddr3 w2) = [].
Proof.
  cbv zeta.
  assert (H : ∃ w', serve_writes stk (pair 0 <$> l) w = Ok w' ∧ mbx_ok w' ∧
    queued (w_ddr3 w') = take 7 (queued (w_ddr3 w) ++ l) ∧ w_reg w' = w_reg w ∧
    (l ≠ [] → slot w' MBX_RSP_OFF = 1)).
  { revert w Hw. induction Hl as [|x l Hx Hl IH]; intros w Hw.
    - exists w. split_and!; try done. rewrite app_nil_r, take_ge; [done|]. rewrite length_queued.
      pose proof (queue_diff _ (mbx_queue w Hw)) as [? _]. cbv zeta in *. lia.
    - destruct (safe_defers stk x w Hw Hx) as (w1 & E1 & Hw1 & Q1 & R1 & S1).
      destruct (IH w1 Hw1) as (w2 & E2 & Hw2 & Q2 & R2 & S2). exists w2.
      rewrite fmap_cons, (serve_writes_cons _ _ _ _ _ _ E1). split_and!; try done; [|congruence|].
      + by rewrite Q2, Q1, take_take_app, <-(assoc_L (++)).
      + intros _. destruct l; [|by apply S2]. cbn in E2. by injection E2 as <-. }
  destruct H as (w' & E & Hw' & Q & R & S). exists w'. split_and!; try done.
  - rewrite drain_writes, Q; [done|done|]. rewrite Q, length_take. lia.
  - intros w2 Hd. by apply drain_ok in Hd as [_ Hd].
Qed.

(** A postponed write can land in the wrong register: data port writes wait but address
    port writes do not, so a driver that selects register [n1], writes it and selects
    [n2], all during one transfer, has its value stored in [n2], and [n1] keeps its old
    value. *)
Theorem deferred_wrong_register (stk : list Z) (n1 n2 v : Z) (w : world)
  (Hw : mbx_ok w) (Hq : queued (w_ddr3 w) = []) (Hv : fits 16 v)
  (H1 : 4 ≤ n1 < 128) (H2 : 4 ≤ n2 < 128) (Hne : n1 ≠ n2) (Hs : n2 ∉ special_csrs) :
  ∃ w1 w2, serve_writes stk [(A2065_RAP_OFF, n1); (A2065_RDP_OFF, v); (A2065_RAP_OFF, n2)] w = Ok w1 ∧
    drain 8 stk w1 = Ok w2 ∧
    registers_csr n2 w2 = v ∧ registers_csr n1 w2 = registers_csr n1 w.
Proof.
  assert (F7 : ∀ n, 4 ≤ n < 128 → fits 16 n ∧ Z.land n 0x7f = n).
  { intros n Hn. split; [unfold fits; lia|]. change 0x7f with (Z.ones 7). rewrite Z.land_ones by lia.
    apply Z.mod_small. lia. }
  destruct (F7 n1 H1) as [Hf1 E1], (F7 n2 H2) as [Hf2 E2].
  assert (R : ∀ n u, 4 ≤ n < 128 → mbx_ok u → ∃ u', serve_writes stk [(A2065_RAP_OFF, n)] u = Ok u' ∧
    mbx_ok u' ∧ w_reg u' = set_rap n (w_reg u) ∧ deferred (w_ddr3 u') = deferred (w_ddr3 u)).
  { intros n u Hn Hu. destruct (F7 n Hn) as [Hf En]. cbn [serve_writes].
    rewrite safe_request by (done || by split). rewrite En. cbv zeta. rewrite Z.eqb_refl.
    pose proof (posted_frame A2065_RAP_OFF n u) as F. set (u1 := mbx_reply 0 _) in *.
    eexists. split; [done|]. split; [|split; [|apply F]].
    - apply (mbx_ok_frame _ _ F) in Hu as [[Hc Hi] Hu]. split; [|done]. split; [|done].
      destruct Hc. split; try done. destruct reg_ok. split; try done. unfold fits. cbn. lia.
    - change (set_rap n (w_reg u1) = set_rap n (w_reg u)). by rewrite (frame_reg _ _ F). }
  destruct (R n1 w H1 Hw) as (u1 & S1 & O1 & W1 & D1).
  destruct (safe_defers stk v u1 O1 Hv) as (u2 & S2 & O2 & Q2 & W2 & _).
  destruct (R n2 u2 H2 O2) as (u3 & S3 & O3 & W3 & D3).
  assert (Q3 : queued (w_ddr3 u3) = [v]).
  { by rewrite (queued_deferred _ _ D3), Q2, (queued_deferred _ _ D1), Hq. }
  assert (Hd : @chip_wput mbx_int (Some (mbx_on_transmit_cb stk)) 0 v (pop u3)
    = Ok (upd_reg (set_csr_at (Z.to_nat n2) v) (pop u3))).
  { unfold chip_wput. cbn [Z.eqb A2065_RAP_OFF].
    change (rap (w_reg (pop u3))) with (rap (w_reg u3)). rewrite W3.
    cbn [rap set_rap]. unfold RAP_SIZE.
    destruct (Z.leb_spec 128 n2), (Z.eqb_spec n2 0), (Z.eqb_spec n2 1), (Z.eqb_spec n2 2),
      (Z.eqb_spec n2 3); try lia. unfold upd_reg. by rewrite wput_ext_storage. }
  exists u3, (release_hold (upd_reg (set_csr_at (Z.to_nat n2) v) (pop u3))). split_and!.
  - by rewrite (serve_writes_cons _ _ _ _ _ _ S1), (serve_writes_cons _ _ _ _ _ _ S2).
  - rewrite drain_writes by (done || rewrite Q3; cbn; lia). rewrite Q3. cbn [run_writes]. by rewrite Hd.
  - unfold registers_csr, RAP_SIZE. rewrite (frame_reg _ _ (release_frame _)).
    destruct (Z.leb_spec 0 n2), (Z.ltb_spec n2 128); try lia. cbn [andb].
    apply csr_at_set_len; [|lia]. apply (csr_len _ (reg_ok _ (proj1 (mbx_chip _ O3)))).
  - unfold registers_csr, RAP_SIZE. rewrite (frame_reg _ _ (release_frame _)).
    destruct (Z.leb_spec 0 n1), (Z.ltb_spec n1 128); try lia. cbn [andb].
    change (csr_at (Z.to_nat n1) (set_csr_at (Z.to_nat n2) v (w_reg u3)) = csr_at (Z.to_nat n1) (w_reg w)).
    rewrite csr_at_set_ne by lia. by rewrite W3, W2, W1.
Qed.

(** ** The interrupt line settles *)

Fixpoint mbx_passes (n : nat) (stk : list Z) (s : Z * world) : res (Z * world) :=
  match n with O => Ok s | S n => s ← mbx_pass stk s; mbx_passes n stk s end.

(** Nothing to do: no request, no postponed write, no transmission to retry; and
    [last_mbx_int] is what the slot holds, or, as at start-up, neither level. *)
Record at_rest (w : world) : Prop := AtRest {
  rest_req : flag (slot w MBX_REQ_OFF) 1 = false;
  rest_queue : deferred_csr0_tail (w_ddr3 w) = deferred_csr0_head (w_ddr3 w);
  rest_retry : tdmd_retry (w_ddr3 w) ≤ 0;
  rest_line : last_mbx_int (w_ddr3 w) = slot w MBX_INT_OFF ∨
    last_mbx_int (w_ddr3 w) ≠ 0 ∧ last_mbx_int (w_ddr3 w) ≠ 1 }.

Lemma mbx_pass_idle stk r w : flag (slot w MBX_REQ_OFF) 1 = false →
  deferred_csr0_tail (w_ddr3 w) = deferred_csr0_head (w_ddr3 w) → tdmd_retry (w_ddr3 w) ≤ 0 →
  mbx_pass stk (r, w) = Ok (refresh_int r (hold_or_write w)).
Proof.
  intros H1 H2 H3. unfold mbx_pass, service_bridge. cbv zeta. rewrite H1. cbn [negb mbind res_bind].
  cbn [drain]. cbv zeta. rewrite H2, Z.eqb_refl. cbn [mbind res_bind]. unfold retry_transmit.
  by destruct (Z.ltb_spec 0 (tdmd_retry (w_ddr3 w))); [lia|].
Qed.

Lemma mbx_pass_rest stk r w : at_rest w →
  mbx_pass stk (r, w) = Ok (refresh_int r (hold_or_write w)).
Proof. intros []. by apply mbx_pass_idle. Qed.

(** A pass at rest keeps the chip; it counts the hold down or sets the line. *)
Lemma pass_rest_step r w : at_rest w →
  let w' := (refresh_int r (hold_or_write w)).2 in
  at_rest w' ∧ w_reg w' = w_reg w ∧
  if 0 <? int_hold (w_ddr3 w)
  then int_hold (w_ddr3 w') = int_hold (w_ddr3 w) - 1 ∧ slot w' MBX_INT_OFF = slot w MBX_INT_OFF
  else slot w' MBX_INT_OFF = int_level (csr0 w).
Proof.
  intros [H1 H2 H3 H4]. cbv zeta. set (u := hold_or_write w).
  assert (Hu : at_rest u ∧ w_reg u = w_reg w ∧ if 0 <? int_hold (w_ddr3 w)
    then int_hold (w_ddr3 u) = int_hold (w_ddr3 w) - 1 ∧ slot u MBX_INT_OFF = slot w MBX_INT_OFF
    else slot u MBX_INT_OFF = int_level (csr0 w)).
  { unfold u, hold_or_write. destruct (0 <? _); [by split|]. unfold write_mbx_int. cbv zeta.
    destruct (Z.eqb_spec (int_level (csr0 w)) (last_mbx_int (w_ddr3 w))) as [E|E].
    - split; [by split|]. split; [done|]. destruct H4 as [H4|[N0 N1]]; [congruence|].
      exfalso. unfold int_level in E. case_match; lia.
    - set (v := int_level (csr0 w)). change (slot (upd_ddr3 ?f ?x) ?o) with (slot x o).
      assert (Hs : slot (set_slot MBX_INT_OFF v w) MBX_INT_OFF = v).
      { rewrite slot_set_eq. unfold v, int_level. by case_match. }
      split; [|by split]. split; try done.
      + change (flag (slot (set_slot MBX_INT_OFF v w) MBX_REQ_OFF) 1 = false).
        by rewrite slot_set_ne by mbx_lia.
      + left. by symmetry. }
  clearbody u. destruct Hu as (Ru & Hr & Hs).
  unfold refresh_int. destruct (Z.eqb_spec (last_mbx_int (w_ddr3 u)) 1) as [E|]; cbn [snd];
    [|exact (conj Ru (conj Hr Hs))].
  destruct (10 <=? r + 1); cbn [snd]; [|exact (conj Ru (conj Hr Hs))].
  destruct Ru as [R1 R2 R3 [R4|[_ ?]]]; [|done].
  assert (Hl : slot (set_slot MBX_INT_OFF 1 u) MBX_INT_OFF = slot u MBX_INT_OFF)
    by (rewrite slot_set_eq, <-R4, E; done).
  split; [split; try done|split; [done|]].
  - by rewrite slot_set_ne by mbx_lia.
  - left. change (last_mbx_int (w_ddr3 u) = slot (set_slot MBX_INT_OFF 1 u) MBX_INT_OFF). congruence.
  - rewrite Hl. exact Hs.
Qed.

(** Why the hypothesis on [last_mbx_int]: with the slot high and the variable low no pass
    lowers the line while CSR0 asks for no interrupt. *)
Lemma mbx_line_sticks stk n r w : flag (slot w MBX_REQ_OFF) 1 = false →
  deferred_csr0_tail (w_ddr3 w) = deferred_csr0_head (w_ddr3 w) → tdmd_retry (w_ddr3 w) ≤ 0 →
  last_mbx_int (w_ddr3 w) = 0 → int_level (csr0 w) = 0 →
  ∃ r' w', mbx_passes n stk (r, w) = Ok (r', w') ∧ slot w' MBX_INT_OFF = slot w MBX_INT_OFF.
Proof.
  revert r w. induction n as [|n IH]; intros r w H1 H2 H3 H4 H5; [by exists r, w|]. cbn [mbx_passes].
  rewrite mbx_pass_idle by done. cbn [mbind res_bind].
  assert (E : refresh_int r (hold_or_write w)
    = (0, if 0 <? int_hold (w_ddr3 w) then upd_ddr3 (λ d, set_int_hold (int_hold d - 1) d) w else w)).
  { unfold refresh_int, hold_or_write, write_mbx_int. cbv zeta. rewrite H5, H4, Z.eqb_refl.
    destruct (0 <? int_hold (w_ddr3 w)); [|by rewrite H4].
    change (last_mbx_int (w_ddr3 (upd_ddr3 _ w))) with (last_mbx_int (w_ddr3 w)). by rewrite H4. }
  rewrite E. destruct (0 <? int_hold (w_ddr3 w)); [|by apply IH].
  by apply (IH 0 (upd_ddr3 (λ d, set_int_hold (int_hold d - 1) d) w)).
Qed.

(** C37: The interrupt line settles: when there is nothing to do, the daemon holds the line
    for [int_hold] more passes, during which it does not change, and the pass after that
    sets it to what CSR0 says; with the hold of 100 that takes at most 101 passes.  This
    needs [last_mbx_int] to be the level in the slot, or neither level, as at start-up:
    see [mbx_line_sticks] for what happens otherwise. *)
Theorem mbx_int_settles (stk : list Z) (r : Z) (w : world) (Hr : at_rest w)
  (Hh : 0 ≤ int_hold (w_ddr3 w) ≤ INT_HOLD_ITER) :
  ∃ n r' w', (n ≤ 101)%nat ∧ mbx_passes n stk (r, w) = Ok (r', w') ∧
    slot w' MBX_INT_OFF = int_level (csr0 w) ∧ w_reg w' = w_reg w ∧
    ∀ k, (k < n)%nat → ∃ rk wk, mbx_passes k stk (r, w) = Ok (rk, wk) ∧
      slot wk MBX_INT_OFF = slot w MBX_INT_OFF.
Proof.
  assert (H : ∀ h r w, at_rest w → int_hold (w_ddr3 w) = Z.of_nat h →
    ∃ r' w', mbx_passes (S h) stk (r, w) = Ok (r', w') ∧ slot w' MBX_INT_OFF = int_level (csr0 w) ∧
      w_reg w' = w_reg w ∧ ∀ k, (k < S h)%nat → ∃ rk wk, mbx_passes k stk (r, w) = Ok (rk, wk) ∧
      slot wk MBX_INT_OFF = slot w MBX_INT_OFF).
  { clear. induction h as [|h IH]; intros r w Hr Hh; cbn [mbx_passes]; rewrite mbx_pass_rest by done;
      cbn [mbind res_bind]; destruct (pass_rest_step r w Hr) as (Hr' & Hreg & Hs); rewrite Hh in Hs;
      destruct (refresh_int r (hold_or_write w)) as [r1 w1] eqn:E; cbn [snd] in *.
    - exists r1, w1. split_and!; try done. intros k Hk. assert (k = 0%nat) as -> by lia. by exists r, w.
    - destruct (Z.ltb_spec 0 (Z.of_nat (S h))); [|lia]. destruct Hs as [Hs1 Hs2].
      destruct (IH r1 w1 Hr' ltac:(lia)) as (r' & w' & E1 & E2 & E3 & E4). exists r', w'.
      assert (C : csr0 w1 = csr0 w) by (unfold csr0; by rewrite Hreg).
      split_and!; [exact E1|congruence|congruence|]. intros [|k] Hk; [by exists r, w|].
      cbn [mbx_passes]. rewrite mbx_pass_rest by done. cbn [mbind res_bind]. rewrite E.
      destruct (E4 k ltac:(lia)) as (rk & wk & F1 & F2). exists rk, wk. split; [done|congruence]. }
  destruct (H (Z.to_nat (int_hold (w_ddr3 w))) r w Hr ltac:(lia)) as (r' & w' & H1 & H2 & H3 & H4).
  exists (S (Z.to_nat (int_hold (w_ddr3 w)))), r', w'. split; [unfold INT_HOLD_ITER in *; lia|]. done.
Qed.

(** ** Examples *)

Definition ex_mbx_mac : list Z := [2; 0; 0; 1; 2; 3].
Definition ex_mbx_boot : world := boot_world ex_macs ∅.
Definition ex_mbx_started : world := mbx_start ex_mbx_mac ex_mbx_boot.
Definition ex_mbx_stk : list Z := replicate 4096 0.

Lemma ex_mbx_boot_ok : world_ok ex_mbx_boot.
Proof. apply boot_world_ok; [apply ex_macs_ok|apply window_ok_empty]. Qed.

Lemma ex_mbx_started_ok : mbx_ok ex_mbx_started.
Proof. by apply mbx_start_ok; [apply ex_mbx_boot_ok| | |apply bytesb_Forall]. Qed.

Lemma mbx_invariant_witness : ∃ r w',
  mbx_pass ex_mbx_stk (0, set_slot MBX_REQ_OFF (reg_req true 0 CSR0_INEA) ex_mbx_started) = Ok (r, w') ∧
  world_ok w'.
Proof.
  destruct (is_ok_Ok (mbx_pass ex_mbx_stk
    (0, set_slot MBX_REQ_OFF (reg_req true 0 CSR0_INEA) ex_mbx_started))) as [[r w'] E]; [by vm_compute|].
  exists r, w'. split; [exact E|].
  refine (proj1 (mbx_invariant ex_mbx_stk ex_mbx_mac ex_mbx_boot w' r _ _ _ _ _));
    [apply ex_mbx_boot_ok|done|done|by apply bytesb_Forall|].
  eapply rtc_l; [apply (mbx_post ex_mbx_stk 0 (reg_req true 0 CSR0_INEA))|].
  eapply rtc_l; [apply mbx_loop, E|apply rtc_refl].
Defined.

Lemma mbx_executes_witness : ∃ w',
  service_bridge ex_mbx_stk (set_slot MBX_REQ_OFF (reg_req false 0 0) ex_mbx_started) = Ok w' ∧
  slot w' MBX_RSP_OFF = Z.lor 1 (Z.shiftl CSR0_STOP 1).
Proof.
  destruct (mbx_executes ex_mbx_stk 0 0 ex_mbx_started) as [(w' & H1 & H2 & _) _];
    [apply ex_mbx_started_ok|by split|by split|].
  exists w'. split; [exact H1|]. rewrite H2. by vm_compute.
Defined.

Lemma deferred_fifo_witness : ∃ w',
  serve_writes ex_mbx_stk (pair 0 <$> [1; 2; 3; 4; 5; 6; 7; 8]) ex_mbx_started = Ok w' ∧
  queued (w_ddr3 w') = [1; 2; 3; 4; 5; 6; 7].
Proof.
  destruct (deferred_fifo ex_mbx_stk [1; 2; 3; 4; 5; 6; 7; 8] ex_mbx_started) as (w' & H1 & H2 & _);
    [apply ex_mbx_started_ok|by repeat (constructor; [by split|])|].
  exists w'. split; [exact H1|]. rewrite H2. by vm_compute.
Defined.

Lemma deferred_wrong_register_witness : ∃ w1 w2,
  serve_writes ex_mbx_stk [(A2065_RAP_OFF, 4); (A2065_RDP_OFF, 0x1234); (A2065_RAP_OFF, 5)]
    ex_mbx_started = Ok w1 ∧
  drain 8 ex_mbx_stk w1 = Ok w2 ∧ registers_csr 5 w2 = 0x1234 ∧ registers_csr 4 w2 = 0x0115.
Proof.
  destruct (deferred_wrong_register ex_mbx_stk 4 5 0x1234 ex_mbx_started)
    as (w1 & w2 & H1 & H2 & H3 & H4);
    [apply ex_mbx_started_ok|by vm_compute|by split|lia|lia|lia|by vm_compute; set_solver|].
  exists w1, w2. split; [exact H1|]. split; [exact H2|]. split; [exact H3|].
  rewrite H4. by vm_compute.
Defined.

(** The first pass after start-up, with [last_mbx_int] at -1 and a line left high. *)
Definition ex_mbx_held : world := set_slot MBX_INT_OFF 1 ex_mbx_started.

Lemma mbx_int_settles_witness : ∃ n r' w', (n ≤ 101)%nat ∧
  slot ex_mbx_held MBX_INT_OFF = 1 ∧ last_mbx_int (w_ddr3 ex_mbx_held) = -1 ∧
  mbx_passes n ex_mbx_stk (0, ex_mbx_held) = Ok (r', w') ∧ slot w' MBX_INT_OFF = 0.
Proof.
  destruct (mbx_int_settles ex_mbx_stk 0 ex_mbx_held) as (n & r' & w' & H1 & H2 & H3 & _);
    [split; [by vm_compute|by vm_compute|by vm_compute|right; by vm_compute]|by vm_compute|].
  exists n, r', w'. split; [exact H1|]. split; [by vm_compute|]. split; [by vm_compute|]. split; [exact H2|].
  rewrite H3. by vm_compute.
Defined.
