(* ===== verification/RemoteChip.v ===== *)
(** * The chip on remote board RAM (registers.cpp and rings.cpp built with BOARDRAM_REMOTE)

    In the mailbox build every board RAM access of the chip code is a transfer (Remote.v)
    during which [service_bridge_safe] may serve register requests of the 68k (MainDdr3.v).
    Here the chip code that touches board RAM is written once as a program of accesses,
    and run twice: on the flat window, where it is the code of Registers.v and Rings.v, and
    through the mailbox, where each access is a transfer with the re-entrant callback in
    it.  The two runs agree. *)

From S2P Require Import Prelude Types Window Crc32 Mac State Registers Rings Slots Remote MainDdr3.

(** ** Programs *)

(** The variables of the chip's units: all of the world but the window, [rap], which
    only the dispatch of a register access uses, and the daemon's own. *)
Definition chip_view (w : world) : world :=
  World (set_rap 0 (w_reg w)) (w_mac w) (w_ring w) ∅ 0 (w_sock w) (w_sent w) ddr3_init.

Definition set_chip (c w : world) : world :=
  World (set_rap (rap (w_reg w)) (w_reg c)) (w_mac c) (w_ring c) (w_win w) (w_boardram w)
    (w_sock c) (w_sent c) (w_ddr3 w).

(** What chip code does: it reads and writes the chip's variables and board RAM, and calls
    [on_interrupt] and, in the daemon's transmit callback, [schedule_tdmd_retry]. *)
Inductive prog (A : Type) : Type :=
  | Ret (a : A)
  | Fail (e : err)
  | Get (k : world → prog A)
  | Upd (f : world → world) (k : prog A)
  | Int (k : prog A)
  | Retry (k : prog A)
  | RdB (off : Z) (k : Z → prog A)
  | RdW (off : Z) (k : Z → prog A)
  | WrW (off v : Z) (k : prog A)
  | RdBlk (off : Z) (n : nat) (k : list Z → prog A)
  | WrBlk (off : Z) (src : list Z) (k : prog A).
Arguments Ret {A}.
Arguments Fail {A}.
Arguments Get {A}.
Arguments Upd {A}.
Arguments Int {A}.
Arguments Retry {A}.
Arguments RdB {A}.
Arguments RdW {A}.
Arguments WrW {A}.
Arguments RdBlk {A}.
Arguments WrBlk {A}.

#[export] Instance prog_ret : MRet prog := @Ret.
#[export] Instance prog_bind : MBind prog := λ A B f, fix go p :=
  match p with
  | Ret a => f a
  | Fail e => Fail e
  | Get k => Get (λ c, go (k c))
  | Upd f k => Upd f (go k)
  | Int k => Int (go k)
  | Retry k => Retry (go k)
  | RdB off k => RdB off (λ v, go (k v))
  | RdW off k => RdW off (λ v, go (k v))
  | WrW off v k => WrW off v (go k)
  | RdBlk off n k => RdBlk off n (λ l, go (k l))
  | WrBlk off src k => WrBlk off src (go k)
  end.

Definition asks {A} (f : world → A) : prog A := Get (λ c, Ret (f c)).
Definition upd (f : world → world) : prog () := Upd f (Ret tt).
(** [csr[0]], and [csr[0] = f(csr[0])]: one load, one store. *)
Definition ld0 : prog Z := asks csr0.
Definition rmw0 (f : Z → Z) : prog () := c ← ld0; upd (set_csr0 (f c)).
Definition lift {A} (x : res A) : prog A := match x with Ok a => Ret a | Err e => Fail e end.
Definition rdb (off : Z) : prog Z := RdB off Ret.
Definition rdw (off : Z) : prog Z := RdW off Ret.
Definition wrw (off v : Z) : prog () := WrW off v (Ret tt).

(** ** The chip code *)

Definition prog_load_ladrf (off : Z) : prog Z :=
  l3 ← rdw (off + 14);
  l2 ← rdw (off + 12);
  l1 ← rdw (off + 10);
  l0 ← rdw (off + 8);
  Ret (Z.lor (Z.lor (Z.lor (Z.shiftl l3 48) (Z.shiftl l2 32)) (Z.shiftl l1 16)) l0).

(** A ring pointer, from its two words. *)
Definition prog_load_dr (off_hi off_lo : Z) : prog Z :=
  hi ← rdw off_hi;
  lo ← rdw off_lo;
  Ret (Z.lor (u32 (Z.shiftl hi 16)) lo).

Definition prog_load_mac (off : Z) : prog (list Z) :=
  b0 ← rdb (off + 3);
  b1 ← rdb (off + 2);
  b2 ← rdb (off + 5);
  b3 ← rdb (off + 4);
  b4 ← rdb (off + 7);
  b5 ← rdb (off + 6);
  Ret [b0; b1; b2; b3; b4; b5].

Definition prog_chip_init : prog () :=
  _ ← upd rings_reset_loopback_count;
  off ← asks (λ c, init_block_off (w_reg c));
  mode ← rdw (off + 0);
  _ ← upd (upd_reg (set_am_mode mode));
  ladrf ← prog_load_ladrf off;
  _ ← upd (upd_reg (set_am_ladrf ladrf));
  rdr ← prog_load_dr (off + 18) (off + 16);
  tdr ← prog_load_dr (off + 22) (off + 20);
  _ ← upd (upd_reg (λ r,
    let r := set_am_rdr_rlen (Z.shiftl 1 (Z.land (Z.shiftr rdr 29) 7)) r in
    let r := set_am_tdr_tlen (Z.shiftl 1 (Z.land (Z.shiftr tdr 29) 7)) r in
    let r := set_am_rdr_rdra (Z.land rdr 0x00fffff8) r in
    set_am_tdr_tdra (Z.land tdr 0x00fffff8) r));
  mac ← prog_load_mac off;
  _ ← upd (upd_reg (set_fakemac mac));
  _ ← upd (λ c, upd_mac (mac_set_fakemac (fakemac (w_reg c))) c);
  upd (upd_reg chip_init_mask).

Definition prog_rethink : prog () :=
  _ ← rmw0 (λ c, andnot c CSR0_INTR);
  c ← ld0;
  _ ← (if flag c INT_CAUSES then rmw0 (λ c, Z.lor c CSR0_INTR) else Ret tt);
  c ← ld0;
  if int_pending c then Int (Ret tt) else Ret tt.

Definition prog_put_desc (off md1 md3 : Z) : prog () :=
  _ ← wrw (off + 2) md1;
  wrw (off + 6) md3.

Fixpoint prog_rx_loop (fuel : nat) (rdra rlen : Z) (d : list Z) (len insize : Z) (first : bool) : prog bool :=
  match fuel with
  | O => Fail OutOfFuel
  | S fuel =>
    _ ← upd (upd_reg (λ r, set_rdr_offset (rdr_offset r mod rlen) r));
    off ← asks (λ c, desc_off rdra (rdr_offset (w_reg c)));
    rmd0 ← rdw (off + 0);
    rmd1 ← rdw (off + 2);
    rmd2 ← rdw (off + 4);
    rmd3 ← rdw (off + 6);
    let addr := desc_addr rmd0 rmd1 in
    if negb (flag rmd1 RX_OWN) then
      let rmd1 := if first then rmd1 else Z.lor rmd1 (Z.lor RX_BUFF RX_OFLO) in
      _ ← (if first then rmw0 (λ c, Z.lor c CSR0_MISS) else rmw0 (λ c, andnot c CSR0_RXON));
      _ ← wrw (off + 2) rmd1;
      _ ← prog_rethink;
      Ret false
    else
      let rmd1 := andnot rmd1 RX_OWN in
      _ ← upd (upd_reg (λ r, set_rdr_offset (rdr_offset r + 1) r));
      let rmd1 := if first then Z.lor rmd1 RX_STP else rmd1 in
      let size := desc_size rmd2 in
      src ← lift (bslice d insize size);
      WrBlk addr src (
        let insize := insize + size in
        let rmd1 := if len <=? insize then Z.lor rmd1 RX_ENP else rmd1 in
        let rmd3 := if len <=? insize then u16 len else rmd3 in
        _ ← prog_put_desc off rmd1 rmd3;
        if len <=? insize then Ret true
        else prog_rx_loop fuel rdra rlen d len insize false)
  end.

Definition prog_gotfunc (stk databuf : list Z) (len : Z) : prog () :=
  c ← asks id;
  if negb (flag (csr0 c) CSR0_RXON) then Ret tt
  else if len <? 20 then Ret tt
  else
  let rdr_rlen := am_rdr_rlen (w_reg c) in
  if negb (ring_usable (am_rdr_rdra (w_reg c)) rdr_rlen) then Ret tt
  else
    src ← lift (bslice databuf 0 len);
    d ← lift (bblit stk 0 src);
    d ← (if flag (registers_mode c) MODE_LOOP then Ret d
         else '(_, d) ← lift (mungepacket (w_mac c) d len); Ret d);
    if negb (rx_accept c d) then Ret tt
    else
      '(d, len) ← lift (append_fcs d len);
      stored ← prog_rx_loop (Z.to_nat len) (am_rdr_rdra (w_reg c)) rdr_rlen d len 0 true;
      if (stored : bool) then
        _ ← rmw0 (λ c, Z.lor c CSR0_RINT);
        _ ← prog_rethink;
        upd (λ c, if flag (registers_mode c) MODE_LOOP
             then upd_ring (λ g, set_loopback_iter (loopback_iter g + 1) g) c else c)
      else Ret tt.

Fixpoint prog_tx_scan (n : nat) (tdra tlen start i tmd1 : Z) : prog Z :=
  match n with
  | O => Ret tmd1
  | S n =>
    _ ← upd (upd_reg (set_tdr_offset ((start + i) mod tlen)));
    off ← asks (λ c, desc_off tdra (tdr_offset (w_reg c)));
    tmd1 ← rdw (off + 2);
    if tx_startable tmd1 then Ret tmd1 else prog_tx_scan n tdra tlen start (i + 1) tmd1
  end.

Fixpoint prog_tx_loop (fuel : nat) (tdra tlen outsize : Z) : prog tx_end :=
  match fuel with
  | O => Fail OutOfFuel
  | S fuel =>
    _ ← upd (upd_reg (λ r, set_tdr_offset (tdr_offset r mod tlen) r));
    off ← asks (λ c, desc_off tdra (tdr_offset (w_reg c)));
    tmd0 ← rdw (off + 0);
    tmd1 ← rdw (off + 2);
    tmd2 ← rdw (off + 4);
    tmd3 ← rdw (off + 6);
    let addr := desc_addr tmd0 tmd1 in
    if negb (flag tmd1 TX_OWN) then
      let tmd3 := Z.lor tmd3 (Z.lor TX_BUFF TX_UFLO) in
      let tmd1 := Z.lor tmd1 TX_ERR in
      _ ← rmw0 (λ c, andnot c CSR0_TXON);
      _ ← prog_put_desc off tmd1 tmd3;
      Ret (TxEnd true outsize off tmd1 tmd3)
    else
      let tmd1 := andnot tmd1 TX_OWN in
      let size := tx_size tmd2 in
      if MAX_PACKET_SIZE <? outsize + size then
        _ ← prog_put_desc off tmd1 tmd3;
        Ret (TxEnd false outsize off tmd1 tmd3)
      else
        RdBlk addr (Z.to_nat size) (λ data,
        c ← asks id;
        b ← lift (bblit (transmitbuffer (w_ring c)) outsize data);
        let outsize := outsize + size in
        '(b, outsize) ← lift (tx_pad (flag tmd1 TX_ENP && negb (flag (registers_mode c) MODE_LOOP)) b outsize);
        _ ← upd (upd_ring (set_transmitbuffer b));
        _ ← upd (upd_reg (λ r, set_tdr_offset (tdr_offset r + 1) r));
        if flag tmd1 TX_ENP then Ret (TxEnd false outsize off tmd1 tmd3)
        else _ ← prog_put_desc off tmd1 tmd3; prog_tx_loop fuel tdra tlen outsize)
  end.

Definition prog_tx_done : prog Z :=
  _ ← rmw0 (λ c, Z.lor c CSR0_TINT);
  _ ← prog_rethink;
  Ret 1.

Definition prog_send (b : list Z) (len : Z) : prog () :=
  sock ← asks w_sock;
  if (sock <? 0) || (len <=? 0) then Ret tt
  else
    f ← lift (bslice b 0 len);
    upd (λ c, set_w_sent (w_sent c ++ [f]) c).

Definition prog_tx_finish (stk : list Z) (add_fcs : bool) (e : tx_end) : prog Z :=
  let '(TxEnd err outsize off tmd1 tmd3) := e in
  c ← asks id;
  let mode := registers_mode c in
  if err then prog_tx_done
  else if (outsize <? 60) && negb (flag mode MODE_LOOP) then
    let tmd3 := Z.lor tmd3 (Z.lor TX_BUFF TX_UFLO) in
    let tmd1 := Z.lor tmd1 TX_ERR in
    _ ← rmw0 (λ c, andnot c CSR0_TXON);
    _ ← wrw (off + 6) tmd3;
    _ ← wrw (off + 2) tmd1;
    prog_tx_done
  else
    let collide := prog_put_desc off (Z.lor tmd1 TX_ERR) (Z.lor tmd3 TX_RTRY) in
    let release := prog_put_desc off tmd1 tmd3 in
    if flag mode MODE_LOOP then
      if flag mode MODE_COLL then _ ← collide; prog_tx_done
      else
        _ ← release;
        _ ← prog_gotfunc stk (transmitbuffer (w_ring c)) outsize;
        prog_tx_done
    else
      let coll := flag mode MODE_COLL
        || ((6 <=? outsize) && bytes_eqb (slice (transmitbuffer (w_ring c)) 0 6) (fakemac (w_reg c))) in
      if coll then _ ← collide; prog_tx_done
      else
        _ ← release;
        let outsize := if flag mode MODE_DTCR && negb add_fcs then outsize - 4 else outsize in
        _ ← upd (upd_ring (set_transmitlen outsize));
        '(_, b) ← lift (mungepacket (w_mac c) (transmitbuffer (w_ring c)) outsize);
        _ ← upd (upd_ring (set_transmitbuffer b));
        _ ← prog_send b outsize;
        prog_tx_done.

Definition prog_do_transmit (stk : list Z) : prog Z :=
  c ← asks id;
  if negb (flag (csr0 c) CSR0_TXON) then Ret 0
  else
  let tdr_tdra := am_tdr_tdra (w_reg c) in
  let tdr_tlen := am_tdr_tlen (w_reg c) in
  if negb (ring_usable tdr_tdra tdr_tlen) then Ret 0
  else
    _ ← upd (upd_reg (λ r, set_tdr_offset (tdr_offset r mod tdr_tlen) r));
    start ← asks (λ c, tdr_offset (w_reg c));
    tmd1 ← rdw (desc_off tdr_tdra start + 2);
    tmd1 ← (if tx_startable tmd1 then Ret tmd1
            else prog_tx_scan (Z.to_nat tdr_tlen) tdr_tdra tdr_tlen start 0 tmd1);
    if negb (tx_startable tmd1) then
      _ ← upd (upd_reg (set_tdr_offset start));
      Ret 0
    else
      let add_fcs := flag tmd1 TX_ADD_FCS in
      e ← prog_tx_loop tx_fuel tdr_tdra tdr_tlen 0;
      prog_tx_finish stk add_fcs e.

(** [on_transmit_cb] of main_ddr3.cpp *)
Definition prog_on_transmit_cb (stk : list Z) : prog Z :=
  r ← prog_do_transmit stk;
  if r =? 0 then Retry (Ret r) else Ret r.

(** [csr[0] &= ~STOP], then TXON and RXON unless the mode disables them. *)
Definition prog_csr0_on : prog () :=
  _ ← rmw0 (λ c, andnot c CSR0_STOP);
  mode ← asks registers_mode;
  _ ← (if flag mode MODE_DTX then Ret tt else rmw0 (λ c, Z.lor c CSR0_TXON));
  mode ← asks registers_mode;
  if flag mode MODE_DRX then Ret tt else rmw0 (λ c, Z.lor c CSR0_RXON).

Definition prog_csr0_merge (v : Z) : prog () :=
  _ ← rmw0 (λ c, andnot c CSR0_INEA);
  _ ← rmw0 (λ c, Z.lor c (Z.land v CSR0_INEA));
  _ ← rmw0 (λ c, Z.lor c (Z.land v (Z.lor (Z.lor (Z.lor CSR0_INIT CSR0_STRT) CSR0_STOP) CSR0_TDMD)));
  _ ← rmw0 (λ c, andnot c (Z.land v (Z.lor (Z.lor (Z.lor (Z.lor (Z.lor (Z.lor CSR0_IDON CSR0_TINT)
        CSR0_RINT) CSR0_MERR) CSR0_MISS) CSR0_CERR) CSR0_BABL)));
  rmw0 (λ c, andnot c CSR0_ERR).

Definition prog_csr0_command (oreg : Z) : prog () :=
  c ← ld0;
  if flag c CSR0_STOP && negb (flag oreg CSR0_STOP) then
    _ ← upd (set_csr0 CSR0_STOP);
    upd (upd_reg (set_csr_at 3 0))
  else
  c ← ld0;
  if flag c CSR0_STRT && negb (flag oreg CSR0_STRT) && flag oreg (Z.lor CSR0_STOP CSR0_INIT) then
    _ ← prog_csr0_on;
    c ← ld0;
    if flag c CSR0_INIT && negb (flag oreg CSR0_INIT) then
      _ ← prog_chip_init;
      _ ← rmw0 (λ c, Z.lor c CSR0_IDON);
      upd (upd_reg (set_am_initialized true))
    else Ret tt
  else
  c ← ld0;
  if flag c CSR0_INIT && negb (flag oreg CSR0_INIT) && flag oreg CSR0_STOP then
    _ ← prog_chip_init;
    _ ← rmw0 (λ c, Z.lor c CSR0_IDON);
    _ ← rmw0 (λ c, andnot c (Z.lor (Z.lor CSR0_RXON CSR0_TXON) CSR0_STOP));
    _ ← upd (upd_reg (set_am_initialized true));
    upd (upd_reg (set_csr_at 3 0))
  else Ret tt.

(** [on_transmit] is the program the main program has registered. *)
Definition prog_csr0_demand (on_transmit : prog Z) : prog () :=
  c ← ld0;
  if flag c CSR0_TDMD then
    init ← asks (λ c, am_initialized (w_reg c));
    _ ← (if init : bool then
           c ← ld0;
           _ ← (if flag c CSR0_TXON then Ret tt else prog_csr0_on);
           _ ← on_transmit; Ret tt
         else Ret tt);
    rmw0 (λ c, andnot c CSR0_TDMD)
  else Ret tt.

Definition prog_wput_csr0 (on_transmit : prog Z) (v : Z) : prog () :=
  oreg ← ld0;
  _ ← prog_csr0_merge v;
  _ ← prog_csr0_command oreg;
  _ ← prog_csr0_demand on_transmit;
  prog_rethink.

(** The registers other than CSR0; RAP is [n]. *)
Definition wput_plain (n v : Z) (w : world) : world :=
  if n =? 1 then if flag (csr0 w) CSR0_STOP then upd_reg (set_csr_at 1 (andnot v 1)) w else w
  else if n =? 2 then if flag (csr0 w) CSR0_STOP then upd_reg (set_csr_at 2 (Z.land v 0x00ff)) w else w
  else if n =? 3 then if flag (csr0 w) CSR0_STOP then upd_reg (set_csr_at 3 (Z.land v 7)) w else w
  else upd_reg (wput_ext n v) w.

(** A change of the chip's variables only. *)
Definition chip_local (f : world → world) : Prop := ∀ w, set_chip (f (chip_view w)) w = f w.

Ltac chip_local := intros [[] ? ? ? ? ? ? ?]; cbv zeta; cbn; repeat case_match; done.

(** What a program sees of the chip. *)
Ltac view_simpl :=
  change (w_reg (chip_view ?u)) with (set_rap 0 (w_reg u)) in *;
  change (csr0 (chip_view ?u)) with (csr0 u) in *;
  change (registers_mode (chip_view ?u)) with (registers_mode u) in *;
  change (rx_accept (chip_view ?u)) with (rx_accept u) in *;
  change (w_mac (chip_view ?u)) with (w_mac u) in *;
  change (w_ring (chip_view ?u)) with (w_ring u) in *;
  change (rdr_offset (set_rap _ ?r)) with (rdr_offset r) in *;
  change (tdr_offset (set_rap _ ?r)) with (tdr_offset r) in *;
  change (am_rdr_rlen (set_rap _ ?r)) with (am_rdr_rlen r) in *;
  change (am_rdr_rdra (set_rap _ ?r)) with (am_rdr_rdra r) in *;
  change (am_tdr_tlen (set_rap _ ?r)) with (am_tdr_tlen r) in *;
  change (am_tdr_tdra (set_rap _ ?r)) with (am_tdr_tdra r) in *;
  change (am_initialized (set_rap _ ?r)) with (am_initialized r) in *;
  change (fakemac (set_rap _ ?r)) with (fakemac r) in *.

(** ** The run on the flat window *)

Section flat.
(** What the main program does on an interrupt, and when a transmission found nothing. *)
Context (on_int retry : world → world).
#[local] Instance flat_int : IntHandler := Some on_int.

Fixpoint run_on {A} (p : prog A) (w : world) : res (A * world) :=
  match p with
  | Ret a => Ok (a, w)
  | Fail e => Err e
  | Get k => run_on (k (chip_view w)) w
  | Upd f k => run_on k (set_chip (f (chip_view w)) w)
  | Int k => run_on k (on_int w)
  | Retry k => run_on k (retry w)
  | RdB off k => run_on (k (ram_byte w off)) w
  | RdW off k => run_on (k (ram_word w off)) w
  | WrW off v k => run_on k (put_word off v w)
  | RdBlk off n k => run_on (k (read_block w off n)) w
  | WrBlk off src k => run_on k (write_block off src w)
  end.

(** ** Lemmas: the flat run is the code of Registers.v and Rings.v *)

Lemma run_bind {A B} (p : prog A) (q : A → prog B) w :
  run_on (x ← p; q x) w = ('(a, w) ← run_on p w; run_on (q a) w).
Proof. revert w. induction p as [| |? IH|? ? IH|? IH|? IH|? ? IH|? ? IH|? ? ? IH|? ? ? IH|? ? ? IH]; intros w; cbn; auto; apply IH. Qed.

Lemma run_lift {A} (x : res A) w : run_on (lift x) w = (a ← x; Ok (a, w)).
Proof. by destruct x. Qed.

Lemma run_upd f w : chip_local f → run_on (upd f) w = Ok (tt, f w).
Proof. intros H. cbn. by rewrite H. Qed.

Lemma run_asks {A} (f : world → A) w : run_on (asks f) w = Ok (f (chip_view w), w).
Proof. done. Qed.

Lemma set_csr0_local v : chip_local (set_csr0 v).
Proof. chip_local. Qed.

Lemma run_ld0 w : run_on ld0 w = Ok (csr0 w, w).
Proof. done. Qed.

Lemma run_rmw0 f w : run_on (rmw0 f) w = Ok (tt, set_csr0 (f (csr0 w)) w).
Proof. unfold rmw0. rewrite run_bind, run_ld0. apply run_upd, set_csr0_local. Qed.

(** Step through binds whose first program is a load, a store or both. *)
Ltac run_rmws := repeat lazymatch goal with
  | |- context [run_on (mbind _ (rmw0 ?f)) ?w] => rewrite (run_bind (rmw0 f) _ w), run_rmw0; cbn [mbind res_bind]
  | |- context [run_on (mbind _ ld0) ?w] => rewrite (run_bind ld0 _ w), run_ld0; cbn [mbind res_bind]
  | |- context [run_on (mbind _ (asks ?f)) ?w] => rewrite (run_bind (asks f) _ w), run_asks; cbn [mbind res_bind]
  end.

(** A CSR0 that is stored is the CSR0 that is read; without an array both do nothing. *)
Lemma csr0_cases w : (∀ v, csr0 (set_csr0 v w) = v) ∨ (csr0 w = 0 ∧ ∀ v, set_csr0 v w = w).
Proof. destruct w as [[[|c l] ? ? ? ? ? ? ? ? ? ? ?] ? ? ? ? ? ? ?]; [right|left]; done. Qed.

(** The chip's variables are not in board RAM. *)
Lemma ram_upd_reg f w : ram_word (upd_reg f w) = ram_word w ∧ ram_byte (upd_reg f w) = ram_byte w.
Proof. done. Qed.

Lemma run_load_ladrf off w : run_on (prog_load_ladrf off) w
  = Ok (Z.lor (Z.lor (Z.lor (Z.shiftl (ram_word w (off + 14)) 48) (Z.shiftl (ram_word w (off + 12)) 32))
       (Z.shiftl (ram_word w (off + 10)) 16)) (ram_word w (off + 8)), w).
Proof. done. Qed.

Lemma run_load_dr hi lo w : run_on (prog_load_dr hi lo) w
  = Ok (Z.lor (u32 (Z.shiftl (ram_word w hi) 16)) (ram_word w lo), w).
Proof. done. Qed.

Lemma run_load_mac off w : run_on (prog_load_mac off) w
  = Ok ([ram_byte w (off + 3); ram_byte w (off + 2); ram_byte w (off + 5);
         ram_byte w (off + 4); ram_byte w (off + 7); ram_byte w (off + 6)], w).
Proof. done. Qed.

Lemma run_rdw off w : run_on (rdw off) w = Ok (ram_word w off, w).
Proof. done. Qed.

Lemma upd_reg_twice f g w : upd_reg f (upd_reg g w) = upd_reg (λ r, f (g r)) w.
Proof. done. Qed.

Lemma run_chip_init w : run_on prog_chip_init w = Ok (tt, chip_init w).
Proof.
  unfold prog_chip_init, chip_init. cbv zeta. rewrite run_bind, run_upd by chip_local. cbn [mbind res_bind].
  set (w1 := rings_reset_loopback_count w). rewrite run_bind, run_asks. cbn [mbind res_bind].
  change (init_block_off (w_reg (chip_view w1))) with (init_block_off (w_reg w1)).
  set (off := init_block_off _). clearbody w1. clearbody off.
  rewrite run_bind, run_rdw. cbn [mbind res_bind]. rewrite run_bind, run_upd by chip_local. cbn [mbind res_bind].
  rewrite run_bind, run_load_ladrf. cbn [mbind res_bind]. rewrite run_bind, run_upd by chip_local. cbn [mbind res_bind].
  rewrite run_bind, run_load_dr. cbn [mbind res_bind]. rewrite run_bind, run_load_dr. cbn [mbind res_bind].
  rewrite run_bind, run_upd by chip_local. cbn [mbind res_bind].
  rewrite run_bind, run_load_mac. cbn [mbind res_bind]. rewrite run_bind, run_upd by chip_local. cbn [mbind res_bind].
  rewrite run_bind, run_upd by chip_local. cbn [mbind res_bind]. rewrite run_upd by chip_local.
  rewrite !(proj1 (ram_upd_reg _ _)), !(proj2 (ram_upd_reg _ _)), !upd_reg_twice. done.
Qed.

Lemma run_rethink w : run_on prog_rethink w = Ok (tt, rethink w).
Proof.
  unfold prog_rethink, rethink. cbv zeta. run_rmws. set (w1 := set_csr0 (andnot _ _) w).
  assert (E : run_on (if flag (csr0 w1) INT_CAUSES then rmw0 (λ c, Z.lor c CSR0_INTR) else Ret tt) w1
    = Ok (tt, set_csr0 (rethink_csr0 (csr0 w)) w)).
  { unfold rethink_csr0, w1. cbv zeta. destruct (csr0_cases w) as [Hc|[Hc Hw]].
    - rewrite Hc. destruct (flag _ INT_CAUSES); [|done]. by rewrite run_rmw0, Hc, set_csr0_twice.
    - rewrite !Hw, Hc. done. }
  rewrite run_bind, E. cbn [mbind res_bind]. run_rmws. by destruct (int_pending _).
Qed.

Lemma run_put_desc off md1 md3 w : run_on (prog_put_desc off md1 md3) w = Ok (tt, put_desc off md1 md3 w).
Proof. done. Qed.

Lemma run_rx_loop fuel rdra rlen d len insize first w :
  run_on (prog_rx_loop fuel rdra rlen d len insize first) w = rx_loop fuel rdra rlen d len insize first w.
Proof.
  revert insize first w. induction fuel as [|fuel IH]; intros insize first w; [done|].
  cbn [prog_rx_loop rx_loop]. cbv zeta. rewrite run_bind, run_upd by chip_local. cbn [mbind res_bind].
  rewrite run_bind, run_asks. cbn [mbind res_bind].
  change (w_reg (chip_view ?u)) with (set_rap 0 (w_reg u)). change (rdr_offset (set_rap _ ?r)) with (rdr_offset r).
  set (w1 := upd_reg _ w). set (off := desc_off _ _).
  do 4 (rewrite run_bind; cbn [run_on rdw mbind res_bind]).
  destruct (flag _ RX_OWN); cbn [negb].
  - rewrite run_bind, run_upd by chip_local. cbn [mbind res_bind]. rewrite run_bind, run_lift.
    destruct (bslice _ _ _); cbn [mbind res_bind]; [|done]. cbn [run_on]. rewrite run_bind, run_put_desc.
    cbn [mbind res_bind]. destruct (len <=? _); [done|]. apply IH.
  - rewrite run_bind. replace (run_on (if first then _ else _) w1) with
      (Ok (tt, (if first then registers_csr0_set CSR0_MISS else registers_csr0_clr CSR0_RXON) w1))
      by (by destruct first; rewrite run_rmw0). cbn [mbind res_bind].
    rewrite run_bind. cbn [run_on wrw mbind res_bind]. rewrite run_bind, run_rethink. by destruct first.
Qed.

Lemma flat_gotfunc stk b len w : run_on (prog_gotfunc stk b len) w = (w ← gotfunc stk b len w; Ok (tt, w)).
Proof.
  unfold prog_gotfunc, gotfunc. rewrite run_bind, run_asks. cbn [mbind res_bind]. unfold id. view_simpl.
  destruct (flag (csr0 w) CSR0_RXON); cbn [negb]; [|done]. destruct (len <? 20); [done|]. cbv zeta.
  destruct (ring_usable _ _); cbn [negb]; [|done].
  rewrite run_bind, run_lift. destruct (bslice b 0 len); cbn [mbind res_bind]; [|done].
  rewrite run_bind, run_lift. destruct (bblit stk 0 _) as [d|]; cbn [mbind res_bind]; [|done].
  rewrite run_bind. set (x := if flag _ MODE_LOOP then Ok d else _).
  replace (run_on _ w) with (d ← x; Ok (d, w)).
  2:{ unfold x. destruct (flag _ MODE_LOOP); [done|]. rewrite run_bind, run_lift. by destruct (mungepacket _ d len) as [[]|]. }
  clearbody x. destruct x as [d1|]; cbn [mbind res_bind]; [|done].
  destruct (rx_accept w d1); cbn [negb]; [|done].
  rewrite run_bind, run_lift. destruct (append_fcs d1 len) as [[d2 len2]|]; cbn [mbind res_bind]; [|done].
  rewrite run_bind, run_rx_loop. destruct (rx_loop _ _ _ _ _ _ _ w) as [[[] w1]|]; cbn [mbind res_bind]; [|done..].
  run_rmws. rewrite run_bind, run_rethink. cbn [mbind res_bind]. by rewrite run_upd by chip_local.
Qed.

Lemma run_tx_scan n tdra tlen start i tmd1 w :
  run_on (prog_tx_scan n tdra tlen start i tmd1) w = Ok (tx_scan n tdra tlen start i tmd1 w).
Proof.
  revert i tmd1 w. induction n as [|n IH]; intros i tmd1 w; [done|]. cbn [prog_tx_scan tx_scan]. cbv zeta.
  rewrite run_bind, run_upd by chip_local. cbn [mbind res_bind]. rewrite run_bind, run_asks.
  cbn [mbind res_bind]. view_simpl. rewrite run_bind. cbn [run_on rdw mbind res_bind].
  destruct (tx_startable _); [done|]. apply IH.
Qed.

Lemma run_tx_loop fuel tdra tlen outsize w :
  run_on (prog_tx_loop fuel tdra tlen outsize) w = tx_loop fuel tdra tlen outsize w.
Proof.
  revert outsize w. induction fuel as [|fuel IH]; intros outsize w; [done|].
  cbn [prog_tx_loop tx_loop]. cbv zeta. rewrite run_bind, run_upd by chip_local. cbn [mbind res_bind].
  rewrite run_bind, run_asks. cbn [mbind res_bind]. view_simpl.
  set (w1 := upd_reg _ w). set (off := desc_off _ _).
  do 4 (rewrite run_bind; cbn [run_on rdw mbind res_bind]).
  destruct (flag _ TX_OWN); cbn [negb].
  - destruct (MAX_PACKET_SIZE <? _); [by rewrite run_bind, run_put_desc|]. cbn [run_on].
    rewrite run_bind, run_asks. cbn [mbind res_bind]. unfold id. view_simpl.
    rewrite run_bind, run_lift. destruct (bblit _ outsize _) as [b|]; cbn [mbind res_bind]; [|done].
    rewrite run_bind, run_lift. destruct (tx_pad _ b _) as [[b1 o1]|]; cbn [mbind res_bind]; [|done].
    rewrite run_bind, run_upd by chip_local. cbn [mbind res_bind].
    rewrite run_bind, run_upd by chip_local. cbn [mbind res_bind].
    destruct (flag _ TX_ENP); [done|]. rewrite run_bind, run_put_desc. apply IH.
  - run_rmws. by rewrite run_bind, run_put_desc.
Qed.

Lemma run_tx_done w : run_on prog_tx_done w = tx_done w.
Proof. unfold prog_tx_done, tx_done. run_rmws. by rewrite run_bind, run_rethink. Qed.

Lemma run_send b n w : run_on (prog_send b n) w = (w ← ethernet_send b n w; Ok (tt, w)).
Proof.
  unfold prog_send, ethernet_send. run_rmws. change (w_sock (chip_view w)) with (w_sock w).
  destruct (_ || _); [done|]. rewrite run_bind, run_lift.
  destruct (bslice b 0 n); cbn [mbind res_bind]; [by rewrite run_upd by chip_local|done].
Qed.

Lemma run_tx_finish stk fcs e w : run_on (prog_tx_finish stk fcs e) w = tx_finish stk fcs e w.
Proof.
  destruct e as [err outsize off tmd1 tmd3]. unfold prog_tx_finish, tx_finish.
  rewrite run_bind, run_asks. cbn [mbind res_bind]. unfold id. view_simpl. cbv zeta.
  destruct err; [apply run_tx_done|]. destruct (_ && negb _).
  { run_rmws. rewrite run_bind. cbn [run_on wrw mbind res_bind]. rewrite run_bind. apply run_tx_done. }
  destruct (flag (registers_mode w) MODE_LOOP).
  - destruct (flag _ MODE_COLL); rewrite run_bind, run_put_desc; cbn [mbind res_bind]; [apply run_tx_done|].
    rewrite run_bind, flat_gotfunc. change (w_ring (put_desc _ _ _ w)) with (w_ring w).
    destruct (gotfunc _ _ _ _); cbn [mbind res_bind]; [apply run_tx_done|done].
  - destruct (_ || _); rewrite run_bind, run_put_desc; cbn [mbind res_bind]; [apply run_tx_done|].
    set (o := if _ && _ then _ else _). rewrite run_bind, run_upd by chip_local. cbn [mbind res_bind].
    rewrite run_bind, run_lift. change (w_mac (upd_ring _ _)) with (w_mac w).
    change (transmitbuffer (w_ring (upd_ring _ (put_desc _ _ _ w)))) with (transmitbuffer (w_ring w)).
    destruct (mungepacket _ _ o) as [[? b]|]; cbn [mbind res_bind]; [|done].
    rewrite run_bind, run_upd by chip_local. cbn [mbind res_bind].
    rewrite run_bind, run_send. destruct (ethernet_send b o _); cbn [mbind res_bind]; [apply run_tx_done|done].
Qed.

Lemma flat_do_transmit stk w : run_on (prog_do_transmit stk) w = do_transmit stk w.
Proof.
  unfold prog_do_transmit, do_transmit. rewrite run_bind, run_asks. cbn [mbind res_bind]. unfold id. view_simpl.
  destruct (flag (csr0 w) CSR0_TXON); cbn [negb]; [|done]. cbv zeta.
  destruct (ring_usable _ _); cbn [negb]; [|done].
  rewrite run_bind, run_upd by chip_local. cbn [mbind res_bind]. rewrite run_bind, run_asks. cbn [mbind res_bind].
  view_simpl. set (w1 := upd_reg _ w). set (start := tdr_offset (w_reg w1)).
  rewrite run_bind, run_rdw. cbn [mbind res_bind]. rewrite run_bind.
  set (p := if tx_startable _ then (_, w1) else _).
  replace (run_on _ w1) with (Ok p) by (unfold p; case_match; [done|by rewrite run_tx_scan]).
  clearbody p. destruct p as [tmd1 w2]. cbn [mbind res_bind].
  destruct (tx_startable tmd1); cbn [negb]; [|by rewrite run_bind, run_upd by chip_local].
  rewrite run_bind, run_tx_loop. destruct (tx_loop _ _ _ _ w2) as [[e w3]|]; cbn [mbind res_bind]; [|done].
  apply run_tx_finish.
Qed.

(** Reading a CSR0 that was just stored, as the input of the next store. *)
Lemma rmw0_fuse (g : Z → Z) v w : set_csr0 (g (csr0 (set_csr0 v w))) (set_csr0 v w) = set_csr0 (g v) w.
Proof. rewrite set_csr0_twice. destruct (csr0_cases w) as [->|[_ Hw]]; [done|by rewrite !Hw]. Qed.

Lemma run_rmw0_fuse g v w : run_on (rmw0 g) (set_csr0 v w) = Ok (tt, set_csr0 (g v) w).
Proof. by rewrite run_rmw0, rmw0_fuse. Qed.

Lemma run_csr0_merge v w : run_on (prog_csr0_merge v) w = Ok (tt, set_csr0 (csr0_merge (csr0 w) v) w).
Proof.
  unfold prog_csr0_merge. rewrite run_bind, run_rmw0. cbn [mbind res_bind].
  do 3 (rewrite run_bind, run_rmw0_fuse; cbn [mbind res_bind]). by rewrite run_rmw0_fuse.
Qed.

Lemma run_csr0_on w : run_on prog_csr0_on w
  = Ok (tt, set_csr0 (csr0_on (am_mode (w_reg w)) (andnot (csr0 w) CSR0_STOP)) w).
Proof.
  unfold prog_csr0_on, csr0_on. cbv zeta. run_rmws. set (c := andnot _ _).
  change (registers_mode (chip_view ?u)) with (am_mode (w_reg u)). change (w_reg (set_csr0 ?v w)) with (set_csr_at 0 v (w_reg w)).
  change (am_mode (set_csr_at _ _ ?r)) with (am_mode r).
  rewrite run_bind. destruct (flag _ MODE_DTX); rewrite ?run_rmw0_fuse; cbn [run_on mbind res_bind]; run_rmws;
    change (registers_mode (chip_view (set_csr0 ?v w))) with (am_mode (w_reg w));
    by destruct (flag _ MODE_DRX); rewrite ?run_rmw0_fuse.
Qed.

Lemma run_csr0_command oreg w : run_on (prog_csr0_command oreg) w = Ok (tt, csr0_command oreg w).
Proof.
  unfold prog_csr0_command, csr0_command. run_rmws. cbv zeta.
  destruct (_ && _); [by rewrite run_bind, run_upd by chip_local; cbn [mbind res_bind]; rewrite run_upd by chip_local|].
  run_rmws. destruct (_ && _ && _).
  - rewrite run_bind, run_csr0_on. cbn [mbind res_bind]. run_rmws.
    destruct (_ && _); [|done]. rewrite run_bind, run_chip_init. cbn [mbind res_bind].
    generalize (chip_init (set_csr0 (csr0_on (am_mode (w_reg w)) (andnot (csr0 w) CSR0_STOP)) w)). intros u.
    run_rmws. by rewrite run_upd by chip_local.
  - run_rmws. destruct (_ && _ && _); [|done]. rewrite run_bind, run_chip_init. cbn [mbind res_bind].
    generalize (chip_init w). intros u. run_rmws. rewrite run_bind, run_upd by chip_local. cbn [mbind res_bind].
    rewrite run_upd by chip_local. by rewrite upd_reg_twice.
Qed.

(** The callback a main program registers, as a program and as a function. *)
Definition callback (p : prog Z) (f : world → res (Z * world)) : Prop := ∀ w, run_on p w = f w.

Lemma run_csr0_demand p f w : callback p f →
  run_on (prog_csr0_demand p) w = (w ← @csr0_demand (Some f) w; Ok (tt, w)).
Proof.
  intros Hp. unfold prog_csr0_demand, csr0_demand. run_rmws.
  destruct (flag (csr0 w) CSR0_TDMD); [|done]. run_rmws.
  change (am_initialized (w_reg (chip_view w))) with (am_initialized (w_reg w)). rewrite run_bind.
  destruct (am_initialized (w_reg w)); [|cbn [run_on mbind res_bind]; by rewrite run_rmw0]. run_rmws.
  rewrite run_bind. cbv zeta. set (w1 := if flag (csr0 w) CSR0_TXON then w else _).
  replace (run_on (if flag (csr0 w) CSR0_TXON then _ else _) w) with (Ok (tt, w1))
    by (unfold w1; case_match; [done|by rewrite run_csr0_on]).
  cbn [mbind res_bind]. rewrite run_bind, Hp. unfold on_transmit.
  destruct (f w1) as [[r w2]|]; cbn [mbind res_bind run_on]; [|done]. by rewrite run_rmw0.
Qed.

Lemma flat_wput_csr0 p f v w : callback p f →
  run_on (prog_wput_csr0 p v) w = (w ← @wput_csr0 flat_int (Some f) v w; Ok (tt, w)).
Proof.
  intros Hp. unfold prog_wput_csr0, wput_csr0. run_rmws. cbv zeta.
  rewrite run_bind, run_csr0_merge. cbn [mbind res_bind]. rewrite run_bind, run_csr0_command.
  cbn [mbind res_bind]. rewrite run_bind, (run_csr0_demand p f) by done.
  destruct (csr0_demand _) as [w1|]; cbn [mbind res_bind]; [|done]. by rewrite run_rethink.
Qed.

End flat.

(** The mailbox daemon. *)
Abbreviation run := (run_on mbx_on_interrupt_cb schedule_tdmd_retry).

Lemma run_gotfunc stk b len w : run (prog_gotfunc stk b len) w = (w ← gotfunc stk b len w; Ok (tt, w)).
Proof. apply flat_gotfunc. Qed.

Lemma run_do_transmit stk w : run (prog_do_transmit stk) w = do_transmit stk w.
Proof. apply flat_do_transmit. Qed.

Lemma run_on_transmit stk w : run (prog_on_transmit_cb stk) w = mbx_on_transmit_cb stk w.
Proof.
  unfold prog_on_transmit_cb, mbx_on_transmit_cb. rewrite run_bind, run_do_transmit.
  destruct (do_transmit stk w) as [[r w1]|]; cbn [mbind res_bind]; [|done]. by destruct (r =? 0).
Qed.

Lemma run_wput_csr0 stk v w : run (prog_wput_csr0 (prog_on_transmit_cb stk) v) w
  = (w ← @wput_csr0 mbx_int (Some (mbx_on_transmit_cb stk)) v w; Ok (tt, w)).
Proof. apply flat_wput_csr0. intros u. apply run_on_transmit. Qed.

(** ** The run through the mailbox *)

Section remote.
Context {A : Type} (fpga : mbx A → mbx A) (stk : list Z).

(** The daemon and the adapter: the adapter sees the shared window only. *)
Definition machine : Type := mbx (world * A).

Definition fpga_step (m : machine) : machine :=
  let m' := fpga (Mbx (m_map m) (m_win m) (m_env m).2) in
  Mbx (m_map m') (m_win m') ((m_env m).1, m_env m').

(** The daemon's code in the shared window. *)
Definition daemon_world (m : machine) : world :=
  set_w_boardram DDR3_BRAM_OFF (set_w_win (m_win m) (m_env m).1).

Definition with_daemon (w : world) (m : machine) : machine := Mbx (m_map m) (w_win w) (w, (m_env m).2).

(** [reg_service_cb] *)
Definition reg_service (m : machine) : machine :=
  match service_bridge_safe stk (daemon_world m) with
  | Ok w => with_daemon w m
  | Err _ => m
  end.

Fixpoint mrun {B} (p : prog B) (m : machine) : res (B * machine) :=
  match p with
  | Ret a => Ok (a, m)
  | Fail e => Err e
  | Get k => mrun (k (chip_view (daemon_world m))) m
  | Upd f k => mrun k (with_daemon (set_chip (f (chip_view (daemon_world m))) (daemon_world m)) m)
  | Int k => mrun k (with_daemon (mbx_on_interrupt_cb (daemon_world m)) m)
  | Retry k => mrun k (with_daemon (schedule_tdmd_retry (daemon_world m)) m)
  | RdB off k => let '(v, m) := remote_get_byte fpga_step (Some reg_service) off m in mrun (k v) m
  | RdW off k => let '(v, m) := remote_get_word fpga_step (Some reg_service) off m in mrun (k v) m
  | WrW off v k => mrun k (remote_put_word fpga_step (Some reg_service) off v m)
  | RdBlk off n k => let '(l, m) := remote_read_block fpga_step (Some reg_service) off n m in mrun (k l) m
  | WrBlk off src k => mrun k (remote_write_block fpga_step (Some reg_service) off src m)
  end.
End remote.

(** ** Lemmas: the memory behind the mailbox and the flat window *)

(** The memory [r] holds what the flat window shows. *)
Definition ram_agrees (r : Z → Z) (w : world) : Prop := ∀ o, Ram68k.load8 r o = ram_byte w o.

#[export] Instance ram_agrees_proper : Proper (mem_eq ==> eq ==> iff) ram_agrees.
Proof. intros r r' Hr w w' <-. split; intros H o; [rewrite <-Hr|rewrite Hr]; apply H. Qed.

Lemma load8_store8 r o1 v o2 : Ram68k.load8 (Ram68k.store8 r o1 v) o2
  = if decide (Ram68k.addr o1 = Ram68k.addr o2) then u8 v else Ram68k.load8 r o2.
Proof.
  unfold Ram68k.load8, Ram68k.store8. destruct (Z.eqb_spec (Ram68k.addr o2) (Ram68k.addr o1)) as [->|H].
  - by rewrite decide_True.
  - by rewrite decide_False by congruence.
Qed.

Lemma agrees_put_byte r w off v : ram_agrees r w →
  ram_agrees (Ram68k.store8 r off v) (set_w_win (put_ram_byte (w_boardram w) (w_win w) off v) w).
Proof.
  intros H o. rewrite load8_store8. unfold ram_byte. cbn [w_boardram w_win set_w_win].
  rewrite get_put_byte. case_decide; [done|apply H].
Qed.

Lemma agrees_put_word r w off v : ram_agrees r w →
  ram_agrees (Ram68k.store16 r off v) (put_word off v w).
Proof.
  intros H. apply (agrees_put_byte _ _ off (Z.shiftr v 8)) in H.
  apply (agrees_put_byte _ _ (off + 1) (u8 v)) in H. intros o. specialize (H o). revert H.
  unfold Ram68k.store16. change 256 with (2 ^ 8). rewrite <-(Z.shiftr_div_pow2 v 8) by lia.
  by rewrite !load8_store8, u8_u8.
Qed.

Lemma agrees_write_block r w off src : ram_agrees r w →
  ram_agrees (store_block r off src) (write_block off src w).
Proof.
  revert r w off. induction src as [|v src IH]; intros r w off H; [exact H|].
  apply (agrees_put_byte _ _ off v) in H. apply (IH _ _ (off + 1) H).
Qed.

Lemma agrees_read_block r w off n : ram_agrees r w → load_block r off n = read_block w off n.
Proof.
  intros H. revert off. induction n as [|n IH]; intros off; [done|]. cbn. f_equal; [apply H|apply IH].
Qed.

Lemma agrees_word r w off : ram_agrees r w → window_ok (w_win w) → Ram68k.load16 r off = ram_word w off.
Proof. intros H Hw. unfold ram_word. rewrite get_ram_word_bytes by done. unfold Ram68k.load16. by rewrite !H. Qed.

(** ** What the adapter looks at *)

(** The adapter sees the two RAM slots of the window and nothing of the daemon. *)
Class PeerSlots {A} (fpga : mbx A → mbx A) `{!RamPeer fpga None} : Prop :=
  peer_slots : ∀ p m m', m_map m' = m_map m → m_env m' = m_env m →
    mbx_rd64 MBX_RAM_REQ m' = mbx_rd64 MBX_RAM_REQ m → mbx_rd64 MBX_RAM_RSP m' = mbx_rd64 MBX_RAM_RSP m →
    peer_at p m → peer_at p m'.

Section service.
Context {A : Type} {fpga : mbx A → mbx A} {P : RamPeer fpga None} {S : PeerSlots fpga} (stk : list Z).
Implicit Types m : @machine A.

(** The adapter's side of the machine. *)
Definition adapter m : mbx A := Mbx (m_map m) (m_win m) (m_env m).2.

Lemma adapter_fpga m : adapter (fpga_step fpga m) = fpga (adapter m).
Proof. unfold adapter, fpga_step. cbn. by destruct (fpga _). Qed.

(** Daemon code that leaves the RAM slots alone. *)
Definition slots_kept (w w' : world) : Prop :=
  slot w' MBX_RAM_REQ = slot w MBX_RAM_REQ ∧ slot w' MBX_RAM_RSP = slot w MBX_RAM_RSP ∧
  w_boardram w' = w_boardram w.

Lemma slots_kept_set off v w w' : slots_kept w w' → off + 8 ≤ MBX_RAM_REQ ∨ MBX_RAM_RSP + 8 ≤ off →
  slots_kept w (set_slot off v w').
Proof.
  intros (H1 & H2 & H3) Ho. unfold slots_kept, MBX_RAM_REQ, MBX_RAM_RSP in *.
  split_and!; [rewrite slot_set_ne by lia; done..|done].
Qed.

(** Such code does not disturb the adapter. *)
Lemma adapter_daemon p w' m : slots_kept (daemon_world m) w' →
  peer_at p (adapter m) → peer_at p (adapter (with_daemon w' m)).
Proof.
  intros (H1 & H2 & H3). unfold slot, map_base in H1, H2. rewrite H3 in H1, H2. by apply peer_slots.
Qed.

Lemma safe_kept w : ∃ w', service_bridge_safe stk w = Ok w' ∧ slots_kept w w' ∧ chip_view w' = chip_view w.
Proof.
  unfold service_bridge_safe. case_match; [by exists w|].
  set (w1 := mbx_reply _ w).
  assert (K : slots_kept w w1 ∧ chip_view w1 = chip_view w).
  { split; [|done]. unfold w1, mbx_reply. do 2 (apply slots_kept_set; [|mbx_lia]). done. }
  destruct (req_rw _); [|by exists w1]. destruct (_ =? A2065_RAP_OFF) eqn:E.
  - unfold chip_wput. rewrite E. eexists. split; [done|exact K].
  - eexists. split; [done|]. by case_match.
Qed.

Lemma reg_service_kept m : ∃ w', reg_service stk m = with_daemon w' m ∧
  slots_kept (daemon_world m) w' ∧ chip_view w' = chip_view (daemon_world m).
Proof.
  destruct (safe_kept (daemon_world m)) as (w' & E & K). exists w'. split; [|done].
  unfold reg_service. by rewrite E.
Qed.

(** So the daemon's callback is one the adapter can live with. *)
#[export] Instance daemon_peer : RamPeer (fpga_step fpga) (Some (reg_service stk)).
Proof.
  refine {| peer_ram (e : world * A) := peer_ram e.2; peer_at p m := peer_at p (adapter m) |}.
  - intros e a. apply peer_ram_byte.
  - intros p m H. by apply (peer_mapped p (adapter m)).
  - intros p m H Hp. rewrite adapter_fpga. by apply (peer_rest p (adapter m)).
  - intros m off write wdata H. intros. destruct (peer_post (adapter m) off write wdata) as (n & Hn & Hb); try done.
    exists n. split; [done|]. change (adapter (mbx_wr64 ?o ?v ?x)) with (mbx_wr64 o v (adapter x)).
    by rewrite adapter_fpga.
  - intros n off write wdata m H.
    change (rsp_ready (fpga_step fpga m)) with (rsp_ready (adapter (fpga_step fpga m))).
    change (mbx_rd64 MBX_RAM_RSP (fpga_step fpga m)) with (mbx_rd64 MBX_RAM_RSP (adapter (fpga_step fpga m))).
    rewrite adapter_fpga. apply (peer_busy n off write wdata (adapter m) H).
  - intros f n off write wdata m [= <-] H. destruct (reg_service_kept m) as (w' & -> & K & _).
    split; [by apply adapter_daemon|done].
  - intros m H. apply (peer_ack (adapter m) H).
  - intros m H. apply (peer_release (adapter m) H).
Defined.
End service.

(** ** The simulation *)

(** A program keeps to what both builds agree on: word accesses at even offsets, and
    words and bytes that are words and bytes. *)
Fixpoint disciplined {A} (p : prog A) (w : world) : Prop :=
  match p with
  | Ret _ | Fail _ => True
  | Get k => disciplined (k (chip_view w)) w
  | Upd f k => disciplined k (set_chip (f (chip_view w)) w)
  | Int k => disciplined k (mbx_on_interrupt_cb w)
  | Retry k => disciplined k (schedule_tdmd_retry w)
  | RdB off k => disciplined (k (ram_byte w off)) w
  | RdW off k => Z.land off 1 = 0 ∧ disciplined (k (ram_word w off)) w
  | WrW off v k => Z.land off 1 = 0 ∧ fits 16 v ∧ disciplined k (put_word off v w)
  | RdBlk off n k => disciplined (k (read_block w off n)) w
  | WrBlk off src k => Forall (fits 8) src ∧ disciplined k (write_block off src w)
  end.

Section simulation.
Context {A : Type} {fpga : mbx A → mbx A} {P : RamPeer fpga None} {S : PeerSlots fpga} (stk : list Z).
Implicit Types m : @machine A.

(** The daemon on remote board RAM is in the state of the chip on flat board RAM. *)
Record simulates (w : world) m : Prop := Simulates {
  sim_idle : peer_at Idle (adapter m);
  sim_chip : chip_view (m_env m).1 = chip_view w;
  sim_ram : ram_agrees (peer_ram (m_env m).2) w;
  sim_win : window_ok (w_win w) }.

(** A transfer changes [rap] and the postponed writes, and nothing else of the chip. *)
Lemma transfer_chip c : let Q m := chip_view (m_env m).1 = c in
  (∀ m, Q m → Q (fpga_step fpga m)) ∧ (∀ off v m, Q m → Q (mbx_wr64 off v m)) ∧
  (∀ f m, Some (reg_service stk) = Some f → Q m → Q (f m)).
Proof.
  intros Q. split_and!; [done|done|]. intros f m [= <-] H.
  destruct (reg_service_kept stk m) as (w' & -> & _ & E). unfold Q. cbn. by rewrite E.
Qed.

Lemma sim_daemon w w' u m : simulates w m → slots_kept (daemon_world m) u →
  chip_view u = chip_view w' → (∀ o, ram_byte w' o = ram_byte w o) → window_ok (w_win w') →
  simulates w' (with_daemon u m).
Proof.
  intros [Hi Hc Hr Hw] K E R W. split; [by apply adapter_daemon|exact E| |done].
  intros o. rewrite R. apply Hr.
Qed.

(** The state after a transfer, from what the transfer did to the memory. *)
Lemma sim_transfer w w' m m' : simulates w m → peer_at Idle (adapter m') →
  chip_view (m_env m').1 = chip_view w → ram_agrees (peer_ram (m_env m').2) w' →
  chip_view w' = chip_view w → window_ok (w_win w') → simulates w' m'.
Proof. intros Hs Hi Hc Hr E W. split; [done|congruence|done|done]. Qed.

Lemma slots_kept_ddr3 f w w' : slots_kept w w' → slots_kept w (upd_ddr3 f w').
Proof. by intros (H1 & H2 & H3). Qed.

Lemma slots_kept_interrupt w : slots_kept w (mbx_on_interrupt_cb w).
Proof.
  apply slots_kept_ddr3. do 3 (apply slots_kept_set; [|mbx_lia]). by split.
Qed.

Lemma chip_view_slot off v w : chip_view (set_slot off v w) = chip_view w.
Proof. done. Qed.

Lemma chip_view_interrupt w : chip_view (mbx_on_interrupt_cb w) = chip_view w.
Proof.
  unfold mbx_on_interrupt_cb, assert_mbx_int. cbv zeta.
  change (chip_view (upd_ddr3 ?f ?x)) with (chip_view x). by rewrite !chip_view_slot.
Qed.

Lemma sim_interrupt w m : simulates w m →
  simulates (mbx_on_interrupt_cb w) (with_daemon (mbx_on_interrupt_cb (daemon_world m)) m).
Proof.
  intros Hs. pose proof (assert_frame w) as F. apply (sim_daemon w); [done| | | |apply F, Hs].
  - apply slots_kept_interrupt.
  - rewrite !chip_view_interrupt. apply (sim_chip _ _ Hs).
  - intros o. by apply ctl_frame_ram_byte.
Qed.

Lemma sim_retry w m : simulates w m →
  simulates (schedule_tdmd_retry w) (with_daemon (schedule_tdmd_retry (daemon_world m)) m).
Proof.
  intros Hs. unfold schedule_tdmd_retry.
  apply (sim_daemon w); [done|by case_match| |by case_match|case_match; apply Hs].
  repeat case_match; apply (sim_chip _ _ Hs).
Qed.

Lemma mrun_simulates {B} (p : prog B) w m : simulates w m → disciplined p w →
  match run p w with
  | Ok (a, w') => ∃ m', mrun fpga stk p m = Ok (a, m') ∧ simulates w' m'
  | Err e => mrun fpga stk p m = Err e
  end.
Proof.
  revert w m. induction p as [a|e|k IH|c k IH|k IH|k IH|off k IH|off k IH|off v k IH|off n k IH|off src k IH];
    intros w m Hs Hd; cbn [run_on mrun disciplined] in *; [by exists m|done|..];
    pose proof (transfer_chip (chip_view w)) as (Q1 & Q2 & Q3); pose proof (sim_idle _ _ Hs) as Hi;
    pose proof (sim_chip _ _ Hs) as Hc; pose proof (sim_ram _ _ Hs) as Hr; pose proof (sim_win _ _ Hs) as Hw.
  - replace (chip_view (daemon_world m)) with (chip_view w) by (symmetry; apply Hc). by apply IH.
  - replace (chip_view (daemon_world m)) with (chip_view w) by (symmetry; apply Hc).
    apply IH; [|done]. by apply (sim_daemon w).
  - apply IH; [by apply sim_interrupt|done].
  - apply IH; [by apply sim_retry|done].
  - pose proof (@remote_get_byte_ok _ _ _ (daemon_peer stk) off m Hi) as G.
    pose proof (boardram_rb_keeps _ _ _ Q1 Q2 Q3 (Z.land off RAM_MASK) m Hc) as K.
    unfold remote_get_byte in *. destruct (boardram_rb _ _ _ m) as [v m1]. destruct G as (Ev & Hi1 & R1).
    assert (v = ram_byte w off) as -> by (rewrite Ev; apply Hr). apply IH; [|done].
    apply (sim_transfer w w m); try done. by apply (ram_agrees_proper _ _ R1 _ _ eq_refl).
  - destruct Hd as [He Hd]. pose proof (@remote_get_word_ok _ _ _ (daemon_peer stk) off m Hi He) as G.
    pose proof (boardram_xfer_keeps _ _ _ Q1 Q2 Q3 (Z.land (Z.land off RAM_MASK) 0x7FFE) 0 0 m Hc) as K.
    unfold remote_get_word, boardram_rw in *. destruct (boardram_xfer _ _ _ _ _ m) as [v m1].
    destruct G as (Ev & Hi1 & R1).
    assert (v = ram_word w off) as -> by (rewrite Ev; by apply agrees_word). apply IH; [|done].
    apply (sim_transfer w w m); try done. by apply (ram_agrees_proper _ _ R1 _ _ eq_refl).
  - destruct Hd as (He & Hv & Hd). destruct (@remote_put_word_ok _ _ _ (daemon_peer stk) off v m Hi He Hv) as [Hi1 R1].
    pose proof (boardram_xfer_keeps _ _ _ Q1 Q2 Q3 (Z.land (Z.land off RAM_MASK) 0x7FFE) 1 v m Hc) as K.
    apply IH; [|done]. apply (sim_transfer w _ m); [done|exact Hi1|exact K| |done|by apply window_ok_put_word].
    apply (ram_agrees_proper _ _ R1 _ _ eq_refl). by apply agrees_put_word.
  - pose proof (@remote_read_block_ok _ _ _ (daemon_peer stk) off n m Hi) as G.
    pose proof (remote_read_block_keeps _ _ _ Q1 Q2 Q3 off n m Hc) as K.
    destruct (remote_read_block _ _ _ _ m) as [l m1]. destruct G as (Ev & Hi1 & R1).
    assert (l = read_block w off n) as -> by (rewrite Ev; by apply agrees_read_block). apply IH; [|done].
    apply (sim_transfer w w m); try done. by apply (ram_agrees_proper _ _ R1 _ _ eq_refl).
  - destruct Hd as [Hb Hd]. destruct (@remote_write_block_ok _ _ _ (daemon_peer stk) off src m Hi Hb) as [Hi1 R1].
    pose proof (remote_write_block_keeps _ _ _ Q1 Q2 Q3 off src m Hc) as K.
    apply IH; [|done]. apply (sim_transfer w _ m); [done|exact Hi1|exact K| |done|by apply window_ok_write_block].
    apply (ram_agrees_proper _ _ R1 _ _ eq_refl). by apply agrees_write_block.
Qed.
End simulation.

(** ** Lemmas: the chip code is disciplined *)

Lemma disciplined_bind {A B} (p : prog A) (q : A → prog B) w :
  disciplined p w → (∀ a w', run p w = Ok (a, w') → disciplined (q a) w') →
  disciplined (x ← p; q x) w.
Proof.
  revert w. induction p as [| |? IH|? ? IH|? IH|? IH|? ? IH|? ? IH|? ? ? IH|? ? ? IH|? ? ? IH];
    intros w Hp Hq; cbn in *; naive_solver.
Qed.

Lemma disciplined_upd {A} f (q : () → prog A) w : chip_local f → disciplined (q tt) (f w) →
  disciplined (x ← upd f; q x) w.
Proof. intros Hf Hq. cbn. by rewrite Hf. Qed.

Lemma disciplined_rmw0 {A} f (q : () → prog A) w : disciplined (q tt) (set_csr0 (f (csr0 w)) w) →
  disciplined (x ← rmw0 f; q x) w.
Proof.
  intros Hq. apply disciplined_bind; [done|]. intros [] w'. rewrite run_rmw0. by intros [= <-].
Qed.

Lemma disciplined_ld0 {A} (q : Z → prog A) w : disciplined (q (csr0 w)) w → disciplined (x ← ld0; q x) w.
Proof. done. Qed.

Lemma disciplined_rmw f w : disciplined (rmw0 f) w.
Proof. done. Qed.

Lemma disciplined_lift {A B} (x : res A) (q : A → prog B) w :
  (∀ a, x = Ok a → disciplined (q a) w) → disciplined (x ← lift x; q x) w.
Proof. destruct x; cbn; [auto|done]. Qed.

Lemma disciplined_rdw {A} off (q : Z → prog A) w :
  Z.land off 1 = 0 → disciplined (q (ram_word w off)) w → disciplined (x ← rdw off; q x) w.
Proof. done. Qed.

Lemma disciplined_rethink w : disciplined prog_rethink w.
Proof.
  apply disciplined_rmw0, disciplined_ld0, disciplined_bind; [by case_match|]. intros _ w1 _.
  apply disciplined_ld0. by destruct (int_pending _).
Qed.

Lemma disciplined_csr0_on w : disciplined prog_csr0_on w.
Proof.
  apply disciplined_rmw0, disciplined_bind; [done|]. intros mode w1 _. apply disciplined_bind; [by case_match|].
  intros _ w2 _. apply disciplined_bind; [done|]. intros mode' w3 _. by case_match.
Qed.

(** Even offsets. *)
Lemma even_land x : Z.land x 1 = 0 ↔ Z.even x = true.
Proof.
  change 1 with (Z.ones 1). rewrite Z.land_ones, Zeven_mod by lia. change (2 ^ 1) with 2. by rewrite Z.eqb_eq.
Qed.

Lemma even_plus x k : Z.land x 1 = 0 → Z.even k = true → Z.land (x + k) 1 = 0.
Proof. rewrite !even_land, Z.even_add. by intros -> ->. Qed.

Lemma disciplined_put_desc off md1 md3 w : Z.land off 1 = 0 → fits 16 md1 → fits 16 md3 →
  disciplined (prog_put_desc off md1 md3) w.
Proof.
  intros Ho H1 H3. cbn. split_and!; try done; by apply even_plus.
Qed.

Lemma even_desc base i : Z.land base 1 = 0 → Z.land (desc_off base i) 1 = 0.
Proof. intros H. apply even_plus; [done|]. rewrite Z.even_mul. apply orb_true_r. Qed.

Lemma flat_word_fits w off : fits 16 (ram_word w off).
Proof. unfold ram_word. apply get_ram_word_fits. Qed.
#[local] Hint Resolve flat_word_fits : fits.

(** Four words of a descriptor. *)
Ltac desc_words := do 4 (apply disciplined_rdw; [by apply even_plus; [apply even_desc|]|]).

Lemma disciplined_rx_loop fuel rdra rlen d len insize first w : Z.land rdra 1 = 0 → Forall (fits 8) d →
  disciplined (prog_rx_loop fuel rdra rlen d len insize first) w.
Proof.
  intros He Hd. revert insize first w. induction fuel as [|fuel IH]; intros insize first w; [done|].
  cbn [prog_rx_loop]. apply disciplined_upd; [chip_local|]. set (w1 := upd_reg _ w).
  apply disciplined_bind; [done|]. intros off w2 [= <- <-]. desc_words.
  pose proof (flat_word_fits w1) as Hf. cbv zeta. destruct (flag _ RX_OWN); cbn [negb].
  - apply disciplined_upd; [chip_local|]. apply disciplined_lift. intros src Hsrc. cbn [disciplined].
    split; [by eapply bslice_Forall|]. apply disciplined_bind.
    + apply disciplined_put_desc; [by apply even_desc|solve_fits|case_match; [apply fits_u16|apply Hf]].
    + intros _ w3 _. case_match; [done|]. apply IH.
  - apply disciplined_bind; [by destruct first|]. intros _ w2 _.
    apply disciplined_bind; [|intros _ w3 _; apply disciplined_bind; [apply disciplined_rethink|done]].
    cbn. split; [by apply even_plus; [apply even_desc|]|]. split; [|done]. solve_fits.
Qed.

(** The rings lie at even addresses. *)
Definition rings_even (w : world) : Prop :=
  Z.land (am_rdr_rdra (w_reg w)) 1 = 0 ∧ Z.land (am_tdr_tdra (w_reg w)) 1 = 0.

Lemma rings_even_keeps w w' : keeps w w' → rings_even w → rings_even w'.
Proof.
  intros [_ F] [H1 H2]. pose proof (run_config _ _ F) as E.
  pose proof (f_equal am_rdr_rdra E) as E1. pose proof (f_equal am_tdr_tdra E) as E2. cbn in E1, E2.
  split; congruence.
Qed.

(** An array of 4096 bytes. *)
Definition stack_ok (stk : list Z) : Prop := length stk = 4096%nat ∧ Forall (fits 8) stk.

Lemma append_fcs_bytes d len d' len' : Forall (fits 8) d → append_fcs d len = Ok (d', len') →
  Forall (fits 8) d'.
Proof.
  unfold append_fcs. intros Hd H. do 5 bind_inv H. injection H as <- <-.
  assert (B : ∀ b i v b', Forall (fits 8) b → bset b i (u8 v) = Ok b' → Forall (fits 8) b').
  { intros b i v b' Hb. unfold bset. case_match; [done|]. intros [= <-]. apply Forall_insert; [done|apply fits_u8]. }
  eauto 6.
Qed.

Lemma disciplined_gotfunc stk b len w : world_ok w → rings_even w → stack_ok stk → Forall (fits 8) b →
  disciplined (prog_gotfunc stk b len) w.
Proof.
  intros Hw He [Hl Hs] Hb. unfold prog_gotfunc. apply disciplined_bind; [done|]. intros c w0 [= <- <-].
  unfold id. view_simpl. destruct (flag (csr0 w) CSR0_RXON); cbn [negb]; [|done].
  destruct (Z.ltb_spec len 20); [done|]. cbv zeta. destruct (ring_usable _ _); cbn [negb]; [|done].
  apply disciplined_lift. intros src Hsrc. apply disciplined_lift. intros d Hd.
  destruct (bytes_stk _ _ _ Hl Hs (bslice_Forall _ _ _ _ Hb Hsrc) Hd) as [Hdl Hdf].
  assert (Hm : ∀ n d1, mungepacket (w_mac w) d len = Ok (n, d1) → Forall (fits 8) d1).
  { intros n d1 E. destruct (mungepacket_cases (w_mac w) d len) as [E'|(b' & E' & _ & F & _)];
      [apply Hw|lia|done|done|congruence|congruence]. }
  apply disciplined_bind; [destruct (flag _ MODE_LOOP); [done|]; by destruct (mungepacket _ _ _) as [[]|]|].
  intros d1 w1 E1. assert (F1 : Forall (fits 8) d1 ∧ w1 = w).
  { destruct (flag _ MODE_LOOP); [by injection E1 as <- <-|]. revert E1. rewrite run_bind, run_lift.
    destruct (mungepacket _ _ _) as [[n b1]|] eqn:E; [|done]. intros [= <- <-]. eauto. }
  destruct F1 as [F1 ->]. destruct (rx_accept w d1); cbn [negb]; [|done].
  apply disciplined_lift. intros [d2 len2] Hf. apply append_fcs_bytes in Hf; [|done].
  apply disciplined_bind; [apply disciplined_rx_loop; [apply He|done]|]. intros [] w2 _; [|done].
  apply disciplined_rmw0. by apply disciplined_bind; [apply disciplined_rethink|].
Qed.

Lemma disciplined_tx_scan n tdra tlen start i tmd1 w : Z.land tdra 1 = 0 →
  disciplined (prog_tx_scan n tdra tlen start i tmd1) w.
Proof.
  intros He. revert i tmd1 w. induction n as [|n IH]; intros i tmd1 w; [done|]. cbn [prog_tx_scan].
  apply disciplined_upd; [chip_local|]. apply disciplined_bind; [done|]. intros off w2 [= <- <-].
  apply disciplined_rdw; [by apply even_plus; [apply even_desc|]|]. case_match; [done|]. apply IH.
Qed.

Lemma disciplined_tx_loop fuel tdra tlen outsize w : Z.land tdra 1 = 0 →
  disciplined (prog_tx_loop fuel tdra tlen outsize) w.
Proof.
  intros He. revert outsize w. induction fuel as [|fuel IH]; intros outsize w; [done|].
  cbn [prog_tx_loop]. apply disciplined_upd; [chip_local|]. set (w1 := upd_reg _ w).
  apply disciplined_bind; [done|]. intros off w2 [= <- <-]. desc_words.
  pose proof (flat_word_fits w1) as Hf. cbv zeta. destruct (flag _ TX_OWN); cbn [negb].
  - destruct (MAX_PACKET_SIZE <? _).
    { apply disciplined_bind; [|done]. apply disciplined_put_desc; [by apply even_desc|solve_fits|apply Hf]. }
    cbn [disciplined]. apply disciplined_bind; [done|]. intros c w3 [= <- <-].
    apply disciplined_lift. intros b _. apply disciplined_lift. intros [b' o] _.
    apply disciplined_upd; [chip_local|]. apply disciplined_upd; [chip_local|].
    case_match; [done|]. apply disciplined_bind; [|intros _ w4 _; apply IH].
    apply disciplined_put_desc; [by apply even_desc|solve_fits|apply Hf].
  - apply disciplined_rmw0, disciplined_bind; [|done].
    apply disciplined_put_desc; [by apply even_desc|solve_fits|solve_fits].
Qed.

(** The descriptor the gather loop stopped at. *)
Definition tx_end_ok (e : tx_end) : Prop :=
  Z.land (te_off e) 1 = 0 ∧ fits 16 (te_tmd1 e) ∧ fits 16 (te_tmd3 e).

Lemma tx_loop_end_ok fuel tdra tlen outsize w e w' : Z.land tdra 1 = 0 →
  tx_loop fuel tdra tlen outsize w = Ok (e, w') → tx_end_ok e.
Proof.
  intros He. revert outsize w. induction fuel as [|fuel IH]; intros outsize w; [done|].
  cbn [tx_loop]. cbv zeta. set (w1 := upd_reg _ w). set (off := desc_off _ _).
  assert (Ho : Z.land off 1 = 0) by (by apply even_desc). pose proof (flat_word_fits w1) as Hf.
  assert (T : ∀ err o tmd1 tmd3, fits 16 tmd1 → fits 16 tmd3 → tx_end_ok (TxEnd err o off tmd1 tmd3)) by done.
  destruct (flag _ TX_OWN); cbn [negb]; [|intros [= <- _]; apply T; solve_fits].
  destruct (MAX_PACKET_SIZE <? _); [intros [= <- _]; apply T; [solve_fits|apply Hf]|].
  intros H. bind_inv H. bind_inv H. destruct x0 as [b o]. revert H. case_match; [|apply IH].
  intros [= <- _]. apply T; [solve_fits|apply Hf].
Qed.

Lemma disciplined_tx_done w : disciplined prog_tx_done w.
Proof. apply disciplined_rmw0. by apply disciplined_bind; [apply disciplined_rethink|]. Qed.

Lemma disciplined_tx_finish stk fcs e w : world_ok w → rings_even w → stack_ok stk → tx_end_ok e →
  disciplined (prog_tx_finish stk fcs e) w.
Proof.
  intros Hw He Hs (Ho & H1 & H3). destruct e as [err outsize off tmd1 tmd3]. cbn [te_off te_tmd1 te_tmd3] in *.
  unfold prog_tx_finish. apply disciplined_bind; [done|]. intros c w0 [= <- <-]. unfold id. view_simpl. cbv zeta.
  assert (D : ∀ {B} a b (q : prog B), fits 16 a → fits 16 b → (∀ u, u = put_desc off a b w → disciplined q u) →
    disciplined (_ ← prog_put_desc off a b; q) w).
  { intros B a b q Ha Hb Hq. apply disciplined_bind; [by apply disciplined_put_desc|].
    intros [] u E. apply Hq. rewrite run_put_desc in E. by injection E as <-. }
  destruct err; [apply disciplined_tx_done|]. destruct (_ && negb _).
  { apply disciplined_rmw0, disciplined_bind; [|intros _ w2 _; apply disciplined_bind; [|intros _ w3 _; apply disciplined_tx_done]];
      cbn; (split_and!; [by apply even_plus|solve_fits|done]). }
  destruct (flag (registers_mode w) MODE_LOOP).
  - destruct (flag _ MODE_COLL); (apply D; [solve_fits..|]); intros u ->; [apply disciplined_tx_done|].
    assert (K : keeps w (put_desc off tmd1 tmd3 w)) by (by apply keeps_put_desc).
    apply disciplined_bind; [|intros _ w3 _; apply disciplined_tx_done].
    apply disciplined_gotfunc; [apply K|by apply (rings_even_keeps w)|done|apply Hw].
  - destruct (_ || _); (apply D; [solve_fits..|]); intros u _; [apply disciplined_tx_done|].
    apply disciplined_upd; [chip_local|]. apply disciplined_lift. intros [n b] _.
    apply disciplined_upd; [chip_local|]. apply disciplined_bind; [|intros _ w3 _; apply disciplined_tx_done].
    apply disciplined_bind; [done|]. intros c w3 [= <- <-]. case_match; [done|]. by apply disciplined_lift.
Qed.

Lemma disciplined_do_transmit stk w : world_ok w → rings_even w → stack_ok stk →
  disciplined (prog_do_transmit stk) w.
Proof.
  intros Hw He Hs. unfold prog_do_transmit. apply disciplined_bind; [done|]. intros c w0 [= <- <-].
  unfold id. view_simpl. destruct (flag (csr0 w) CSR0_TXON); cbn [negb]; [|done]. cbv zeta.
  destruct (ring_usable _ _) eqn:Eu; cbn [negb]; [|done].
  apply ring_usable_range in Eu; [|by apply tlen_nonneg].
  pose proof (tx_seek_keeps (am_tdr_tdra (w_reg w)) (am_tdr_tlen (w_reg w)) w Hw Eu) as K. cbv zeta in K.
  apply disciplined_upd; [chip_local|]. set (w1 := upd_reg _ w) in *.
  apply disciplined_bind; [done|]. intros start w2 [= <- <-]. view_simpl.
  apply disciplined_rdw; [by apply even_plus; [apply even_desc, He|]|]. apply disciplined_bind.
  { destruct (tx_startable _); [done|]. apply disciplined_tx_scan, He. }
  intros tmd1 w2 E. assert (K2 : keeps w w2).
  { revert K E. destruct (tx_startable _); [by intros K [= <- <-]|]. rewrite run_tx_scan. intros K E.
    apply (f_equal (λ x, if x is Ok p then p.2 else w)) in E. cbn [snd] in E. by rewrite <-E. }
  destruct (tx_startable tmd1); cbn [negb]; [|by apply disciplined_upd; [chip_local|]].
  apply disciplined_bind; [apply disciplined_tx_loop, He|]. intros e w3 El. rewrite run_tx_loop in El.
  pose proof (tx_loop_keeps _ _ _ _ _ _ _ Eu (proj1 K2) El) as K3.
  apply disciplined_tx_finish; [apply K3| |done|eapply tx_loop_end_ok; [apply He|apply El]].
  apply (rings_even_keeps w2); [done|]. by apply (rings_even_keeps w).
Qed.

(** The initialisation block and the rings lie at even addresses: CSR1 drops its lowest
    bit, the block's ring pointers the lowest three. *)
Definition chip_even (w : world) : Prop := Z.land (csr_at 1 (w_reg w)) 1 = 0 ∧ rings_even w.

Lemma even_testbit x : Z.land x 1 = 0 ↔ Z.testbit x 0 = false.
Proof. rewrite even_land, Z.bit0_odd, <-Z.negb_even. by destruct (Z.even x). Qed.

Lemma init_block_even w : Z.land (csr_at 1 (w_reg w)) 1 = 0 → Z.land (init_block_off (w_reg w)) 1 = 0.
Proof.
  rewrite !even_testbit. intros H. unfold init_block_off. by rewrite Z.land_spec, Z.lor_spec, H, Z.shiftl_spec_low.
Qed.

Lemma chip_init_even w : rings_even (chip_init w).
Proof.
  unfold rings_even, chip_init. cbv zeta. cbn [w_reg upd_reg upd_mac set_w_reg set_w_mac].
  split; unfold chip_init_mask, load_init_block; cbn; rewrite <-!Z.land_assoc; apply Z.land_0_r.
Qed.

Lemma disciplined_chip_init w : Z.land (csr_at 1 (w_reg w)) 1 = 0 → disciplined prog_chip_init w.
Proof.
  intros H. apply init_block_even in H. unfold prog_chip_init. apply disciplined_upd; [chip_local|].
  apply disciplined_bind; [done|]. intros off w1 [= <- <-]. view_simpl.
  change (init_block_off (set_rap _ ?r)) with (init_block_off r).
  change (w_reg (rings_reset_loopback_count w)) with (w_reg w).
  apply disciplined_rdw; [by apply even_plus|]. apply disciplined_upd; [chip_local|].
  apply disciplined_bind; [cbn; split_and!; try done; by apply even_plus|]. intros ladrf w2 _.
  apply disciplined_upd; [chip_local|].
  apply disciplined_bind; [cbn; split_and!; try done; by apply even_plus|]. intros rdr w3 _.
  apply disciplined_bind; [cbn; split_and!; try done; by apply even_plus|]. intros tdr w4 _.
  apply disciplined_upd; [chip_local|]. apply disciplined_bind; [done|]. intros mac w5 _.
  apply disciplined_upd; [chip_local|]. by apply disciplined_upd; [chip_local|].
Qed.

Lemma disciplined_command oreg w : Z.land (csr_at 1 (w_reg w)) 1 = 0 → disciplined (prog_csr0_command oreg) w.
Proof.
  intros H. unfold prog_csr0_command. apply disciplined_bind; [done|]. intros c w0 [= <- <-]. view_simpl.
  assert (C : ∀ u f, w_reg u = f (w_reg w) → csr_at 1 (f (w_reg w)) = csr_at 1 (w_reg w) →
    ∀ q : () → prog (), (∀ a x, disciplined (q a) x) → disciplined (x ← prog_chip_init; q x) u).
  { intros u f E1 E2 q Hq. apply disciplined_bind; [|auto]. apply disciplined_chip_init. by rewrite E1, E2. }
  destruct (_ && _); [done|]. apply disciplined_ld0. destruct (_ && _ && _).
  - apply disciplined_bind; [apply disciplined_csr0_on|]. intros [] w1. rewrite run_csr0_on. intros [= <-].
    apply disciplined_ld0. destruct (_ && _); [|done]. eapply (C _ (set_csr_at 0 _)); [done| |done].
    unfold csr_at, set_csr_at. cbn [csr set_csr]. by destruct (csr (w_reg w)).
  - apply disciplined_ld0. destruct (_ && _ && _); [|done]. by apply (C _ id).
Qed.

Lemma rings_even_upd f w : (∀ r, am_rdr_rdra (f r) = am_rdr_rdra r ∧ am_tdr_tdra (f r) = am_tdr_tdra r) →
  rings_even w → rings_even (upd_reg f w).
Proof. intros Hf [H1 H2]. destruct (Hf (w_reg w)) as [E1 E2]. split; cbn; congruence. Qed.

Lemma rings_even_command oreg w : rings_even w → rings_even (csr0_command oreg w).
Proof.
  intros H. unfold csr0_command, set_csr0. cbv zeta. destruct (_ && _); [by apply rings_even_upd|].
  destruct (_ && _ && _); [destruct (_ && _)|destruct (_ && _ && _)];
    repeat (apply rings_even_upd; [done|]); first [apply chip_init_even|done].
Qed.

Lemma disciplined_wput_csr0 stk v w : world_ok w → chip_even w → stack_ok stk → fits 16 v →
  disciplined (prog_wput_csr0 (prog_on_transmit_cb stk) v) w.
Proof.
  intros Hw [H1 He] Hs Hv. unfold prog_wput_csr0. apply disciplined_ld0, disciplined_bind.
  { do 4 apply disciplined_rmw0. apply disciplined_rmw. }
  intros [] w1. rewrite run_csr0_merge. intros [= <-]. apply disciplined_bind.
  { apply disciplined_command. unfold set_csr0, csr_at, set_csr_at in *. cbn. by destruct (csr (w_reg w)). }
  intros [] w1 E. rewrite run_csr0_command in E.
  apply (f_equal (λ x, if x is Ok p then p.2 else w)) in E. cbn [snd] in E. subst w1.
  pose proof (world_ok_command w Hw v Hv) as Hu.
  assert (Hr : rings_even (csr0_command (csr0 w) (set_csr0 (csr0_merge (csr0 w) v) w)))
    by (by apply rings_even_command).
  revert Hu Hr. generalize (csr0_command (csr0 w) (set_csr0 (csr0_merge (csr0 w) v) w)). clear -Hs. intros u Hu Hr.
  apply disciplined_bind; [|intros [] w2 _; apply disciplined_rethink]. unfold prog_csr0_demand.
  apply disciplined_ld0. destruct (flag (csr0 u) CSR0_TDMD); [|done].
  apply disciplined_bind; [done|]. intros i w0 [= <- <-]. apply disciplined_bind; [|done].
  case_match; [|done]. apply disciplined_ld0. pose proof (csr0_implicit_start u Hu) as Hi. cbv zeta in Hi.
  apply disciplined_bind; [by case_match; [|apply disciplined_csr0_on]|]. intros [] w1 E1.
  assert (w1 = if flag (csr0 u) CSR0_TXON then u
    else set_csr0 (csr0_on (am_mode (w_reg u)) (andnot (csr0 u) CSR0_STOP)) u) as ->.
  { revert E1. case_match; [by intros [= <-]|]. rewrite run_csr0_on. by intros [= <-]. }
  apply disciplined_bind; [|done]. unfold prog_on_transmit_cb. apply disciplined_bind.
  - apply disciplined_do_transmit; [exact Hi| |done]. by case_match.
  - intros r w3 _. by destruct (r =? 0).
Qed.

(** A write to a register other than CSR0. *)
Lemma wput_plain_wput `{TxHandler} v w : rap (w_reg w) < RAP_SIZE → rap (w_reg w) ≠ 0 →
  chip_wput A2065_RDP_OFF v w = Ok (wput_plain (rap (w_reg w)) v w).
Proof.
  intros H1 H2. unfold chip_wput, wput_plain. cbv zeta. change (A2065_RDP_OFF =? A2065_RAP_OFF) with false. cbv iota.
  destruct (Z.leb_spec RAP_SIZE (rap (w_reg w))); [lia|]. destruct (Z.eqb_spec (rap (w_reg w)) 0); [lia|].
  by repeat case_match.
Qed.

(** ** Register writes on remote board RAM *)

(** [chip_wput] in the mailbox build: a CSR0 write runs the program, every other write
    touches registers only. *)
Definition mchip_wput {A} (fpga : mbx A → mbx A) (stk : list Z) (reg_offset v : Z) (m : machine) :
    res machine :=
  if (reg_offset =? A2065_RAP_OFF) || negb (rap (w_reg (m_env m).1) =? 0) then
    let htx : TxHandler := Some (mbx_on_transmit_cb stk) in
    w ← chip_wput reg_offset v (daemon_world m);
    Ok (with_daemon w m)
  else '(_, m) ← mrun fpga stk (prog_wput_csr0 (prog_on_transmit_cb stk) v) m; Ok m.

(** Such a write depends on the registers and changes the registers. *)
Lemma wput_registers `{TxHandler} off v w u : w_reg u = w_reg w →
  (off =? A2065_RAP_OFF) || negb (rap (w_reg w) =? 0) = true →
  ∃ r, chip_wput off v w = Ok (set_w_reg r w) ∧ chip_wput off v u = Ok (set_w_reg r u).
Proof.
  destruct w as [r a b c d e f g], u as [r' a' b' c' d' e' f' g']. cbn. intros -> Hd. unfold chip_wput, csr0. cbn [w_reg].
  destruct (off =? A2065_RAP_OFF); [by eexists|]. destruct (RAP_SIZE <=? _); [by eexists|].
  cbn [orb] in Hd. destruct (rap _ =? 0); [done|]. repeat case_match; by eexists.
Qed.

Section theorem.
Context {A : Type} {fpga : mbx A → mbx A} {P : RamPeer fpga None} {S : PeerSlots fpga} (stk : list Z).
Implicit Types m : @machine A.

(** The run through the mailbox ends as the flat one: same result, same chip, same
    memory, mailbox idle; or with the same error. *)
Definition same_outcome {B} (x : res (B * world)) (y : res (B * @machine A)) : Prop :=
  match x with
  | Ok (a, w) => ∃ m, y = Ok (a, m) ∧ simulates w m
  | Err e => y = Err e
  end.

(** The same for operations without a result. *)
Definition same_world (x : res world) (y : res (@machine A)) : Prop :=
  same_outcome (w ← x; Ok (tt, w)) (m ← y; Ok (tt, m)).

Lemma same_world_ok w y : same_world (Ok w) y → ∃ m, y = Ok m ∧ simulates w m.
Proof.
  destruct y as [m|]; cbn; intros (m' & E & H); [|done]. injection E as <-. by exists m.
Qed.

Lemma same_regs w m : simulates w m → rap (w_reg (m_env m).1) = rap (w_reg w) →
  w_reg (daemon_world m) = w_reg w.
Proof.
  intros Hs Hr. pose proof (f_equal w_reg (sim_chip _ _ Hs)) as E. cbn in E.
  change (w_reg (daemon_world m)) with (w_reg (m_env m).1). revert Hr E.
  destruct (w_reg (m_env m).1), (w_reg w). cbn. intros -> [=]. by subst.
Qed.

Lemma mchip_wput_same off v w m : simulates w m → rap (w_reg (m_env m).1) = rap (w_reg w) →
  world_ok w → chip_even w → stack_ok stk → fits 16 v →
  same_world (@chip_wput mbx_int (Some (mbx_on_transmit_cb stk)) off v w) (mchip_wput fpga stk off v m).
Proof.
  intros Hs Hr Hw He Hk Hv. unfold mchip_wput. rewrite Hr.
  destruct ((off =? _) || _) eqn:Ed.
  - destruct (@wput_registers (Some (mbx_on_transmit_cb stk)) off v w (daemon_world m)) as (r & E1 & E2);
      [by apply same_regs|done|]. cbv zeta. rewrite E1, E2. cbn. eexists. split; [done|].
    apply (sim_daemon w); [done|done| |done|apply Hs].
    change (chip_view (set_w_reg r ?x)) with (set_w_reg (set_rap 0 r) (chip_view x)). f_equal. apply (sim_chip _ _ Hs).
  - apply orb_false_iff in Ed as [E1 E2]. apply negb_false_iff in E2. unfold chip_wput. rewrite E1, E2.
    apply Z.eqb_eq in E2. rewrite E2. cbn [Z.leb Z.compare RAP_SIZE].
    pose proof (mrun_simulates stk (prog_wput_csr0 (prog_on_transmit_cb stk) v) w m Hs (disciplined_wput_csr0 _ _ _ Hw He Hk Hv)) as R.
    rewrite run_wput_csr0 in R. unfold same_world. unfold same_outcome.
    destruct (wput_csr0 v w) as [w1|e]; cbn [mbind res_bind] in R |- *.
    + destruct R as (m1 & -> & R). by exists m1.
    + by rewrite R.
Qed.
End theorem.

(** ** Theorem *)

(** C16: The chip works on remote board RAM as on flat board RAM.  Let the adapter behave
    as documented and look at nothing but the two RAM slots, and let the daemon's chip
    and the card's memory agree with a flat world whose initialisation block and rings lie
    at even addresses.  Then receiving a frame, transmitting, and every register write,
    each board RAM access a mailbox transfer in whose polls [service_bridge_safe] serves
    whatever register requests the FPGA posts, end with the result, the chip state and
    the memory of the flat code, or with its error, and leave the mailbox idle. *)
Theorem remote_chip_refines {A : Type} (fpga : mbx A → mbx A) (P : RamPeer fpga None)
    (S : PeerSlots fpga) (stk : list Z) (w : world) (m : @machine A)
    (Hs : simulates w m) (Hw : world_ok w) (He : chip_even w) (Hk : stack_ok stk) :
  (∀ b len, Forall (fits 8) b →
    same_outcome (w ← gotfunc stk b len w; Ok (tt, w)) (mrun fpga stk (prog_gotfunc stk b len) m)) ∧
  same_outcome (do_transmit stk w) (mrun fpga stk (prog_do_transmit stk) m) ∧
  (∀ off v, fits 16 v → rap (w_reg (m_env m).1) = rap (w_reg w) →
    same_world (@chip_wput mbx_int (Some (mbx_on_transmit_cb stk)) off v w) (mchip_wput fpga stk off v m)).
Proof.
  split_and!.
  - intros b len Hb. unfold same_outcome. rewrite <-run_gotfunc. apply mrun_simulates; [done|].
    apply disciplined_gotfunc; [done|apply He|done|done].
  - unfold same_outcome. rewrite <-run_do_transmit. apply mrun_simulates; [done|].
    apply disciplined_do_transmit; [done|apply He|done].
  - intros off v Hv Hr. by apply mchip_wput_same.
Qed.

(** ** Example *)

#[local] Existing Instance ExampleAdapter.example_peer.

#[export] Instance example_slots : PeerSlots ExampleAdapter.step.
Proof.
  intros p m m' Hm He Hq _ (H1 & H2 & H3). cbn. unfold ExampleAdapter.at_phase. rewrite Hm, He, Hq. done.
Qed.

Lemma world_ok_window x w : window_ok x → world_ok w → world_ok (set_w_win x w).
Proof. intros Hx []. by split. Qed.

(** The mailbox daemon just started, its memory empty. *)
Definition ex_flat : world := set_w_win ∅ ex_mbx_started.
Definition ex_machine : @machine ExampleAdapter.adapter :=
  Mbx true ∅ (ex_flat, ExampleAdapter.Adapter ∅ 0 false).

Lemma ex_simulates : simulates ex_flat ex_machine.
Proof. split; [done|done|done|apply window_ok_empty]. Qed.

Lemma ex_even : chip_even ex_flat.
Proof. by split; vm_compute. Qed.

Lemma ex_mbx_stack : stack_ok ex_mbx_stk.
Proof. split; [done|]. by apply bytesb_Forall. Qed.

Lemma ex_flat_init : ∃ w', @chip_wput mbx_int (Some (mbx_on_transmit_cb ex_mbx_stk)) A2065_RDP_OFF CSR0_INIT ex_flat = Ok w'
  ∧ flag (csr0 (chip_view w')) CSR0_IDON = true.
Proof.
  assert (H : (if @chip_wput mbx_int (Some (mbx_on_transmit_cb ex_mbx_stk)) A2065_RDP_OFF CSR0_INIT ex_flat
    is Ok w then flag (csr0 (chip_view w)) CSR0_IDON else false) = true) by by vm_compute.
  destruct (chip_wput _ _ _) as [w'|]; [by exists w'|done].
Qed.

Lemma ex_rap : rap (w_reg (m_env ex_machine).1) = rap (w_reg ex_flat).
Proof. reflexivity. Qed.

Lemma ex_flat_ok : world_ok ex_flat.
Proof. apply world_ok_window; [apply window_ok_empty|apply ex_mbx_started_ok]. Qed.

(** INIT from an empty block, through the mailbox. *)
Lemma remote_chip_refines_witness : ∃ m',
  mchip_wput ExampleAdapter.step ex_mbx_stk A2065_RDP_OFF CSR0_INIT ex_machine = Ok m' ∧
  flag (csr0 (chip_view (m_env m').1)) CSR0_IDON = true.
Proof.
  destruct (remote_chip_refines ExampleAdapter.step ExampleAdapter.example_peer example_slots ex_mbx_stk ex_flat
    ex_machine ex_simulates ex_flat_ok ex_even ex_mbx_stack) as (_ & _ & R).
  specialize (R A2065_RDP_OFF CSR0_INIT ltac:(by split) ex_rap).
  destruct ex_flat_init as (w' & E & H). rewrite E in R.
  destruct (same_world_ok _ _ R) as (m' & Em & Hm). exists m'. rewrite (sim_chip _ _ Hm). by split.
Defined.
