(* ===== verification/Threads.v ===== *)
(** * Threads, and the lock of arm/src/registers.cpp

    Code of a thread is a tree of accesses to what the threads share: an atomic access to
    the variables or the window, an operation on the recursive mutex [reg_lock], or the
    wait of a transfer, which polls.  A schedule says which thread takes the next step,
    whether a transfer it waits for has been answered, and what the hardware does in
    between.  MbxThreads.v and BridgeThreads.v write the threads of two main programs as
    such trees. *)

From S2P Require Import Prelude Types Window Mac State Registers Slots.

(** ** The recursive mutex *)

Inductive tid := Main | Rx.
#[export] Instance tid_eq_dec : EqDecision tid.
Proof. solve_decision. Defined.

(** [reg_lock_init_done] and [reg_lock]: who holds it, and how often. *)
Record mutex := Mutex {
  reg_lock_init_done : bool;
  lock_owner : option tid;
  lock_depth : nat }.

(** Before [registers_lock_init]. *)
Definition mutex_init : mutex := Mutex false None 0.

Definition registers_lock_init (l : mutex) : mutex := Mutex true None 0.

(** [None]: the thread waits. *)
Definition registers_lock (t : tid) (l : mutex) : option mutex :=
  if reg_lock_init_done l then
    match lock_owner l with
    | None => Some (Mutex true (Some t) 1)
    | Some t' => if decide (t = t') then Some (Mutex true (Some t) (S (lock_depth l))) else None
    end
  else Some l.

(** Unlocking a mutex that another thread holds is an error it reports and ignores. *)
Definition registers_unlock (t : tid) (l : mutex) : mutex :=
  if reg_lock_init_done l && bool_decide (lock_owner l = Some t) then
    match lock_depth l with
    | S (S d) => Mutex true (Some t) (S d)
    | _ => Mutex true None 0
    end
  else l.

(** ** Code *)

Section code.
Context {O : Type}.

(** [CStep f k]: one access, that changes the state by [f] and goes on with what it saw.
    [CLock o k]: the [o w] are the operations the section does, for the log.
    [CWait k]: before a board RAM access whose transfer has been posted. *)
Inductive code (A : Type) : Type :=
| CRet (a : A)
| CErr (e : err)
| CStep (f : world → world) (k : world → code A)
| CLock (o : world → list O) (k : code A)
| CUnlock (k : code A)
| CWait (k : code A).
End code.
Arguments code O A : clear implicits.
Arguments CRet {O A}.
Arguments CErr {O A}.
Arguments CStep {O A}.
Arguments CLock {O A}.
Arguments CUnlock {O A}.
Arguments CWait {O A}.

#[export] Instance code_ret {O} : MRet (code O) := @CRet O.
#[export] Instance code_bind {O} : MBind (code O) := λ A B f, fix go c :=
  match c with
  | CRet a => f a
  | CErr e => CErr e
  | CStep u k => CStep u (λ w, go (k w))
  | CLock o k => CLock o (go k)
  | CUnlock k => CUnlock (go k)
  | CWait k => CWait (go k)
  end.

Definition get {O B} (f : world → B) : code O B := CStep id (λ w, CRet (f w)).
Definition put {O} (f : world → world) : code O () := CStep f (λ _, CRet tt).
Definition rd64c {O} (off : Z) : code O Z := get (λ w, slot w off).
Definition wr64c {O} (off v : Z) : code O () := put (set_slot off v).
Definition skip {O} : code O () := CRet tt.

(** [registers_lock(); c; registers_unlock();] *)
Definition locked {O B} (o : world → list O) (c : code O B) : code O B :=
  CLock o (b ← c; CUnlock (CRet b)).
Definition no_op {O} (w : world) : list O := [].

(** ** Schedules *)

Section schedules.
Context {O L I : Type}.

(** The state of the daemon, where its two threads are, and the operations done so far. *)
Record threads := Threads {
  th_world : world;
  th_lock : mutex;
  th_main : code O L;
  th_rx : code O L;
  th_log : list O }.

Definition th_code (t : tid) (s : threads) : code O L :=
  match t with Main => th_main s | Rx => th_rx s end.

Definition set_code (t : tid) (c : code O L) (s : threads) : threads :=
  match t with
  | Main => Threads (th_world s) (th_lock s) c (th_rx s) (th_log s)
  | Rx => Threads (th_world s) (th_lock s) (th_main s) c (th_log s)
  end.

(** A step of one thread.  A transfer that is not [ready] polls: it runs [service] and
    waits again. *)
Definition code_step {A} (service : code O ()) (t : tid) (ready : bool) (c : code O A) (w : world)
    (l : mutex) : res (code O A * world * mutex * list O) :=
  match c with
  | CRet a => Ok (c, w, l, [])
  | CErr e => Err e
  | CStep f k => Ok (k w, f w, l, [])
  | CLock o k =>
      match registers_lock t l with
      | Some l => Ok (k, w, l, o w)
      | None => Ok (c, w, l, [])
      end
  | CUnlock k => Ok (k, w, registers_unlock t l, [])
  | CWait k => Ok (if ready then k else (_ ← service; c), w, l, [])
  end.

(** A thread that has reached the end of a loop body goes on with [reload]. *)
Definition thread_step (service : code O ()) (reload : tid → I → L → code O L) (t : tid) (ready : bool)
    (i : I) (s : threads) : res threads :=
  match th_code t s with
  | CRet lbl => Ok (set_code t (reload t i lbl) s)
  | c =>
      '(c, w, l, o) ← code_step service t ready c (th_world s) (th_lock s);
      Ok (set_code t c (Threads w l (th_main s) (th_rx s) (th_log s ++ o)))
  end.

(** A thread runs on its own for [n] steps. *)
Fixpoint code_steps {A} (n : nat) (service : code O ()) (t : tid) (c : code O A) (w : world) (l : mutex) :
    res (code O A * world * mutex) :=
  match n with
  | 0%nat => Ok (c, w, l)
  | S n => '(c, w, l, _) ← code_step service t true c w l; code_steps n service t c w l
  end.
End schedules.
Arguments threads O L : clear implicits.

(** ** Code that runs alone *)

(** Without another thread, and with transfers answered at once, locks and waits do
    nothing. *)
Fixpoint solo {O A} (c : code O A) (w : world) : res (A * world) :=
  match c with
  | CRet a => Ok (a, w)
  | CErr e => Err e
  | CStep f k => solo (k w) (f w)
  | CLock _ k | CUnlock k | CWait k => solo k w
  end.

Section solo.
Context {O : Type}.

Lemma solo_bind {A B} (c : code O A) (q : A → code O B) w :
  solo (x ← c; q x) w = ('(a, w) ← solo c w; solo (q a) w).
Proof. revert w. induction c as [| |? ? IH| ? ? IH| ? IH| ? IH]; intros w; cbn; auto; apply IH. Qed.

Lemma bind_ret_l {A B} (a : A) (q : A → code O B) : (x ← (CRet a : code O A); q x) = q a.
Proof. done. Qed.

(** The mutex is not held by the other thread. *)
Definition lock_mine (t : tid) (l : mutex) : Prop := lock_owner l = None ∨ lock_owner l = Some t.

Lemma lock_mine_lock t l : lock_mine t l → ∃ l', registers_lock t l = Some l' ∧ lock_mine t l'.
Proof.
  intros Hl. unfold registers_lock. destruct (reg_lock_init_done l); [|by exists l].
  destruct Hl as [-> | ->]; [|rewrite decide_True by done]; eexists; (split; [done|by right]).
Qed.

Lemma lock_mine_unlock t l : lock_mine t l → lock_mine t (registers_unlock t l).
Proof.
  intros Hl. unfold registers_unlock. case_match; [|done]. destruct (lock_depth l) as [|[]]; (by left) || by right.
Qed.

(** Code whose locks and unlocks pair up, [d] locks deep at its start. *)
Fixpoint balanced {A} (d : nat) (c : code O A) : Prop :=
  match c with
  | CRet _ => d = 0%nat
  | CErr _ => True
  | CStep f k => ∀ w, balanced d (k w)
  | CLock _ k => balanced (S d) k
  | CUnlock k => match d with 0%nat => False | S d => balanced d k end
  | CWait k => balanced d k
  end.

(** The initialised mutex, locked [d] times by [t]. *)
Definition lock_held (t : tid) (d : nat) : mutex :=
  Mutex true (match d with 0%nat => None | S _ => Some t end) d.

Lemma lock_held_lock t d : registers_lock t (lock_held t d) = Some (lock_held t (S d)).
Proof. destruct d; [done|]. cbn. by rewrite decide_True. Qed.

Lemma lock_held_unlock t d : registers_unlock t (lock_held t (S d)) = lock_held t d.
Proof. unfold registers_unlock. cbn. rewrite bool_decide_true by done. by destruct d. Qed.

Lemma balanced_bind {A B} n d (c : code O A) (q : A → code O B) :
  balanced n c → (∀ a, balanced d (q a)) → balanced (n + d) (x ← c; q x).
Proof.
  intros Hc Hq. revert n Hc. induction c as [a|e|f k IH|o k IH|k IH|k IH]; intros n Hc; cbn in *.
  - subst n. apply Hq.
  - done.
  - intros w. apply IH, Hc.
  - by apply (IH (S n)).
  - destruct n; [done|]. by apply IH.
  - by apply IH.
Qed.

Lemma balanced_locked {B} o (c : code O B) : balanced 0 c → balanced 0 (locked o c).
Proof. intros Hc. apply (balanced_bind 0 1); [done|]. by intros a. Qed.

(** The code ends where [solo] says, and the mutex is as it was. *)
Lemma balanced_reaches {A} (service : code O ()) t (c : code O A) d w a w' :
  balanced d c → solo c w = Ok (a, w') →
  ∃ n, code_steps n service t c w (lock_held t d) = Ok (CRet a, w', lock_held t 0).
Proof.
  revert d w. induction c as [b|e|f k IH|o k IH|k IH|k IH]; intros d w Hc; cbn [solo balanced] in *; intros E.
  - subst d. injection E as -> ->. by exists 0%nat.
  - done.
  - destruct (IH w d (f w) (Hc w) E) as [n Hn]. by exists (S n).
  - destruct (IH (S d) w Hc E) as [n Hn]. exists (S n). cbn [code_steps code_step].
    by rewrite lock_held_lock.
  - destruct d as [|d]; [done|]. destruct (IH d w Hc E) as [n Hn]. exists (S n). cbn [code_steps code_step].
    by rewrite lock_held_unlock.
  - destruct (IH d w Hc E) as [n Hn]. by exists (S n).
Qed.

(** The thread gets to the result [r] when it runs on its own. *)
Definition reaches {A} (service : code O ()) t (c : code O A) w l (r : res (A * world)) : Prop :=
  match r with
  | Ok (a, w') => ∃ n l', code_steps n service t c w l = Ok (CRet a, w', l') ∧ lock_mine t l'
  | Err e => ∃ n, code_steps n service t c w l = Err e
  end.

Lemma reaches_step {A} service t (c c1 : code O A) w l w1 l1 o r :
  code_step service t true c w l = Ok (c1, w1, l1, o) → reaches service t c1 w1 l1 r → reaches service t c w l r.
Proof.
  intros E. destruct r as [[a w']|e]; cbn [reaches].
  - intros (n & l' & En & Hl). exists (S n), l'. cbn [code_steps]. by rewrite E.
  - intros (n & En). exists (S n). cbn [code_steps]. by rewrite E.
Qed.

(** Running alone is what the schedule that lets only this thread run gives. *)
Lemma solo_reaches {A} (service : code O ()) t (c : code O A) w l : lock_mine t l →
  reaches service t c w l (solo c w).
Proof.
  revert w l. induction c as [a|e|f k IH|o k IH|k IH|k IH]; intros w l Hl; cbn [solo].
  - by exists 0%nat, l.
  - by exists 1%nat.
  - by eapply reaches_step; [done|apply IH].
  - destruct (lock_mine_lock t l Hl) as (l1 & E1 & Hl1).
    eapply reaches_step; [cbn [code_step]; by rewrite E1|by apply IH].
  - eapply reaches_step; [done|]. by apply IH, lock_mine_unlock.
  - by eapply reaches_step; [done|apply IH].
Qed.
End solo.

(** Step through sequences of code. *)
Lemma solo_get {O A B} (f : world → B) (q : B → code O A) w : solo (x ← get f; q x) w = solo (q (f w)) w.
Proof. done. Qed.

Lemma solo_put {O A} f (q : () → code O A) w : solo (x ← put f; q x) w = solo (q tt) (f w).
Proof. done. Qed.

Ltac solo_ok := repeat (rewrite bind_Ok; cbv beta iota).
