(* ===== verification/MbxThreads.v ===== *)
(** * The two threads of the mailbox daemon (arm/src/main_ddr3.cpp on remote board RAM)

    [main]'s loop and [rx_thread] as code of Threads.v: every slot access, every access to
    the daemon's variables and every access of the chip code (RemoteChip.v) is a step, a
    board RAM access waits for its transfer, and a transfer that waits serves register
    requests with [service_bridge_safe], in whichever thread it runs.  The adapter behind
    the mailbox answers when the schedule says so; that a transfer is one access to the
    card's memory is [remote_ram_refines].  The 68k writes board RAM only while no chip
    code runs. *)

From S2P Require Import Prelude Types Window Crc32 Mac State Registers Rings Slots Remote MainDdr3 RemoteChip Threads.

(** ** Operations *)

(** What a locked section does to the chip: a frame is received, a write to the register
    that RAP selects, a transmission, and, outside of the sections, a byte the 68k writes. *)
Inductive op :=
| OpFrame (rxbuf : list Z) (len : Z)
| OpWrite (reg v : Z)
| OpTransmit
| OpRam (off v : Z).

(** The specification: each operation at once, on flat board RAM. *)
Definition op_run (stk : list Z) (o : op) (w : world) : res world :=
  match o with
  | OpFrame rxbuf len => gotfunc stk rxbuf len w
  | OpWrite reg v =>
      @chip_wput mbx_int (Some (mbx_on_transmit_cb stk)) A2065_RDP_OFF v (upd_reg (set_rap reg) w)
  | OpTransmit => '(_, w) ← do_transmit stk w; Ok w
  | OpRam off v => Ok (set_w_win (put_ram_byte (w_boardram w) (w_win w) off v) w)
  end.

Fixpoint ops_run (stk : list Z) (l : list op) (w : world) : res world :=
  match l with
  | [] => Ok w
  | o :: l => w ← op_run stk o w; ops_run stk l w
  end.

(** ** The code of the threads *)

Definition c_assert_mbx_int : code op () :=
  _ ← wr64c MBX_INT_OFF 1;
  _ ← wr64c MBX_INT_OFF 1;
  _ ← wr64c MBX_INT_OFF 1;
  _ ← put (upd_ddr3 (set_last_mbx_int 1));
  put (upd_ddr3 (set_int_hold INT_HOLD_ITER)).

Definition c_schedule_tdmd_retry : code op () :=
  r ← get (λ w, tdmd_retry (w_ddr3 w));
  if r <? 16 then put (upd_ddr3 (set_tdmd_retry 16)) else skip.

(** The accessors of boardram_access.h: a transfer each, two for a byte that is written. *)
Definition c_rdb (off : Z) : code op Z := CWait (get (λ w, ram_byte w off)).
Definition c_rdw (off : Z) : code op Z := CWait (get (λ w, ram_word w off)).
Definition c_wrw (off v : Z) : code op () := CWait (put (put_word off v)).
Definition c_wrb (off v : Z) : code op () :=
  CWait (CWait (put (λ w, set_w_win (put_ram_byte (w_boardram w) (w_win w) off v) w))).

Fixpoint c_read_block (off : Z) (n : nat) : code op (list Z) :=
  match n with
  | O => CRet []
  | S n => b ← c_rdb off; bs ← c_read_block (off + 1) n; CRet (b :: bs)
  end.

Fixpoint c_write_block (off : Z) (src : list Z) : code op () :=
  match src with
  | [] => CRet tt
  | v :: src => _ ← c_wrb off v; c_write_block (off + 1) src
  end.

(** The chip code of RemoteChip.v. *)
Fixpoint c_chip {A} (p : prog A) : code op A :=
  match p with
  | Ret a => CRet a
  | Fail e => CErr e
  | Get k => CStep id (λ w, c_chip (k (chip_view w)))
  | Upd f k => CStep (λ w, set_chip (f (chip_view w)) w) (λ _, c_chip k)
  | Int k => _ ← c_assert_mbx_int; c_chip k
  | Retry k => _ ← c_schedule_tdmd_retry; c_chip k
  | RdB off k => b ← c_rdb off; c_chip (k b)
  | RdW off k => v ← c_rdw off; c_chip (k v)
  | WrW off v k => _ ← c_wrw off v; c_chip k
  | RdBlk off n k => l ← c_read_block off n; c_chip (k l)
  | WrBlk off src k => _ ← c_write_block off src; c_chip k
  end.

Definition c_chip_wput (stk : list Z) (reg_offset v : Z) : code op () :=
  if reg_offset =? A2065_RAP_OFF then put (upd_reg (set_rap (Z.land v 0x7f)))
  else
    n ← get (λ w, rap (w_reg w));
    if RAP_SIZE <=? n then skip
    else if n =? 0 then c_chip (prog_wput_csr0 (prog_on_transmit_cb stk) v)
    else put (wput_plain n v).

(** The operation of [chip_wput(reg_offset, v)]; RAP itself is not part of the chip. *)
Definition op_wput (reg_offset v : Z) (w : world) : list op :=
  if reg_offset =? A2065_RAP_OFF then [] else [OpWrite (rap (w_reg w)) v].

(** [if (int_cleared && int_hold > 0) int_hold = 1;] *)
Definition c_release_hold (cleared : bool) : code op () :=
  if cleared then
    h ← get (λ w, int_hold (w_ddr3 w));
    if 0 <? h then put (upd_ddr3 (set_int_hold 1)) else skip
  else skip.

Definition c_reply (result : Z) : code op () :=
  _ ← wr64c MBX_RSP_OFF (Z.lor 1 (Z.shiftl result 1));
  _ ← wr64c MBX_REQ_OFF 0;
  _ ← rd64c MBX_REQ_OFF;
  skip.

(** [deferred_csr0_queue[deferred_csr0_head] = data; deferred_csr0_head = next;] *)
Definition c_store (data next : Z) : code op () :=
  head ← get (λ w, deferred_csr0_head (w_ddr3 w));
  _ ← put (upd_ddr3 (λ d, set_deferred_csr0_queue (<[Z.to_nat head := data]> (deferred_csr0_queue d)) d));
  put (upd_ddr3 (set_deferred_csr0_head next)).

Definition c_enqueue (data : Z) : code op () :=
  head ← get (λ w, deferred_csr0_head (w_ddr3 w));
  tail ← get (λ w, deferred_csr0_tail (w_ddr3 w));
  if (head + 1) mod 8 =? tail then skip else c_store data ((head + 1) mod 8).

(** [service_bridge_safe] after the request has been read. *)
Definition c_serve_safe (req : Z) : code op () :=
  if negb (flag req 1) then skip
  else
    let rw := req_rw req in
    let addr := req_addr req in
    let data := req_data req in
    result ← (if rw then CRet 0 else locked no_op (get (chip_wget addr)));
    _ ← c_reply result;
    if rw then
      if addr =? A2065_RAP_OFF then locked no_op (put (upd_reg (set_rap (Z.land data 0x7f))))
      else if addr =? 0 then c_enqueue data
      else skip
    else skip.

Definition c_service_bridge_safe : code op () :=
  req ← rd64c MBX_REQ_OFF;
  c_serve_safe req.

(** [service_bridge] up to the reply, after the register has been read. *)
Definition c_before_reply (rw : bool) (addr data result : Z) : code op () :=
  _ ← (if negb rw && (addr =? 0) && flag result CSR0_INTR && flag result CSR0_INEA
       then c_assert_mbx_int else skip);
  if rw && (addr =? 0) && flag data (Z.lor (Z.lor CSR0_INIT CSR0_TDMD) CSR0_STRT) then
    cur_csr0 ← locked no_op (get csr0);
    if flag (Z.lor data cur_csr0) CSR0_INEA then c_assert_mbx_int else skip
  else skip.

(** The locked section of a write, with what is read in it afterwards. *)
Definition c_write_section (stk : list Z) (addr data : Z) : code op (bool * bool) :=
  locked (op_wput addr data) (
    _ ← c_chip_wput stk addr data;
    c ← get csr0;
    CRet ((addr =? 0) && flag data CSR0_INIT && flag c CSR0_INTR,
          (addr =? 0) && negb (flag c CSR0_INTR))).

(** [service_bridge] after the request has been read. *)
Definition c_serve (stk : list Z) (req : Z) : code op () :=
  if negb (flag req 1) then skip
  else
    let rw := req_rw req in
    let addr := req_addr req in
    let data := req_data req in
    result ← (if rw then CRet 0 else locked no_op (get (chip_wget addr)));
    _ ← c_before_reply rw addr data result;
    _ ← c_reply result;
    if rw then
      '(do_init_delay, int_cleared) ← c_write_section stk addr data;
      _ ← (if do_init_delay : bool then c_assert_mbx_int else skip);
      c_release_hold int_cleared
    else skip.

Definition c_service_bridge (stk : list Z) : code op () :=
  req ← rd64c MBX_REQ_OFF;
  c_serve stk req.

(** Where the main loop goes on: before [service_bridge], at the head of the drain loop,
    behind it; with the local [int_refresh].  [LRecv] is the receive thread. *)
Inductive label :=
| LServe (int_refresh : Z)
| LDrain (int_refresh : Z)
| LTail (int_refresh : Z)
| LRecv.

(** The condition of the drain loop and the entry it takes off the queue. *)
Definition c_take : code op (option Z) :=
  tail ← get (λ w, deferred_csr0_tail (w_ddr3 w));
  head ← get (λ w, deferred_csr0_head (w_ddr3 w));
  if tail =? head then CRet None
  else
    saved ← get (λ w, nth (Z.to_nat (deferred_csr0_tail (w_ddr3 w))) (deferred_csr0_queue (w_ddr3 w)) 0);
    tail ← get (λ w, deferred_csr0_tail (w_ddr3 w));
    _ ← put (upd_ddr3 (set_deferred_csr0_tail ((tail + 1) mod 8)));
    CRet (Some saved).

Definition c_drain (stk : list Z) (refresh : Z) : code op label :=
  saved ← c_take;
  match saved with
  | None => CRet (LTail refresh)
  | Some saved =>
      '(_, int_cleared) ← c_write_section stk 0 saved;
      _ ← c_release_hold int_cleared;
      CRet (LDrain refresh)
  end.

Definition c_retry_transmit (stk : list Z) : code op () :=
  r ← get (λ w, tdmd_retry (w_ddr3 w));
  if 0 <? r then
    r ← get (λ w, tdmd_retry (w_ddr3 w));
    _ ← put (upd_ddr3 (set_tdmd_retry (r - 1)));
    c ← locked no_op (get csr0);
    if flag c CSR0_TXON then
      r ← locked (λ _, [OpTransmit]) (c_chip (prog_do_transmit stk));
      if r =? 0 then skip else put (upd_ddr3 (set_tdmd_retry 0))
    else put (upd_ddr3 (set_tdmd_retry 0))
  else skip.

Definition c_write_mbx_int : code op () :=
  c ← locked no_op (get csr0);
  let val := int_level c in
  last ← get (λ w, last_mbx_int (w_ddr3 w));
  if val =? last then skip
  else
    _ ← wr64c MBX_INT_OFF val;
    put (upd_ddr3 (set_last_mbx_int val)).

Definition c_hold_or_write : code op () :=
  h ← get (λ w, int_hold (w_ddr3 w));
  if 0 <? h then
    h ← get (λ w, int_hold (w_ddr3 w));
    put (upd_ddr3 (set_int_hold (h - 1)))
  else c_write_mbx_int.

Definition c_refresh_int (refresh : Z) : code op Z :=
  last ← get (λ w, last_mbx_int (w_ddr3 w));
  if last =? 1 then
    if 10 <=? refresh + 1 then _ ← wr64c MBX_INT_OFF 1; CRet 0 else CRet (refresh + 1)
  else CRet 0.

Definition c_main (stk : list Z) (lbl : label) : code op label :=
  match lbl with
  | LServe refresh => _ ← c_service_bridge stk; CRet (LDrain refresh)
  | LDrain refresh => c_drain stk refresh
  | LTail refresh =>
      _ ← c_retry_transmit stk;
      _ ← c_hold_or_write;
      refresh ← c_refresh_int refresh;
      CRet (LServe refresh)
  | LRecv => CRet LRecv
  end.

(** The body of [rx_thread], with what [ethernet_recv] returns. *)
Definition c_rx (stk rxbuf : list Z) (len : Z) : code op label :=
  if 0 <? len then
    _ ← locked (λ _, [OpFrame rxbuf len]) (c_chip (prog_gotfunc stk rxbuf len));
    CRet LRecv
  else CRet LRecv.

Definition mbx_reload (stk : list Z) (t : tid) (frame : list Z * Z) (lbl : label) : code op label :=
  match t with Main => c_main stk lbl | Rx => c_rx stk frame.1 frame.2 end.

(** ** Schedules *)

(** A thread steps; the FPGA writes a slot; the 68k writes a byte of board RAM, while no
    thread is in a locked section. *)
Inductive mt_event :=
| EvRun (t : tid) (ready : bool) (frame : list Z * Z)
| EvSlot (off v : Z)
| EvRam68k (off v : Z).

Definition mt_step (stk : list Z) (e : mt_event) (s : threads op label) : res (threads op label) :=
  match e with
  | EvRun t ready frame => thread_step c_service_bridge_safe (mbx_reload stk) t ready frame s
  | EvSlot off v =>
      Ok (Threads (set_slot (Z.max off RAM_SIZE) v (th_world s)) (th_lock s) (th_main s) (th_rx s) (th_log s))
  | EvRam68k off v =>
      match lock_owner (th_lock s) with
      | Some _ => Ok s
      | None =>
          let w := th_world s in
          Ok (Threads (set_w_win (put_ram_byte (w_boardram w) (w_win w) off v) w) (th_lock s)
            (th_main s) (th_rx s) (th_log s ++ [OpRam off v]))
      end
  end.

Fixpoint mt_exec (stk : list Z) (es : list mt_event) (s : threads op label) : res (threads op label) :=
  match es with
  | [] => Ok s
  | e :: es => s ← mt_step stk e s; mt_exec stk es s
  end.

(** [main] before its loop, with the mutex and both threads ready to run. *)
Definition mt_start (w : world) : threads op label :=
  Threads w (registers_lock_init mutex_init) (CRet (LServe 0)) (CRet LRecv) [].

(** ** Lemmas: a thread alone is the sequential model *)

Lemma solo_assert w : solo c_assert_mbx_int w = Ok (tt, assert_mbx_int w).
Proof. done. Qed.

Lemma solo_retry w : solo c_schedule_tdmd_retry w = Ok (tt, schedule_tdmd_retry w).
Proof. unfold c_schedule_tdmd_retry, schedule_tdmd_retry. rewrite solo_get. by case_match. Qed.

Lemma solo_read_block off n w : solo (c_read_block off n) w = Ok (read_block w off n, w).
Proof.
  revert off. induction n as [|n IH]; intros off; [done|]. cbn [c_read_block].
  rewrite solo_bind. change (solo (c_rdb off) w) with (@Ok (Z * world) (ram_byte w off, w)).
  solo_ok. by rewrite solo_bind, IH.
Qed.

Lemma solo_write_block off src w : solo (c_write_block off src) w = Ok (tt, write_block off src w).
Proof.
  revert off w. induction src as [|v src IH]; intros off w; [by destruct w|]. cbn [c_write_block].
  rewrite solo_bind. apply IH.
Qed.

(** The chip code on its own is the run on the flat window. *)
Lemma solo_chip {A} (p : prog A) w : solo (c_chip p) w = run p w.
Proof.
  revert w. induction p as [a|e|k IH|c k IH|k IH|k IH|off k IH|off k IH|off v k IH|off n k IH|off src k IH];
    intros w; cbn [c_chip run_on solo]; try done; try apply IH; rewrite ?solo_bind;
    rewrite ?solo_assert, ?solo_retry, ?solo_read_block, ?solo_write_block; apply IH.
Qed.

Lemma solo_locked {B} (o : world → list op) (c : code op B) w : solo (locked o c) w = solo c w.
Proof. cbn. rewrite solo_bind. by destruct (solo c w) as [[]|]. Qed.

Lemma solo_wput stk off v w : solo (c_chip_wput stk off v) w
  = (w ← @chip_wput mbx_int (Some (mbx_on_transmit_cb stk)) off v w; Ok (tt, w)).
Proof.
  unfold c_chip_wput, chip_wput. cbv zeta. destruct (off =? A2065_RAP_OFF); [done|]. rewrite solo_get.
  destruct (RAP_SIZE <=? _); [done|]. destruct (_ =? 0).
  - rewrite solo_chip. apply run_wput_csr0.
  - cbn [solo put id]. unfold wput_plain. repeat (case_match; try done).
Qed.

Lemma solo_write_section stk addr data w : solo (c_write_section stk addr data) w
  = (w ← @chip_wput mbx_int (Some (mbx_on_transmit_cb stk)) addr data w;
     Ok ((addr =? 0) && flag data CSR0_INIT && flag (csr0 w) CSR0_INTR,
         (addr =? 0) && negb (flag (csr0 w) CSR0_INTR), w)).
Proof.
  unfold c_write_section. rewrite solo_locked, solo_bind, solo_wput.
  by destruct (chip_wput addr data w).
Qed.

Lemma solo_release b w : solo (c_release_hold b) w
  = Ok (tt, if b && (0 <? int_hold (w_ddr3 w)) then upd_ddr3 (set_int_hold 1) w else w).
Proof. destruct b; [|done]. cbn [c_release_hold andb]. rewrite solo_get. by case_match. Qed.

Lemma solo_before_reply rw addr data result w :
  solo (c_before_reply rw addr data result) w = Ok (tt, before_reply rw addr data result w).
Proof.
  unfold c_before_reply, before_reply. cbv zeta. rewrite solo_bind. set (b := negb rw && _ && _ && _).
  replace (solo (if b then _ else _) w) with (Ok (tt, if b then assert_mbx_int w else w)) by (by destruct b).
  solo_ok. set (w1 := if b then _ else _). clearbody w1.
  destruct (rw && _ && flag data _); [|done]. cbn [andb]. rewrite solo_bind, solo_locked.
  cbn [solo get id]. solo_ok. by destruct (flag (Z.lor data (csr0 w1)) CSR0_INEA).
Qed.

Lemma solo_service_bridge stk w : solo (c_service_bridge stk) w
  = (w ← service_bridge stk w; Ok (tt, w)).
Proof.
  unfold c_service_bridge, c_serve, service_bridge. unfold rd64c at 1. rewrite solo_get. set (req := slot w MBX_REQ_OFF). clearbody req.
  destruct (flag req 1); cbn [negb]; [|done]. cbv zeta. rewrite solo_bind.
  replace (solo (if req_rw req then _ else _) w) with
    (Ok (if req_rw req then 0 else chip_wget (req_addr req) w, w)) by (by destruct (req_rw req)).
  solo_ok. set (result := if req_rw req then 0 else _). clearbody result.
  rewrite solo_bind, solo_before_reply. solo_ok. set (w1 := before_reply _ _ _ _ _). clearbody w1.
  rewrite solo_bind. change (solo (c_reply result) w1) with (Ok ((), mbx_reply result w1)).
  solo_ok. destruct (req_rw req); [|done]. rewrite solo_bind, solo_write_section.
  destruct (chip_wput _ _ _) as [w2|]; [solo_ok|done]. rewrite solo_bind.
  set (b := _ && _ && flag _ _).
  replace (solo (if b then _ else _) w2) with (Ok (tt, if b then assert_mbx_int w2 else w2)) by (by destruct b).
  solo_ok. rewrite solo_release.
  assert (Ec : csr0 (if b then assert_mbx_int w2 else w2) = csr0 w2) by (by destruct b).
  destruct (req_addr req =? 0); [|done]. unfold release_hold. by rewrite Ec.
Qed.

Lemma solo_enqueue data w : solo (c_enqueue data) w = Ok (tt, upd_ddr3 (enqueue data) w).
Proof.
  unfold upd_ddr3, enqueue. cbv zeta. cbn. destruct (_ =? deferred_csr0_tail _); [by destruct w|done].
Qed.

Lemma solo_service_safe stk w : solo c_service_bridge_safe w
  = (w ← service_bridge_safe stk w; Ok (tt, w)).
Proof.
  unfold c_service_bridge_safe, c_serve_safe, service_bridge_safe. unfold rd64c at 1. rewrite solo_get. set (req := slot w MBX_REQ_OFF). clearbody req.
  destruct (flag req 1); cbn [negb]; [|done]. cbv zeta. rewrite solo_bind.
  replace (solo (if req_rw req then _ else _) w) with
    (Ok (if req_rw req then 0 else chip_wget (req_addr req) w, w)) by (by destruct (req_rw req)).
  solo_ok. set (result := if req_rw req then 0 else _). clearbody result.
  rewrite solo_bind. change (solo (c_reply result) w) with (Ok ((), mbx_reply result w)).
  solo_ok. set (w1 := mbx_reply _ _). clearbody w1. destruct (req_rw req); [|done].
  unfold chip_wput. destruct (req_addr req =? A2065_RAP_OFF); [done|]. destruct (req_addr req =? 0); [|done].
  apply solo_enqueue.
Qed.

(** A pass of the main loop: serve, then drain until the queue is empty, then the rest. *)
Fixpoint solo_drain (stk : list Z) (fuel : nat) (refresh : Z) (w : world) : res world :=
  '(lbl, w) ← solo (c_main stk (LDrain refresh)) w;
  match lbl, fuel with
  | LDrain _, S fuel => solo_drain stk fuel refresh w
  | LDrain _, O => Err OutOfFuel
  | _, _ => Ok w
  end.

Definition solo_pass (stk : list Z) (s : Z * world) : res (Z * world) :=
  let '(refresh, w) := s in
  '(_, w) ← solo (c_main stk (LServe refresh)) w;
  w ← solo_drain stk 8 refresh w;
  '(lbl, w) ← solo (c_main stk (LTail refresh)) w;
  Ok (match lbl with LServe refresh => refresh | _ => 0 end, w).

Lemma solo_drain_round stk refresh w : solo (c_drain stk refresh) w
  = let d := w_ddr3 w in
    if deferred_csr0_tail d =? deferred_csr0_head d then Ok (LTail refresh, w)
    else
      let saved := nth (Z.to_nat (deferred_csr0_tail d)) (deferred_csr0_queue d) 0 in
      w ← @chip_wput mbx_int (Some (mbx_on_transmit_cb stk)) 0 saved (pop w);
      Ok (LDrain refresh, release_hold w).
Proof.
  unfold c_drain, c_take. cbv zeta. rewrite solo_bind, !solo_get.
  destruct (_ =? _); [done|]. rewrite !solo_get, solo_put. cbn [solo]. solo_ok.
  rewrite solo_bind, solo_write_section. change (upd_ddr3 _ w) with (pop w).
  destruct (chip_wput _ _ _) as [w1|]; [solo_ok|done].
  rewrite solo_bind, solo_release. done.
Qed.

Lemma solo_drain_seq stk fuel refresh w w' : drain fuel stk w = Ok w' → solo_drain stk fuel refresh w = Ok w'.
Proof.
  revert w. induction fuel as [|fuel IH]; intros w; cbn [drain solo_drain c_main]; cbv zeta;
    rewrite solo_drain_round; cbv zeta; (destruct (_ =? _); [by intros [= <-]|]); [done|].
  intros H. bind_inv H. unfold pop, upd_ddr3 in *. rewrite Hx. solo_ok. by apply IH.
Qed.

Lemma solo_retry_transmit stk w : solo (c_retry_transmit stk) w = (w ← retry_transmit stk w; Ok (tt, w)).
Proof.
  unfold c_retry_transmit, retry_transmit. rewrite solo_get.
  destruct (0 <? _); [|done]. cbv zeta. rewrite solo_get, solo_put.
  rewrite solo_bind, solo_locked. cbn [solo get id]. solo_ok. change (upd_ddr3 (set_tdmd_retry _) w)
    with (upd_ddr3 (λ d, set_tdmd_retry (tdmd_retry d - 1) d) w). set (w1 := upd_ddr3 _ w).
  destruct (flag _ CSR0_TXON); [|done]. rewrite solo_bind, solo_locked, solo_chip, run_do_transmit.
  destruct (do_transmit stk w1) as [[r w2]|]; [solo_ok|done]. by destruct (r =? 0).
Qed.

Lemma solo_hold_or_write w : solo c_hold_or_write w = Ok (tt, hold_or_write w).
Proof.
  unfold c_hold_or_write, hold_or_write. rewrite solo_get.
  destruct (0 <? _); [done|]. unfold c_write_mbx_int, write_mbx_int. rewrite solo_bind, solo_locked.
  cbn [solo get id]. solo_ok. cbv zeta. rewrite solo_get. by destruct (_ =? _).
Qed.

Lemma solo_refresh refresh w : solo (c_refresh_int refresh) w = Ok (refresh_int refresh w).
Proof.
  unfold c_refresh_int, refresh_int. rewrite solo_get.
  destruct (_ =? 1); [|done]. by destruct (10 <=? _).
Qed.

(** A thread that is not interrupted runs the passes of the sequential model. *)
Lemma solo_pass_seq stk s s' : mbx_pass stk s = Ok s' → solo_pass stk s = Ok s'.
Proof.
  destruct s as [refresh w]. unfold mbx_pass, solo_pass. intros H. bind_inv H. bind_inv H. bind_inv H. injection H as <-.
  cbn [c_main]. rewrite solo_bind, solo_service_bridge, Hx. solo_ok.
  change (solo (CRet (LDrain refresh)) x) with (@Ok (label * world) (LDrain refresh, x)). solo_ok.
  rewrite (solo_drain_seq _ _ _ _ _ Hx0). solo_ok. rewrite solo_bind, solo_retry_transmit, Hx1.
  solo_ok. rewrite solo_bind, solo_hold_or_write. solo_ok.
  rewrite solo_bind, solo_refresh. by destruct (refresh_int _ _).
Qed.

Lemma solo_rx stk rxbuf len w : solo (c_rx stk rxbuf len) w = (w ← mbx_rx_step stk rxbuf len w; Ok (LRecv, w)).
Proof.
  unfold c_rx, mbx_rx_step. destruct (0 <? len); [|done].
  rewrite solo_bind, solo_locked, solo_chip, run_gotfunc. by destruct (gotfunc _ _ _ _).
Qed.
