(* ===== verification/MbxAtomic.v ===== *)
(** * Locked sections of the mailbox daemon are atomic

    The chip is only touched under [registers_lock], so whatever the schedule of the two
    threads, and although a section is many steps with register requests served in
    between, the chip and board RAM go through the states of the sections done one after
    the other.  The argument is in terms of rely and guarantee: code outside of a section
    leaves the chip alone ([conforms Open]), and code in a section, whatever the other
    thread does meanwhile, ends where the operation of the section ends ([Held]). *)

From S2P Require Import Prelude Types Window Crc32 Mac State Registers Rings Slots Remote MainDdr3 RemoteChip Threads MbxThreads.

(** ** States with the same chip *)

(** The same registers but for RAP, the same board RAM. *)
Record agree (w u : world) : Prop := Agree {
  agree_chip : chip_view w = chip_view u;
  agree_ram : ∀ o, ram_byte w o = ram_byte u o }.

#[export] Instance agree_equiv : Equivalence agree.
Proof.
  split.
  - intros w. by split.
  - intros w u []. by split.
  - intros w u v [E1 R1] [E2 R2]. split; [congruence|]. intros o. by rewrite R1.
Qed.

(** What the other thread may do to a thread that holds the lock. *)
Definition undisturbed (w u : world) : Prop := agree w u ∧ rap (w_reg w) = rap (w_reg u).

#[export] Instance undisturbed_equiv : Equivalence undisturbed.
Proof.
  split.
  - by split.
  - intros w u [H E]. by split; [symmetry|].
  - intros w u v [H1 E1] [H2 E2]. split; [by etransitivity|congruence].
Qed.

(** The variables that every step keeps in range. *)
Record base_ok (w : world) : Prop := BaseOk {
  base_rap : 0 ≤ rap (w_reg w) < RAP_SIZE;
  base_win : window_ok (w_win w);
  base_queue : Forall (fits 16) (deferred_csr0_queue (w_ddr3 w)) }.

(** Operations with values of the right width. *)
Definition op_ok (o : op) : Prop :=
  match o with OpWrite reg v => 0 ≤ reg < RAP_SIZE ∧ fits 16 v | _ => True end.

(** Two runs end alike. *)
Definition agree_res {A} (x y : res (A * world)) : Prop :=
  match x, y with
  | Ok (a, w), Ok (b, u) => a = b ∧ agree w u
  | Err e, Err e' => e = e'
  | _, _ => False
  end.

Lemma agree_frame w u w' u' : agree w u → ctl_frame w w' → ctl_frame u u' →
  chip_view w' = chip_view w → chip_view u' = chip_view u → agree w' u'.
Proof.
  intros [E R] F G Ew Eu. split; [congruence|]. intros o.
  rewrite (ctl_frame_ram_byte w w'), (ctl_frame_ram_byte u u') by done. apply R.
Qed.

Lemma agree_set_chip c w u : agree w u → agree (set_chip c w) (set_chip c u).
Proof. intros [E R]. split; [done|exact R]. Qed.

Lemma agree_put_byte off v w u : agree w u →
  agree (set_w_win (put_ram_byte (w_boardram w) (w_win w) off v) w)
    (set_w_win (put_ram_byte (w_boardram u) (w_win u) off v) u).
Proof.
  intros [E R]. split; [exact E|]. intros o. unfold ram_byte. cbn [w_boardram w_win set_w_win].
  rewrite !get_put_byte. case_decide; [done|apply R].
Qed.

Lemma agree_put_word off v w u : agree w u → agree (put_word off v w) (put_word off v u).
Proof.
  intros H. apply (agree_put_byte off (Z.shiftr v 8)) in H. apply (agree_put_byte (off + 1) (u8 v)) in H. exact H.
Qed.

Lemma agree_write_block off src w u : agree w u → agree (write_block off src w) (write_block off src u).
Proof.
  revert off w u. induction src as [|v src IH]; intros off w u H; [by destruct w, u|].
  apply (agree_put_byte off v) in H. apply (IH (off + 1)) in H. exact H.
Qed.

Lemma agree_word w u off : agree w u → ram_word w off = ram_word u off.
Proof. intros [_ R]. unfold ram_word, get_ram_word. f_equal. f_equal; [f_equal|]; apply R. Qed.

Lemma agree_read_block w u off n : agree w u → read_block w off n = read_block u off n.
Proof.
  intros [_ R]. unfold read_block. revert off. induction n as [|n IH]; intros off; cbn; [done|].
  f_equal; [apply R|apply IH].
Qed.

Lemma interrupt_frame w : ctl_frame w (mbx_on_interrupt_cb w) ∧ chip_view (mbx_on_interrupt_cb w) = chip_view w.
Proof. split; [apply assert_frame|apply chip_view_interrupt]. Qed.

Lemma retry_view w : ctl_frame w (schedule_tdmd_retry w) ∧ chip_view (schedule_tdmd_retry w) = chip_view w.
Proof. split; [apply retry_frame|]. unfold schedule_tdmd_retry. by case_match. Qed.

Lemma run_agree {A} (p : prog A) w u : agree w u → agree_res (run p w) (run p u).
Proof.
  revert w u. induction p as [a|e|k IH|c k IH|k IH|k IH|off k IH|off k IH|off v k IH|off n k IH|off src k IH];
    intros w u H; cbn [run_on]; try done.
  - rewrite (agree_chip _ _ H). by apply IH.
  - rewrite (agree_chip _ _ H). by apply IH, agree_set_chip.
  - destruct (interrupt_frame w), (interrupt_frame u). apply IH. by apply (agree_frame w u).
  - destruct (retry_view w), (retry_view u). apply IH. by apply (agree_frame w u).
  - rewrite (agree_ram _ _ H). by apply IH.
  - rewrite (agree_word _ _ _ H). by apply IH.
  - by apply IH, agree_put_word.
  - rewrite (agree_read_block _ _ _ _ H). by apply IH.
  - by apply IH, agree_write_block.
Qed.

(** The same for operations without a result. *)
Definition agree_out (x y : res world) : Prop :=
  match x, y with
  | Ok w, Ok u => agree w u
  | Err e, Err e' => e = e'
  | _, _ => False
  end.

Lemma agree_out_run (p : prog ()) (f : world → res world) w u : (∀ w, run p w = (w ← f w; Ok (tt, w))) →
  agree w u → agree_out (f w) (f u).
Proof.
  intros E H. apply (run_agree p) in H. rewrite !E in H.
  destruct (f w), (f u); cbn in H |- *; try done. apply H.
Qed.

Lemma agree_rap r w u : agree w u → agree (upd_reg (set_rap r) w) (upd_reg (set_rap r) u).
Proof. intros [E R]. by split. Qed.

Lemma agree_csr0 w u : agree w u → csr0 w = csr0 u.
Proof. intros [E _]. apply (f_equal csr0) in E. exact E. Qed.

Lemma agree_upd_reg f w u : (∀ r, set_rap 0 (f r) = f (set_rap 0 r)) → agree w u → agree (upd_reg f w) (upd_reg f u).
Proof.
  intros Hf [E R]. split; [|exact R].
  change (chip_view (upd_reg f ?x)) with (set_w_reg (set_rap 0 (f (w_reg x))) (chip_view x)). rewrite !Hf.
  change (set_rap 0 (w_reg ?x)) with (w_reg (chip_view x)). by rewrite E.
Qed.

Lemma wput_ext_rap n v r : set_rap 0 (wput_ext n v r) = wput_ext n v (set_rap 0 r).
Proof. unfold wput_ext. repeat (case_match; [done|]). done. Qed.

Lemma agree_wput_plain n v w u : agree w u → agree (wput_plain n v w) (wput_plain n v u).
Proof.
  intros H. unfold wput_plain. rewrite (agree_csr0 _ _ H).
  repeat case_match; try done; (apply agree_upd_reg; [|done]); [done..|]. apply wput_ext_rap.
Qed.

(** The three kinds of register writes. *)
Lemma op_write_cases stk r v w :
  op_run stk (OpWrite r v) w
  = if RAP_SIZE <=? r then Ok (upd_reg (set_rap r) w)
    else if r =? 0 then @wput_csr0 mbx_int (Some (mbx_on_transmit_cb stk)) v (upd_reg (set_rap r) w)
    else Ok (wput_plain r v (upd_reg (set_rap r) w)).
Proof.
  cbn [op_run]. destruct (Z.leb_spec RAP_SIZE r) as [Hr|Hr]; [|destruct (Z.eqb_spec r 0) as [->|Hz]].
  - unfold chip_wput. cbv zeta. change (rap (w_reg (upd_reg (set_rap r) w))) with r. by rewrite (proj2 (Z.leb_le _ _) Hr).
  - done.
  - by rewrite wput_plain_wput.
Qed.

Lemma op_run_agree stk o w u : agree w u → agree_out (op_run stk o w) (op_run stk o u).
Proof.
  intros H. destruct o as [b n|r v| |off v].
  - apply (agree_out_run (prog_gotfunc stk b n)); [apply run_gotfunc|done].
  - rewrite !op_write_cases. apply (agree_rap r) in H. repeat case_match; [done| |by apply agree_wput_plain].
    apply (agree_out_run (prog_wput_csr0 (prog_on_transmit_cb stk) v)); [apply run_wput_csr0|done].
  - cbn [op_run]. apply (run_agree (prog_do_transmit stk)) in H. rewrite !run_do_transmit in H.
    destruct (do_transmit stk w) as [[]|], (do_transmit stk u) as [[]|]; cbn in H |- *; try done. apply H.
  - by apply agree_put_byte.
Qed.

Lemma ops_run_agree stk l w u : agree w u → agree_out (ops_run stk l w) (ops_run stk l u).
Proof.
  revert w u. induction l as [|o l IH]; intros w u H; [done|]. cbn [ops_run].
  apply (op_run_agree stk o) in H. destruct (op_run stk o w), (op_run stk o u); cbn in H |- *; try done. by apply IH.
Qed.

Lemma ops_run_app stk l1 l2 w : ops_run stk (l1 ++ l2) w = (w ← ops_run stk l1 w; ops_run stk l2 w).
Proof.
  revert w. induction l1 as [|o l1 IH]; intros w; [done|]. cbn [ops_run app].
  destruct (op_run stk o w); [apply IH|done].
Qed.

(** ** Rely and guarantee *)

(** A step of code that leaves the chip alone. *)
Definition silent_step (f : world → world) : Prop := ∀ w, agree (f w) w ∧ (base_ok w → base_ok (f w)).

(** A step that also leaves RAP alone. *)
Definition outside_step (f : world → world) : Prop := ∀ w, undisturbed (f w) w ∧ (base_ok w → base_ok (f w)).

(** Code that leaves the chip alone, balances its locks above the depth it starts at, and
    does not fail: what may run while a transfer waits. *)
Fixpoint silent {A} (d : nat) (c : code op A) : Prop :=
  match c with
  | CRet _ => d = 0%nat
  | CErr _ => False
  | CStep f k => silent_step f ∧ ∀ w, silent d (k w)
  | CLock o k => (∀ w, o w = []) ∧ silent (S d) k
  | CUnlock k => match d with O => False | S d => silent d k end
  | CWait _ => False
  end.

(** Outside of a section; in one, [d] locks deep, that has to end in [g]. *)
Inductive mode :=
| Open
| Held (d : nat) (g : res world).

Section conforms.
Context (stk : list Z).

Fixpoint conforms {A} (m : mode) (c : code op A) (w : world) : Prop :=
  match c, m with
  | CRet _, Open => True
  | CErr e, Held _ g => g = Err e
  | CStep f k, Open => outside_step f ∧ ∀ u, base_ok u → conforms Open (k u) u
  | CStep f k, Held _ _ => ∀ u, undisturbed u w → (base_ok u → base_ok (f u)) ∧ conforms m (k u) (f u)
  | CLock o k, Open => ∀ u g, agree u g → base_ok u →
      Forall op_ok (o u) ∧ conforms (Held 0 (ops_run stk (o u) g)) k u
  | CLock o k, Held d g => (∀ u, o u = []) ∧ conforms (Held (S d) g) k w
  | CUnlock k, Held 0 g => agree_out (Ok w) g ∧ conforms Open k w
  | CUnlock k, Held (S d) g => conforms (Held d g) k w
  | CWait k, Held _ _ => ∀ u, agree u w → conforms m k u
  | _, _ => False
  end.

(** ** Lemmas: code that conforms *)

Lemma conforms_moved {A} (c : code op A) d g w u : conforms (Held d g) c w → undisturbed u w →
  conforms (Held d g) c u.
Proof.
  revert d w u. induction c as [a|e|f k IH|o k IH|k IH|k IH]; intros d w u Hc Hu; cbn [conforms] in *; try done.
  - intros v Hv. apply Hc. by transitivity u.
  - destruct Hc as [Ho Hc]. split; [done|]. by eapply IH.
  - destruct d as [|d]; [|by eapply IH]. destruct Hc as [Hg Hc]. destruct Hu as [Hu _]. split.
    + destruct g; cbn in *; [by transitivity w|done].
    + revert Hc. clear. revert w u. induction k; cbn; intros w v; naive_solver.
  - intros v Hv. apply Hc. transitivity u; [done|apply Hu].
Qed.

Lemma conforms_open {A} (c : code op A) w u : conforms Open c w → conforms Open c u.
Proof. destruct c; cbn; naive_solver. Qed.

(** Sequencing, outside of a section. *)
Lemma open_bind {A B} (c : code op A) (q : A → code op B) w :
  conforms Open c w → (∀ a u, conforms Open (q a) u) → conforms Open (x ← c; q x) w.
Proof.
  intros Hc Hq.
  assert (G : ∀ m w, conforms m c w → conforms m (x ← c; q x) w).
  { clear w Hc. induction c as [a|e|f k IH|o k IH|k IH|k IH]; intros m w Hc; destruct m as [|d g]; cbn in *; try done.
    - destruct Hc as [Hf Hc]. split; [done|]. intros u Hb. by apply IH, Hc.
    - intros u Hu. destruct (Hc u Hu) as [Hb Hk]. split; [done|]. by apply IH.
    - intros u g Hu Hb. destruct (Hc u g Hu Hb) as [Ho Hk]. split; [done|]. by apply IH.
    - destruct Hc as [Ho Hc]. split; [done|]. by apply IH.
    - destruct d; [|by apply IH]. destruct Hc as [Hg Hc]. split; [done|]. by apply IH.
    - intros u Hu. by apply IH, Hc. }
  by apply G.
Qed.

Lemma open_get {A B} (f : world → B) (q : B → code op A) w :
  (∀ u, base_ok u → conforms Open (q (f u)) u) → conforms Open (x ← get f; q x) w.
Proof. intros Hq. split; [|intros u; apply Hq]. intros u. by split. Qed.

Lemma open_put f w : outside_step f → conforms Open (put f) w.
Proof. by split. Qed.

(** Silent code in a section. *)
Lemma silent_bind {B} (s : code op ()) n d g (q : code op B) w : silent n s →
  (∀ u, agree u w → conforms (Held d g) q u) → conforms (Held (n + d) g) (_ ← s; q) w.
Proof.
  revert n w. induction s as [[]|e|f k IH|o k IH|k IH|k IH]; intros n w Hs Hq; cbn in Hs; try done.
  - subst n. apply Hq. reflexivity.
  - destruct Hs as [Hf Hk]. intros u Hu. split; [apply Hf|]. apply IH; [apply Hk|].
    intros v Hv. apply Hq. rewrite Hv. transitivity u; [apply Hf|apply Hu].
  - destruct Hs as [Ho Hs]. split; [done|]. by apply (IH (S n)).
  - destruct n as [|n]; [done|]. by apply (IH n).
Qed.

Lemma conforms_assoc {A B C} m (c : code op A) (p : A → code op B) (q : B → code op C) w :
  conforms m (y ← c; x ← p y; q x) w → conforms m (x ← (y ← c; p y); q x) w.
Proof.
  revert m w. induction c as [a|e|f k IH|o k IH|k IH|k IH]; intros m w; destruct m as [|d g]; cbn; try done.
  - intros [Hf Hc]. split; [done|]. intros u Hb. by apply IH, Hc.
  - intros Hc u Hu. destruct (Hc u Hu) as [Hb Hk]. split; [done|]. by apply IH.
  - intros Hc u g Hu Hb. destruct (Hc u g Hu Hb) as [Ho Hk]. split; [done|]. by apply IH.
  - intros [Ho Hc]. split; [done|]. by apply IH.
  - destruct d; [|by apply IH]. intros [Hg Hc]. split; [done|]. by apply IH.
  - intros Hc u Hu. by apply IH, Hc.
Qed.

(** A run whose result lets a section end as it has to. *)
Definition ends {A B} (d : nat) (g : res world) (q : A → code op B) (r : res (A * world)) : Prop :=
  match r with
  | Ok (a, w) => ∀ u, agree u w → conforms (Held d g) (q a) u
  | Err e => g = Err e
  end.

Lemma ends_agree {A B} d g (q : A → code op B) (p : prog A) w u : agree u w →
  ends d g q (run p w) → ends d g q (run p u).
Proof.
  intros H He. apply (run_agree p) in H.
  destruct (run p u) as [[a u']|], (run p w) as [[b w']|]; cbn in *; try done; [|congruence].
  destruct H as [-> H]. intros v Hv. apply He. by transitivity u'.
Qed.

Lemma outside_silent f : outside_step f → silent_step f.
Proof. intros H w. destruct (H w) as [[]]. by split. Qed.

Lemma outside_id : outside_step id.
Proof. intros w. by split. Qed.

Lemma outside_slot off v : RAM_SIZE ≤ off → outside_step (set_slot off v).
Proof.
  intros Ho w. pose proof (set_slot_frame off v w Ho) as F. split.
  - split; [|by rewrite (frame_reg _ _ F)]. by apply (agree_frame w w).
  - intros [Hr Hw Hq]. by split; [|apply F|].
Qed.

Lemma outside_ddr3 f : (∀ d, deferred_csr0_queue (f d) = deferred_csr0_queue d) → outside_step (upd_ddr3 f).
Proof. intros Hf w. split; [done|]. intros [Hr Hw Hq]. split; [done|done|]. cbn. by rewrite Hf. Qed.

Lemma silent_queue n v : fits 16 v →
  silent_step (upd_ddr3 (λ d, set_deferred_csr0_queue (<[n := v]> (deferred_csr0_queue d)) d)).
Proof. intros Hv w. split; [done|]. intros [Hr Hw Hq]. split; [done|done|]. by apply Forall_insert. Qed.

Lemma silent_rap v : silent_step (upd_reg (set_rap (Z.land v 0x7f))).
Proof.
  intros w. split; [by split|]. intros [_ Hw Hq]. split; [|done|done]; cbn;
  change 0x7f with (Z.ones 7); rewrite Z.land_ones by lia; unfold RAP_SIZE; apply Z.mod_pos_bound; lia.
Qed.

#[local] Hint Resolve outside_silent outside_id outside_slot outside_ddr3 silent_rap silent_queue req_data_fits : a2065.
#[local] Hint Extern 1 (RAM_SIZE ≤ _) => by vm_compute : a2065.

(** Silent code, access by access. *)
Ltac silent_tac := repeat first
  [ progress intros
  | done
  | match goal with |- silent _ (if ?b then _ else _) => destruct b end
  | match goal with |- silent_step _ => by eauto with a2065 end
  | split ].

Lemma silent_assert : silent 0 c_assert_mbx_int.
Proof. unfold c_assert_mbx_int. cbn. silent_tac. Qed.

Lemma silent_retry : silent 0 c_schedule_tdmd_retry.
Proof. unfold c_schedule_tdmd_retry. cbn. silent_tac. Qed.

Lemma silent_service : silent 0 c_service_bridge_safe.
Proof.
  unfold c_service_bridge_safe, c_serve_safe, c_reply, c_enqueue, c_store. cbn. split; [by eauto with a2065|]. intros w.
  destruct (flag _ 1); cbn; [|done]. destruct (req_rw _); cbn; silent_tac.
Qed.

(** ** Lemmas: sections *)

(** A change of the chip that keeps RAP and the window. *)
Lemma set_chip_base c w : base_ok w → base_ok (set_chip c w).
Proof. intros []. by split. Qed.

Lemma held_get {A B} d g (f : world → A) (q : A → code op B) w :
  (∀ u, undisturbed u w → conforms (Held d g) (q (f u)) u) → conforms (Held d g) (x ← get f; q x) w.
Proof. intros H u Hu. by split; [|apply H]. Qed.

Lemma held_read_block {B} d g off n (q : list Z → code op B) w :
  (∀ u, agree u w → conforms (Held d g) (q (read_block w off n)) u) →
  conforms (Held d g) (x ← c_read_block off n; q x) w.
Proof.
  revert off q w. induction n as [|n IH]; intros off q w H; [by apply H|]. cbn [c_read_block].
  apply conforms_assoc. intros u Hu v Hv. split; [done|]. apply conforms_assoc, IH. intros x Hx.
  assert (Hxw : agree x w) by (rewrite Hx; transitivity u; [apply Hv|done]).
  assert (Hvw : agree v w) by (transitivity u; [apply Hv|done]).
  cbn. replace (ram_byte v off :: _) with (read_block w off (S n)); [by apply H|].
  cbn. f_equal; [symmetry; apply Hvw|]. symmetry. by apply agree_read_block.
Qed.

Lemma base_put_byte off v w : base_ok w →
  base_ok (set_w_win (put_ram_byte (w_boardram w) (w_win w) off v) w).
Proof. intros []. by split; [|apply window_ok_put_byte|]. Qed.

Lemma held_write_block {B} d g off src (q : () → code op B) w :
  (∀ u, agree u (write_block off src w) → conforms (Held d g) (q tt) u) →
  conforms (Held d g) (x ← c_write_block off src; q x) w.
Proof.
  revert off w. induction src as [|b src IH]; intros off w H.
  { apply H. by destruct w. }
  cbn [c_write_block]. apply conforms_assoc. intros u Hu u' Hu' v Hv. split; [apply base_put_byte|]. apply IH.
  intros x Hx. apply H. rewrite Hx.
  assert (Hvw : agree v w) by (transitivity u'; [apply Hv|by transitivity u]).
  apply (agree_put_byte off b) in Hvw. by apply (agree_write_block (off + 1) src) in Hvw.
Qed.

(** The chip code in a section, whatever the other thread and the polls do, ends as it does
    alone. *)
Lemma held_chip {A B} d g (p : prog A) (q : A → code op B) w : ends d g q (run p w) →
  conforms (Held d g) (x ← c_chip p; q x) w.
Proof.
  revert w. induction p as [a|e|k IH|c k IH|k IH|k IH|off k IH|off k IH|off v k IH|off n k IH|off src k IH];
    intros w H; cbn [c_chip run_on] in *.
  - by apply H.
  - exact H.
  - intros u Hu. split; [done|]. apply IH. apply (ends_agree _ _ _ _ w); [apply Hu|].
    by rewrite (agree_chip u w) by apply Hu.
  - intros u Hu. split; [apply set_chip_base|]. apply IH. rewrite (agree_chip u w) by apply Hu.
    eapply ends_agree; [|exact H]. by apply agree_set_chip, Hu.
  - apply conforms_assoc, (silent_bind _ 0); [apply silent_assert|]. intros u Hu. apply IH.
    eapply ends_agree; [|exact H]. destruct (interrupt_frame w). by apply (agree_frame u w).
  - apply conforms_assoc, (silent_bind _ 0); [apply silent_retry|]. intros u Hu. apply IH.
    eapply ends_agree; [|exact H]. destruct (retry_view w). by apply (agree_frame u w).
  - intros u Hu v Hv. assert (Hvw : agree v w) by (transitivity u; [apply Hv|done]).
    split; [done|]. apply IH. eapply ends_agree; [exact Hvw|]. by rewrite (agree_ram _ _ Hvw).
  - intros u Hu v Hv. assert (Hvw : agree v w) by (transitivity u; [apply Hv|done]).
    split; [done|]. apply IH. eapply ends_agree; [exact Hvw|]. by rewrite (agree_word _ _ _ Hvw).
  - intros u Hu x Hx. assert (Hxw : agree x w) by (transitivity u; [apply Hx|done]).
    split; [intros []; by split; [|apply window_ok_put_word|]|]. apply IH.
    eapply ends_agree; [|exact H]. by apply agree_put_word.
  - apply conforms_assoc, held_read_block. intros u Hu. apply IH. by eapply ends_agree.
  - apply conforms_assoc, held_write_block. intros u Hu. apply IH. by eapply ends_agree.
Qed.

(** The chip code [p] in a section that has to end as [p] does alone. *)
Lemma held_section {A B} (p : prog A) (q : A → code op B) g r u : agree u g →
  r = ('(_, w) ← run p g; Ok w) →
  (∀ a v, agree_out (Ok v) r → conforms (Held 0 r) (q a) v) →
  conforms (Held 0 r) (x ← c_chip p; q x) u.
Proof.
  intros H Hr Hq. apply held_chip. eapply ends_agree; [exact H|]. unfold ends.
  destruct (run p g) as [[a w]|e]; [|done]. intros v Hv. apply Hq. by rewrite Hr.
Qed.

Lemma held_unlock {A} (b : A) r w : agree_out (Ok w) r → conforms (Held 0 r) (CUnlock (CRet b)) w.
Proof. by split. Qed.

(** The short sections that only read. *)
Lemma open_locked_get {A} (f : world → A) w : conforms Open (locked no_op (get f)) w.
Proof.
  intros u g Hu _. split; [done|]. intros v Hv. split; [done|]. split; [|done]. cbn. by transitivity u; [apply Hv|].
Qed.

(** The rest of a write section: CSR0 is read, and the lock given back. *)
Lemma write_section_end (f : Z → bool * bool) r v : agree_out (Ok v) r →
  conforms (Held 0 r) (b ← (c ← get csr0; CRet (f c)); CUnlock (CRet b)) v.
Proof.
  intros H u Hu. split; [done|]. split; [|done]. destruct r; [|done]. cbn in *. by transitivity v; [apply Hu|].
Qed.

Lemma wput_plain_base n v w : base_ok w → base_ok (wput_plain n v w).
Proof.
  intros [Hr Hw Hq]. split; [|unfold wput_plain; by repeat case_match..].
  - unfold wput_plain. repeat case_match; try done.
    change (w_reg (upd_reg ?f w)) with (f (w_reg w)). assert (E : rap (wput_ext n v (w_reg w)) = rap (w_reg w)).
    { unfold wput_ext. by repeat case_match. }
    by rewrite E.
Qed.

Lemma open_write_section addr data w : fits 16 data → conforms Open (c_write_section stk addr data) w.
Proof.
  intros Hd. unfold c_write_section, locked. intros u g Hu Hb. unfold op_wput, c_chip_wput.
  split; [case_match; [done|]; apply Forall_singleton; by split; [apply Hb|]|]. apply conforms_assoc.
  destruct (addr =? A2065_RAP_OFF).
  { intros v Hv. destruct (silent_rap data v) as [Ha Hbv]. split; [done|]. apply write_section_end.
    cbn. rewrite Ha. by transitivity u; [apply Hv|]. }
  apply conforms_assoc, held_get. intros v [Hv Er]. rewrite Er. set (r := rap (w_reg u)) in *.
  assert (Hr : 0 ≤ r < RAP_SIZE) by apply Hb. assert (Hvg : agree v g) by (by transitivity u).
  destruct (Z.leb_spec RAP_SIZE r) as [|_]; [lia|].
  assert (Es : ops_run stk [OpWrite r data] g = op_run stk (OpWrite r data) g)
    by (cbn [ops_run]; by destruct (op_run _ _ g)).
  rewrite Es, op_write_cases. destruct (Z.leb_spec RAP_SIZE r) as [|_]; [lia|].
  assert (Hg : agree v (upd_reg (set_rap r) g)) by (destruct Hvg; by split).
  destruct (r =? 0).
  - eapply held_section; [exact Hg| |intros _ x Hx; by apply write_section_end].
    rewrite run_wput_csr0. by destruct (wput_csr0 _ _).
  - intros x Hx. split; [apply wput_plain_base|]. apply write_section_end. cbn.
    apply agree_wput_plain. transitivity v; [apply Hx|done].
Qed.

(** Code outside of sections, access by access; [lem] are the parts already done. *)
Ltac open_with lem := repeat (cbv beta; lazymatch goal with
  | |- conforms Open (CRet _) _ => exact I
  | |- conforms Open skip _ => exact I
  | |- conforms Open (locked no_op (get _)) _ => apply open_locked_get
  | |- conforms Open (c_write_section _ _ (req_data _)) _ => apply open_write_section, req_data_fits
  | |- conforms Open (if ?b then _ else _) _ => destruct b
  | |- conforms Open (let '(_, _) := ?p in _) _ => destruct p
  | |- conforms Open (mbind _ (get _)) _ => apply open_get; intros
  | |- conforms Open (mbind _ (rd64c _)) _ => apply open_get; intros
  | |- conforms Open (mbind _ _) _ => apply open_bind; [|intros]
  | |- conforms Open (put _) _ => apply open_put; by eauto with a2065
  | |- conforms Open (wr64c _ _) _ => apply open_put; by eauto with a2065
  | |- conforms Open _ _ => lem
  end).

Lemma open_assert w : conforms Open c_assert_mbx_int w.
Proof. unfold c_assert_mbx_int. open_with fail. Qed.

Lemma open_release b w : conforms Open (c_release_hold b) w.
Proof. unfold c_release_hold. open_with fail. Qed.

Lemma open_reply v w : conforms Open (c_reply v) w.
Proof. unfold c_reply. open_with fail. Qed.

Lemma open_before_reply rw addr data v w : conforms Open (c_before_reply rw addr data v) w.
Proof. unfold c_before_reply. open_with ltac:(apply open_assert). Qed.

Lemma open_service w : conforms Open (c_service_bridge stk) w.
Proof.
  unfold c_service_bridge, c_serve. apply open_get. intros u _. generalize (slot u MBX_REQ_OFF). intros req. cbv zeta.
  generalize (req_rw req), (req_addr req), (req_data_fits req). generalize (req_data req). intros data rw addr Hd.
  open_with ltac:(idtac; lazymatch goal with
    | |- conforms _ (c_before_reply _ _ _ _) _ => apply open_before_reply
    | |- conforms _ (c_reply _) _ => apply open_reply
    | |- conforms _ c_assert_mbx_int _ => apply open_assert
    | |- conforms _ (c_release_hold _) _ => apply open_release
    | |- _ => apply open_write_section, Hd
    end).
Qed.

Lemma open_main lbl w : conforms Open (c_main stk lbl) w.
Proof.
  destruct lbl as [refresh|refresh|refresh|]; cbn [c_main].
  - open_with ltac:(apply open_service).
  - unfold c_drain, c_take. apply conforms_assoc, open_get. intros t _. apply conforms_assoc, open_get. intros h _.
    destruct (_ =? _); [done|]. apply conforms_assoc, open_get. intros u Hb. apply conforms_assoc, open_get. intros v _.
    apply conforms_assoc, open_bind; [open_with fail|]. intros [] x.
    change (conforms Open ('(_, int_cleared) ← c_write_section stk 0
      (nth (Z.to_nat (deferred_csr0_tail (w_ddr3 u))) (deferred_csr0_queue (w_ddr3 u)) 0);
      _ ← c_release_hold int_cleared; CRet (LDrain refresh)) x).
    open_with ltac:(idtac; lazymatch goal with
      | |- conforms _ (c_release_hold _) _ => apply open_release
      | |- _ => apply open_write_section, nth_fits, base_queue; [lia|assumption]
      end).
  - unfold c_retry_transmit, c_hold_or_write, c_write_mbx_int, c_refresh_int. cbv zeta. open_with fail.
    unfold locked. intros x g Hx Hb'. split; [by repeat constructor|].
    eapply held_section; [exact Hx| |intros; by apply held_unlock].
    cbn [ops_run op_run]. rewrite run_do_transmit. by destruct (do_transmit stk g) as [[]|].
  - done.
Qed.

Lemma open_rx rxbuf len w : conforms Open (c_rx stk rxbuf len) w.
Proof.
  unfold c_rx. open_with fail. unfold locked. intros x g Hx Hb. split; [by repeat constructor|].
  eapply held_section; [exact Hx| |intros; by apply held_unlock].
  cbn [ops_run op_run]. rewrite run_gotfunc. by destruct (gotfunc _ _ _ _).
Qed.

(** ** The invariant of every schedule *)

Definition other (t : tid) : tid := match t with Main => Rx | Rx => Main end.

(** From [w0], the operations of the log lead to the state when no thread is in a section,
    and to where the section in progress will end otherwise. *)
Definition sections (w0 : world) (s : threads op label) : Prop :=
  let g := ops_run stk (th_log s) w0 in
  match lock_owner (th_lock s), lock_depth (th_lock s) with
  | None, O => agree_out (Ok (th_world s)) g ∧ ∀ t, conforms Open (th_code t s) (th_world s)
  | Some t, S d =>
      conforms (Held d g) (th_code t s) (th_world s) ∧ conforms Open (th_code (other t) s) (th_world s)
  | _, _ => False
  end.

Record atomic_inv (w0 : world) (s : threads op label) : Prop := AtomicInv {
  ai_init : reg_lock_init_done (th_lock s) = true;
  ai_base : base_ok (th_world s);
  ai_log : Forall op_ok (th_log s);
  ai_sections : sections w0 s }.

Lemma open_reload t frame lbl w : conforms Open (mbx_reload stk t frame lbl) w.
Proof. destruct t; [apply open_main|apply open_rx]. Qed.

(** The state after one thread has taken a step. *)
Definition stepped (t : tid) (c : code op label) (w : world) (l : mutex) (o : list op) (s : threads op label) :
    threads op label :=
  set_code t c (Threads w l (th_main s) (th_rx s) (th_log s ++ o)).

Lemma stepped_proj t c w l o s :
  th_world (stepped t c w l o s) = w ∧ th_lock (stepped t c w l o s) = l ∧
  th_log (stepped t c w l o s) = th_log s ++ o ∧ th_code t (stepped t c w l o s) = c ∧
  th_code (other t) (stepped t c w l o s) = th_code (other t) s.
Proof. by destruct t. Qed.

(** What a section's state says of its thread, and of the other. *)
Lemma tid_cases (P : tid → Prop) t : P t → P (other t) → ∀ t', P t'.
Proof. destruct t; intros ? ? []; done. Qed.

(** Owner and depth of an initialised mutex. *)
Lemma sections_lock w0 s : sections w0 s →
  (lock_owner (th_lock s) = None ∧ lock_depth (th_lock s) = 0%nat) ∨
  ∃ t d, lock_owner (th_lock s) = Some t ∧ lock_depth (th_lock s) = S d.
Proof.
  unfold sections. destruct (lock_owner _), (lock_depth _); try done; [|by left]. intros _. right. eauto.
Qed.

(** Something outside of the section in progress moves on: the other thread goes on with
    [c], or the FPGA has written a slot. *)
Lemma open_moved t c w s w0 : atomic_inv w0 s → lock_owner (th_lock s) ≠ Some t →
  undisturbed w (th_world s) → base_ok w → conforms Open c w →
  atomic_inv w0 (stepped t c w (th_lock s) [] s).
Proof.
  intros [Hi Hb Hl Hs] Ho Hw Hb1 Hc1. destruct (stepped_proj t c w (th_lock s) [] s) as (E1 & E2 & E3 & E4 & E5).
  split; [by rewrite E2|by rewrite E1|by rewrite E3, app_nil_r|].
  revert Hs. unfold sections. rewrite E1, E2, E3, app_nil_r. clear E1 E2 E3.
  destruct (lock_owner _) as [t'|], (lock_depth _) as [|d]; try done.
  - assert (t' = other t) as -> by (destruct t, t'; done). rewrite E5.
    replace (other (other t)) with t by (by destruct t). rewrite E4.
    intros [Hh _]. split; [|done]. by eapply conforms_moved.
  - intros [Ha Hall]. split; [|apply (tid_cases _ t); [by rewrite E4|rewrite E5; eapply conforms_open, Hall]].
    destruct (ops_run _ _ w0); [|done]. cbn in *. transitivity (th_world s); [apply Hw|done].
Qed.

(** A thread outside of the section in progress runs open code. *)
Lemma sections_open t s w0 : sections w0 s → lock_owner (th_lock s) ≠ Some t →
  conforms Open (th_code t s) (th_world s).
Proof.
  unfold sections. destruct (lock_owner _) as [t'|], (lock_depth _) as [|d]; try done.
  - intros [_ H] Ho. assert (other t' = t) as <- by (destruct t, t'; done). done.
  - intros [_ H] _. apply H.
Qed.

(** A step of a thread that is in no section. *)
Lemma open_stepped t ready s w0 c' w' l' o : atomic_inv w0 s → lock_owner (th_lock s) ≠ Some t →
  code_step c_service_bridge_safe t ready (th_code t s) (th_world s) (th_lock s) = Ok (c', w', l', o) →
  atomic_inv w0 (stepped t c' w' l' o s).
Proof.
  intros HI Ho. pose proof HI as [Hi Hb Hl Hs]. pose proof (sections_open t s w0 Hs Ho) as Hc.
  destruct (stepped_proj t c' w' l' o s) as (E1 & E2 & E3 & E4 & E5).
  destruct (th_code t s) as [a|e|f k|op k|k|k]; cbn [code_step conforms] in *; try done.
  - intros [= <- <- <- <-]. by apply open_moved.
  - destruct Hc as [Hf Hk]. intros [= <- <- <- <-]. destruct (Hf (th_world s)) as [Hu Hb'].
    apply open_moved; [done..|by apply Hb'|]. by eapply conforms_open, Hk.
  - unfold registers_lock. rewrite Hi. destruct (sections_lock _ _ Hs) as [[Eo Ed]|(t' & d & Eo & Ed)]; rewrite Eo.
    + intros [= <- <- <- <-]. unfold sections in Hs. rewrite Eo, Ed in Hs. destruct Hs as [Ha Hall].
      destruct (ops_run stk (th_log s) w0) as [g|] eqn:Eg; [|done]. destruct (Hc _ g Ha Hb) as [Hop Hk].
      split; [by rewrite E2|by rewrite E1|rewrite E3; by apply Forall_app|].
      unfold sections. rewrite E1, E2, E3, ops_run_app, Eg. cbn [lock_owner lock_depth mbind res_bind].
      rewrite E4, E5. split; [done|apply Hall].
    + rewrite decide_False by (intros ->; by rewrite Eo in Ho).
      intros [= <- <- <- <-]. by apply open_moved.
Qed.

(** A step of the thread that is in a section. *)
Lemma held_stepped t ready s w0 c' w' l' o : atomic_inv w0 s → lock_owner (th_lock s) = Some t →
  code_step c_service_bridge_safe t ready (th_code t s) (th_world s) (th_lock s) = Ok (c', w', l', o) →
  atomic_inv w0 (stepped t c' w' l' o s).
Proof.
  intros [Hi Hb Hl Hs] Ho. destruct (stepped_proj t c' w' l' o s) as (E1 & E2 & E3 & E4 & E5).
  destruct (sections_lock _ _ Hs) as [[Eo Ed]|(t' & d & Eo & Ed)]; [congruence|].
  unfold sections in Hs. rewrite Eo, Ed in Hs. destruct Hs as [Hc Hopen].
  rewrite Eo in Ho. injection Ho as ->.
  set (g := ops_run stk (th_log s) w0) in *.
  assert (K : ∀ d', base_ok w' → conforms (Held d' g) c' w' → l' = Mutex true (Some t) (S d') → o = [] →
    atomic_inv w0 (stepped t c' w' l' o s)).
  { intros d' Hb' Hc' -> ->. split; [by rewrite E2|by rewrite E1|by rewrite E3, app_nil_r|].
    unfold sections. rewrite E1, E2, E3, app_nil_r. cbn [lock_owner lock_depth]. rewrite E4, E5. fold g.
    split; [done|]. eapply conforms_open, Hopen. }
  assert (El : th_lock s = Mutex true (Some t) (S d)).
  { destruct (th_lock s); cbn in *; congruence. }
  destruct (th_code t s) as [a|e|f k|op k|k|k]; cbn [code_step conforms] in *; try done.
  - intros [= <- <- <- <-]. destruct (Hc (th_world s)) as [Hb' Hk]; [reflexivity|].
    by apply (K d); [apply Hb'| | |].
  - destruct Hc as [Hop Hk]. unfold registers_lock. rewrite El. cbn [reg_lock_init_done lock_owner lock_depth].
    rewrite decide_True by done. intros [= <- <- <- <-]. by apply (K (S d)).
  - unfold registers_unlock. rewrite El. cbn [reg_lock_init_done lock_owner lock_depth].
    rewrite bool_decide_eq_true_2 by done. cbn [andb]. destruct d as [|d]; intros [= <- <- <- <-]; [|by apply (K d)].
    destruct Hc as [Ha Hk]. split; [by rewrite E2|by rewrite E1|by rewrite E3, app_nil_r|].
    unfold sections. rewrite E1, E2, E3, app_nil_r. cbn [lock_owner lock_depth].
    split; [done|]. apply (tid_cases _ t); [by rewrite E4|by rewrite E5].
  - intros [= <- <- <- <-]. apply (K d); [done| |done|done]. destruct ready; [by apply Hc|].
    apply (silent_bind c_service_bridge_safe 0 d g (CWait k)); [apply silent_service|]. intros u Hu v Hv. apply Hc.
    by transitivity u.
Qed.

Lemma set_code_stepped t c s : set_code t c s = stepped t c (th_world s) (th_lock s) [] s.
Proof. unfold stepped. rewrite app_nil_r. by destruct t, s. Qed.

(** The step of a schedule; a failing one shows the failure of the section's operation. *)
Lemma thread_step_inv t ready frame s w0 : atomic_inv w0 s →
  match thread_step c_service_bridge_safe (mbx_reload stk) t ready frame s with
  | Ok s' => atomic_inv w0 s'
  | Err e => ops_run stk (th_log s) w0 = Err e
  end.
Proof.
  intros HI. pose proof HI as [Hi Hb Hl Hs]. unfold thread_step.
  assert (K : ∀ x, code_step c_service_bridge_safe t ready (th_code t s) (th_world s) (th_lock s) = x →
    match '(c, w, l, o) ← x; Ok (stepped t c w l o s) with
    | Ok s' => atomic_inv w0 s'
    | Err e => ops_run stk (th_log s) w0 = Err e
    end).
  { intros [[[[c w] l] o]|e] E; cbn [mbind res_bind].
    - destruct (decide (lock_owner (th_lock s) = Some t)); [by eapply held_stepped|by eapply open_stepped].
    - destruct (th_code t s) as [|e'| |o k| |] eqn:Ec; cbn [code_step] in E; try done; [|by repeat case_match].
      injection E as ->. unfold sections in Hs.
      destruct (decide (lock_owner (th_lock s) = Some t)) as [Eo|Eo].
      + rewrite Eo in Hs. destruct (lock_depth _); [done|]. rewrite Ec in Hs. apply Hs.
      + pose proof (sections_open t s w0 (ai_sections _ _ HI) Eo) as Hc. by rewrite Ec in Hc. }
  destruct (th_code t s) as [lbl|e|f k|o k|k|k] eqn:Ec; try (by apply (K _ eq_refl)).
  rewrite set_code_stepped. apply open_moved; [done| |done|done|apply open_reload].
  intros Eo. unfold sections in Hs. rewrite Eo in Hs. destruct (lock_depth _); [done|].
  rewrite Ec in Hs. apply Hs.
Qed.

Lemma mt_step_inv e s w0 : atomic_inv w0 s →
  match mt_step stk e s with
  | Ok s' => atomic_inv w0 s'
  | Err e => ops_run stk (th_log s) w0 = Err e
  end.
Proof.
  intros HI. pose proof HI as [Hi Hb Hl Hs]. destruct e as [t ready frame|off v|off v]; cbn [mt_step].
  - by apply thread_step_inv.
  - destruct (outside_slot (Z.max off RAM_SIZE) v ltac:(lia) (th_world s)) as [Hu Hb'].
    split; cbn [th_lock th_world th_log]; [done|by apply Hb'|done|]. revert Hs. unfold sections.
    cbn [th_lock th_world th_log]. destruct (lock_owner _) as [t|], (lock_depth _) as [|d]; try done.
    + intros [Hh Ho]. split; [by eapply conforms_moved; [destruct t; apply Hh|]|].
      eapply conforms_open. destruct t; apply Ho.
    + intros [Ha Hall]. split; [|intros t; eapply conforms_open; destruct t; [apply (Hall Main)|apply (Hall Rx)]].
      destruct (ops_run _ _ w0); [|done]. cbn in *. transitivity (th_world s); [apply Hu|done].
  - destruct (lock_owner (th_lock s)) as [t|] eqn:Eo; [done|]. cbv zeta.
    split; cbn [th_lock th_world th_log]; [done|by apply base_put_byte|by apply Forall_app; split; [|constructor]|].
    unfold sections in *. cbn [th_lock th_world th_log]. rewrite Eo in *. destruct (lock_depth _) as [|d]; [|done].
    destruct Hs as [Ha Hall]. rewrite ops_run_app.
    split; [|intros t; eapply conforms_open; destruct t; [apply (Hall Main)|apply (Hall Rx)]].
    destruct (ops_run stk (th_log s) w0); [|done]. cbn. by apply agree_put_byte.
Qed.

Lemma mt_exec_inv es s w0 : atomic_inv w0 s →
  match mt_exec stk es s with
  | Ok s' => atomic_inv w0 s'
  | Err e => ∃ es1 es2 s1, es = es1 ++ es2 ∧ mt_exec stk es1 s = Ok s1 ∧ ops_run stk (th_log s1) w0 = Err e
  end.
Proof.
  revert s. induction es as [|e es IH]; intros s HI; [done|]. cbn [mt_exec].
  pose proof (mt_step_inv e s w0 HI) as Hs. destruct (mt_step stk e s) as [s1|er] eqn:E; cbn [mbind res_bind].
  - specialize (IH s1 Hs). destruct (mt_exec stk es s1); [done|].
    destruct IH as (es1 & es2 & s2 & -> & E1 & E2). exists (e :: es1), es2, s2. cbn. by rewrite E.
  - by exists [], (e :: es), s.
Qed.

Lemma mt_start_inv w : base_ok w → atomic_inv w (mt_start w).
Proof.
  intros Hb. split; [done|done|constructor|]. split; [|by intros []]. change (agree w w). reflexivity.
Qed.
End conforms.

(** ** Well-formedness *)

Lemma chip_ok_rap r w : 0 ≤ r < RAP_SIZE → chip_ok w → chip_ok (upd_reg (set_rap r) w).
Proof. intros Hr [[[] Hm Hl Hb Hw Hc] Hi]. split; [|exact Hi]. split; [by split|exact Hm|exact Hl|exact Hb|exact Hw|exact Hc]. Qed.

Lemma chip_ok_put_byte off v w : chip_ok w →
  chip_ok (set_w_win (put_ram_byte (w_boardram w) (w_win w) off v) w).
Proof. intros [[] Hi]. split; [|done]. split; try done. by apply window_ok_put_byte. Qed.

Lemma op_run_ok stk o w w' : op_ok o → chip_ok w → op_run stk o w = Ok w' → chip_ok w'.
Proof.
  intros Ho Hw. pose proof (mbx_tx_ok stk) as Htx. destruct o as [b n|r v| |off v]; cbn [op_run].
  - by apply chip_ok_receive.
  - destruct Ho as [Hr Hv]. apply (@chip_ok_wput _ _ _ Htx); [by apply chip_ok_rap|done].
  - intros H. bind_inv H. destruct x as [n u]. injection H as <-. by eapply chip_ok_transmit.
  - intros [= <-]. by apply chip_ok_put_byte.
Qed.

Lemma ops_run_ok stk l w w' : Forall op_ok l → chip_ok w → ops_run stk l w = Ok w' → chip_ok w'.
Proof.
  intros Hl. revert w. induction Hl as [|o l Ho Hl IH]; intros w Hw; cbn [ops_run]; [by intros [= <-]|].
  intros H. bind_inv H. eapply IH; [|done]. by eapply op_run_ok.
Qed.

Lemma chip_ok_agree w u : base_ok w → agree w u → chip_ok u → chip_ok w.
Proof.
  intros [Hr Hw _] [E _] [[[] Hm Hb1 Hb2 _ Hc] Hi].
  assert (Er : set_rap 0 (w_reg w) = set_rap 0 (w_reg u)) by apply (f_equal w_reg E).
  assert (Em : w_mac w = w_mac u) by apply (f_equal w_mac E).
  assert (Eg : w_ring w = w_ring u) by apply (f_equal w_ring E).
  assert (Ec : csr0 w = csr0 u) by apply (f_equal csr0 E).
  split; [|by rewrite Ec]. split; [|by rewrite ?Em, ?Eg, ?Ec..].
  destruct (w_reg w), (w_reg u). cbn in *. injection Er as -> -> -> -> -> -> -> -> -> -> ->. by split.
Qed.

(** ** Theorem *)

(** C18: The locked sections of the mailbox daemon are atomic.  Take any schedule of the
    main thread, the receive thread and the FPGA, at the grain of single accesses, with
    register requests served by whichever thread waits for a transfer, and with bytes the
    68k writes between sections.  Whenever no thread is in a section, registers and board
    RAM are those of the sections' operations done one after the other on flat board RAM,
    each at once, in the order of their locks, and are well-formed; and if a thread fails,
    that sequence fails, at the same operation. *)
Theorem mbx_sections_atomic (stk : list Z) (w0 : world) (es : list mt_event) (Hw : mbx_ok w0) :
  match mt_exec stk es (mt_start w0) with
  | Ok s => lock_owner (th_lock s) = None →
      ∃ w, ops_run stk (th_log s) w0 = Ok w ∧ agree (th_world s) w ∧ chip_ok (th_world s)
  | Err e => ∃ es1 es2 s, es = es1 ++ es2 ∧ mt_exec stk es1 (mt_start w0) = Ok s ∧
      ops_run stk (th_log s) w0 = Err e
  end.
Proof.
  assert (Hb : base_ok w0).
  { destruct Hw as [[[[] ? ? ? ? ?] _] []]. by split. }
  pose proof (mt_exec_inv stk es _ w0 (mt_start_inv stk w0 Hb)) as H.
  destruct (mt_exec stk es (mt_start w0)) as [s|e]; [|done]. destruct H as [_ Hbs Hl Hs]. intros Ho.
  unfold sections in Hs. rewrite Ho in Hs. destruct (lock_depth _); [|done]. destruct Hs as [Ha _].
  destruct (ops_run stk (th_log s) w0) as [w|] eqn:E; [|done]. exists w. split; [done|]. split; [done|].
  apply (chip_ok_agree _ w); [done..|]. eapply ops_run_ok; [done|apply Hw|done].
Qed.

(** ** Example *)

(** The 68k enables interrupts while frames arrive; the threads take turns. *)
Definition ex_turns : list mt_event :=
  EvSlot MBX_REQ_OFF (reg_req true 0 CSR0_INEA)
  :: flat_map (λ _, [EvRun Rx true (replicate 64 0, 64); EvRun Main true ([], 0)]) (seq 0 30).

Lemma mbx_sections_atomic_witness : ∃ s w,
  mt_exec ex_mbx_stk ex_turns (mt_start ex_mbx_started) = Ok s ∧
  th_log s = [OpFrame (replicate 64 0) 64; OpFrame (replicate 64 0) 64; OpWrite 0 CSR0_INEA] ∧
  ops_run ex_mbx_stk (th_log s) ex_mbx_started = Ok w ∧ agree (th_world s) w ∧ chip_ok (th_world s).
Proof.
  pose proof (mbx_sections_atomic ex_mbx_stk ex_mbx_started ex_turns ex_mbx_started_ok) as H.
  assert (E : match mt_exec ex_mbx_stk ex_turns (mt_start ex_mbx_started) with
    | Ok s => lock_owner (th_lock s) = None ∧
        th_log s = [OpFrame (replicate 64 0) 64; OpFrame (replicate 64 0) 64; OpWrite 0 CSR0_INEA]
    | Err _ => False end) by (vm_compute; split; reflexivity).
  destruct (mt_exec _ _ _) as [s|e]; [|done]. destruct E as [Eo El]. destruct (H Eo) as (w & H1 & H2 & H3).
  by exists s, w.
Defined.
