(* ===== verification/MbxRaces.v ===== *)
(** * Requests between the threads of the mailbox daemon

    The request slot is read, answered and cleared outside of the lock, and both threads
    serve requests: the main loop, and the receive thread while a transfer of it waits.
    What can come of that, as schedules from every state in which the receive thread waits
    for a transfer and the main loop is about to serve a request; and what can come of the
    interrupt line being written outside of the lock. *)

From S2P Require Import Prelude Types Window Crc32 Mac State Registers Rings Slots Remote MainDdr3 RemoteChip Threads MbxThreads.

(** The receive thread holds the lock and waits for a transfer of its section; the main
    loop is at the start of a pass. *)
Definition rx_waiting (d : nat) (k : code op label) (refresh : Z) (log : list op) (w : world) : threads op label :=
  Threads w (Mutex true (Some Rx) (S d)) (CRet (LServe refresh)) (CWait k) log.

(** What is left of the main loop's service of a data port write: its locked section. *)
Definition c_section (stk : list Z) (data refresh : Z) : code op label :=
  _ ← ('(do_init_delay, int_cleared) ← c_write_section stk 0 data;
       _ ← (if do_init_delay : bool then c_assert_mbx_int else skip);
       c_release_hold int_cleared);
  CRet (LDrain refresh).

(** ** Steps *)

Definition run_main : mt_event := EvRun Main true ([], 0).
Definition run_rx (ready : bool) : mt_event := EvRun Rx ready ([], 0).

Lemma mt_exec_app stk es es' s s' : mt_exec stk es s = Ok s' → mt_exec stk (es ++ es') s = mt_exec stk es' s'.
Proof.
  revert s. induction es as [|e es IH]; intros s; cbn [mt_exec app]; [by intros [= ->]|].
  intros H. bind_inv H. rewrite Hx. by apply IH.
Qed.

Lemma mt_cons stk e es s s1 r : mt_step stk e s = Ok s1 → mt_exec stk es s1 = r → mt_exec stk (e :: es) s = r.
Proof. intros E. cbn [mt_exec]. by rewrite E. Qed.

Section steps.
Context (stk : list Z) (w : world) (l : mutex) (log : list op).

Lemma main_reload lbl rx : mt_step stk run_main (Threads w l (CRet lbl) rx log)
  = Ok (Threads w l (c_main stk lbl) rx log).
Proof. done. Qed.

Lemma main_access f k rx : mt_step stk run_main (Threads w l (CStep f k) rx log) = Ok (Threads (f w) l (k w) rx log).
Proof. cbn. by rewrite app_nil_r. Qed.

Lemma rx_access f k m b : mt_step stk (run_rx b) (Threads w l m (CStep f k) log) = Ok (Threads (f w) l m (k w) log).
Proof. cbn. by rewrite app_nil_r. Qed.

Lemma rx_poll k m : mt_step stk (run_rx false) (Threads w l m (CWait k) log)
  = Ok (Threads w l m (_ ← c_service_bridge_safe; CWait k) log).
Proof.
  unfold run_rx. cbn [mt_step]. unfold thread_step.
  cbn [th_code th_rx code_step mbind res_bind set_code th_world th_lock th_main th_log]. by rewrite app_nil_r.
Qed.

Lemma rx_relock d k m b : l = Mutex true (Some Rx) (S d) →
  mt_step stk (run_rx b) (Threads w l m (CLock no_op k) log)
  = Ok (Threads w (Mutex true (Some Rx) (S (S d))) m k log).
Proof.
  intros ->. cbn. unfold registers_lock. cbn [reg_lock_init_done lock_owner]. rewrite decide_True by done.
  cbn. unfold no_op. by rewrite app_nil_r.
Qed.

Lemma rx_unlock d k m b : l = Mutex true (Some Rx) (S (S d)) →
  mt_step stk (run_rx b) (Threads w l m (CUnlock k) log)
  = Ok (Threads w (Mutex true (Some Rx) (S d)) m k log).
Proof.
  intros ->. cbn. unfold registers_unlock. cbn [reg_lock_init_done lock_owner lock_depth].
  rewrite bool_decide_eq_true_2 by done. cbn. by rewrite app_nil_r.
Qed.
End steps.

(** A write that needs no look at CSR0 before the answer. *)
Definition plain_data (data : Z) : Prop :=
  fits 16 data ∧ flag data (Z.lor (Z.lor CSR0_INIT CSR0_TDMD) CSR0_STRT) = false.

(** What the main loop does after it has read a write request: answer, clear, lock. *)
Definition c_serving (stk : list Z) (data refresh : Z) : code op label :=
  _ ← (_ ← c_reply 0;
       '(do_init_delay, int_cleared) ← c_write_section stk 0 data;
       _ ← (if do_init_delay : bool then c_assert_mbx_int else skip);
       c_release_hold int_cleared);
  CRet (LDrain refresh).

Lemma serve_plain stk data : plain_data data →
  c_serve stk (reg_req true 0 data)
  = (_ ← c_reply 0;
     '(do_init_delay, int_cleared) ← c_write_section stk 0 data;
     _ ← (if do_init_delay : bool then c_assert_mbx_int else skip);
     c_release_hold int_cleared).
Proof.
  intros [Hd Hp]. destruct (reg_req_decode true 0 data ltac:(by split) Hd) as (D1 & D2 & D3 & D4 & _).
  unfold c_serve. rewrite D1, D2, D3, D4. unfold c_before_reply. by rewrite Hp.
Qed.

(** The main loop reads the request. *)
Lemma main_reads stk d k refresh log w data : plain_data data → slot w MBX_REQ_OFF = reg_req true 0 data →
  mt_exec stk [run_main; run_main] (rx_waiting d k refresh log w)
  = Ok (Threads w (Mutex true (Some Rx) (S d)) (c_serving stk data refresh) (CWait k) log).
Proof.
  intros Hd Hr. eapply mt_cons; [apply main_reload|]. eapply mt_cons; [apply main_access|]. cbn [mt_exec].
  assert (E : c_serving stk data refresh = (_ ← c_serve stk (slot w MBX_REQ_OFF); CRet (LDrain refresh)))
    by (unfold c_serving; by rewrite Hr, serve_plain).
  by rewrite E.
Qed.

(** The main loop answers and clears the request, and is left with its section. *)
Lemma main_answers stk l refresh rx log w data :
  mt_exec stk [run_main; run_main; run_main] (Threads w l (c_serving stk data refresh) rx log)
  = Ok (Threads (mbx_reply 0 w) l (c_section stk data refresh) rx log).
Proof. do 3 (eapply mt_cons; [apply main_access|]). reflexivity. Qed.

Lemma slot_upd_reg f w off : slot (upd_reg f w) off = slot w off.
Proof. done. Qed.

Lemma slot_upd_ddr3 f w off : slot (upd_ddr3 f w) off = slot w off.
Proof. done. Qed.

(** The receive thread polls and serves a write to the address port. *)
Lemma rx_serves_rap stk d m k log w r : fits 7 r → slot w MBX_REQ_OFF = reg_req true A2065_RAP_OFF r →
  mt_exec stk (run_rx false :: replicate 7 (run_rx true)) (Threads w (Mutex true (Some Rx) (S d)) m (CWait k) log)
  = Ok (Threads (upd_reg (set_rap r) (mbx_reply 0 w)) (Mutex true (Some Rx) (S d)) m (CWait k) log).
Proof.
  intros Hr Hs. destruct (reg_req_decode true A2065_RAP_OFF r ltac:(by split)) as (D1 & D2 & D3 & D4 & _);
    [unfold fits in *; lia|].
  eapply mt_cons; [apply rx_poll|]. eapply mt_cons; [apply rx_access|].
  assert (E : c_serve_safe (slot w MBX_REQ_OFF)
    = (_ ← c_reply 0; locked no_op (put (upd_reg (set_rap (Z.land r 0x7f)))))).
  { rewrite Hs. unfold c_serve_safe. by rewrite D1, D2, D3, D4. }
  match goal with |- mt_exec _ _ (Threads _ _ _ ?c _) = _ =>
    change c with (_ ← c_serve_safe (slot w MBX_REQ_OFF); CWait k) end.
  rewrite E. do 3 (eapply mt_cons; [apply rx_access|]).
  eapply mt_cons; [by apply rx_relock|]. eapply mt_cons; [apply rx_access|]. eapply mt_cons; [by apply rx_unlock|].
  cbn [mt_exec]. replace (Z.land r 0x7f) with r; [done|].
  change 0x7f with (Z.ones 7). rewrite Z.land_ones by lia. symmetry. by apply Z.mod_small.
Qed.

(** ** A write in the wrong register *)

(** C22: A register write can land in another register.  The main loop answers a write to
    the data port before it takes the lock.  While the receive thread holds the lock and
    waits for a transfer, the 68k, told that its write is done, selects another register,
    and the receive thread serves that at once: when the main loop gets the lock, the value
    goes to the register selected afterwards. *)
Theorem mbx_write_misdirected (stk : list Z) (w : world) (d : nat) (k : code op label) (refresh : Z)
    (log : list op) (data r : Z) (Hd : plain_data data) (Hr : fits 7 r)
    (Hreq : slot w MBX_REQ_OFF = reg_req true 0 data) :
  ∃ es w', mt_exec stk es (rx_waiting d k refresh log w)
      = Ok (Threads w' (Mutex true (Some Rx) (S d)) (c_section stk data refresh) (CWait k) log) ∧
    op_wput 0 data w' = [OpWrite r data] ∧ slot w' MBX_RSP_OFF = 1 ∧ slot w' MBX_REQ_OFF = 0.
Proof.
  set (w1 := mbx_reply 0 w). set (w2 := set_slot MBX_REQ_OFF (reg_req true A2065_RAP_OFF r) w1).
  exists ([run_main; run_main] ++ [run_main; run_main; run_main]
    ++ [EvSlot MBX_REQ_OFF (reg_req true A2065_RAP_OFF r)] ++ (run_rx false :: replicate 7 (run_rx true))),
    (upd_reg (set_rap r) (mbx_reply 0 w2)).
  split; [|split; [done|]].
  - erewrite mt_exec_app by (by apply main_reads). erewrite mt_exec_app by apply main_answers.
    rewrite (mt_exec_app _ _ _ _ (Threads w2 (Mutex true (Some Rx) (S d)) (c_section stk data refresh) (CWait k) log)) by done.
    apply rx_serves_rap; [done|]. unfold w2. rewrite slot_set_eq. apply u64_small, reg_req_decode; [by split|].
    unfold fits in *. lia.
  - rewrite !slot_upd_reg. unfold mbx_reply.
    rewrite slot_set_ne by (unfold MBX_REQ_OFF, MBX_RSP_OFF; lia). by rewrite !slot_set_eq.
Qed.

(** ** A request that is lost, and one that is done twice *)

(** The receive thread polls and postpones a write to the data port. *)
Lemma rx_postpones stk d m k log w data : fits 16 data → slot w MBX_REQ_OFF = reg_req true 0 data →
  queue_ok (w_ddr3 w) → (length (queued (w_ddr3 w)) < 7)%nat →
  mt_exec stk (run_rx false :: replicate 9 (run_rx true)) (Threads w (Mutex true (Some Rx) (S d)) m (CWait k) log)
  = Ok (Threads (upd_ddr3 (enqueue data) (mbx_reply 0 w)) (Mutex true (Some Rx) (S d)) m (CWait k) log).
Proof.
  intros Hd Hs Hq Hlen. destruct (reg_req_decode true 0 data ltac:(by split) Hd) as (D1 & D2 & D3 & D4 & _).
  assert (Hn : ((deferred_csr0_head (w_ddr3 w) + 1) mod 8 =? deferred_csr0_tail (w_ddr3 w)) = false).
  { apply Z.eqb_neq. intros E. apply (queue_diff _ Hq) in E. rewrite length_queued, E in Hlen. lia. }
  eapply mt_cons; [apply rx_poll|]. eapply mt_cons; [apply rx_access|].
  assert (E : c_serve_safe (slot w MBX_REQ_OFF) = (_ ← c_reply 0; c_enqueue data)).
  { rewrite Hs. unfold c_serve_safe. by rewrite D1, D2, D3, D4. }
  match goal with |- mt_exec _ _ (Threads _ _ _ ?c _) = _ =>
    change c with (_ ← c_serve_safe (slot w MBX_REQ_OFF); CWait k) end.
  rewrite E. do 5 (eapply mt_cons; [apply rx_access|]).
  match goal with |- mt_exec _ _ (Threads _ _ _ ?c _) = _ =>
    change c with (_ ← (if (deferred_csr0_head (w_ddr3 w) + 1) mod 8 =? deferred_csr0_tail (w_ddr3 w) then skip
      else c_store data ((deferred_csr0_head (w_ddr3 w) + 1) mod 8)); CWait k) end.
  rewrite Hn.
  do 3 (eapply mt_cons; [apply rx_access|]). cbn [mt_exec].
  unfold enqueue, upd_ddr3. cbv zeta. change (w_ddr3 (mbx_reply 0 w)) with (w_ddr3 w). by rewrite Hn.
Qed.

(** C23: A request can be lost and another done twice.  Both threads see the same write to
    the data port: the receive thread, waiting for a transfer, answers it, clears the slot
    and postpones the write; the 68k posts its next request, and the main loop answers and
    clears that one in place of the first.  The write is then both in the queue and about
    to be done by the main loop, while of the second request, which the 68k is told is done,
    nothing is left. *)
Theorem mbx_request_lost (stk : list Z) (w : world) (d : nat) (k : code op label) (refresh : Z)
    (log : list op) (data req2 : Z) (Hd : plain_data data) (Hq : queue_ok (w_ddr3 w))
    (Hlen : (length (queued (w_ddr3 w)) < 7)%nat) (Hreq : slot w MBX_REQ_OFF = reg_req true 0 data) :
  ∃ es1 es2 w', mt_exec stk (es1 ++ [EvSlot MBX_REQ_OFF req2] ++ es2) (rx_waiting d k refresh log w)
      = Ok (Threads w' (Mutex true (Some Rx) (S d)) (c_section stk data refresh) (CWait k) log) ∧
    slot w' MBX_RSP_OFF = 1 ∧ slot w' MBX_REQ_OFF = 0 ∧
    queued (w_ddr3 w') = queued (w_ddr3 w) ++ [data] ∧ w_reg w' = w_reg w.
Proof.
  set (w1 := upd_ddr3 (enqueue data) (mbx_reply 0 w)).
  exists ([run_main; run_main] ++ (run_rx false :: replicate 9 (run_rx true))), [run_main; run_main; run_main],
    (mbx_reply 0 (set_slot MBX_REQ_OFF req2 w1)). split; [|split_and!].
  - rewrite <-app_assoc. erewrite mt_exec_app by (by apply main_reads).
    erewrite mt_exec_app by (apply rx_postpones; [apply Hd|done..]).
    rewrite (mt_exec_app _ _ _ _ (Threads (set_slot MBX_REQ_OFF req2 w1) (Mutex true (Some Rx) (S d))
      (c_serving stk data refresh) (CWait k) log)) by done.
    apply main_answers.
  - unfold mbx_reply. rewrite slot_set_ne by (unfold MBX_REQ_OFF, MBX_RSP_OFF; lia). by rewrite slot_set_eq.
  - unfold mbx_reply. by rewrite slot_set_eq.
  - change (queued (w_ddr3 (mbx_reply 0 (set_slot MBX_REQ_OFF req2 w1)))) with (queued (enqueue data (w_ddr3 w))).
    rewrite queued_enqueue by done. by rewrite (proj2 (Nat.ltb_lt _ _) Hlen).
  - done.
Qed.

(** ** An interrupt line that stays high *)

(** The rest of a pass of the main loop that has found CSR0 without an interrupt and is
    about to write the line. *)
Definition c_lowering (refresh : Z) : code op label :=
  _ ← wr64c MBX_INT_OFF 0;
  _ ← put (upd_ddr3 (set_last_mbx_int 0));
  refresh ← c_refresh_int refresh;
  CRet (LServe refresh).

Lemma main_decides stk l refresh rx log w : l = lock_held Main 0 →
  int_level (csr0 w) = 0 → last_mbx_int (w_ddr3 w) ≠ 0 →
  mt_exec stk (replicate 4 run_main)
    (Threads w l (_ ← c_write_mbx_int; refresh ← c_refresh_int refresh; CRet (LServe refresh)) rx log)
  = Ok (Threads w l (c_lowering refresh) rx log).
Proof.
  intros -> Hc Hl.
  assert (E : mt_exec stk (replicate 4 run_main)
      (Threads w (lock_held Main 0) (_ ← c_write_mbx_int; refresh ← c_refresh_int refresh; CRet (LServe refresh)) rx log)
    = Ok (Threads w (lock_held Main 0) (_ ← (if int_level (csr0 w) =? last_mbx_int (w_ddr3 w) then skip
        else _ ← wr64c MBX_INT_OFF (int_level (csr0 w)); put (upd_ddr3 (set_last_mbx_int (int_level (csr0 w)))));
        refresh ← c_refresh_int refresh; CRet (LServe refresh)) rx ((((log ++ []) ++ []) ++ []) ++ [])))
    by reflexivity.
  rewrite E, !app_nil_r, Hc. by destruct (Z.eqb_spec 0 (last_mbx_int (w_ddr3 w))).
Qed.

(** C34: The interrupt line can stay high for good.  [write_mbx_int], which has found CSR0
    without an interrupt and the line noted as something else, goes on to write the line in
    two steps, the slot and then its note of it, outside of the lock.  When the receive thread
    asserts an interrupt between the two, the slot is high and the note low; and once the
    68k has acknowledged the interrupt and there is nothing else to do, no number of passes
    lowers the line, although CSR0 asks for no interrupt. *)
Theorem mbx_line_stuck (stk : list Z) (w : world) (l : mutex) (k : code op label) (refresh : Z) (log : list op) :
  (∀ w0 rx, int_level (csr0 w0) = 0 → last_mbx_int (w_ddr3 w0) ≠ 0 →
     mt_exec stk (replicate 4 run_main) (Threads w0 (lock_held Main 0)
       (_ ← c_write_mbx_int; refresh ← c_refresh_int refresh; CRet (LServe refresh)) rx log)
     = Ok (Threads w0 (lock_held Main 0) (c_lowering refresh) rx log)) ∧
  ∃ es w', mt_exec stk es (Threads w l (c_lowering refresh) (_ ← c_assert_mbx_int; k) log)
      = Ok (Threads w' l (CRet (LServe 0)) k log) ∧
    slot w' MBX_INT_OFF = 1 ∧ last_mbx_int (w_ddr3 w') = 0 ∧ w_reg w' = w_reg w ∧
    ∀ n r u, slot u MBX_INT_OFF = slot w' MBX_INT_OFF → last_mbx_int (w_ddr3 u) = last_mbx_int (w_ddr3 w') →
      flag (slot u MBX_REQ_OFF) 1 = false → deferred_csr0_tail (w_ddr3 u) = deferred_csr0_head (w_ddr3 u) →
      tdmd_retry (w_ddr3 u) ≤ 0 → int_level (csr0 u) = 0 →
      ∃ r' u', mbx_passes n stk (r, u) = Ok (r', u') ∧ slot u' MBX_INT_OFF = 1.
Proof.
  split; [intros w0 rx; by apply main_decides|].
  exists ([run_main] ++ replicate 5 (run_rx true) ++ [run_main; run_main]).
  exists (upd_ddr3 (set_last_mbx_int 0) (assert_mbx_int (set_slot MBX_INT_OFF 0 w))).
  assert (S : slot (assert_mbx_int (set_slot MBX_INT_OFF 0 w)) MBX_INT_OFF = 1) by apply slot_set_eq.
  split_and!; [|exact S|done|done|].
  - eapply mt_cons; [apply main_access|]. do 5 (eapply mt_cons; [apply rx_access|]).
    do 2 (eapply mt_cons; [apply main_access|]). reflexivity.
  - intros n r u E1 E2 H1 H2 H3 H4.
    destruct (mbx_line_sticks stk n r u) as (r' & u' & H & E); [done..|by rewrite E2|done|].
    exists r', u'. split; [done|]. by rewrite E, E1.
Qed.

(** ** Example *)

(** The daemon listens with one receive descriptor, a broadcast frame arrives, and the 68k
    acknowledges a receive interrupt. *)
Definition ex_listening : world :=
  upd_reg (λ r, set_csr_at 0 (Z.lor CSR0_STRT CSR0_RXON) (set_am_rdr_rlen 1 r)) ex_mbx_started.
Definition ex_ack : Z := Z.lor CSR0_RINT CSR0_INEA.
Definition ex_broadcast : list Z := replicate 6 255 ++ replicate 58 0.

(** The receive thread gets to its first transfer. *)
Definition ex_to_wait : list mt_event :=
  EvSlot MBX_REQ_OFF (reg_req true 0 ex_ack) :: replicate 5 (EvRun Rx true (ex_broadcast, 64)).

Definition at_wait (s : threads op label) : Prop :=
  th_lock s = Mutex true (Some Rx) 1 ∧ th_main s = CRet (LServe 0) ∧
  match th_rx s with CWait _ => True | _ => False end ∧ th_log s = [OpFrame ex_broadcast 64] ∧
  slot (th_world s) MBX_REQ_OFF = reg_req true 0 ex_ack ∧
  deferred (w_ddr3 (th_world s)) = deferred ddr3_init.

Lemma ex_reaches_wait : ∃ w k,
  mt_exec ex_mbx_stk ex_to_wait (mt_start ex_listening)
    = Ok (rx_waiting 0 k 0 [OpFrame ex_broadcast 64] w) ∧
  slot w MBX_REQ_OFF = reg_req true 0 ex_ack ∧ deferred (w_ddr3 w) = deferred ddr3_init.
Proof.
  assert (E : match mt_exec ex_mbx_stk ex_to_wait (mt_start ex_listening) with Ok s => at_wait s | Err _ => False end)
    by (vm_compute; repeat split).
  destruct (mt_exec _ _ _) as [[w l m x log]|]; [|done]. destruct E as (E1 & E2 & E3 & E4 & E5 & E6).
  cbn in *. subst. destruct x as [| | | | |k]; try done. by exists w, k.
Qed.

Lemma ex_ack_plain : plain_data ex_ack.
Proof. split; [by split|reflexivity]. Qed.

(** The acknowledgement goes to CSR76, the length of the receive ring. *)
Lemma mbx_write_misdirected_witness : ∃ k es w',
  mt_exec ex_mbx_stk (ex_to_wait ++ es) (mt_start ex_listening)
    = Ok (Threads w' (Mutex true (Some Rx) 1) (c_section ex_mbx_stk ex_ack 0) (CWait k) [OpFrame ex_broadcast 64]) ∧
  op_wput 0 ex_ack w' = [OpWrite 76 ex_ack].
Proof.
  destruct ex_reaches_wait as (w & k & E & Hreq & _).
  destruct (mbx_write_misdirected ex_mbx_stk w 0 k 0 [OpFrame ex_broadcast 64] ex_ack 76 ex_ack_plain
    ltac:(by split) Hreq) as (es & w' & H1 & H2 & _).
  exists k, es, w'. split; [|exact H2]. rewrite (mt_exec_app _ _ _ _ _ E). exact H1.
Defined.

(** The next request reads CSR0; it is never served. *)
Lemma mbx_request_lost_witness : ∃ k es1 es2 w',
  mt_exec ex_mbx_stk (ex_to_wait ++ es1 ++ [EvSlot MBX_REQ_OFF (reg_req false 0 0)] ++ es2) (mt_start ex_listening)
    = Ok (Threads w' (Mutex true (Some Rx) 1) (c_section ex_mbx_stk ex_ack 0) (CWait k) [OpFrame ex_broadcast 64]) ∧
  queued (w_ddr3 w') = [ex_ack] ∧ slot w' MBX_REQ_OFF = 0.
Proof.
  destruct ex_reaches_wait as (w & k & E & Hreq & Hd).
  assert (Hq : queue_ok ddr3_init) by (split; [done|done|done|by repeat constructor]).
  destruct (mbx_request_lost ex_mbx_stk w 0 k 0 [OpFrame ex_broadcast 64] ex_ack (reg_req false 0 0) ex_ack_plain
    (queue_ok_deferred _ _ Hd Hq)) as (es1 & es2 & w' & H1 & H2 & H3 & H4 & _);
    [rewrite (queued_deferred _ _ Hd); apply Nat.lt_0_succ|exact Hreq|].
  exists k, es1, es2, w'. rewrite (mt_exec_app _ _ _ _ _ E). split; [exact H1|].
  split; [|exact H3]. by rewrite H4, (queued_deferred _ _ Hd).
Defined.

(** The daemon starts; the broadcast frame finds no buffer, and the receive thread is about
    to report that, while the first pass of the main loop writes the line. *)
Definition ex_missing : world := upd_reg (set_csr_at 0 (Z.lor (Z.lor CSR0_STRT CSR0_RXON) CSR0_INEA)) ex_listening.
Definition ex_to_assert : list mt_event :=
  replicate 12 run_main ++ replicate 23 (EvRun Rx true (ex_broadcast, 64)).

Lemma ex_reaches_assert : ∃ w l k log, mt_exec ex_mbx_stk ex_to_assert (mt_start ex_missing)
  = Ok (Threads w l (c_lowering 0) (_ ← c_assert_mbx_int; k) log).
Proof. do 4 eexists. vm_compute. reflexivity. Qed.

(** The whole of it: the race, the acknowledgement of the 68k, and two passes. *)
Definition ex_stuck : list mt_event :=
  replicate 13 run_main ++ replicate 29 (EvRun Rx true (ex_broadcast, 64)) ++ replicate 2 run_main
  ++ [EvSlot MBX_REQ_OFF (reg_req true 0 (Z.lor CSR0_MISS CSR0_INEA))] ++ replicate 39 run_main.

Definition stuck (s : threads op label) : Prop :=
  let u := th_world s in
  slot u MBX_INT_OFF = 1 ∧ last_mbx_int (w_ddr3 u) = 0 ∧ flag (slot u MBX_REQ_OFF) 1 = false ∧
  deferred_csr0_tail (w_ddr3 u) = deferred_csr0_head (w_ddr3 u) ∧ tdmd_retry (w_ddr3 u) = 0 ∧ csr0 u = 0x62 ∧
  th_main s = CRet (LServe 0) ∧ th_rx s = CRet LRecv.

Lemma ex_gets_stuck : ∃ s, mt_exec ex_mbx_stk ex_stuck (mt_start ex_missing) = Ok s ∧ stuck s.
Proof.
  assert (C : match mt_exec ex_mbx_stk ex_stuck (mt_start ex_missing) with Ok s => stuck s | Err _ => False end)
    by (vm_compute; repeat split).
  destruct (mt_exec _ _ _) as [s|]; [by exists s|done].
Qed.

Lemma mbx_line_stuck_witness : ∃ es w' l k log s,
  mt_exec ex_mbx_stk (ex_to_assert ++ es) (mt_start ex_missing) = Ok (Threads w' l (CRet (LServe 0)) k log) ∧
  slot w' MBX_INT_OFF = 1 ∧ last_mbx_int (w_ddr3 w') = 0 ∧
  mt_exec ex_mbx_stk ex_stuck (mt_start ex_missing) = Ok s ∧ stuck s ∧
  ∀ n, ∃ r' u', mbx_passes n ex_mbx_stk (0, th_world s) = Ok (r', u') ∧ slot u' MBX_INT_OFF = 1.
Proof.
  destruct ex_reaches_assert as (w & l & k & log & E).
  destruct (mbx_line_stuck ex_mbx_stk w l k 0 log) as (_ & es & w' & H1 & H2 & H3 & _ & H).
  destruct ex_gets_stuck as (s & Es & C).
  exists es, w', l, k, log, s. rewrite (mt_exec_app _ _ _ _ _ E).
  split_and!; [exact H1|exact H2|exact H3|exact Es|exact C|].
  destruct C as (C1 & C2 & C3 & C4 & C5 & C6 & _). intros n.
  apply H; [by rewrite H2|by rewrite H3|exact C3|exact C4|by rewrite C5|by rewrite C6].
Defined.
