(* ===== verification/DeferredQueue.v ===== *)
(** * The queue of postponed writes between the threads (arm/src/main_ddr3.cpp)

    [service_bridge_safe] stores into [deferred_csr0_queue] under the lock, in whichever
    thread waits for a transfer; the main loop takes entries out without the lock.  Here
    one thread runs [c_enqueue], the other [c_take] (MbxThreads.v), access by access and
    under every schedule, and the ring is a bounded queue.  Accesses to the volatile
    variables take effect in program order. *)

From S2P Require Import Prelude Types Window Crc32 Mac State Registers Rings Slots Remote MainDdr3 RemoteChip Threads MbxThreads.

(** ** Where the two threads are *)

Inductive put_pc :=
| PutIdle
| PutHead (data : Z)                 (* before the first read of [deferred_csr0_head] *)
| PutTail (data head : Z)            (* before the read of [deferred_csr0_tail] *)
| PutIndex (data next : Z)           (* not full: before the second read of the head *)
| PutSlot (data next head : Z)       (* before the store of the entry *)
| PutPub (data next : Z).            (* before the store of the head *)

Inductive take_pc :=
| TakeIdle
| TakeTail                           (* before the first read of [deferred_csr0_tail] *)
| TakeHead (tail : Z)                (* before the read of [deferred_csr0_head] *)
| TakeSlot                           (* not empty: before the read of the entry *)
| TakeIndex (saved : Z)              (* before the third read of the tail *)
| TakeAdv (saved tail : Z).          (* before the store of the tail *)

(** The code that is left. *)
Definition put_code (pc : put_pc) : code op () :=
  match pc with
  | PutIdle => skip
  | PutHead data => c_enqueue data
  | PutTail data head =>
      tail ← get (λ w, deferred_csr0_tail (w_ddr3 w));
      if (head + 1) mod 8 =? tail then skip else c_store data ((head + 1) mod 8)
  | PutIndex data next => c_store data next
  | PutSlot data next head =>
      _ ← put (upd_ddr3 (λ d, set_deferred_csr0_queue (<[Z.to_nat head := data]> (deferred_csr0_queue d)) d));
      put (upd_ddr3 (set_deferred_csr0_head next))
  | PutPub _ next => put (upd_ddr3 (set_deferred_csr0_head next))
  end.

Definition take_code (pc : take_pc) : code op (option Z) :=
  match pc with
  | TakeIdle => CRet None
  | TakeTail => c_take
  | TakeHead tail =>
      head ← get (λ w, deferred_csr0_head (w_ddr3 w));
      if tail =? head then CRet None
      else
        saved ← get (λ w, nth (Z.to_nat (deferred_csr0_tail (w_ddr3 w))) (deferred_csr0_queue (w_ddr3 w)) 0);
        tail ← get (λ w, deferred_csr0_tail (w_ddr3 w));
        _ ← put (upd_ddr3 (set_deferred_csr0_tail ((tail + 1) mod 8)));
        CRet (Some saved)
  | TakeSlot =>
      saved ← get (λ w, nth (Z.to_nat (deferred_csr0_tail (w_ddr3 w))) (deferred_csr0_queue (w_ddr3 w)) 0);
      tail ← get (λ w, deferred_csr0_tail (w_ddr3 w));
      _ ← put (upd_ddr3 (set_deferred_csr0_tail ((tail + 1) mod 8)));
      CRet (Some saved)
  | TakeIndex saved =>
      tail ← get (λ w, deferred_csr0_tail (w_ddr3 w));
      _ ← put (upd_ddr3 (set_deferred_csr0_tail ((tail + 1) mod 8)));
      CRet (Some saved)
  | TakeAdv saved tail =>
      _ ← put (upd_ddr3 (set_deferred_csr0_tail ((tail + 1) mod 8)));
      CRet (Some saved)
  end.

(** ** The system *)

(** [qs_in]: writes that were accepted; [qs_lost]: acknowledged but found the queue full;
    [qs_out]: taken out. *)
Record qsys := Qsys {
  qs_d : ddr3;
  qs_put : put_pc;
  qs_take : take_pc;
  qs_in : list Z;
  qs_lost : list Z;
  qs_out : list Z }.

(** A step of the thread that stores: it starts with the data of a request when idle. *)
Definition q_put (req : Z) (s : qsys) : qsys :=
  let '(Qsys d p t i l o) := s in
  match p with
  | PutIdle => Qsys d (PutHead (req_data req)) t i l o
  | PutHead data => Qsys d (PutTail data (deferred_csr0_head d)) t i l o
  | PutTail data head =>
      if (head + 1) mod 8 =? deferred_csr0_tail d then Qsys d PutIdle t i (l ++ [data]) o
      else Qsys d (PutIndex data ((head + 1) mod 8)) t i l o
  | PutIndex data next => Qsys d (PutSlot data next (deferred_csr0_head d)) t i l o
  | PutSlot data next head =>
      Qsys (set_deferred_csr0_queue (<[Z.to_nat head := data]> (deferred_csr0_queue d)) d) (PutPub data next) t i l o
  | PutPub data next => Qsys (set_deferred_csr0_head next d) PutIdle t (i ++ [data]) l o
  end.

(** A step of the main loop. *)
Definition q_take (s : qsys) : qsys :=
  let '(Qsys d p t i l o) := s in
  match t with
  | TakeIdle => Qsys d p TakeTail i l o
  | TakeTail => Qsys d p (TakeHead (deferred_csr0_tail d)) i l o
  | TakeHead tail =>
      if tail =? deferred_csr0_head d then Qsys d p TakeIdle i l o else Qsys d p TakeSlot i l o
  | TakeSlot => Qsys d p (TakeIndex (nth (Z.to_nat (deferred_csr0_tail d)) (deferred_csr0_queue d) 0)) i l o
  | TakeIndex saved => Qsys d p (TakeAdv saved (deferred_csr0_tail d)) i l o
  | TakeAdv saved tail => Qsys (set_deferred_csr0_tail ((tail + 1) mod 8) d) p TakeIdle i l (o ++ [saved])
  end.

Inductive q_event := QPut (req : Z) | QTake.

Definition q_step (e : q_event) (s : qsys) : qsys :=
  match e with QPut req => q_put req s | QTake => q_take s end.

Definition q_exec (es : list q_event) (s : qsys) : qsys := foldl (λ s e, q_step e s) s es.

Definition q_start : qsys := Qsys ddr3_init PutIdle TakeIdle [] [] [].

(** ** Lemmas: these are the steps of the code *)

(** A step of [c] that leaves [d'] in the daemon's variables. *)
Definition steps_to {A} (c : code op A) (w : world) (c' : code op A) (d' : ddr3) : Prop :=
  ∀ service t ready l,
    code_step service t ready c w l = Ok (c', upd_ddr3 (λ _, d') w, l, []).

Lemma steps_get {A B} (f : ddr3 → B) (q : B → code op A) w :
  steps_to (x ← get (λ w, f (w_ddr3 w)); q x) w (q (f (w_ddr3 w))) (w_ddr3 w).
Proof. intros service t ready l. by destruct w. Qed.

Lemma steps_put {A} f (q : () → code op A) w :
  steps_to (x ← put (upd_ddr3 f); q x) w (q tt) (f (w_ddr3 w)).
Proof. done. Qed.

Lemma q_put_code req s w : w_ddr3 w = qs_d s → qs_put s ≠ PutIdle →
  steps_to (put_code (qs_put s)) w (put_code (qs_put (q_put req s))) (qs_d (q_put req s)).
Proof.
  destruct s as [d p t i l o]. cbn [qs_d qs_put]. intros <- Hp. destruct p as [|data|data h|data n|data n h|data n]; try done.
  - apply steps_get.
  - cbn [put_code q_put qs_put qs_d]. pose proof (steps_get deferred_csr0_tail (λ tail : Z,
      if (h + 1) mod 8 =? tail then skip else c_store data ((h + 1) mod 8)) w) as S. cbv beta in S.
    by destruct (_ =? deferred_csr0_tail _).
  - apply steps_get.
Qed.

Lemma q_take_code s w : w_ddr3 w = qs_d s → qs_take s ≠ TakeIdle →
  ∃ c, steps_to (take_code (qs_take s)) w c (qs_d (q_take s)) ∧
    match qs_take (q_take s) with
    | TakeIdle => c = CRet None ∧ qs_out (q_take s) = qs_out s ∨
        ∃ saved, c = CRet (Some saved) ∧ qs_out (q_take s) = qs_out s ++ [saved]
    | pc => c = take_code pc ∧ qs_out (q_take s) = qs_out s
    end.
Proof.
  destruct s as [d p t i l o]. cbn [qs_d qs_take]. intros <- Ht.
  destruct t as [| |tail| |saved|saved tail]; try done; cbn [q_take qs_take qs_d qs_out].
  - eexists. split; [apply steps_get|done].
  - pose proof (steps_get deferred_csr0_head (λ head, if tail =? head then CRet None else take_code TakeSlot) w) as S.
    cbv beta in S. destruct (tail =? _); cbn [qs_take qs_d qs_out]; (eexists; split; [exact S|]); [by left|done].
  - eexists. split; [apply (steps_get (λ d, nth (Z.to_nat (deferred_csr0_tail d)) (deferred_csr0_queue d) 0))|done].
  - eexists. split; [apply (steps_get deferred_csr0_tail)|done].
  - eexists. split; [apply steps_put|]. right. by exists saved.
Qed.

(** ** Lemmas: the invariant *)

(** What a thread knows of the queue at each point, whatever the other does. *)
Definition put_knows (d : ddr3) (p : put_pc) : Prop :=
  match p with
  | PutIdle => True
  | PutHead data => fits 16 data
  | PutTail data h => fits 16 data ∧ h = deferred_csr0_head d
  | PutIndex data next => fits 16 data ∧ next = (deferred_csr0_head d + 1) mod 8 ∧ next ≠ deferred_csr0_tail d
  | PutSlot data next h => fits 16 data ∧ next = (deferred_csr0_head d + 1) mod 8 ∧ next ≠ deferred_csr0_tail d ∧ h = deferred_csr0_head d
  | PutPub data next =>
      next = (deferred_csr0_head d + 1) mod 8 ∧ next ≠ deferred_csr0_tail d ∧ nth (Z.to_nat (deferred_csr0_head d)) (deferred_csr0_queue d) 0 = data
  end.

Definition take_knows (d : ddr3) (t : take_pc) : Prop :=
  match t with
  | TakeIdle | TakeTail => True
  | TakeHead t => t = deferred_csr0_tail d
  | TakeSlot => deferred_csr0_tail d ≠ deferred_csr0_head d
  | TakeIndex saved => deferred_csr0_tail d ≠ deferred_csr0_head d ∧ saved = nth (Z.to_nat (deferred_csr0_tail d)) (deferred_csr0_queue d) 0
  | TakeAdv saved t =>
      deferred_csr0_tail d ≠ deferred_csr0_head d ∧ saved = nth (Z.to_nat (deferred_csr0_tail d)) (deferred_csr0_queue d) 0 ∧ t = deferred_csr0_tail d
  end.

Record q_inv (s : qsys) : Prop := QInv {
  qi_ok : queue_ok (qs_d s);
  qi_put : put_knows (qs_d s) (qs_put s);
  qi_take : take_knows (qs_d s) (qs_take s);
  qi_fifo : qs_in s = qs_out s ++ queued (qs_d s) }.

(** The entry at the head is not one of the queue. *)
Lemma queued_store data d : queue_ok d → (deferred_csr0_head d + 1) mod 8 ≠ deferred_csr0_tail d →
  queued (set_deferred_csr0_queue (<[Z.to_nat (deferred_csr0_head d) := data]> (deferred_csr0_queue d)) d) = queued d.
Proof.
  intros Hd Hn. set (d' := set_deferred_csr0_queue _ d). apply list_eq. intros i.
  assert (Hl : length (queued d') = length (queued d)) by (by rewrite !length_queued).
  destruct (decide (i < length (queued d))%nat) as [Hi|Hi]; [|rewrite !lookup_ge_None_2; [done|lia|lia]].
  rewrite !queued_lookup by lia. unfold d'. cbn [deferred_csr0_tail deferred_csr0_queue set_deferred_csr0_queue].
  rewrite length_queued in Hi. destruct Hd as [Hq Hh Ht _].
  rewrite nth_insert by lia. rewrite decide_False; [done|]. Z.to_euclidean_division_equations. lia.
Qed.

(** Publishing the head makes the stored entry the last one. *)
Lemma queued_publish d : queue_ok d → (deferred_csr0_head d + 1) mod 8 ≠ deferred_csr0_tail d →
  queued (set_deferred_csr0_head ((deferred_csr0_head d + 1) mod 8) d)
  = queued d ++ [nth (Z.to_nat (deferred_csr0_head d)) (deferred_csr0_queue d) 0].
Proof.
  intros Hd Hn. pose proof (queued_enqueue (nth (Z.to_nat (deferred_csr0_head d)) (deferred_csr0_queue d) 0) d Hd) as E.
  assert (Hlt : (length (queued d) <? 7)%nat = true).
  { apply Nat.ltb_lt. rewrite length_queued. pose proof (queue_diff d Hd) as (H1 & _ & _ & H7). cbv zeta in *.
    destruct (decide ((deferred_csr0_head d - deferred_csr0_tail d) mod 8 = 7)) as [e|]; [|lia]. by apply H7 in e. }
  rewrite Hlt in E. rewrite <-E. unfold enqueue. cbv zeta. apply Z.eqb_neq in Hn. rewrite Hn. f_equal.
  destruct Hd as [Hq Hh _ _]. unfold set_deferred_csr0_head, set_deferred_csr0_queue. cbn. f_equal.
  rewrite list_insert_id; [done|].
  destruct (nth_lookup_or_length (deferred_csr0_queue d) (Z.to_nat (deferred_csr0_head d)) 0); [done|lia].
Qed.

Lemma q_put_inv req s : q_inv s → q_inv (q_put req s).
Proof.
  destruct s as [d p t i l o]. intros [Hd Hp Ht Hf]. cbn [qs_d qs_put qs_take qs_in qs_out] in *.
  destruct p as [|data|data h|data n|data n h|data n]; cbn [q_put put_knows] in *.
  - split; cbn; try done. apply req_data_fits.
  - by split; cbn.
  - destruct Hp as [Hx ->]. case_match eqn:E; [by split|]. apply Z.eqb_neq in E. by split; cbn.
  - destruct Hp as (Hx & -> & Hn). by split; cbn.
  - destruct Hp as (Hx & -> & Hn & ->). split; cbn [qs_d qs_put qs_take qs_in qs_out].
    + destruct Hd. split; cbn; try done; [by rewrite length_insert|by apply Forall_insert].
    + cbn. destruct Hd as [Hq Hh _ _]. split_and!; [done|done|]. rewrite nth_insert by lia. by rewrite decide_True.
    + destruct t as [| |tl| |saved|saved tl]; cbn in *; try done; destruct Hd as [Hq Hh Htl _].
      * destruct Ht as [Hne ->]. split; [done|]. rewrite nth_insert by lia. rewrite decide_False; [done|lia].
      * destruct Ht as (Hne & -> & ->). split; [done|]. rewrite nth_insert by lia. rewrite decide_False; [done|lia].
    + by rewrite queued_store.
  - destruct Hp as (-> & Hn & <-). split; cbn [qs_d qs_put qs_take qs_in qs_out].
    + destruct Hd. split; cbn; try done. apply Z.mod_pos_bound. lia.
    + done.
    + assert (Hne : deferred_csr0_tail d ≠ (deferred_csr0_head d + 1) mod 8) by congruence.
      destruct t as [| |tl| |saved|saved tl]; cbn in *; naive_solver.
    + by rewrite queued_publish, Hf, app_assoc by done.
Qed.

Lemma q_take_inv s : q_inv s → q_inv (q_take s).
Proof.
  destruct s as [d p t i l o]. intros [Hd Hp Ht Hf]. cbn [qs_d qs_put qs_take qs_in qs_out] in *.
  destruct t as [| |tl| |saved|saved tl]; cbn [q_take take_knows] in *.
  - by split.
  - by split; cbn.
  - subst tl. case_match eqn:E; [by split|]. apply Z.eqb_neq in E. by split; cbn.
  - by split; cbn.
  - by destruct Ht as [Hne ->]; split; cbn.
  - destruct Ht as (Hne & -> & ->). destruct (queued d) as [|x q] eqn:E.
    { apply (queued_nil _ Hd) in E. done. }
    destruct (queued_pop _ _ _ Hd E) as (-> & Hd' & E'). split; cbn [qs_d qs_put qs_take qs_in qs_out]; [done| |done|].
    + assert (Hk : ∀ next, next = (deferred_csr0_head d + 1) mod 8 → next ≠ deferred_csr0_tail d →
        next ≠ (deferred_csr0_tail d + 1) mod 8).
      { intros next -> Hn. destruct Hd as [_ Hh Htl _]. Z.to_euclidean_division_equations. lia. }
      destruct p as [|data|data h|data n|data n h|data n]; cbn in *; naive_solver.
    + by rewrite Hf, E', <-app_assoc.
Qed.

Lemma q_exec_inv es s : q_inv s → q_inv (q_exec es s).
Proof.
  revert s. induction es as [|e es IH]; intros s Hs; [done|]. apply IH.
  destruct e; [by apply q_put_inv|by apply q_take_inv].
Qed.

Lemma q_start_inv : q_inv q_start.
Proof. split; try done. split; try done. by repeat constructor. Qed.

(** ** Theorem *)

(** C21: The queue of postponed writes is a bounded first-in first-out queue for the two
    threads.  Under every interleaving of the accesses of the storing and of the taking
    code, what has been taken out is what was accepted, in order and without gaps, and what
    is left is in the queue; a write is only lost while seven are waiting, and the taking
    side finds nothing only while the queue is empty. *)
Theorem deferred_queue_threads (es : list q_event) :
  let s := q_exec es q_start in
  qs_in s = qs_out s ++ queued (qs_d s) ∧ queue_ok (qs_d s) ∧ (length (queued (qs_d s)) ≤ 7)%nat ∧
  (∀ req, qs_lost (q_put req s) ≠ qs_lost s → length (queued (qs_d s)) = 7%nat) ∧
  (qs_take s ≠ TakeIdle → qs_take (q_take s) = TakeIdle → qs_out (q_take s) = qs_out s →
    queued (qs_d s) = []).
Proof.
  pose proof (q_exec_inv es q_start q_start_inv) as HI. cbv zeta. generalize (q_exec es q_start), HI. clear HI.
  intros [d p t i l o] [Hd Hp Ht Hf]. cbn [qs_d qs_put qs_take qs_in qs_lost qs_out] in *.
  pose proof (queue_diff d Hd) as (Hn & _ & _ & H7). cbv zeta in *.
  split_and!; [done|done|rewrite length_queued; lia|..].
  - intros req. destruct p as [|data|data h|data n|data n h|data n]; cbn in *; try done.
    destruct Hp as [_ ->]. case_match eqn:E; [|done]. intros _. apply Z.eqb_eq in E. apply H7 in E.
    rewrite length_queued, E. done.
  - intros Hi. destruct t as [| |tl| |saved|saved tl]; cbn in *; try done.
    + subst tl. case_match eqn:E; [|done]. intros _ _. by apply (queued_nil _ Hd), Z.eqb_eq.
    + intros _ E. destruct o; [done|]. apply (f_equal length) in E. rewrite length_app in E. cbn in E. lia.
Qed.
