(* ===== verification/Bridge.v ===== *)
(** * The bridge daemon (arm/src/main.cpp) and its client (arm/src/bridge_client.cpp)

    The first main program: one 64 KB window holds the register bridge, a few bytes at
    its start, and the board RAM in its upper half.  In simulation the window is a shared
    memory object and [bridge_client] plays the 68k and the FPGA. *)

From S2P Require Import Prelude Types Window Crc32 Mac State Registers Rings Slots.

(** ** The window *)

(** [registers_set_boardram(BRIDGE_BOARDRAM(bridge))]: the bridge starts 0x8000 before. *)
Definition bridge_base (w : world) : Z := w_boardram w - BRIDGE_BOARDRAM_OFF.
Definition bridge_read8 (off : Z) (w : world) : Z := rd8 (w_win w) (bridge_base w + off).
Definition bridge_read16 (off : Z) (w : world) : Z := le_read 2 (w_win w) (bridge_base w + off).
Definition bridge_write8 (off v : Z) (w : world) : world :=
  set_w_win (wr8 (w_win w) (bridge_base w + off) v) w.
Definition bridge_write16 (off v : Z) (w : world) : world :=
  set_w_win (le_write 2 (w_win w) (bridge_base w + off) v) w.

(** ** Callbacks *)

Definition bridge_on_interrupt_cb (w : world) : world := bridge_write8 BRIDGE_INT_SET 1 w.

#[export] Instance bridge_int : IntHandler := Some bridge_on_interrupt_cb.

(** The callback returns nothing, and its caller ignores the result. *)
Definition bridge_on_transmit_cb (stk : list Z) (w : world) : res (Z * world) := do_transmit stk w.

Definition bridge_rx_step (stk rxbuf : list Z) (len : Z) (w : world) : res world :=
  if 0 <? len then gotfunc stk rxbuf len w else Ok w.

(** ** The main loop *)

Definition bridge_service (stk : list Z) (w : world) : res world :=
  if bridge_read8 BRIDGE_REG_NEW_REQ w =? 0 then Ok w
  else
    let addr_off := bridge_read8 BRIDGE_REG_ADDR w in
    let rw := bridge_read8 BRIDGE_REG_RW w in
    let data := bridge_read16 BRIDGE_REG_DATA w in
    let htx : TxHandler := Some (bridge_on_transmit_cb stk) in
    '(result, w) ← (if rw =? 0 then Ok (chip_wget addr_off w, w)
                    else w ← chip_wput addr_off data w; Ok (0, w));
    Ok (bridge_write8 BRIDGE_REG_DONE 1 (bridge_write16 BRIDGE_REG_RESULT result w)).

(** One pass; the counter is the local [tx_poll_counter]. *)
Definition bridge_pass (stk : list Z) (s : Z * world) : res (Z * world) :=
  let '(counter, w) := s in
  w ← bridge_service stk w;
  if 1000 <=? counter + 1 then '(_, w) ← do_transmit stk w; Ok (0, w)
  else Ok (counter + 1, w).

(** ** Start-up *)

(** [host_mac] is what [ethernet_get_mac] gives. *)
Definition bridge_set_default_mac (sim_mode : bool) (host_mac : list Z) (w : world) : world :=
  let realmac := if sim_mode then [0; 0; 0; 0; 0; 0] else host_mac in
  let mac := [COMMODORE_OUI0; COMMODORE_OUI1; COMMODORE_OUI2;
              nth 3 realmac 0; nth 4 realmac 0; nth 5 realmac 0] in
  registers_set_fakemac mac (upd_mac (mac_set_addresses mac mac) w).

(** [main] between the mapping and the loop.  The default address is set before
    [ethernet_open], while the unit's [host_mac] still has its initial value. *)
Definition bridge_start (sim_mode : bool) (w : world) : world :=
  let w := registers_reset w in
  let w := set_w_boardram BRIDGE_BOARDRAM_OFF w in
  bridge_set_default_mac sim_mode [0; 0; 0; 0; 0; 0] w.

(** ** The client *)

Module Client.
Definition TX_RING : Z := 0x1000.
Definition RX_RING : Z := 0x2000.
Definition TX_BUF : Z := 0x3000.
Definition RX_BUF : Z := 0x4000.

Definition ram_put_word (off v : Z) (w : world) : world :=
  bridge_write8 (BRIDGE_BOARDRAM_OFF + off + 1) v
    (bridge_write8 (BRIDGE_BOARDRAM_OFF + off) (Z.shiftr v 8) w).
Definition ram_put_byte (off v : Z) (w : world) : world :=
  bridge_write8 (BRIDGE_BOARDRAM_OFF + off) v w.
Definition ram_get_word (off : Z) (w : world) : Z :=
  u16 (Z.lor (Z.shiftl (bridge_read8 (BRIDGE_BOARDRAM_OFF + off) w) 8)
    (bridge_read8 (BRIDGE_BOARDRAM_OFF + off + 1) w)).

Definition build_init_block (w : world) : world :=
  let w := ram_put_word 0 0x0000 w in
  let w := ram_put_byte 2 0x80 w in
  let w := ram_put_byte 3 0x00 w in
  let w := ram_put_byte 4 0xBB w in
  let w := ram_put_byte 5 0x10 w in
  let w := ram_put_byte 6 0xCC w in
  let w := ram_put_byte 7 0xAA w in
  let w := ram_put_word 10 0 (ram_put_word 8 0 w) in
  let w := ram_put_word 14 0 (ram_put_word 12 0 w) in
  let rdr := Z.lor (u32 (Z.shiftl 2 29)) (Z.land RX_RING 0x00fffff8) in
  let tdr := Z.lor (u32 (Z.shiftl 2 29)) (Z.land TX_RING 0x00fffff8) in
  let w := ram_put_word 16 (u16 rdr) w in
  let w := ram_put_word 18 (u16 (Z.shiftr rdr 16)) w in
  let w := ram_put_word 20 (u16 tdr) w in
  ram_put_word 22 (u16 (Z.shiftr tdr 16)) w.

(** What the daemon does while the client sleeps [n] microseconds is [daemon n]. *)
Section requests.
Context (daemon : Z → world → res world).

(** Wait for DONE, at most [n] times. *)
Fixpoint wait_done (n : nat) (w : world) : res world :=
  match n with
  | O => Ok w
  | S n => if bridge_read8 BRIDGE_REG_DONE w =? 0 then w ← daemon 100 w; wait_done n w else Ok w
  end.

Definition write_reg (addr_off data : Z) (w : world) : res world :=
  let w := bridge_write16 BRIDGE_REG_DATA data w in
  let w := bridge_write8 BRIDGE_REG_ADDR addr_off w in
  let w := bridge_write8 BRIDGE_REG_RW 1 w in
  w ← wait_done 100 (bridge_write8 BRIDGE_REG_NEW_REQ 1 w);
  Ok (bridge_write8 BRIDGE_REG_DONE 0 w).

Definition read_reg (addr_off : Z) (w : world) : res (Z * world) :=
  let w := bridge_write8 BRIDGE_REG_ADDR addr_off w in
  let w := bridge_write8 BRIDGE_REG_RW 0 w in
  w ← wait_done 100 (bridge_write8 BRIDGE_REG_NEW_REQ 1 w);
  let w := bridge_write8 BRIDGE_REG_DONE 0 w in
  Ok (bridge_read16 BRIDGE_REG_RESULT w, w).

Definition write_rap (v : Z) (w : world) : res world := write_reg A2065_RAP_OFF v w.
Definition write_rdp (v : Z) (w : world) : res world := write_reg A2065_RDP_OFF v w.
Definition read_rdp (w : world) : res (Z * world) := read_reg A2065_RDP_OFF w.

(** The tests give the results of their checks, in order. *)
Definition test_init_sequence (w : world) : res (list bool * world) :=
  w ← write_rap 0 w;
  w ← write_rdp CSR0_STOP w;
  w ← write_rap 1 w;
  w ← write_rdp 0x0000 w;
  w ← write_rap 2 w;
  w ← write_rdp 0x0000 w;
  w ← write_rap 0 w;
  w ← write_rdp CSR0_INIT w;
  w ← daemon 50000 w;
  w ← write_rdp CSR0_STRT w;
  w ← daemon 50000 w;
  '(csr0, w) ← read_rdp w;
  Ok ([true; flag csr0 CSR0_IDON; flag csr0 CSR0_STRT], w).

(** One descriptor; [len] is the length the third word is the negation of. *)
Definition put_md (off buf md1 len : Z) (w : world) : world :=
  let w := ram_put_word (off + 0) (u16 buf) w in
  let w := ram_put_word (off + 2) md1 w in
  let w := ram_put_word (off + 4) (u16 (- len)) w in
  ram_put_word (off + 6) 0 w.

Definition test_frame : list Z :=
  [0xFF; 0xFF; 0xFF; 0xFF; 0xFF; 0xFF; 0x00; 0x80; 0x10; 0xAA; 0xBB; 0xCC; 0x08; 0x06]
  ++ map u8 (seqZ 14 46).

Fixpoint copy_frame (off : Z) (frame : list Z) (w : world) : world :=
  match frame with
  | [] => w
  | b :: frame => copy_frame (off + 1) frame (ram_put_byte off b w)
  end.

Definition test_tx (w : world) : res (list bool * world) :=
  let w := put_md TX_RING TX_BUF (Z.lor (Z.lor TX_OWN TX_STP) TX_ENP) 60 w in
  let w := copy_frame TX_BUF test_frame w in
  w ← write_rap 0 w;
  w ← write_rdp (Z.lor (Z.lor (Z.lor CSR0_INEA CSR0_TDMD) CSR0_STRT) CSR0_INIT) w;
  w ← daemon 100000 w;
  let tmd1 := ram_get_word (TX_RING + 2) w in
  '(csr0, w) ← read_rdp w;
  Ok ([negb (flag tmd1 TX_OWN); flag csr0 CSR0_TINT], w).

Definition test_rx (w : world) : res (list bool * world) :=
  let w := put_md RX_RING RX_BUF RX_OWN 1024 w in
  w ← write_rap 0 w;
  '(csr0, w) ← read_rdp w;
  w ← (if flag csr0 CSR0_RXON then Ok w
       else w ← write_rdp (Z.lor (Z.lor CSR0_INEA CSR0_STRT) CSR0_INIT) w; daemon 50000 w);
  let rmd1 := ram_get_word (RX_RING + 2) w in
  let received := if flag rmd1 RX_OWN then [] else [0 <? ram_get_word (RX_RING + 6) w] in
  '(csr0, w) ← read_rdp w;
  Ok (true :: received ++ [if flag csr0 CSR0_RINT then flag csr0 CSR0_RINT else true], w).

(** [main] between the mapping and the unmapping: the results of all checks. *)
Definition client_main (w : world) : res (list bool * world) :=
  let w := build_init_block w in
  '(c1, w) ← test_init_sequence w;
  '(c2, w) ← test_tx w;
  '(c3, w) ← test_rx w;
  Ok (c1 ++ c2 ++ c3, w).
End requests.
End Client.

(** ** Lemmas: the bridge registers *)

Lemma bridge8_write8 o o' v w :
  bridge_read8 o (bridge_write8 o' v w) = if decide (o' = o) then u8 v else bridge_read8 o w.
Proof.
  unfold bridge_read8, bridge_write8. cbn [w_win set_w_win].
  change (bridge_base (set_w_win _ w)) with (bridge_base w). rewrite rd8_wr8.
  repeat case_decide; lia || done.
Qed.

Lemma bridge8_write16 o o' v w : o < o' ∨ o' + 2 ≤ o →
  bridge_read8 o (bridge_write16 o' v w) = bridge_read8 o w.
Proof. intros H. apply le_write_frame. change (bridge_base (bridge_write16 o' v w)) with (bridge_base w). lia. Qed.

Lemma bridge16_write16 o v w : bridge_read16 o (bridge_write16 o v w) = u16 v.
Proof. apply le_read_write. Qed.

Lemma bridge16_write8 o o' v w : o' < o ∨ o + 2 ≤ o' →
  bridge_read16 o (bridge_write8 o' v w) = bridge_read16 o w.
Proof.
  intros H. apply le_read_ext. intros b Hb. apply rd8_wr8_ne.
  change (bridge_base (bridge_write8 o' v w)) with (bridge_base w) in Hb. lia.
Qed.

Lemma bridge16_write16_ne o o' v w : o' + 2 ≤ o ∨ o + 2 ≤ o' →
  bridge_read16 o (bridge_write16 o' v w) = bridge_read16 o w.
Proof.
  intros H. apply le_read_ext. intros b Hb. apply le_write_frame.
  change (bridge_base (bridge_write16 o' v w)) with (bridge_base w) in Hb. lia.
Qed.

Lemma bridge_read16_fits o w : window_ok (w_win w) → fits 16 (bridge_read16 o w).
Proof.
  intros H. unfold bridge_read16. cbn [le_read]. pose proof (rd8_fits _ (bridge_base w + o) H).
  pose proof (rd8_fits _ (bridge_base w + o + 1) H). rewrite Z.shiftl_0_l, Z.lor_0_r.
  apply fits_lor; [lia|by apply (fits_mono 8)|apply fits_shiftl; [lia..|done]].
Qed.

(** The bytes of the bridge registers are those the FPGA asks through. *)
Lemma quiet_bridge8 w w' o : w_boardram w' = w_boardram w → quiet w w' → 0 ≤ o < 0x10 →
  bridge_read8 o w' = bridge_read8 o w.
Proof.
  intros E Q Ho. unfold bridge_read8, bridge_base. rewrite E. apply Q.
  unfold request_byte, BRIDGE_BOARDRAM_OFF. lia.
Qed.

Lemma quiet_bridge16 w w' o : w_boardram w' = w_boardram w → quiet w w' → 0 ≤ o < 0xF →
  bridge_read16 o w' = bridge_read16 o w.
Proof.
  intros E Q Ho. unfold bridge_read16, bridge_base. rewrite E. apply le_read_ext. intros b Hb. apply Q.
  unfold request_byte, BRIDGE_BOARDRAM_OFF in *. lia.
Qed.

(** They lie before the board RAM. *)
Lemma bridge_write8_frame o v w : o < 0x8000 → ctl_frame w (bridge_write8 o v w).
Proof.
  intros Ho. split; try done; [|apply window_ok_wr8]. intros a Ha. apply rd8_wr8_ne.
  unfold bridge_base, BRIDGE_BOARDRAM_OFF. lia.
Qed.

Lemma bridge_write16_frame o v w : o < 0x7FFF → ctl_frame w (bridge_write16 o v w).
Proof.
  intros Ho. split; try done; [|apply window_ok_le_write]. intros a Ha. apply le_write_frame.
  unfold bridge_base, BRIDGE_BOARDRAM_OFF. lia.
Qed.

Ltac bridge_regs := unfold BRIDGE_REG_DATA, BRIDGE_REG_ADDR, BRIDGE_REG_RW, BRIDGE_REG_NEW_REQ,
  BRIDGE_REG_DONE, BRIDGE_REG_RESULT, BRIDGE_INT_SET in *.

(** Read a register of a window written through the bridge. *)
Ltac bridge_simp :=
  repeat first
    [ rewrite bridge16_write16
    | rewrite bridge16_write8 by (bridge_regs; lia)
    | rewrite bridge16_write16_ne by (bridge_regs; lia)
    | rewrite bridge8_write16 by (bridge_regs; lia)
    | rewrite bridge8_write8, decide_True by done
    | rewrite bridge8_write8, decide_False by (by bridge_regs) ].

(** Peel register writes off a frame. *)
Ltac bridge_frame :=
  repeat match goal with
    | |- ctl_frame ?w (bridge_write8 ?o ?v ?u) =>
        transitivity u; [|apply bridge_write8_frame; bridge_regs; lia]
    | |- ctl_frame ?w (bridge_write16 ?o ?v ?u) =>
        transitivity u; [|apply bridge_write16_frame; bridge_regs; lia]
    end; try reflexivity.

(** ** Callback laws *)

#[export] Instance bridge_int_ok : IntHandlerOk.
Proof.
  intros f w [= <-]. unfold bridge_on_interrupt_cb. split; [bridge_frame|]. intros a Ha.
  apply rd8_wr8_ne. unfold request_byte, bridge_base, BRIDGE_BOARDRAM_OFF, BRIDGE_INT_SET in *. lia.
Qed.

Lemma bridge_tx_ok stk : @TxHandlerOk (Some (bridge_on_transmit_cb stk)).
Proof. intros f w n w' [= <-] Hw H. by eapply do_transmit_keeps. Qed.

(** ** Lemmas: requests *)

(** A read or write request as the client posts it. *)
Definition read_request (addr : Z) (w : world) : world :=
  bridge_write8 BRIDGE_REG_NEW_REQ 1 (bridge_write8 BRIDGE_REG_RW 0 (bridge_write8 BRIDGE_REG_ADDR addr w)).
Definition write_request (addr data : Z) (w : world) : world :=
  bridge_write8 BRIDGE_REG_NEW_REQ 1 (bridge_write8 BRIDGE_REG_RW 1
    (bridge_write8 BRIDGE_REG_ADDR addr (bridge_write16 BRIDGE_REG_DATA data w))).

(** The answer to a request. *)
Definition bridge_answer (result : Z) (w : world) : world :=
  bridge_write8 BRIDGE_REG_DONE 1 (bridge_write16 BRIDGE_REG_RESULT result w).

Lemma read_request_frame addr w : ctl_frame w (read_request addr w).
Proof. unfold read_request. bridge_frame. Qed.

Lemma write_request_frame addr data w : ctl_frame w (write_request addr data w).
Proof. unfold write_request. bridge_frame. Qed.

Lemma bridge_answer_frame v w : ctl_frame w (bridge_answer v w).
Proof. unfold bridge_answer. bridge_frame. Qed.

Lemma chip_wget_frame addr w w' : ctl_frame w w' → chip_wget addr w' = chip_wget addr w.
Proof. intros F. unfold chip_wget. by rewrite (frame_reg _ _ F). Qed.

(** What a pending write request does. *)
Lemma service_write stk w w1 : let htx : TxHandler := Some (bridge_on_transmit_cb stk) in
  bridge_read8 BRIDGE_REG_NEW_REQ w ≠ 0 → bridge_read8 BRIDGE_REG_RW w ≠ 0 →
  chip_wput (bridge_read8 BRIDGE_REG_ADDR w) (bridge_read16 BRIDGE_REG_DATA w) w = Ok w1 →
  bridge_service stk w = Ok (bridge_answer 0 w1).
Proof.
  intros htx Hn Hr Hx. unfold bridge_service. apply Z.eqb_neq in Hn, Hr. rewrite Hn, Hr. cbv zeta.
  fold htx. by rewrite Hx.
Qed.

Lemma service_read stk w :
  bridge_read8 BRIDGE_REG_NEW_REQ w ≠ 0 → bridge_read8 BRIDGE_REG_RW w = 0 →
  bridge_service stk w = Ok (bridge_answer (chip_wget (bridge_read8 BRIDGE_REG_ADDR w) w) w).
Proof. intros Hn Hr. unfold bridge_service. apply Z.eqb_neq in Hn. by rewrite Hn, Hr. Qed.

(** The client sees DONE at once. *)
Lemma wait_done_set d n w : bridge_read8 BRIDGE_REG_DONE w ≠ 0 → Client.wait_done d n w = Ok w.
Proof. intros H. apply Z.eqb_neq in H. destruct n; [done|]. cbn [Client.wait_done]. by rewrite H. Qed.

(** The client waits one sleep. *)
Lemma wait_done_once d n w w1 : bridge_read8 BRIDGE_REG_DONE w = 0 → d 100 w = Ok w1 →
  bridge_read8 BRIDGE_REG_DONE w1 ≠ 0 → Client.wait_done d (S n) w = Ok w1.
Proof.
  intros H Hd H1. change (Client.wait_done d (S n) w) with (if bridge_read8 BRIDGE_REG_DONE w =? 0
    then w ← d 100 w; Client.wait_done d n w else Ok w).
  rewrite H, Hd. by apply wait_done_set.
Qed.

(** ** Lemmas: the client's view of board RAM *)

(** The daemon's byte [k] is the client's byte [k ^ 1]. *)
Lemma client_byte k off b w : 0 ≤ k < 2 ^ 15 →
  ram_byte (Client.ram_put_byte off b w) k = if decide (off = Z.lxor k 1) then u8 b else ram_byte w k.
Proof.
  intros Hk. assert (I : ∀ b, ram_index b k = b + Z.lxor k 1).
  { intros base. rewrite ram_index_view. unfold Ram68k.addr. by rewrite Z.mod_small. }
  unfold ram_byte, get_ram_byte. rewrite !I. unfold Client.ram_put_byte, bridge_write8.
  cbn [w_win set_w_win w_boardram]. rewrite rd8_wr8. unfold bridge_base, BRIDGE_BOARDRAM_OFF.
  repeat case_decide; lia || done.
Qed.

Lemma client_put_word off v w :
  Client.ram_put_word off v w = Client.ram_put_byte (off + 1) v (Client.ram_put_byte off (Z.shiftr v 8) w).
Proof. unfold Client.ram_put_word, Client.ram_put_byte. by rewrite !Z.add_assoc. Qed.

(** Byte [k] of the initialisation block as the daemon reads it. *)
Definition client_init_bytes : list Z :=
  [0; 0; 0; 0x80; 0x10; 0xBB; 0xAA; 0xCC; 0; 0; 0; 0; 0; 0; 0; 0;
   0x00; 0x20; 0x00; 0x40; 0x00; 0x10; 0x00; 0x40].

Ltac client_bytes :=
  repeat (rewrite client_byte by lia; first [rewrite decide_True by done|rewrite decide_False by done]).

Lemma client_init_byte w k : (k < 24)%nat →
  ram_byte (Client.build_init_block w) (Z.of_nat k) = nth k client_init_bytes 0.
Proof.
  intros Hk. unfold Client.build_init_block. cbv zeta. rewrite !client_put_word.
  do 24 (destruct k as [|k]; [client_bytes; by vm_compute|]). lia.
Qed.

Lemma ram_word_bytes w k : ram_word w k = u16 (Z.lor (Z.shiftl (ram_byte w k) 8) (ram_byte w (k + 1))).
Proof. done. Qed.

Lemma client_init_word w k : (k < 23)%nat → ram_word (Client.build_init_block w) (Z.of_nat k)
  = u16 (Z.lor (Z.shiftl (nth k client_init_bytes 0) 8) (nth (S k) client_init_bytes 0)).
Proof.
  intros Hk. rewrite ram_word_bytes. replace (Z.of_nat k + 1) with (Z.of_nat (S k)) by lia. by rewrite !client_init_byte by lia.
Qed.

Lemma client_init_reg w : w_reg (Client.build_init_block w) = w_reg w.
Proof. done. Qed.

(** What the chip takes from such a block. *)
Lemma chip_init_client u :
  (∀ k, (k < 23)%nat → ram_word u (Z.of_nat k)
    = u16 (Z.lor (Z.shiftl (nth k client_init_bytes 0) 8) (nth (S k) client_init_bytes 0))) →
  (∀ k, (k < 24)%nat → ram_byte u (Z.of_nat k) = nth k client_init_bytes 0) →
  init_block_off (w_reg u) = 0 →
  let r := w_reg (chip_init u) in
  am_rdr_rlen r = 1 ∧ am_rdr_rdra r = 0x20 ∧ am_tdr_tlen r = 1 ∧ am_tdr_tdra r = 0x10 ∧
  fakemac r = [0x80; 0x00; 0xBB; 0x10; 0xCC; 0xAA].
Proof.
  intros W B Hoff. unfold chip_init, rings_reset_loopback_count. cbv zeta.
  change (w_reg (upd_ring _ u)) with (w_reg u). rewrite Hoff. unfold load_init_block. rewrite !Z.add_0_l.
  change (ram_word (upd_ring _ u)) with (ram_word u). change (ram_byte (upd_ring _ u)) with (ram_byte u).
  rewrite (W 16%nat ltac:(lia) : ram_word u 16 = _), (W 18%nat ltac:(lia) : ram_word u 18 = _),
    (W 20%nat ltac:(lia) : ram_word u 20 = _), (W 22%nat ltac:(lia) : ram_word u 22 = _).
  rewrite (B 2%nat ltac:(lia) : ram_byte u 2 = _), (B 3%nat ltac:(lia) : ram_byte u 3 = _),
    (B 4%nat ltac:(lia) : ram_byte u 4 = _), (B 5%nat ltac:(lia) : ram_byte u 5 = _),
    (B 6%nat ltac:(lia) : ram_byte u 6 = _), (B 7%nat ltac:(lia) : ram_byte u 7 = _).
  split_and!; reflexivity.
Qed.

(** ** Steps of the daemon *)

(** The main loop makes a pass, a frame arrives between two passes, or another party
    writes a byte of the window. *)
Inductive bridge_step (stk : list Z) : Z * world → Z * world → Prop :=
  | bridge_loop s s' : bridge_pass stk s = Ok s' → bridge_step stk s s'
  | bridge_arrive c rxbuf len w w' : bridge_rx_step stk rxbuf len w = Ok w' →
      bridge_step stk (c, w) (c, w')
  | bridge_poke c a v w : bridge_step stk (c, w) (c, set_w_win (wr8 (w_win w) a v) w).

Lemma chip_ok_service stk w w' : chip_ok w → bridge_service stk w = Ok w' → chip_ok w'.
Proof.
  intros Hw Hs. pose proof (bridge_tx_ok stk). unfold bridge_service in Hs.
  destruct (_ =? 0); [by injection Hs as <-|]. cbv zeta in Hs.
  apply bind_Ok_inv in Hs as ([r u] & Hu & Hs). injection Hs as <-. fold (bridge_answer r u).
  apply (chip_ok_frame u); [apply bridge_answer_frame|]. destruct (_ =? 0); [by injection Hu as _ <-|].
  apply bind_Ok_inv in Hu as (u' & Hu & Hr). injection Hr as _ ->.
  refine (chip_ok_wput _ _ _ _ Hw _ Hu). apply bridge_read16_fits, win_ok, Hw.
Qed.

Lemma chip_ok_bridge_step stk s s' : bridge_step stk s s' → chip_ok s.2 → chip_ok s'.2.
Proof.
  intros [[c w] [c' w'] Hs|c rxbuf len w w' Hs|c a v w] Hw; cbn [snd] in *.
  - unfold bridge_pass in Hs. apply bind_Ok_inv in Hs as (u & Hu & Hs).
    apply chip_ok_service in Hu; [|done]. destruct (1000 <=? c + 1); [|by injection Hs as _ <-].
    apply bind_Ok_inv in Hs as ([n u'] & Hu' & Hs). injection Hs as _ <-.
    refine (chip_ok_transmit _ _ _ _ Hu Hu').
  - unfold bridge_rx_step in Hs. destruct (0 <? len); [refine (chip_ok_receive _ _ _ _ _ Hw Hs)|by injection Hs as <-].
  - destruct Hw as [Hw Hi]. split; [|exact Hi]. destruct Hw. split; try done. by apply window_ok_wr8.
Qed.

Lemma bridge_start_ok sim w : world_ok w → chip_ok (bridge_start sim w).
Proof.
  intros Hw. destruct (registers_reset_ok w Hw) as [Hr Hi]. unfold bridge_start. cbv zeta. revert Hr Hi.
  generalize (registers_reset w). intros u Hr Hi. split; [|exact Hi].
  unfold bridge_set_default_mac, registers_set_fakemac. cbv zeta. set (mac := [_; _; _; _; _; _]).
  assert (Hm : Forall (fits 8) mac) by (by destruct sim; repeat (constructor; [by split|])).
  destruct Hr. split; try done. destruct reg_ok. by split.
Qed.

(** ** Theorems *)

(** C25: From start-up on, whatever the client or the 68k stores anywhere in the window,
    requests and board RAM alike, and whatever frames arrive between two passes, the
    bridge daemon keeps the chip state well-formed and CSR0 consistent. *)
Theorem bridge_invariant (stk : list Z) (sim : bool) (w w' : world) (c : Z) (Hw : world_ok w)
    (Hrun : rtc (bridge_step stk) (0, bridge_start sim w) (c, w')) :
  world_ok w' ∧ csr0_inv (csr0 w').
Proof.
  assert (H : ∀ s s', rtc (bridge_step stk) s s' → chip_ok s.2 → chip_ok s'.2).
  { induction 1; [done|]. eauto using chip_ok_bridge_step. }
  apply (H _ _ Hrun). by apply bridge_start_ok.
Qed.

(** C29: The bridge executes the client's requests: when nothing is answered yet and the
    daemon serves the bridge once while the client sleeps, a client read of the register
    port [addr] returns what the chip says there and changes neither the chip nor the
    board RAM, and a client write of [data] has the effect of one chip write, after which
    the chip is still well-formed.  This is about one pass per sleep: a further pass would
    perform the same request again ([bridge_repeats]). *)
Theorem bridge_serves (stk : list Z) (addr data : Z) (w : world)
    (Hw : chip_ok w) (Ha : fits 8 addr) (Hd : fits 16 data)
    (Hdone : bridge_read8 BRIDGE_REG_DONE w = 0) :
  let d := λ _ : Z, bridge_service stk in
  let htx : TxHandler := Some (bridge_on_transmit_cb stk) in
  (∃ w', Client.read_reg d addr w = Ok (chip_wget addr w, w') ∧ ctl_frame w w' ∧
     bridge_read8 BRIDGE_REG_DONE w' = 0) ∧
  (∀ w1, chip_wput addr data (write_request addr data w) = Ok w1 →
    ∃ w', Client.write_reg d addr data w = Ok w' ∧ ctl_frame w1 w' ∧ chip_ok w' ∧
      bridge_read8 BRIDGE_REG_DONE w' = 0).
Proof.
  intros d htx. split.
  - unfold Client.read_reg. cbv zeta. fold (read_request addr w).
    pose proof (read_request_frame addr w) as F. set (u := read_request addr w) in *.
    assert (E : bridge_read8 BRIDGE_REG_ADDR u = addr).
    { unfold u, read_request. bridge_simp. by apply u8_small. }
    assert (S : d 100 u = Ok (bridge_answer (chip_wget addr w) u)).
    { unfold d. rewrite service_read by (unfold u, read_request; by bridge_simp).
      by rewrite E, (chip_wget_frame _ _ _ F). }
    assert (D : bridge_read8 BRIDGE_REG_DONE u = 0) by (unfold u, read_request; by bridge_simp).
    rewrite (wait_done_once _ _ _ _ D S) by (unfold bridge_answer; by bridge_simp).
    cbn [mbind res_bind]. eexists. split; [|split].
    + unfold bridge_answer. bridge_simp. do 3 f_equal. apply u16_small, chip_wget_fits, Hw.
    + unfold bridge_answer. by bridge_frame.
    + unfold bridge_answer. by bridge_simp.
  - intros w1 Hx. unfold Client.write_reg. cbv zeta. fold (write_request addr data w).
    pose proof (write_request_frame addr data w) as F. set (u := write_request addr data w) in *.
    assert (S : d 100 u = Ok (bridge_answer 0 w1)).
    { unfold d. apply service_write; [unfold u, write_request; by bridge_simp..|]. unfold u at 1 2, write_request.
      bridge_simp. rewrite (u8_small addr) by done. rewrite (u16_small data) by done. exact Hx. }
    assert (D : bridge_read8 BRIDGE_REG_DONE u = 0) by (unfold u, write_request; by bridge_simp).
    rewrite (wait_done_once _ _ _ _ D S) by (unfold bridge_answer; by bridge_simp).
    cbn [mbind res_bind]. eexists. split; [done|].
    assert (F1 : ctl_frame w1 (bridge_write8 BRIDGE_REG_DONE 0 (bridge_answer 0 w1)))
      by (unfold bridge_answer; by bridge_frame).
    split_and!; [exact F1| |by bridge_simp]. apply (chip_ok_frame w1); [done|].
    pose proof (bridge_tx_ok stk). apply (chip_ok_wput addr data u); [by apply (chip_ok_frame w)|done|done].
Qed.

(** The daemon never takes a request back, so a served write is pending again.  After
    the client took the answer, the next pass writes to the same register once more, with
    whatever DATA then holds: the value of the client's next request, stored before its
    address is.  It also sets DONE again, so the client's next read, of any register and
    whatever the daemon does meanwhile, returns the 0 of that write and not the chip's
    answer. *)
Theorem bridge_repeats (stk : list Z) (v addr : Z) (d : Z → world → res world) (w w1 w3 : world)
    (Hw : chip_ok w) (Hv : fits 16 v)
    (Hreq : bridge_read8 BRIDGE_REG_NEW_REQ w ≠ 0) (Hrw : bridge_read8 BRIDGE_REG_RW w ≠ 0)
    (Hs : bridge_service stk w = Ok w1) :
  let htx : TxHandler := Some (bridge_on_transmit_cb stk) in
  let w2 := bridge_write16 BRIDGE_REG_DATA v (bridge_write8 BRIDGE_REG_DONE 0 w1) in
  chip_wput (bridge_read8 BRIDGE_REG_ADDR w) v w2 = Ok w3 →
  bridge_service stk w2 = Ok (bridge_answer 0 w3) ∧
  ∃ w4, Client.read_reg d addr (bridge_answer 0 w3) = Ok (0, w4) ∧ ctl_frame w3 w4.
Proof.
  intros htx w2 Hx. pose proof (bridge_tx_ok stk). split.
  - unfold bridge_service in Hs. apply Z.eqb_neq in Hreq as Hn, Hrw as Hr. rewrite Hn, Hr in Hs.
    cbv zeta in Hs. fold htx in Hs. apply bind_Ok_inv in Hs as ([r u] & Hu & Hs).
    apply bind_Ok_inv in Hu as (u' & Hu & Hr'). injection Hr' as <- ->.
    injection Hs as Hs. fold (bridge_answer 0 u) in Hs.
    destruct (env_frame_wput _ _ _ _ (proj1 Hw) (bridge_read16_fits _ _ (win_ok _ (proj1 Hw))) Hu) as (_ & B & Q).
    assert (E : ∀ o, 0 ≤ o < 5 → o ≠ BRIDGE_REG_DATA → o ≠ BRIDGE_REG_DATA + 1 →
      bridge_read8 o w2 = bridge_read8 o w).
    { intros o Ho H1 H2. unfold w2. rewrite <-Hs. unfold bridge_answer.
      rewrite bridge8_write16, !bridge8_write8, !decide_False, bridge8_write16 by (bridge_regs; lia).
      apply quiet_bridge8; [done|done|lia]. }
    apply service_write; rewrite ?E by (bridge_regs; lia); [done|done|].
    unfold w2 at 1. rewrite bridge16_write16, u16_small by done. exact Hx.
  - unfold Client.read_reg. cbv zeta. rewrite wait_done_set by (unfold bridge_answer; by bridge_simp).
    cbn [mbind res_bind]. eexists. split; [unfold bridge_answer; by bridge_simp|].
    unfold bridge_answer. bridge_frame.
Qed.

(** The client stores its words high byte first, as the 68k sees them, but at the
    offsets of the window, where the daemon reads the bytes of a word exchanged.  A word
    the client puts at an even offset is read byte-swapped, and from the client's
    initialisation block, which asks for two rings of four descriptors at 0x2000 and
    0x1000 and the address 00:80:10:BB:AA:CC, the chip takes rings of one descriptor at
    0x20 and 0x10 and the address 80:00:BB:10:CC:AA. *)
Theorem client_init_swapped (w : world) (off v : Z)
    (Ho : 0 ≤ off < 2 ^ 14) (Hv : fits 16 v) (Hoff : init_block_off (w_reg w) = 0) :
  ram_word (Client.ram_put_word (2 * off) v w) (2 * off) = Z.lor (Z.shiftl (u8 v) 8) (Z.shiftr v 8) ∧
  let r := w_reg (chip_init (Client.build_init_block w)) in
  am_rdr_rlen r = 1 ∧ am_rdr_rdra r = 0x20 ∧ am_tdr_tlen r = 1 ∧ am_tdr_tdra r = 0x10 ∧
  fakemac r = [0x80; 0x00; 0xBB; 0x10; 0xCC; 0xAA].
Proof.
  assert (X0 : Z.lxor (2 * off) 1 = 2 * off + 1).
  { destruct off; [done|destruct p; done|lia]. }
  assert (X1 : Z.lxor (2 * off + 1) 1 = 2 * off).
  { rewrite <-X0, Z.lxor_assoc, Z.lxor_nilpotent. apply Z.lxor_0_r. }
  split.
  - rewrite ram_word_bytes, client_put_word. rewrite !client_byte, X0, X1 by lia.
    rewrite decide_True, decide_False, decide_True by lia.
    assert (Hs : fits 8 (Z.shiftr v 8)) by (by apply (fits_shiftr 8)).
    rewrite (u8_small (Z.shiftr v 8)) by done. apply u16_small.
    apply fits_lor; [lia|apply fits_shiftl; [lia..|apply fits_u8]|by apply (fits_mono 8)].
  - apply chip_init_client; [apply client_init_word|apply client_init_byte|by rewrite client_init_reg].
Qed.

(** ** Examples *)

Definition ex_bridge_stk : list Z := replicate 4096 0.
Definition ex_bridge : world := bridge_start true (boot_world ex_macs ∅).

Lemma ex_bridge_boot_ok : world_ok (boot_world ex_macs ∅).
Proof. apply boot_world_ok; [apply ex_macs_ok|apply window_ok_empty]. Qed.

Lemma ex_bridge_ok : chip_ok ex_bridge.
Proof. apply bridge_start_ok, ex_bridge_boot_ok. Qed.

Lemma bridge_invariant_witness : ∃ w',
  bridge_pass ex_bridge_stk (0, ex_bridge) = Ok (1, w') ∧ csr0_inv (csr0 w').
Proof.
  eexists. split; [reflexivity|].
  eapply (bridge_invariant ex_bridge_stk true (boot_world ex_macs ∅)); [apply ex_bridge_boot_ok|].
  eapply rtc_l; [apply bridge_loop; reflexivity|apply rtc_refl].
Defined.

Lemma bridge_serves_witness : ∃ w',
  Client.read_reg (λ _, bridge_service ex_bridge_stk) A2065_RDP_OFF ex_bridge = Ok (CSR0_STOP, w').
Proof.
  destruct (bridge_serves ex_bridge_stk A2065_RDP_OFF 0 ex_bridge) as [(w' & H & _) _];
    [apply ex_bridge_ok|by split|by split|by vm_compute|].
  exists w'. by rewrite H.
Defined.

(** A served write of 3 to the address register. *)
Definition ex_bridge_rap : world := write_request A2065_RAP_OFF 3 ex_bridge.

Lemma bridge_repeats_witness : ∃ w1 w3 w4, bridge_service ex_bridge_stk ex_bridge_rap = Ok w1 ∧
  bridge_service ex_bridge_stk (bridge_write16 BRIDGE_REG_DATA 4 (bridge_write8 BRIDGE_REG_DONE 0 w1))
    = Ok (bridge_answer 0 w3) ∧ rap (w_reg w3) = 4 ∧
  Client.read_reg (λ _, Ok) A2065_RAP_OFF (bridge_answer 0 w3) = Ok (0, w4).
Proof.
  destruct (is_ok_Ok (bridge_service ex_bridge_stk ex_bridge_rap)) as [w1 E]; [by vm_compute|].
  assert (A : bridge_read8 BRIDGE_REG_ADDR ex_bridge_rap = A2065_RAP_OFF) by (by vm_compute).
  set (w2 := bridge_write16 BRIDGE_REG_DATA 4 (bridge_write8 BRIDGE_REG_DONE 0 w1)).
  destruct (bridge_repeats ex_bridge_stk 4 A2065_RAP_OFF (λ _, Ok) ex_bridge_rap w1
    (upd_reg (set_rap 4) w2)) as (H1 & w4 & H2 & _);
    [eapply chip_ok_frame; [apply write_request_frame|apply ex_bridge_ok]|by split|by vm_compute|by vm_compute
    |exact E|by rewrite A|].
  exists w1, (upd_reg (set_rap 4) w2), w4. split; [exact E|]. split; [exact H1|]. split; [done|exact H2].
Defined.

Lemma client_init_swapped_witness :
  ram_word (Client.ram_put_word 0x12 0x4000 ex_bridge) 0x12 = 0x0040 ∧
  am_rdr_rdra (w_reg (chip_init (Client.build_init_block ex_bridge))) = 0x20.
Proof.
  destruct (client_init_swapped ex_bridge 9 0x4000) as (H1 & _ & H2 & _); [lia|by split|by vm_compute|].
  split; [exact H1|exact H2].
Defined.

(** The client against the daemon, one pass per sleep: the checks of IDON, STRT, the
    transmission and TINT fail. *)
Example client_main_fails :
  ('(checks, _) ← Client.client_main (λ _, bridge_service ex_bridge_stk) ex_bridge; Ok checks)
  = Ok [true; false; false; false; false; true; true].
Proof. by vm_compute. Qed.
