(* ===== verification/Fpga.v ===== *)
(** * The card in the FPGA (fpga/rtl)

    The modules of the card as clocked machines: a record of registers, a function for
    their next values at a rising edge of the clock, and functions for the outputs.  A
    memory that has not been written reads 0 here.

    - [Regfile]: a2065_regfile.v, the registers the 68k sees with the doorbell daemon.
    - [BridgeRegs]: a2065_registers.v with BRIDGE_LOCAL = 0, which holds the 68k until the
      bridge daemon has answered; [LocalRegs] the same file with BRIDGE_LOCAL = 1.
    - [DdrWindow]: a2065_ddr_window.v, board RAM in DDR3, and [BoardRam]: a2065_boardram.v.
    - [Autoconfig]: a2065_autoconfig.v. *)

From S2P Require Import Prelude Types.

(** ** The 68k bus *)

(** A read has [cpu_rw] set; the strobes are active low. *)
Record bus := BusCycle {
  cpu_addr : Z;
  cpu_rw : bool;
  cpu_as_n : bool;
  cpu_ds_n : bool;
  cpu_data_in : Z }.

(** The bits [hi:lo] of a vector. *)
Definition bits (hi lo x : Z) : Z := Z.land (Z.shiftr x lo) (Z.ones (hi - lo + 1)).

(** The chip registers of a card at [card_base]: 0x4000 (RDP) and 0x4002 (RAP). *)
Definition sel_chipreg (card_base : Z) (card_configured : bool) (b : bus) : bool :=
  card_configured && (bits 23 16 (cpu_addr b) =? card_base) && (bits 15 2 (cpu_addr b) =? 0x1000)
  && negb (cpu_as_n b) && negb (cpu_ds_n b).

(** ** a2065_regfile.v *)

Module Regfile.
Record regfile := MkRegfile {
  rap : Z;
  csr_shadow : list Z;
  cmd_clear_s : bool;
  cmd_clear_s1 : bool;
  cmd_pending : bool;
  cmd_rap : Z;
  cmd_data : Z }.

(** The other inputs; [csr_in] is csr0_in to csr3_in. *)
Record rf_inputs := Inputs {
  card_base : Z;
  card_configured : bool;
  cmd_clear : bool;
  csr_in : list Z }.

Definition is_rap (b : bus) : bool := Z.testbit (cpu_addr b) 1.

Definition chip_id_out (s : regfile) : Z :=
  if rap s =? 88 then 0x0001
  else if rap s =? 89 then 0x3003
  else if rap s <? 4 then nth (Z.to_nat (rap s)) (csr_shadow s) 0
  else 0.

Definition rf_data_out (i : rf_inputs) (b : bus) (s : regfile) : Z :=
  if sel_chipreg (card_base i) (card_configured i) b && cpu_rw b
  then if is_rap b then rap s else chip_id_out s
  else 0.

Definition rf_clock (rst_n : bool) (i : rf_inputs) (b : bus) (s : regfile) : regfile :=
  let wr := sel_chipreg (card_base i) (card_configured i) b && negb (cpu_rw b) in
  if negb rst_n then MkRegfile 0 (csr_in i) (cmd_clear i) (cmd_clear_s s) false 0 0
  else
    MkRegfile
      (if wr && is_rap b then bits 6 0 (cpu_data_in b) else rap s)
      (csr_in i) (cmd_clear i) (cmd_clear_s s)
      (if wr && negb (is_rap b) then true else if cmd_clear_s1 s then false else cmd_pending s)
      (if wr && negb (is_rap b) then rap s else cmd_rap s)
      (if wr && negb (is_rap b) then cpu_data_in b else cmd_data s).
End Regfile.

(** ** a2065_registers.v *)

Module BridgeRegs.
Inductive br_state := ST_IDLE | ST_WAIT_ARM | ST_RELEASE | ST_BERR.

Record register_fsm := MkRegs {
  state : br_state;
  watchdog : Z;
  data_out : Z;
  cpu_dtack_n : bool;
  cpu_berr_n : bool;
  bridge_data : Z;
  bridge_addr_off : Z;
  bridge_rw : bool;
  bridge_new_req : bool;
  bridge_done_clr : bool }.

Definition br_reset : register_fsm := MkRegs ST_IDLE 0 0 true true 0 0 false false false.

Section clock.
Context (WATCHDOG_CYCLES : Z).

Definition br_clock (card_base : Z) (card_configured : bool) (bridge_done : bool) (bridge_result : Z)
    (b : bus) (s : register_fsm) : register_fsm :=
  match state s with
  | ST_IDLE =>
      if sel_chipreg card_base card_configured b
      then MkRegs ST_WAIT_ARM 0 0 true true (cpu_data_in b) (bits 1 0 (cpu_addr b)) (negb (cpu_rw b)) true false
      else MkRegs ST_IDLE (watchdog s) 0 true true (bridge_data s) (bridge_addr_off s) (bridge_rw s)
             (bridge_new_req s) false
  | ST_WAIT_ARM =>
      let watchdog' := (watchdog s + 1) mod 2 ^ 20 in
      if bridge_done
      then MkRegs ST_RELEASE watchdog' bridge_result (cpu_dtack_n s) (cpu_berr_n s) (bridge_data s)
             (bridge_addr_off s) (bridge_rw s) false true
      else if WATCHDOG_CYCLES mod 2 ^ 20 <=? watchdog s
      then MkRegs ST_BERR watchdog' (data_out s) (cpu_dtack_n s) (cpu_berr_n s) (bridge_data s)
             (bridge_addr_off s) (bridge_rw s) false false
      else MkRegs ST_WAIT_ARM watchdog' (data_out s) (cpu_dtack_n s) (cpu_berr_n s) (bridge_data s)
             (bridge_addr_off s) (bridge_rw s) true false
  | ST_RELEASE =>
      MkRegs (if cpu_as_n b then ST_IDLE else ST_RELEASE) (watchdog s) (data_out s) (cpu_as_n b) (cpu_berr_n s)
        (bridge_data s) (bridge_addr_off s) (bridge_rw s) (bridge_new_req s) false
  | ST_BERR =>
      MkRegs (if cpu_as_n b then ST_IDLE else ST_BERR) (watchdog s) (data_out s) (cpu_dtack_n s) (cpu_as_n b)
        (bridge_data s) (bridge_addr_off s) (bridge_rw s) (bridge_new_req s) false
  end.
End clock.

Definition br_nrdy (card_base : Z) (card_configured : bool) (b : bus) (s : register_fsm) : bool :=
  sel_chipreg card_base card_configured b || match state s with ST_IDLE => false | _ => true end.
End BridgeRegs.

Module LocalRegs.
Record local_regs := MkRegs {
  csr : list Z;
  rap : Z;
  local_out : Z;
  local_out_en : bool }.

Definition lr_csr_at (n : Z) (s : local_regs) : Z := nth (Z.to_nat n) (csr s) 0.
Definition lr_set_csr (n v : Z) (s : local_regs) : local_regs :=
  MkRegs (<[Z.to_nat n := v]> (csr s)) (rap s) (local_out s) (local_out_en s).
Definition lr_set_out (v : Z) (s : local_regs) : local_regs := MkRegs (csr s) (rap s) v true.

Definition lr_reset (s : local_regs) : local_regs :=
  MkRegs (<[0%nat := 0x0004]> (<[4%nat := 0x0115]> (csr s))) 0 0 false.

(** The blocking assignments to [csr[0]]; the last one takes effect with the clock. *)
Definition csr0_next (c d : Z) : Z :=
  let c := Z.land c (Z.lnot 0x0040) in
  let c := Z.lor c (Z.land d 0x0040) in
  let c := Z.lor c (Z.land d (Z.lor (Z.lor (Z.lor 0x0001 0x0002) 0x0004) 0x0008)) in
  let c := Z.land c (Z.lnot (Z.land d (Z.lor (Z.lor (Z.lor (Z.lor (Z.lor (Z.lor 0x0100 0x0200) 0x0400) 0x0800)
             0x1000) 0x2000) 0x4000))) in
  let c := Z.land c (Z.lnot 0x8000) in
  if negb (Z.land d 0x0004 =? 0) && negb (Z.land (Z.lnot c) 0x0004 =? 0) then 0x0004 else c.

Definition lr_clock (card_base : Z) (card_configured : bool) (b : bus) (s : local_regs) : local_regs :=
  let d := cpu_data_in b in
  let s := MkRegs (csr s) (rap s) (local_out s) false in
  if sel_chipreg card_base card_configured b then
    if bits 1 0 (cpu_addr b) =? 2 then MkRegs (csr s) (bits 6 0 d) (local_out s) (local_out_en s)
    else if cpu_rw b then
      let stop := negb (Z.land (lr_csr_at 0 s) 0x0004 =? 0) in
      if rap s =? 0 then lr_set_csr 0 (csr0_next (lr_csr_at 0 s) d) s
      else if rap s =? 1 then if stop then lr_set_csr 1 (Z.land d (Z.lnot 0x0001)) s else s
      else if rap s =? 2 then if stop then lr_set_csr 2 (Z.land d 0x00FF) s else s
      else if rap s =? 3 then if stop then lr_set_csr 3 (Z.land d 0x0007) s else s
      else lr_set_csr (rap s) d s
    else
      if rap s =? 0 then
        lr_set_out (if negb (Z.land (lr_csr_at 0 s) (Z.lor (Z.lor (Z.lor 0x4000 0x2000) 0x1000) 0x0800) =? 0)
                 then Z.lor (lr_csr_at 0 s) 0x8000 else lr_csr_at 0 s) s
      else if rap s =? 88 then lr_set_out 0x0001 s
      else if rap s =? 89 then lr_set_out 0x3003 s
      else lr_set_out (lr_csr_at (rap s) s) s
  else s.

Definition lr_data_out (s : local_regs) : Z := if local_out_en s then local_out s else 0.
End LocalRegs.

(** ** a2065_ddr_window.v *)

Module DdrWindow.
Inductive dw_state := S_IDLE | S_BUSY | S_DONE.

(** [ram] has 16384 words. *)
Record ddr_window := MkWindow {
  state : dw_state;
  cnt : Z;
  addr_buf : Z;
  wdata_buf : Z;
  wr_buf : bool;
  data_out : Z;
  ram : gmap Z Z }.

(** Port A is the 68k's, with active low write strobes; port B the ARM's. *)
Record dw_inputs := Inputs {
  addr : Z;
  data_in : Z;
  hwr : bool;
  lwr : bool;
  sel : bool;
  arm_addr : Z;
  arm_wdata : Z;
  arm_wr : bool }.

Definition dw_word (r : gmap Z Z) (a : Z) : Z := default 0 (r !! a).
Definition sel_br (i : dw_inputs) : bool := sel i && Z.testbit (addr i) 15.
Definition wa (i : dw_inputs) : Z := bits 14 1 (addr i).
Definition is_write (i : dw_inputs) : bool := negb (hwr i) || negb (lwr i).

Definition dw_reset (s : ddr_window) : ddr_window :=
  MkWindow S_IDLE 0 (addr_buf s) (wdata_buf s) (wr_buf s) 0 (ram s).

(** With both ports writing, the later assignment, the 68k's, wins. *)
Definition dw_clock (LATENCY : Z) (i : dw_inputs) (s : ddr_window) : ddr_window :=
  let r := if arm_wr i then <[arm_addr i := arm_wdata i]> (ram s) else ram s in
  match state s with
  | S_IDLE =>
      if sel_br i then MkWindow S_BUSY (LATENCY mod 2 ^ 16) (wa i) (data_in i) (is_write i) (data_out s) r
      else MkWindow S_IDLE (cnt s) (addr_buf s) (wdata_buf s) (wr_buf s) (data_out s) r
  | S_BUSY =>
      if cnt s =? 0 then
        if wr_buf s then MkWindow S_DONE (cnt s) (addr_buf s) (wdata_buf s) (wr_buf s) (data_out s)
                           (<[addr_buf s := wdata_buf s]> r)
        else MkWindow S_DONE (cnt s) (addr_buf s) (wdata_buf s) (wr_buf s) (dw_word (ram s) (addr_buf s)) r
      else MkWindow S_BUSY (cnt s - 1) (addr_buf s) (wdata_buf s) (wr_buf s) (data_out s) r
  | S_DONE =>
      MkWindow (if sel_br i then S_DONE else S_IDLE) (cnt s) (addr_buf s) (wdata_buf s) (wr_buf s) (data_out s) r
  end.

Definition nrdy (i : dw_inputs) (s : ddr_window) : bool :=
  match state s with S_IDLE => sel_br i | S_BUSY => true | S_DONE => false end.

Definition arm_rdata (i : dw_inputs) (s : ddr_window) : Z := dw_word (ram s) (arm_addr i).
End DdrWindow.

(** ** a2065_autoconfig.v *)

Module Autoconfig.
Record autoconfig := MkAutoconfig {
  card_base : Z;
  card_configured : bool;
  card_shutup : bool;
  cpu_dtack_n : bool;
  data_out : Z }.

Definition ac_reset : autoconfig := MkAutoconfig 0 false false true 0xFFFF.

(** The 32 nibbles; [mac] is mac_byte2 to mac_byte5. *)
Definition rom (mac : list Z) : list Z :=
  let mac_byte2 := nth 0 mac 0 in
  let mac_byte3 := nth 1 mac 0 in
  let mac_byte4 := nth 2 mac 0 in
  let mac_byte5 := nth 3 mac 0 in
  [0xC; 0x1; 0x7; 0x0; 0x0; 0x0; 0xF; 0xF; 0x0; 0x2; 0x0; 0x2;
   bits 7 4 mac_byte2; bits 3 0 mac_byte2; bits 7 4 mac_byte3; bits 3 0 mac_byte3;
   bits 7 4 mac_byte4; bits 3 0 mac_byte4; bits 7 4 mac_byte5; bits 3 0 mac_byte5;
   0xF; 0xF; 0xF; 0xF; 0xF; 0xF; 0xF; 0xF; 0xF; 0xF; 0xF; 0xF].

Definition sel_autoconfig (b : bus) (s : autoconfig) : bool :=
  negb (card_shutup s) && (bits 23 16 (cpu_addr b) =? 0xE8) && negb (cpu_as_n b).

Definition nibble_idx (b : bus) : Z := bits 5 1 (cpu_addr b).

(** [{~rom[nibble_idx], 12'hFFF}] *)
Definition nibble_out (mac : list Z) (b : bus) : Z :=
  Z.lor (Z.shiftl (15 - nth (Z.to_nat (nibble_idx b)) (rom mac) 0) 12) 0xFFF.

Definition ac_clock (mac : list Z) (b : bus) (s : autoconfig) : autoconfig :=
  if sel_autoconfig b s then
    if cpu_rw b then MkAutoconfig (card_base s) (card_configured s) (card_shutup s) false (nibble_out mac b)
    else if bits 7 0 (cpu_addr b) =? 0x48
    then MkAutoconfig (bits 15 8 (cpu_data_in b)) true (card_shutup s) false 0xFFFF
    else if bits 7 0 (cpu_addr b) =? 0x4A
    then MkAutoconfig (card_base s) (card_configured s) (card_shutup s) false 0xFFFF
    else if bits 7 0 (cpu_addr b) =? 0x4C
    then MkAutoconfig (card_base s) (card_configured s) true false 0xFFFF
    else MkAutoconfig (card_base s) (card_configured s) (card_shutup s) false 0xFFFF
  else MkAutoconfig (card_base s) (card_configured s) (card_shutup s) true 0xFFFF.
End Autoconfig.

(** ** a2065_boardram.v *)

Module BoardRam.
Record board_ram := MkRam { ram : gmap Z Z; ram_rd : Z }.

(** Here the write strobes are active high; the ARM's port is not connected inside. *)
Definition bram_sel (sel : bool) (addr : Z) : bool := sel && Z.testbit addr 15.

Definition bram_clock (sel hwr lwr : bool) (addr data_in : Z) (s : board_ram) : board_ram :=
  let a := bits 14 1 addr in
  MkRam (if bram_sel sel addr && (hwr || lwr) then <[a := data_in]> (ram s) else ram s)
    (default 0 (ram s !! a)).

Definition bram_data_out (sel : bool) (addr : Z) (s : board_ram) : Z :=
  if bram_sel sel addr then ram_rd s else 0.
End BoardRam.
