(* ===== verification/Card.v ===== *)
(** * The card and the daemons together

    The FPGA modules of Fpga.v with the programs that serve them: a register write of the
    68k through the register file and the doorbell daemon and back; a bus cycle that the
    bridge daemon answers; board RAM seen by the 68k and by the ARM; the address the card
    shows at autoconfiguration.  The wires between the modules and the window are in the
    Minimig core, outside of this repository: the theorems take the layout that
    a2065_ddr3_flat.h and the head of a2065_registers.v document. *)

From S2P Require Import Prelude Types Window Crc32 Mac State Registers Rings Slots Doorbell Bridge Fpga.

(** ** Bus cycles *)

(** An access to RAP or RDP of the card at [base]. *)
Definition reg_cycle (base : Z) (read is_rap : bool) (data : Z) : bus :=
  BusCycle (Z.lor (Z.shiftl base 16) (if is_rap then 0x4002 else 0x4000)) read false false data.

(** No access. *)
Definition no_cycle : bus := BusCycle 0 true true true 0.

Definition reg_cycle_check (base : Z) : bool :=
  forallb (λ p, (bits 23 16 (cpu_addr (reg_cycle base true p 0)) =? base)
    && (bits 15 2 (cpu_addr (reg_cycle base true p 0)) =? 0x1000)
    && Bool.eqb (Z.testbit (cpu_addr (reg_cycle base true p 0)) 1) p
    && (bits 1 0 (cpu_addr (reg_cycle base true p 0)) =? if p then 2 else 0)) [true; false].

Lemma reg_cycle_checked base : fits 8 base → reg_cycle_check base = true.
Proof.
  intros [H1 H2]. change (2 ^ 8) with 256 in H2.
  assert (F : forallb reg_cycle_check (seqZ 0 256) = true) by by vm_compute.
  rewrite forallb_forall in F. apply F. apply list_elem_of_In, elem_of_seqZ. lia.
Qed.

Lemma reg_cycle_bits base read p data : fits 8 base →
  sel_chipreg base true (reg_cycle base read p data) = true ∧
  Regfile.is_rap (reg_cycle base read p data) = p ∧
  bits 1 0 (cpu_addr (reg_cycle base read p data)) = if p then A2065_RAP_OFF else A2065_RDP_OFF.
Proof.
  intros Hb. pose proof (reg_cycle_checked base Hb) as C. unfold reg_cycle_check in C.
  rewrite forallb_forall in C. specialize (C p (ltac:(destruct p; cbn; tauto))).
  apply andb_prop in C as [C C4]. apply andb_prop in C as [C C3]. apply andb_prop in C as [C1 C2].
  change (cpu_addr (reg_cycle base true p 0)) with (cpu_addr (reg_cycle base read p data)) in *.
  split; [|split].
  - unfold sel_chipreg. rewrite C1, C2. done.
  - unfold Regfile.is_rap. by apply Bool.eqb_prop.
  - apply Z.eqb_eq in C4. rewrite C4. by destruct p.
Qed.

(** ** The register file and the doorbell daemon *)

Lemma rf_write_rap base i r rf : fits 8 base → fits 7 r → Regfile.card_base i = base → Regfile.card_configured i = true →
  let rf' := Regfile.rf_clock true i (reg_cycle base false true r) rf in
  Regfile.rap rf' = r ∧ Regfile.cmd_clear_s rf' = Regfile.cmd_clear i ∧ Regfile.cmd_clear_s1 rf' = Regfile.cmd_clear_s rf.
Proof.
  intros Hb Hr Hi Hc. destruct (reg_cycle_bits base false true r Hb) as (E1 & E2 & _).
  unfold Regfile.rf_clock. rewrite Hi, Hc, E1, E2. cbn. split; [|done]. unfold bits. rewrite Z.shiftr_0_r, Z.land_ones by lia.
  by apply fits_mod_small.
Qed.

Lemma rf_write_rdp base i v rf : fits 8 base → Regfile.card_base i = base → Regfile.card_configured i = true →
  let rf' := Regfile.rf_clock true i (reg_cycle base false false v) rf in
  Regfile.rap rf' = Regfile.rap rf ∧ Regfile.cmd_pending rf' = true ∧ Regfile.cmd_rap rf' = Regfile.rap rf ∧ Regfile.cmd_data rf' = v.
Proof.
  intros Hb Hi Hc. destruct (reg_cycle_bits base false false v Hb) as (E1 & E2 & _).
  unfold Regfile.rf_clock. by rewrite Hi, Hc, E1, E2.
Qed.

(** A bus cycle lasts some clocks. *)
Definition rf_cycle (n : nat) (i : Regfile.rf_inputs) (b : bus) (rf : Regfile.regfile) : Regfile.regfile :=
  Nat.iter (S n) (Regfile.rf_clock true i b) rf.

Lemma rf_cycle_rap n i b rf : Regfile.card_configured i = true →
  cpu_rw b = true ∨ Regfile.is_rap b = false → Regfile.rap (rf_cycle n i b rf) = Regfile.rap rf.
Proof.
  intros Hi Hb. unfold rf_cycle. assert (E : ∀ x, Regfile.rap (Regfile.rf_clock true i b x) = Regfile.rap x).
  { intros x. cbn. destruct Hb as [-> | ->]; rewrite ?andb_false_r; cbn; rewrite ?andb_false_r; done. }
  induction n as [|n IH]; [apply E|]. change (Nat.iter (S (S n)) ?f ?x) with (f (Nat.iter (S n) f x)). by rewrite E.
Qed.

(** Reading RDP gives the shadow of the selected register, two clocks after it came in. *)
Lemma rf_read n i b rf k base : fits 8 base → Regfile.card_base i = base → Regfile.card_configured i = true →
  b = reg_cycle base true false 0 → Regfile.rap rf = k → 0 ≤ k < 4 →
  Regfile.rf_data_out i b (rf_cycle n i b rf) = nth (Z.to_nat k) (Regfile.csr_in i) 0.
Proof.
  intros Hb Hi Hc -> Hk Hr. destruct (reg_cycle_bits base true false 0 Hb) as (E1 & E2 & _).
  unfold Regfile.rf_data_out. rewrite Hi, Hc, E1, E2. cbn [andb cpu_rw reg_cycle]. unfold Regfile.chip_id_out.
  rewrite rf_cycle_rap by (done || by left). rewrite Hk.
  destruct (Z.eqb_spec k 88), (Z.eqb_spec k 89), (Z.ltb_spec k 4); try lia. done.
Qed.

(** The four CSRs the wires carry from the CSR slot to the register file. *)
Definition csr_wires (w : world) : list Z := map (λ k, word_at k (slot w DDR3_CSR_OFF)) [0; 1; 2; 3].

Lemma csr_wires_published w k : sys_ok w → 0 ≤ k < 4 → nth (Z.to_nat k) (csr_wires w) 0 = registers_csr k w.
Proof.
  intros [Hw _ [P _]] Hk. unfold csr_wires. rewrite P.
  destruct (pack_csrs_word (csr0 w) (registers_csr 1 w) (registers_csr 2 w) (registers_csr 3 w))
    as (E0 & E1 & E2 & E3); auto using registers_csr_fits, csr0_fits.
  assert (k = 0 ∨ k = 1 ∨ k = 2 ∨ k = 3) as [->|[->|[->| ->]]] by lia; done.
Qed.

(** A pass that executes a posted write leaves the registers of the write. *)
Lemma cmd_step_registers stk r v w w2 : fits 7 r → fits 16 v →
  @chip_wputs doorbell_int (Some (on_transmit_cb stk)) (write_csr r v) (set_slot DDR3_CMD_OFF (cmd_word r v) w) = Ok w2 →
  ∃ w', cmd_step stk (set_slot DDR3_CMD_OFF (cmd_word r v) w) = Ok w' ∧ w_reg w' = w_reg w2.
Proof.
  intros Hr Hv H. unfold cmd_step. rewrite slot_set_eq, u64_small by by apply cmd_word_fits.
  rewrite cmd_word_pending, cmd_word_rap, cmd_word_data by done. cbv zeta.
  unfold write_csr, chip_wputs in H. bind_inv H. bind_inv H. injection H as ->. rewrite Hx. cbn [mbind res_bind].
  rewrite Hx0. cbn [mbind res_bind]. eexists. by split.
Qed.

(** C5: A register write of the 68k, there and back.  The 68k writes [r] to RAP and [v] to
    RDP of the configured card, each in a bus cycle of any length: the register file then
    has a command pending for [r] and [v].  When it stands in the CMD slot, the daemon's
    pass executes it as a write of [v] to CSR [r].  With the CSR slot on the wires of the
    register file, a read of RDP then gives the 68k the stored register for CSR0 to CSR3:
    CSR0 without the ERR summary bit that the chip's own read adds.  For CSR4 and up, and
    CSR88, the register file answers something else (see [regfile_reads_differ]). *)
Theorem doorbell_card (stk : list Z) (base r v : Z) (n1 n2 n3 : nat) (clr : bool) (csrs : list Z)
    (rf : Regfile.regfile) (w w2 : world)
    (Hbase : fits 8 base) (Hr : fits 7 r) (Hv : fits 16 v) (Hs : sys_ok w)
    (Hexec : @chip_wputs doorbell_int (Some (on_transmit_cb stk)) (write_csr r v) (set_slot DDR3_CMD_OFF (cmd_word r v) w) = Ok w2) :
  let i := Regfile.Inputs base true clr csrs in
  let rf2 := rf_cycle n2 i (reg_cycle base false false v) (rf_cycle n1 i (reg_cycle base false true r) rf) in
  Regfile.cmd_pending rf2 = true ∧
  ∃ w', cmd_step stk (set_slot DDR3_CMD_OFF (cmd_word (Regfile.cmd_rap rf2) (Regfile.cmd_data rf2)) w) = Ok w' ∧
    w_reg w' = w_reg w2 ∧
    (0 ≤ r < 4 →
     let i' := Regfile.Inputs base true clr (csr_wires w') in
     Regfile.rf_data_out i' (reg_cycle base true false 0) (rf_cycle n3 i' (reg_cycle base true false 0) rf2)
       = registers_csr r w2).
Proof.
  intros i rf2.
  assert (R1 : Regfile.rap (rf_cycle n1 i (reg_cycle base false true r) rf) = r) by (by apply rf_write_rap).
  assert (R2 : Regfile.rap rf2 = r).
  { unfold rf2. rewrite rf_cycle_rap; [done|done|]. right. apply (reg_cycle_bits base false false v Hbase). }
  assert (C : Regfile.cmd_pending rf2 = true ∧ Regfile.cmd_rap rf2 = r ∧ Regfile.cmd_data rf2 = v).
  { unfold rf2 in *. unfold rf_cycle at 1 in R2. unfold rf_cycle at 1 3 5.
    change (Nat.iter (S n2) ?f ?x) with (f (Nat.iter n2 f x)) in *. set (x := Nat.iter n2 _ _) in *.
    destruct (rf_write_rdp base i v x Hbase eq_refl eq_refl) as (E1 & E2 & E3 & E4).
    rewrite E1 in R2. rewrite R2 in E3. done. }
  destruct C as (C1 & C2 & C3). split; [done|]. rewrite C2, C3.
  destruct (cmd_step_registers stk r v w w2 Hr Hv Hexec) as (w' & E & Hreg). exists w'. split; [done|]. split; [done|].
  intros H4. cbv zeta. rewrite (rf_read n3 _ _ rf2 r base) by done.
  assert (Hs' : sys_ok w').
  { apply (cmd_step_ok stk) in E; [done|]. apply (sys_step_ok stk w); [done|by constructor]. }
  cbn [Regfile.csr_in]. rewrite csr_wires_published by done. unfold registers_csr. by rewrite Hreg.
Qed.

(** ** Board RAM from both sides *)

(** The ARM sees each word of the card's RAM with its low byte first. *)
Definition shows (base : Z) (r : gmap Z Z) (win : window) : Prop :=
  ∀ k, 0 ≤ k < 16384 → rd8 win (base + 2 * k) = u8 (DdrWindow.dw_word r k) ∧
    rd8 win (base + 2 * k + 1) = u8 (Z.shiftr (DdrWindow.dw_word r k) 8).

Lemma ram_index_word base k : 0 ≤ k < 16384 →
  ram_index base (2 * k) = base + 2 * k + 1 ∧ ram_index base (2 * k + 1) = base + 2 * k.
Proof.
  intros Hk. assert (L : Z.lxor (2 * k) 1 = 2 * k + 1).
  { rewrite <-Z.add_nocarry_lxor; [lia|]. change 1 with (Z.ones 1). rewrite Z.land_ones by lia.
    change (2 ^ 1) with 2. rewrite Z.mul_comm. apply Z.mod_mul. lia. }
  unfold ram_index. rewrite L. rewrite <-L at 2. rewrite Z.lxor_assoc, Z.lxor_nilpotent, Z.lxor_0_r.
  change RAM_MASK with (Z.ones 15). rewrite !Z.land_ones by lia.
  rewrite !Z.mod_small by (change (2 ^ 15) with 32768; lia). lia.
Qed.

Lemma shows_get base r win k : 0 ≤ k < 16384 → fits 16 (DdrWindow.dw_word r k) → shows base r win →
  get_ram_word base win (2 * k) = DdrWindow.dw_word r k.
Proof.
  intros Hk Hf H. destruct (H k Hk) as [E1 E2]. destruct (ram_index_word base k Hk) as [I1 I2].
  unfold get_ram_word, get_ram_byte. rewrite I1, I2, E1, E2. rewrite word_of_bytes by apply fits_u8.
  rewrite bytes_of_word by done. by apply u16_small.
Qed.

Lemma shows_put base r win k v : 0 ≤ k < 16384 → shows base r win →
  shows base (<[k := v]> r) (put_ram_word base win (2 * k) v).
Proof.
  intros Hk H j Hj. destruct (H j Hj) as [E1 E2]. destruct (ram_index_word base k Hk) as [I1 I2].
  unfold put_ram_word, put_ram_byte. rewrite I1, I2. unfold DdrWindow.dw_word. destruct (decide (j = k)) as [->|Hne].
  - rewrite lookup_insert_eq. cbn [default]. rewrite rd8_wr8_eq, rd8_wr8_ne by lia. by rewrite rd8_wr8_eq, u8_u8.
  - rewrite lookup_insert_ne by done. rewrite !rd8_wr8_ne by lia. done.
Qed.

(** The machine counts down in [cnt + 1] clocks. *)
Lemma dw_busy LATENCY i s : DdrWindow.state s = DdrWindow.S_BUSY → DdrWindow.arm_wr i = false → 0 ≤ DdrWindow.cnt s →
  ∀ n, (n ≤ Z.to_nat (DdrWindow.cnt s))%nat →
  Nat.iter n (DdrWindow.dw_clock LATENCY i) s = DdrWindow.MkWindow DdrWindow.S_BUSY (DdrWindow.cnt s - Z.of_nat n)
    (DdrWindow.addr_buf s) (DdrWindow.wdata_buf s) (DdrWindow.wr_buf s) (DdrWindow.data_out s) (DdrWindow.ram s).
Proof.
  intros Hs Ha Hc. induction n as [|n IH]; intros Hn.
  - cbn. rewrite Z.sub_0_r. destruct s; cbn in *. by subst.
  - change (Nat.iter (S n) ?f s) with (f (Nat.iter n f s)). rewrite IH by lia. unfold DdrWindow.dw_clock.
    rewrite Ha. cbn [DdrWindow.state DdrWindow.cnt DdrWindow.ram]. destruct (Z.eqb_spec (DdrWindow.cnt s - Z.of_nat n) 0); [lia|].
    f_equal. lia.
Qed.

(** The 68k selects the window: the cycle. *)
Definition dw_cycle (LATENCY : Z) (i : DdrWindow.dw_inputs) (n : nat) (s : DdrWindow.ddr_window) : DdrWindow.ddr_window :=
  Nat.iter n (DdrWindow.dw_clock LATENCY i) s.

Lemma iter_S_in {A} n (f : A → A) x : Nat.iter (S n) f x = Nat.iter n f (f x).
Proof. apply Nat.iter_succ_r. Qed.

Lemma dw_selected L i s n : 0 ≤ L < 2 ^ 16 → DdrWindow.state s = DdrWindow.S_IDLE → DdrWindow.sel_br i = true →
  DdrWindow.arm_wr i = false → (n ≤ Z.to_nat L)%nat →
  dw_cycle L i (S n) s = DdrWindow.MkWindow DdrWindow.S_BUSY (L - Z.of_nat n) (DdrWindow.wa i) (DdrWindow.data_in i)
    (DdrWindow.is_write i) (DdrWindow.data_out s) (DdrWindow.ram s).
Proof.
  intros HL Hs Hsel Ha Hn. unfold dw_cycle. rewrite iter_S_in. unfold DdrWindow.dw_clock at 2. rewrite Hs, Hsel, Ha.
  rewrite Z.mod_small by done. by rewrite dw_busy by (cbn; done || lia).
Qed.

(** A cycle of the 68k on the board RAM of the card at [card]: byte offset [off], the
    write strobes as they are on the bus (low for a write of the even and of the odd
    byte), and what stands on the data lines. *)
Definition ram_cycle (card off : Z) (hwr lwr : bool) (data : Z) : DdrWindow.dw_inputs :=
  DdrWindow.Inputs (card * 0x10000 + 0x8000 + off) data hwr lwr true 0 0 false.

(** A cycle in the lower half of the card, where the chip registers are. *)
Definition low_cycle (card off : Z) (hwr lwr : bool) (data : Z) : DdrWindow.dw_inputs :=
  DdrWindow.Inputs (card * 0x10000 + off) data hwr lwr true 0 0 false.

(** The bus is idle; the ARM may write a word through its port. *)
Definition bus_idle : DdrWindow.dw_inputs := DdrWindow.Inputs 0 0 true true false 0 0 false.
Definition arm_store (k v : Z) : DdrWindow.dw_inputs := DdrWindow.Inputs 0 0 true true false k v true.

Lemma ram_cycle_addr card off h : 0 ≤ off < 0x8000 → h = 0 ∨ h = 1 →
  let a := card * 0x10000 + h * 0x8000 + off in
  Z.testbit a 15 = (h =? 1) ∧ bits 14 1 a = off / 2.
Proof.
  intros Ho Hh a. assert (E : a = (card * 2 + h) * 2 ^ 15 + off) by (unfold a; lia). split.
  - rewrite <-(Z.add_0_l 15), <-Z.shiftr_spec, Z.shiftr_div_pow2, Z.bit0_odd, E by lia.
    rewrite Z.add_comm, Z.div_add, Z.div_small by lia. rewrite Z.add_0_l, Z.odd_add, Z.odd_mul, andb_false_r.
    by destruct Hh as [-> | ->].
  - unfold bits. rewrite Z.shiftr_div_pow2, Z.land_ones, E by lia.
    change (14 - 1 + 1) with 14. change (2 ^ 15) with (2 ^ 14 * 2 ^ 1). rewrite Z.mul_assoc, Z.div_add_l by lia.
    rewrite Z.add_comm, Z.mod_add by lia. apply Z.mod_small.
    split; [apply Z.div_pos; lia|apply Z.div_lt_upper_bound; lia].
Qed.

(** C14: The card's board RAM is one memory for the 68k and the ARM.  A bus cycle of the
    68k at 0x8000 + [off] of the card holds the 68k for exactly LATENCY + 2 clocks.  A
    read (both write strobes high) has then returned the word that the daemon's accessor
    reads at that offset and left the memory alone; with either strobe low the word on
    the data lines has replaced the whole word, as the daemon's word accessor would do,
    so that only a word write, with both strobes low, does what the 68k asks.  The module
    waits until the 68k lets go; it takes no part in cycles below 0x8000; and a
    word written through the ARM's port lands where the accessor would put it. *)
Theorem ddr_window_refines (L base card off data : Z) (hwr lwr : bool) (s : DdrWindow.ddr_window) (win : window)
    (HL : 0 ≤ L < 2 ^ 16) (Hidle : DdrWindow.state s = DdrWindow.S_IDLE) (Hoff : 0 ≤ off < 0x8000)
    (Hram : ∀ a, fits 16 (DdrWindow.dw_word (DdrWindow.ram s) a)) (Hwin : shows base (DdrWindow.ram s) win) :
  let i := ram_cycle card off hwr lwr data in
  let at_ := 2 * (off / 2) in
  let s' := dw_cycle L i (Z.to_nat L + 2) s in
  (∀ n, (n < Z.to_nat L + 2)%nat → DdrWindow.nrdy i (dw_cycle L i n s) = true) ∧ DdrWindow.nrdy i s' = false ∧
  (hwr = true → lwr = true →
     DdrWindow.data_out s' = get_ram_word base win at_ ∧ DdrWindow.ram s' = DdrWindow.ram s) ∧
  (hwr = false ∨ lwr = false → shows base (DdrWindow.ram s') (put_ram_word base win at_ data)) ∧
  (DdrWindow.dw_clock L i s' = s' ∧ DdrWindow.state (DdrWindow.dw_clock L bus_idle s') = DdrWindow.S_IDLE) ∧
  (DdrWindow.nrdy (low_cycle card off hwr lwr data) s = false ∧
     DdrWindow.dw_clock L (low_cycle card off hwr lwr data) s = s) ∧
  (∀ v, shows base (DdrWindow.ram (DdrWindow.dw_clock L (arm_store (off / 2) v) s)) (put_ram_word base win at_ v)).
Proof.
  intros i at_ s'. assert (Hkr : 0 ≤ off / 2 < 16384).
  { split; [apply Z.div_pos; lia|apply Z.div_lt_upper_bound; lia]. }
  destruct (ram_cycle_addr card off 1 Hoff) as [A1 A2]; [by right|].
  destruct (ram_cycle_addr card off 0 Hoff) as [B1 _]; [by left|].
  change (1 * 0x8000) with 0x8000 in A1, A2. change (0 * 0x8000) with 0 in B1. rewrite Z.add_0_r in B1.
  assert (Hsel : DdrWindow.sel_br i = true) by exact A1. assert (Hk : DdrWindow.wa i = off / 2) by exact A2.
  assert (Hlow : DdrWindow.sel_br (low_cycle card off hwr lwr data) = false) by exact B1.
  assert (E : s' = DdrWindow.dw_clock L i (dw_cycle L i (S (Z.to_nat L)) s)).
  { unfold s', dw_cycle. by replace (Z.to_nat L + 2)%nat with (S (S (Z.to_nat L))) by lia. }
  rewrite dw_selected in E by done. unfold DdrWindow.dw_clock in E. cbn in E.
  destruct (Z.eqb_spec (L - Z.of_nat (Z.to_nat L)) 0); [|lia].
  assert (Hdone : DdrWindow.state s' = DdrWindow.S_DONE) by (rewrite E; by case_match). split_and!.
  - intros [|n] Hn; [unfold dw_cycle, DdrWindow.nrdy; cbn; by rewrite Hidle|]. by rewrite dw_selected by (done || lia).
  - unfold DdrWindow.nrdy. by rewrite Hdone.
  - intros Hh Hl. rewrite E. unfold DdrWindow.is_write. cbn. rewrite Hh, Hl. cbn. rewrite Hk. unfold at_. by rewrite (shows_get base (DdrWindow.ram s)).
  - intros Hw. rewrite E. assert (DdrWindow.is_write i = true) as ->
      by (unfold DdrWindow.is_write; cbn; destruct Hw as [-> | ->]; [done|by destruct hwr]).
    cbn. rewrite Hk. by apply shows_put.
  - unfold DdrWindow.dw_clock. rewrite Hdone, Hsel. cbn. destruct s'. cbn in *. by subst.
  - unfold DdrWindow.dw_clock. by rewrite Hdone.
  - unfold DdrWindow.nrdy. by rewrite Hidle.
  - unfold DdrWindow.dw_clock. rewrite Hidle, Hlow. destruct s. cbn in *. by subst.
  - intros v. unfold DdrWindow.dw_clock. rewrite Hidle. by apply shows_put.
Qed.

(** ** A bus cycle that the bridge daemon answers *)

(** The bridge registers show the outputs of the module. *)
Record posted (s : BridgeRegs.register_fsm) (w : world) : Prop := Posted {
  post_data : bridge_read16 BRIDGE_REG_DATA w = BridgeRegs.bridge_data s;
  post_addr : bridge_read8 BRIDGE_REG_ADDR w = BridgeRegs.bridge_addr_off s;
  post_rw : bridge_read8 BRIDGE_REG_RW w = Z.b2z (BridgeRegs.bridge_rw s);
  post_req : bridge_read8 BRIDGE_REG_NEW_REQ w = Z.b2z (BridgeRegs.bridge_new_req s) }.

Section bus_cycle.
Context (WATCHDOG base : Z) (read p : bool) (data : Z).
Context (Hwd : 0 ≤ WATCHDOG < 2 ^ 20) (Hbase : fits 8 base).

Definition br_bus : bus := reg_cycle base read p data.
Definition br_off : Z := if p then A2065_RAP_OFF else A2065_RDP_OFF.

(** A clock of the cycle, with what the ARM's side shows. *)
Definition br_step (done : bool) (result : Z) : BridgeRegs.register_fsm → BridgeRegs.register_fsm :=
  BridgeRegs.br_clock WATCHDOG base true done result br_bus.

(** The module with the request posted, after [n] clocks without an answer. *)
Definition br_waiting (n : nat) (s : BridgeRegs.register_fsm) : BridgeRegs.register_fsm :=
  Nat.iter n (br_step false 0) (br_step false 0 s).

Lemma br_waiting_eq n s : BridgeRegs.state s = BridgeRegs.ST_IDLE → Z.of_nat n ≤ WATCHDOG →
  br_waiting n s = BridgeRegs.MkRegs BridgeRegs.ST_WAIT_ARM (Z.of_nat n) 0 true true data br_off (negb read) true false.
Proof.
  intros Hs. destruct (reg_cycle_bits base read p data Hbase) as (E1 & _ & E3). induction n as [|n IH]; intros Hn.
  - unfold br_waiting, br_step, BridgeRegs.br_clock. cbn [Nat.iter nat_rect]. rewrite Hs. unfold br_bus. by rewrite E1, E3.
  - unfold br_waiting in *. change (Nat.iter (S n) ?f ?x) with (f (Nat.iter n f x)). rewrite IH by lia.
    unfold br_step, BridgeRegs.br_clock. cbn [BridgeRegs.state BridgeRegs.watchdog].
    rewrite (Z.mod_small WATCHDOG) by done. destruct (Z.leb_spec WATCHDOG (Z.of_nat n)); [lia|]. cbn.
    f_equal. rewrite Z.mod_small by lia. lia.
Qed.

(** C30: A register access of the 68k that the bridge daemon serves.  The module posts the
    access and holds the 68k.  If the daemon's pass comes before the watchdog, it performs
    exactly this access; the module then takes the request back, acknowledges the answer
    and ends the cycle, and a read gives the 68k the chip's register.  If no answer comes
    for WATCHDOG + 1 clocks, the cycle ends with a bus error. *)
Theorem bridge_bus_cycle (stk : list Z) (n : nat) (s : BridgeRegs.register_fsm) (w w2 : world)
    (Hidle : BridgeRegs.state s = BridgeRegs.ST_IDLE) (Hn : Z.of_nat n ≤ WATCHDOG)
    (Hw : chip_ok w) (Hpost : posted (br_waiting n s) w) (Hserve : bridge_service stk w = Ok w2) :
  let s1 := br_step (negb (bridge_read8 BRIDGE_REG_DONE w2 =? 0)) (bridge_read16 BRIDGE_REG_RESULT w2) (br_waiting n s) in
  BridgeRegs.cpu_dtack_n (br_waiting n s) = true ∧ BridgeRegs.cpu_berr_n (br_waiting n s) = true ∧
  (if read then w2 = bridge_answer (chip_wget br_off w) w
   else ∃ w1, @chip_wput bridge_int (Some (bridge_on_transmit_cb stk)) br_off data w = Ok w1 ∧ w2 = bridge_answer 0 w1) ∧
  BridgeRegs.state s1 = BridgeRegs.ST_RELEASE ∧ BridgeRegs.bridge_new_req s1 = false ∧ BridgeRegs.bridge_done_clr s1 = true ∧
  (∀ d r, BridgeRegs.cpu_dtack_n (br_step d r s1) = false ∧
     BridgeRegs.data_out (br_step d r s1) = if read then chip_wget br_off w else 0) ∧
  (∀ d r, BridgeRegs.cpu_berr_n (br_step d r (br_waiting (S (Z.to_nat WATCHDOG)) s)) = false).
Proof.
  intros s1. assert (E := br_waiting_eq n s Hidle Hn). rewrite E in Hpost. destruct Hpost as [P1 P2 P3 P4]. cbn [BridgeRegs.bridge_data BridgeRegs.bridge_addr_off BridgeRegs.bridge_rw BridgeRegs.bridge_new_req Z.b2z] in P1, P2, P3, P4.
  assert (A : if read then w2 = bridge_answer (chip_wget br_off w) w
    else ∃ w1, @chip_wput bridge_int (Some (bridge_on_transmit_cb stk)) br_off data w = Ok w1 ∧ w2 = bridge_answer 0 w1).
  { destruct read; cbn [negb Z.b2z] in P3.
    - rewrite service_read, P2 in Hserve by (by rewrite ?P3, ?P4). congruence.
    - unfold bridge_service in Hserve. rewrite P1, P2, P3, P4 in Hserve. cbn [Z.eqb] in Hserve.
      destruct (chip_wput br_off data w) as [w1|]; [|done]. exists w1. split; [done|]. by injection Hserve as <-. }
  assert (D : bridge_read8 BRIDGE_REG_DONE w2 = 1 ∧ bridge_read16 BRIDGE_REG_RESULT w2 = if read then chip_wget br_off w else 0).
  { destruct read; [subst w2|destruct A as (w1 & _ & ->)]; unfold bridge_answer; bridge_simp; (split; [done|]); [|done].
    apply u16_small, chip_wget_fits, Hw. }
  destruct D as [D1 D2]. unfold s1. rewrite D1, D2, E. split_and!; try done.
  intros d r. unfold br_waiting. change (Nat.iter (S ?m) ?f ?x) with (f (Nat.iter m f x)).
  fold (br_waiting (Z.to_nat WATCHDOG) s). rewrite br_waiting_eq by (done || lia).
  unfold br_step at 2, BridgeRegs.br_clock. cbn [BridgeRegs.state BridgeRegs.watchdog].
  rewrite (Z.mod_small WATCHDOG) by done. by destruct (Z.leb_spec WATCHDOG (Z.of_nat (Z.to_nat WATCHDOG))); [|lia].
Qed.
End bus_cycle.

(** ** The card's identity *)

(** The 68k reads nibble [i] of the autoconfiguration ROM, and turns it round. *)
Definition ac_cycle (i : Z) : bus := BusCycle (0xE80000 + 2 * i) true false false 0.
Definition ac_nibble (mac : list Z) (s : Autoconfig.autoconfig) (i : Z) : Z :=
  15 - bits 15 12 (Autoconfig.data_out (Autoconfig.ac_clock mac (ac_cycle i) s)).
Definition ac_byte (mac : list Z) (s : Autoconfig.autoconfig) (i : Z) : Z :=
  16 * ac_nibble mac s i + ac_nibble mac s (i + 1).

(** mac_byte2 to mac_byte5, from the MAC slot. *)
Definition mac_wires (w : world) : list Z := map (λ k, u8 (Z.shiftr (slot w DDR3_MAC_OFF) (32 + 8 * k))) [0; 1; 2; 3].

Lemma ac_nibble_rom mac s i : Autoconfig.card_shutup s = false → 0 ≤ i < 32 → fits 4 (nth (Z.to_nat i) (Autoconfig.rom mac) 0) →
  ac_nibble mac s i = nth (Z.to_nat i) (Autoconfig.rom mac) 0.
Proof.
  intros Hs Hi Hx.
  assert (B : (bits 23 16 (0xE80000 + 2 * i) =? 0xE8) && (bits 5 1 (0xE80000 + 2 * i) =? i) = true).
  { assert (F : forallb (λ i, (bits 23 16 (0xE80000 + 2 * i) =? 0xE8) && (bits 5 1 (0xE80000 + 2 * i) =? i)) (seqZ 0 32) = true)
      by by vm_compute. rewrite forallb_forall in F. apply (F i). apply list_elem_of_In, elem_of_seqZ. lia. }
  apply andb_prop in B as [B1 B2]. apply Z.eqb_eq in B2.
  unfold ac_nibble, Autoconfig.ac_clock, Autoconfig.sel_autoconfig. rewrite Hs. cbn [cpu_addr ac_cycle]. rewrite B1.
  cbn [negb andb cpu_as_n cpu_rw ac_cycle Autoconfig.data_out]. unfold Autoconfig.nibble_out, Autoconfig.nibble_idx.
  cbn [cpu_addr ac_cycle]. rewrite B2. set (x := nth _ _ 0) in *. clearbody x. destruct Hx as [H1 H2]. change (2 ^ 4) with 16 in H2.
  assert (F : forallb (λ x, 15 - bits 15 12 (Z.lor (Z.shiftl (15 - x) 12) 0xFFF) =? x) (seqZ 0 16) = true) by by vm_compute.
  rewrite forallb_forall in F. apply Z.eqb_eq, F, list_elem_of_In, elem_of_seqZ. lia.
Qed.

Lemma nibbles_byte m : fits 8 m → 16 * bits 7 4 m + bits 3 0 m = m.
Proof.
  intros [H1 H2]. unfold bits. rewrite Z.shiftr_div_pow2, Z.shiftr_0_r, !Z.land_ones by lia. cbn in H2.
  change (7 - 4 + 1) with 4. change (3 - 0 + 1) with 4. change (2 ^ 4) with 16. pose proof (Z.div_mod m 16).
  rewrite (Z.mod_small (m / 16)) by (pose proof (Z.div_lt_upper_bound m 16 16); pose proof (Z.div_pos m 16); lia). lia.
Qed.

Lemma bits_fits hi lo x : 0 ≤ hi - lo + 1 → fits (hi - lo + 1) (bits hi lo x).
Proof. intros H. unfold bits. rewrite Z.land_ones by done. by apply fits_mod. Qed.

Lemma mac_wires_slot m w : length m = 6%nat → Forall (fits 8) m → mac_wires (write_mbx_mac m w) = drop 2 m.
Proof.
  destruct m as [|m0 [|m1 [|m2 [|m3 [|m4 [|m5 [|]]]]]]]; try done. intros _ Hm. rewrite !Forall_cons in Hm.
  destruct Hm as (_ & _ & H2 & H3 & H4 & H5 & _). unfold mac_wires, write_mbx_mac. cbn [nth]. rewrite slot_set_eq.
  rewrite u64_small by (repeat apply fits_lor; try lia; try (apply fits_shiftl; [lia|lia|]; cbn); by apply (fits_mono 8) || by split).
  cbn [map drop]. repeat f_equal.
  all: apply (fits_bits_inj 8); [lia|apply fits_u8|done|]; intros i Hi; unfold u8; push_bits;
    destruct (Z.ltb_spec i 8); [|lia];
    repeat match goal with
    | H : fits 8 ?c |- context [Z.testbit ?c ?j] =>
        first [rewrite (fits_testbit 8 c j H) by lia | rewrite (Z.testbit_neg_r c j) by lia]
    | |- context [Z.testbit 1 ?j] => rewrite (fits_testbit 1 1 j) by (by split || lia)
    end; cbn [andb]; rewrite ?andb_true_r, ?orb_false_r, ?orb_false_l; f_equal; lia.
Qed.

(** The card identifies itself as product 0x70 of manufacturer 0x0202, and its serial
    number is the low part of the address the doorbell daemon has published. *)
Theorem autoconfig_identity (m : list Z) (s : Autoconfig.autoconfig) (w : world)
    (Hl : length m = 6%nat) (Hm : Forall (fits 8) m) (Hs : Autoconfig.card_shutup s = false) :
  let mac := mac_wires (write_mbx_mac m w) in
  ac_byte mac s 2 = 0x70 ∧ ac_byte mac s 8 = 0x02 ∧ ac_byte mac s 10 = 0x02 ∧
  [ac_byte mac s 12; ac_byte mac s 14; ac_byte mac s 16; ac_byte mac s 18] = drop 2 m.
Proof.
  intros mac. unfold mac. rewrite mac_wires_slot by done. clear mac.
  destruct m as [|m0 [|m1 [|m2 [|m3 [|m4 [|m5 [|]]]]]]]; try done. rewrite !Forall_cons in Hm.
  destruct Hm as (_ & _ & H2 & H3 & H4 & H5 & _). cbn [drop].
  unfold ac_byte. rewrite !ac_nibble_rom; try done; try lia; try by (split; vm_compute); try apply (bits_fits 7 4); try apply (bits_fits 3 0); try lia.
  split_and!; try by vm_compute. repeat (apply (f_equal2 cons); [by apply nibbles_byte|]). done.
Qed.

(** ** Where the modules differ from the code *)

(** The register file answers reads of the chip id and of CSR4 and up on its own, and
    otherwise than the chip would. *)
Theorem regfile_reads_differ (base r : Z) (i : Regfile.rf_inputs) (rf : Regfile.regfile) (w : world)
    (Hbase : fits 8 base) (Hi : Regfile.card_base i = base ∧ Regfile.card_configured i = true)
    (Hrf : Regfile.rap rf = r) (Hw : State.rap (w_reg w) = r) (Hr : r = 88 ∨ 4 ≤ r < 88) :
  Regfile.rf_data_out i (reg_cycle base true false 0) rf = (if r =? 88 then 0x0001 else 0) ∧
  chip_wget A2065_RDP_OFF w = if r =? 88 then 0x1000 else registers_csr r w.
Proof.
  destruct Hi as [Hi Hc]. destruct (reg_cycle_bits base true false 0 Hbase) as (E1 & E2 & _).
  split.
  - unfold Regfile.rf_data_out, Regfile.chip_id_out. rewrite Hi, Hc, E1, E2, Hrf. cbn [andb cpu_rw reg_cycle].
    destruct (Z.eqb_spec r 88); [done|]. destruct (Z.eqb_spec r 89), (Z.ltb_spec r 4); lia || done.
  - unfold chip_wget, registers_csr. rewrite Hw. cbn [Z.eqb A2065_RDP_OFF A2065_RAP_OFF]. unfold RAP_SIZE.
    destruct (Z.leb_spec 128 r), (Z.eqb_spec r 0), (Z.eqb_spec r 88), (Z.eqb_spec r 89), (Z.leb_spec 0 r), (Z.ltb_spec r 128);
      lia || done.
Qed.

(** With BRIDGE_LOCAL a read of a register stores what is on the bus in it, and a write of
    it stores nothing. *)
Theorem local_rw_inverted (base r d : Z) (s : LocalRegs.local_regs)
    (Hbase : fits 8 base) (Hr : LocalRegs.rap s = r) (Hr4 : 4 ≤ r < 128) (Hl : length (LocalRegs.csr s) = 128%nat) :
  LocalRegs.lr_csr_at r (LocalRegs.lr_clock base true (reg_cycle base true false d) s) = d ∧
  LocalRegs.csr (LocalRegs.lr_clock base true (reg_cycle base false false d) s) = LocalRegs.csr s.
Proof.
  destruct (reg_cycle_bits base true false d Hbase) as (E1 & _ & E3).
  destruct (reg_cycle_bits base false false d Hbase) as (F1 & _ & F3). unfold LocalRegs.lr_clock.
  rewrite E1, E3, F1, F3. cbn [LocalRegs.rap LocalRegs.csr cpu_rw cpu_data_in reg_cycle Z.eqb A2065_RDP_OFF]. rewrite Hr. split.
  - destruct (Z.eqb_spec r 0), (Z.eqb_spec r 1), (Z.eqb_spec r 2), (Z.eqb_spec r 3); try lia.
    unfold LocalRegs.lr_csr_at, LocalRegs.lr_set_csr. cbn. rewrite nth_lookup, list_lookup_insert_eq by lia. done.
  - by repeat case_match.
Qed.

(** There STOP does not stop: transmitter and receiver bits survive it. *)
Theorem local_stop_ignored (c d : Z) :
  flag (LocalRegs.csr0_next c d) CSR0_TXON = flag c CSR0_TXON ∧ flag (LocalRegs.csr0_next c d) CSR0_RXON = flag c CSR0_RXON.
Proof.
  unfold LocalRegs.csr0_next. cbv zeta. set (x := Z.land (Z.land _ (Z.lnot (Z.land d _))) (Z.lnot 0x8000)).
  assert (N : negb (Z.land d 4 =? 0) && negb (Z.land (Z.lnot x) 4 =? 0) = false).
  { change (flag d CSR0_STOP && flag (Z.lnot x) CSR0_STOP = false). unfold x. flags_to_bits. push_bits.
    by destruct (Z.testbit c 2), (Z.testbit d 2). }
  rewrite N. unfold x. split; flags_to_bits; push_bits; done.
Qed.

(** A byte write of the 68k replaces the whole word. *)
Theorem ddr_byte_write_clobbers (L k : Z) (i : DdrWindow.dw_inputs) (s : DdrWindow.ddr_window)
    (HL : 0 ≤ L < 2 ^ 16) (Hidle : DdrWindow.state s = DdrWindow.S_IDLE) (Hsel : DdrWindow.sel_br i = true)
    (Harm : DdrWindow.arm_wr i = false) (Hk : DdrWindow.wa i = k) (Hbyte : DdrWindow.hwr i = false ∧ DdrWindow.lwr i = true) :
  DdrWindow.dw_word (DdrWindow.ram (dw_cycle L i (Z.to_nat L + 2) s)) k = DdrWindow.data_in i.
Proof.
  destruct Hbyte as [Hh Hl]. replace (Z.to_nat L + 2)%nat with (S (S (Z.to_nat L))) by lia.
  change (dw_cycle L i (S (S (Z.to_nat L))) s) with (DdrWindow.dw_clock L i (dw_cycle L i (S (Z.to_nat L)) s)).
  rewrite dw_selected by done. unfold DdrWindow.dw_clock, DdrWindow.is_write. rewrite Harm, Hh, Hl. cbn.
  destruct (Z.eqb_spec (L - Z.of_nat (Z.to_nat L)) 0); [|lia]. cbn. rewrite Hk. unfold DdrWindow.dw_word. by rewrite lookup_insert_eq.
Qed.

(** ** Examples *)

(** The driver writes 0x100 to CSR1 of a stopped chip and reads it back. *)
Definition ex_rf : Regfile.regfile := Regfile.MkRegfile 0 [4; 0; 0; 0] false false false 0 0.

Lemma doorbell_card_witness : ∃ w',
  let i := Regfile.Inputs 0xE9 true false [4; 0; 0; 0] in
  let i' := Regfile.Inputs 0xE9 true false (csr_wires w') in
  let rf2 := rf_cycle 3 i (reg_cycle 0xE9 false false 0x100) (rf_cycle 3 i (reg_cycle 0xE9 false true 1) ex_rf) in
  cmd_step ex_stack (set_slot DDR3_CMD_OFF (cmd_word 1 0x100) ex_started) = Ok w' ∧
  Regfile.rf_data_out i' (reg_cycle 0xE9 true false 0) (rf_cycle 3 i' (reg_cycle 0xE9 true false 0) rf2) = 0x100.
Proof.
  assert (E : (if @chip_wputs doorbell_int (Some (on_transmit_cb ex_stack)) (write_csr 1 0x100)
      (set_slot DDR3_CMD_OFF (cmd_word 1 0x100) ex_started) is Ok w2 then registers_csr 1 w2 =? 0x100 else false) = true)
    by by vm_compute.
  destruct (@chip_wputs _ _ _ _) as [w2|] eqn:X; [|done]. apply Z.eqb_eq in E.
  destruct (doorbell_card ex_stack 0xE9 1 0x100 3 3 3 false [4; 0; 0; 0] ex_rf ex_started w2) as (_ & w' & H1 & _ & H2);
    [by split|by split|by split|apply ex_started_ok|exact X|].
  exists w'. split; [exact H1|]. rewrite <-E. apply H2. lia.
Defined.

(** The 68k writes a word at offset 0x102 of the card at 0xE9 with a latency of two clocks. *)
Definition ex_dw : DdrWindow.ddr_window := DdrWindow.MkWindow DdrWindow.S_IDLE 0 0 0 false 0 ∅.

Lemma ddr_window_refines_witness :
  let i := ram_cycle 0xE9 0x102 false false 0xABCD in
  DdrWindow.nrdy i (dw_cycle 2 i 3 ex_dw) = true ∧ DdrWindow.nrdy i (dw_cycle 2 i 4 ex_dw) = false ∧
  shows 0 (DdrWindow.ram (dw_cycle 2 i 4 ex_dw)) (put_ram_word 0 ∅ 0x102 0xABCD).
Proof.
  destruct (ddr_window_refines 2 0 0xE9 0x102 0xABCD false false ex_dw ∅) as (H0 & H1 & _ & H2 & _);
    [lia|done|lia|intros a; by split|by intros k Hk|].
  split_and!; [by apply H0; lia|exact H1|apply H2; by left].
Defined.

(** The 68k reads CSR0; the daemon answers after five clocks. *)
Definition ex_br_window : world := read_request A2065_RDP_OFF ex_bridge.

Lemma bridge_bus_cycle_witness : ∃ w2, bridge_service ex_bridge_stk ex_br_window = Ok w2 ∧
  let s1 := br_step 700000 0xE9 true false 0 true (bridge_read16 BRIDGE_REG_RESULT w2)
    (br_waiting 700000 0xE9 true false 0 5 BridgeRegs.br_reset) in
  BridgeRegs.data_out (br_step 700000 0xE9 true false 0 false 0 s1) = CSR0_STOP.
Proof.
  destruct (is_ok_Ok (bridge_service ex_bridge_stk ex_br_window)) as [w2 E]; [by vm_compute|].
  assert (P : posted (br_waiting 700000 0xE9 true false 0 5 BridgeRegs.br_reset) ex_br_window).
  { rewrite br_waiting_eq by (lia || done || by split). split; by vm_compute. }
  destruct (bridge_bus_cycle 700000 0xE9 true false 0 ltac:(lia) ltac:(by split) ex_bridge_stk 5 BridgeRegs.br_reset
    ex_br_window w2) as (_ & _ & A & _ & _ & _ & D & _); [done|lia| |exact P|exact E|].
  { eapply chip_ok_frame; [apply read_request_frame|apply ex_bridge_ok]. }
  exists w2. split; [exact E|]. cbv zeta. specialize (D false 0) as [_ D].
  assert (R : bridge_read8 BRIDGE_REG_DONE w2 = 1) by (rewrite A; unfold bridge_answer; by bridge_simp).
  rewrite R in D. change (negb (1 =? 0)) with true in D. rewrite D. by vm_compute.
Defined.
