(* ===== verification/BridgeThreads.v ===== *)
(** * The two threads of the bridge daemon (arm/src/main.cpp)

    [main]'s loop and [rx_thread] work on the same chip without taking a lock.  Here they
    are code of Threads.v: a load or a store of [csr[0]], the update of a ring position or
    of another variable, an access to a byte of board RAM or to a bridge register is one
    step, and the threads' steps and the stores of the FPGA and of the 68k are interleaved
    by a schedule.  The configuration a function of rings.cpp reads (mode, ring, addresses)
    is read in one step. *)

From S2P Require Import Prelude Types Window Crc32 Mac State Registers Rings Slots Descriptors MainDdr3 RemoteChip Bridge Threads.

(** There are no locked sections to log. *)
Abbreviation bcode := (code Empty_set).

(** ** Code *)

Definition b_rdb (off : Z) : bcode Z := get (λ w, ram_byte w off).
Definition b_wrb (off v : Z) : bcode () :=
  put (λ w, set_w_win (put_ram_byte (w_boardram w) (w_win w) off v) w).

Fixpoint b_read_block (off : Z) (n : nat) : bcode (list Z) :=
  match n with
  | O => CRet []
  | S n => b ← b_rdb off; bs ← b_read_block (off + 1) n; CRet (b :: bs)
  end.

Fixpoint b_write_block (off : Z) (src : list Z) : bcode () :=
  match src with
  | [] => skip
  | v :: src => _ ← b_wrb off v; b_write_block (off + 1) src
  end.

(** The chip code of RemoteChip.v on flat board RAM; nothing retries a transmission here. *)
Fixpoint b_chip {A} (p : prog A) : bcode A :=
  match p with
  | Ret a => CRet a
  | Fail e => CErr e
  | Get k => CStep id (λ w, b_chip (k (chip_view w)))
  | Upd f k => CStep (λ w, set_chip (f (chip_view w)) w) (λ _, b_chip k)
  | Int k => CStep bridge_on_interrupt_cb (λ _, b_chip k)
  | Retry k => b_chip k
  | RdB off k => b ← b_rdb off; b_chip (k b)
  | RdW off k => hi ← b_rdb off; lo ← b_rdb (off + 1); b_chip (k (u16 (Z.lor (Z.shiftl hi 8) lo)))
  | WrW off v k => _ ← b_wrb off (Z.shiftr v 8); _ ← b_wrb (off + 1) (u8 v); b_chip k
  | RdBlk off n k => l ← b_read_block off n; b_chip (k l)
  | WrBlk off src k => _ ← b_write_block off src; b_chip k
  end.

Definition b_chip_wput (stk : list Z) (reg_offset v : Z) : bcode () :=
  if reg_offset =? A2065_RAP_OFF then put (upd_reg (set_rap (Z.land v 0x7f)))
  else
    n ← get (λ w, rap (w_reg w));
    if RAP_SIZE <=? n then skip
    else if n =? 0 then b_chip (prog_wput_csr0 (prog_do_transmit stk) v)
    else put (wput_plain n v).

Definition b_service (stk : list Z) : bcode () :=
  req ← get (bridge_read8 BRIDGE_REG_NEW_REQ);
  if req =? 0 then skip
  else
    addr_off ← get (bridge_read8 BRIDGE_REG_ADDR);
    rw ← get (bridge_read8 BRIDGE_REG_RW);
    data ← get (bridge_read16 BRIDGE_REG_DATA);
    result ← (if rw =? 0 then get (chip_wget addr_off)
              else _ ← b_chip_wput stk addr_off data; CRet 0);
    _ ← put (bridge_write16 BRIDGE_REG_RESULT result);
    put (bridge_write8 BRIDGE_REG_DONE 1).

(** The main loop with its local [tx_poll_counter], and the receive thread. *)
Inductive b_label :=
| BLoop (tx_poll_counter : Z)
| BRecv.

Definition b_main (stk : list Z) (lbl : b_label) : bcode b_label :=
  match lbl with
  | BLoop counter =>
      _ ← b_service stk;
      if 1000 <=? counter + 1 then _ ← b_chip (prog_do_transmit stk); CRet (BLoop 0)
      else CRet (BLoop (counter + 1))
  | BRecv => CRet BRecv
  end.

Definition b_rx (stk rxbuf : list Z) (len : Z) : bcode b_label :=
  if 0 <? len then _ ← b_chip (prog_gotfunc stk rxbuf len); CRet BRecv else CRet BRecv.

Definition b_reload (stk : list Z) (t : tid) (frame : list Z * Z) (lbl : b_label) : bcode b_label :=
  match t with Main => b_main stk lbl | Rx => b_rx stk frame.1 frame.2 end.

(** ** Schedules *)

(** A thread steps, or the other side of the bridge stores a byte of the window. *)
Inductive bt_event :=
| BtRun (t : tid) (frame : list Z * Z)
| BtStore (a v : Z).

Definition bt_step (stk : list Z) (e : bt_event) (s : threads Empty_set b_label) :
    res (threads Empty_set b_label) :=
  match e with
  | BtRun t frame => thread_step skip (b_reload stk) t true frame s
  | BtStore a v =>
      let w := th_world s in
      Ok (Threads (set_w_win (wr8 (w_win w) a v) w) (th_lock s) (th_main s) (th_rx s) (th_log s))
  end.

Fixpoint bt_exec (stk : list Z) (es : list bt_event) (s : threads Empty_set b_label) :
    res (threads Empty_set b_label) :=
  match es with
  | [] => Ok s
  | e :: es => s ← bt_step stk e s; bt_exec stk es s
  end.

(** main.cpp never calls [registers_lock_init]. *)
Definition bt_start (w : world) : threads Empty_set b_label :=
  Threads w mutex_init (CRet (BLoop 0)) (CRet BRecv) [].

(** ** Lemmas: a thread alone is the sequential model *)

Lemma solo_b_read off n w : solo (b_read_block off n) w = Ok (read_block w off n, w).
Proof.
  revert off. induction n as [|n IH]; intros off; [done|]. cbn [b_read_block]. unfold b_rdb.
  rewrite solo_get, solo_bind, IH. done.
Qed.

Lemma solo_b_write off src w : solo (b_write_block off src) w = Ok (tt, write_block off src w).
Proof.
  revert off w. induction src as [|v src IH]; intros off w; [by destruct w|]. cbn [b_write_block]. unfold b_wrb.
  rewrite solo_put. apply IH.
Qed.

Abbreviation b_run := (run_on bridge_on_interrupt_cb id).

Lemma solo_b_chip {A} (p : prog A) w : solo (b_chip p) w = b_run p w.
Proof.
  revert w. induction p as [a|e|k IH|c k IH|k IH|k IH|off k IH|off k IH|off v k IH|off n k IH|off src k IH];
    intros w; cbn [b_chip run_on solo]; try done; try apply IH.
  - rewrite solo_bind, solo_b_read. apply IH.
  - rewrite solo_bind, solo_b_write. apply IH.
Qed.

Lemma b_run_gotfunc stk b len w : b_run (prog_gotfunc stk b len) w
  = (w ← @gotfunc bridge_int stk b len w; Ok (tt, w)).
Proof. apply flat_gotfunc. Qed.

Lemma b_run_transmit stk w : b_run (prog_do_transmit stk) w = @do_transmit bridge_int stk w.
Proof. apply flat_do_transmit. Qed.

Lemma b_run_wput stk v w : b_run (prog_wput_csr0 (prog_do_transmit stk) v) w
  = (w ← @wput_csr0 bridge_int (Some (bridge_on_transmit_cb stk)) v w; Ok (tt, w)).
Proof. apply flat_wput_csr0. intros u. apply b_run_transmit. Qed.

Lemma solo_b_wput stk off v w : solo (b_chip_wput stk off v) w
  = (w ← @chip_wput bridge_int (Some (bridge_on_transmit_cb stk)) off v w; Ok (tt, w)).
Proof.
  unfold b_chip_wput, chip_wput. cbv zeta. destruct (off =? A2065_RAP_OFF); [done|]. rewrite solo_get.
  destruct (RAP_SIZE <=? _); [done|]. destruct (_ =? 0).
  - rewrite solo_b_chip. apply b_run_wput.
  - cbn [solo put id]. unfold wput_plain. repeat (case_match; try done).
Qed.

Lemma solo_b_service stk w : solo (b_service stk) w = (w ← bridge_service stk w; Ok (tt, w)).
Proof.
  unfold b_service, bridge_service. rewrite solo_get. destruct (_ =? 0); [done|]. cbv zeta. rewrite !solo_get, solo_bind.
  set (addr := bridge_read8 BRIDGE_REG_ADDR w). set (data := bridge_read16 BRIDGE_REG_DATA w).
  destruct (bridge_read8 BRIDGE_REG_RW w =? 0); [done|]. rewrite solo_bind, solo_b_wput.
  by destruct (chip_wput addr data w).
Qed.

Lemma solo_b_main stk n w : solo (b_main stk (BLoop n)) w
  = ('(n, w) ← bridge_pass stk (n, w); Ok (BLoop n, w)).
Proof.
  cbn [b_main]. unfold bridge_pass. rewrite solo_bind, solo_b_service.
  destruct (bridge_service stk w) as [w1|]; [solo_ok|done]. destruct (1000 <=? n + 1); [|done].
  rewrite solo_bind, solo_b_chip, b_run_transmit. by destruct (do_transmit stk w1) as [[]|].
Qed.

Lemma solo_b_rx stk rxbuf len w : solo (b_rx stk rxbuf len) w
  = (w ← bridge_rx_step stk rxbuf len w; Ok (BRecv, w)).
Proof.
  unfold b_rx, bridge_rx_step. destruct (0 <? len); [|done]. rewrite solo_bind, solo_b_chip, b_run_gotfunc.
  by destruct (gotfunc _ _ _ _).
Qed.

(** ** Lemmas: one thread runs *)

Lemma bt_exec_app stk es es' s s' : bt_exec stk es s = Ok s' → bt_exec stk (es ++ es') s = bt_exec stk es' s'.
Proof.
  revert s. induction es as [|e es IH]; intros s; cbn [bt_exec app]; [by intros [= ->]|].
  intros H. bind_inv H. rewrite Hx. by apply IH.
Qed.

(** Without an initialised mutex nothing is locked, and nothing is logged. *)
Lemma b_code_step {A} t (c : bcode A) w c' w' l' o :
  code_step skip t true c w mutex_init = Ok (c', w', l', o) → l' = mutex_init ∧ o = [].
Proof.
  destruct c as [| | |o1 k| |]; cbn; intros [= <- <- <- <-]; split; try done. by destruct (o1 w) as [|[]].
Qed.

(** The main thread alone runs to the end of its pass. *)
Lemma bt_main_steps stk frame n c w rx log a w' l' :
  code_steps n skip Main c w mutex_init = Ok (CRet a, w', l') →
  ∃ m, bt_exec stk (replicate m (BtRun Main frame)) (Threads w mutex_init c rx log)
    = Ok (Threads w' mutex_init (CRet a) rx log).
Proof.
  revert c w. induction n as [|n IH]; intros c w; cbn [code_steps].
  { intros [= -> -> ->]. by exists 0%nat. }
  intros H. bind_inv H. destruct x as [[[c1 w1] l1] o1]. destruct (b_code_step _ _ _ _ _ _ _ Hx) as [-> ->].
  destruct (IH c1 w1 H) as (m & Em). destruct c as [b|e|f k|o k|k|k]; [|done|..];
    try (exists (S m); cbn [replicate bt_exec bt_step]; unfold thread_step; cbn [th_code th_main th_world th_lock];
      rewrite Hx; cbn; by rewrite app_nil_r).
  injection Hx as <- <-. by exists m.
Qed.

Lemma bt_main_pass stk frame n w rx log n' w' : bridge_pass stk (n, w) = Ok (n', w') →
  ∃ es, bt_exec stk es (Threads w mutex_init (CRet (BLoop n)) rx log)
      = Ok (Threads w' mutex_init (CRet (BLoop n')) rx log) ∧ Forall (λ e, e = BtRun Main frame) es.
Proof.
  intros H. pose proof (solo_reaches skip Main (b_main stk (BLoop n)) w mutex_init (or_introl eq_refl)) as R.
  rewrite solo_b_main, H in R. destruct R as (m & l' & R & _). apply (bt_main_steps stk frame _ _ _ rx log) in R as [k R].
  exists (BtRun Main frame :: replicate k (BtRun Main frame)). split; [exact R|].
  constructor; [done|]. by apply Forall_replicate.
Qed.

(** The receive thread, about to set a bit of CSR0: the load, then the store. *)
Definition b_or_csr0 (bit : Z) (p : prog ()) : bcode b_label :=
  _ ← b_chip (_ ← rmw0 (λ c, Z.lor c bit); p); CRet BRecv.
Definition b_store_csr0 (c : Z) (p : prog ()) : bcode b_label :=
  _ ← b_chip (_ ← upd (set_csr0 c); p); CRet BRecv.

Lemma bt_rx_load stk frame bit p w l m log es :
  bt_exec stk (BtRun Rx frame :: es) (Threads w l m (b_or_csr0 bit p) log)
  = bt_exec stk es (Threads w l m (b_store_csr0 (Z.lor (csr0 w) bit) p) log).
Proof. by cbn; rewrite app_nil_r. Qed.

Lemma bt_rx_store stk frame c p w l m log :
  bt_exec stk [BtRun Rx frame] (Threads w l m (b_store_csr0 c p) log)
  = Ok (Threads (set_csr0 c w) l m (_ ← b_chip p; CRet BRecv) log).
Proof.
  pose proof (set_csr0_local c w) as E. rewrite <-E. by cbn; rewrite app_nil_r.
Qed.

(** The answered write of STOP. *)
Lemma bridge_pass_stop stk n w : world_ok w → flag (csr0 w) CSR0_STOP = false → rap (w_reg w) = 0 → n + 1 < 1000 →
  bridge_read8 BRIDGE_REG_NEW_REQ w ≠ 0 → bridge_read8 BRIDGE_REG_RW w ≠ 0 →
  bridge_read8 BRIDGE_REG_ADDR w = A2065_RDP_OFF → flag (bridge_read16 BRIDGE_REG_DATA w) CSR0_STOP = true →
  bridge_pass stk (n, w) = Ok (n + 1, bridge_answer 0 (upd_reg (set_csr_at 3 0) (set_csr0 CSR0_STOP w))).
Proof.
  intros Hw Hrun Hrap Hn Hreq Hrw Haddr Hdata. unfold bridge_pass. erewrite service_write; [|done|done|].
  - cbn [mbind res_bind]. by destruct (Z.leb_spec 1000 (n + 1)); [lia|].
  - rewrite Haddr. by apply chip_wput_stop.
Qed.

(** ** A stopped chip that runs *)

(** C24: A STOP can be undone.  The receive thread is about to set RINT for a frame it has
    stored, and loads CSR0; the main loop then does the 68k's write of STOP, completely, and
    answers it; the receive thread stores what it had loaded, with RINT.  The driver has
    been told that the chip is stopped, and the chip runs on, its receiver and transmitter
    as before.  No lock keeps the two threads apart in this daemon. *)
Theorem bridge_stop_undone (stk : list Z) (w : world) (n : Z) (p : prog ()) (log : list Empty_set)
    (Hw : world_ok w) (Hrun : flag (csr0 w) CSR0_STOP = false) (Hrap : rap (w_reg w) = 0) (Hn : n + 1 < 1000)
    (Hreq : bridge_read8 BRIDGE_REG_NEW_REQ w ≠ 0) (Hrw : bridge_read8 BRIDGE_REG_RW w ≠ 0)
    (Haddr : bridge_read8 BRIDGE_REG_ADDR w = A2065_RDP_OFF)
    (Hdata : flag (bridge_read16 BRIDGE_REG_DATA w) CSR0_STOP = true) :
  let c := Z.lor (csr0 w) CSR0_RINT in
  ∃ es w1,
    bt_exec stk (BtRun Rx ([], 0) :: es) (Threads w mutex_init (CRet (BLoop n)) (b_or_csr0 CSR0_RINT p) log)
      = Ok (Threads w1 mutex_init (CRet (BLoop (n + 1))) (b_store_csr0 c p) log) ∧
    Forall (λ e, e = BtRun Main ([], 0)) es ∧
    csr0 w1 = CSR0_STOP ∧ bridge_read8 BRIDGE_REG_DONE w1 = 1 ∧
    bt_exec stk [BtRun Rx ([], 0)] (Threads w1 mutex_init (CRet (BLoop (n + 1))) (b_store_csr0 c p) log)
      = Ok (Threads (set_csr0 c w1) mutex_init (CRet (BLoop (n + 1))) (_ ← b_chip p; CRet BRecv) log) ∧
    csr0 (set_csr0 c w1) = c ∧ flag c CSR0_STOP = false.
Proof.
  intros c. set (ws := upd_reg (set_csr_at 3 0) (set_csr0 CSR0_STOP w)).
  destruct (bt_main_pass stk ([], 0) n w (b_store_csr0 c p) log _ _
    (bridge_pass_stop stk n w Hw Hrun Hrap Hn Hreq Hrw Haddr Hdata)) as (es & E & Hes).
  assert (Hok : regs_ok (w_reg (set_csr0 CSR0_STOP w))) by (apply regs_ok_set_csr_at; [apply Hw|by split]).
  exists es, (bridge_answer 0 ws). split_and!; [|done| | | | |].
  - by rewrite bt_rx_load.
  - change (csr0 ws = CSR0_STOP). unfold ws. rewrite csr0_csr_write by lia. apply csr0_set_csr0, Hw.
  - unfold bridge_answer. bridge_simp. done.
  - apply bt_rx_store.
  - apply csr0_set_csr0. change (regs_ok (w_reg ws)). apply regs_ok_set_csr_at; [done|by split].
  - unfold c. flags_to_bits. push_bits. by rewrite Hrun.
Qed.

(** ** Example *)

(** The chip runs with one receive descriptor, a broadcast frame arrives while the driver
    writes STOP; the receive thread has stored the frame. *)
Definition ex_bridge_win : window :=
  let put_ram_word := put_ram_word BRIDGE_BOARDRAM_OFF in
  put_ram_word (put_ram_word (put_ram_word ∅ 0x2000 0x4000) 0x2002 RX_OWN) 0x2004 (65536 - 80).
Definition ex_bridge_running : world :=
  write_request A2065_RDP_OFF CSR0_STOP
    (set_w_boardram BRIDGE_BOARDRAM_OFF (card 0 CSR0_RUNNING 0 ex_bridge_win)).
Definition ex_bridge_frame : list Z := replicate 6 255 ++ replicate 54 0.

(** [gotfunc] after the RINT bit. *)
Definition gotfunc_tail : prog () :=
  _ ← prog_rethink;
  upd (λ c, if flag (registers_mode c) MODE_LOOP
       then upd_ring (λ g, set_loopback_iter (loopback_iter g + 1) g) c else c).

Definition ex_to_rint : list bt_event := replicate 97 (BtRun Rx (ex_bridge_frame, 60)).

Definition at_rint (s : threads Empty_set b_label) : Prop :=
  let w := th_world s in
  th_lock s = mutex_init ∧ th_main s = CRet (BLoop 0) ∧ th_log s = [] ∧
  w_reg w = set_rdr_offset 1 (w_reg ex_bridge_running) ∧ w_mac w = w_mac ex_bridge_running ∧
  w_ring w = w_ring ex_bridge_running ∧ bytesb (snd <$> map_to_list (w_win w)) = true ∧
  bridge_read8 BRIDGE_REG_NEW_REQ w = 1 ∧ bridge_read8 BRIDGE_REG_RW w = 1 ∧
  bridge_read8 BRIDGE_REG_ADDR w = A2065_RDP_OFF ∧ bridge_read16 BRIDGE_REG_DATA w = CSR0_STOP.

Lemma ex_at_rint : match bt_exec ex_bridge_stk ex_to_rint (bt_start ex_bridge_running) with
  Ok s => at_rint s | Err _ => False end.
Proof. vm_compute. repeat split. Qed.

Lemma ex_rx_at_rint : match bt_exec ex_bridge_stk ex_to_rint (bt_start ex_bridge_running) with
  Ok s => th_rx s | Err e => CErr e end = b_or_csr0 CSR0_RINT gotfunc_tail.
Proof. reflexivity. Qed.

Lemma bytesb_window_ok (win : window) : bytesb (snd <$> map_to_list win) = true → window_ok win.
Proof.
  intros H a v E. apply bytesb_Forall in H. rewrite Forall_forall in H. apply H.
  apply list_elem_of_fmap. exists (a, v). split; [done|by apply elem_of_map_to_list].
Qed.

Lemma ex_rint_ok s : at_rint s → world_ok (th_world s).
Proof.
  intros (_ & _ & _ & Hr & Hm & Hg & Hb & _).
  assert (Hc : world_ok (card 0 CSR0_RUNNING 0 ∅)) by (apply card_ok; [by split..|done|by vm_compute|lia|apply window_ok_empty]).
  split; unfold csr0; rewrite ?Hr, ?Hm, ?Hg; try apply Hc; [|by apply bytesb_window_ok].
  destruct Hc as [[] _ _ _ _ _]. by split.
Qed.

Lemma at_rint_eq s c : at_rint s → th_rx s = c → s = Threads (th_world s) mutex_init (CRet (BLoop 0)) c [].
Proof. destruct s. intros (L & M & G & _) X. cbn in *. by subst. Qed.

Lemma bridge_stop_undone_witness : ∃ es w1 w2,
  bt_exec ex_bridge_stk (ex_to_rint ++ BtRun Rx ([], 0) :: es) (bt_start ex_bridge_running)
    = Ok (Threads w1 mutex_init (CRet (BLoop 1)) (b_store_csr0 (Z.lor CSR0_RUNNING CSR0_RINT) gotfunc_tail) []) ∧
  csr0 w1 = CSR0_STOP ∧
  bt_exec ex_bridge_stk (ex_to_rint ++ (BtRun Rx ([], 0) :: es) ++ [BtRun Rx ([], 0)]) (bt_start ex_bridge_running)
    = Ok (Threads w2 mutex_init (CRet (BLoop 1)) (_ ← b_chip gotfunc_tail; CRet BRecv) []) ∧
  flag (csr0 w2) CSR0_RXON = true.
Proof.
  pose proof ex_at_rint as P. pose proof ex_rx_at_rint as X.
  destruct (bt_exec _ ex_to_rint _) as [s|] eqn:E; [|done]. pose proof (ex_rint_ok s P) as Hw.
  pose proof (at_rint_eq s _ P X) as Es. rewrite Es in E. clear Es X.
  destruct P as (_ & _ & _ & R & _ & _ & _ & H1 & H2 & H3 & H4). set (w := th_world s) in *.
  assert (C : csr0 w = CSR0_RUNNING) by (unfold csr0; by rewrite R).
  destruct (bridge_stop_undone ex_bridge_stk w 0 gotfunc_tail [] Hw) as (es & w1 & S1 & _ & S2 & _ & S3 & S4 & _);
    [by rewrite C|by rewrite R|lia|by rewrite H1|by rewrite H2|done|by rewrite H4|]. rewrite C in *.
  exists es, w1, (set_csr0 (Z.lor CSR0_RUNNING CSR0_RINT) w1).
  do 2 rewrite (bt_exec_app _ _ _ _ _ E). split; [exact S1|]. split; [exact S2|].
  rewrite (bt_exec_app _ _ _ _ _ S1). split; [exact S3|]. by rewrite S4.
Defined.
