(* ===== verification/BridgeSafe.v ===== *)
(** * What holds of the bridge daemon under every schedule

    The two threads of main.cpp share the chip without a lock (BridgeThreads.v).  CSR0 can
    lose updates; here is what cannot go wrong: every variable keeps its type, whatever is
    handed to the socket is a frame, and each loop ends, whatever the other thread, the
    FPGA and the 68k store between any two accesses. *)

From S2P Require Import Prelude Types Window Crc32 Mac State Registers Rings Slots MainDdr3 RemoteChip Bridge Threads BridgeThreads.

(** ** The types of the shared variables *)

(** [regs_ok] asks for masked ring addresses and bounded ring positions, which hold between
    the calls of the chip code but not at every access. *)
Definition settled (r : regs) : regs :=
  set_rdr_offset 0 (set_tdr_offset 0 (set_am_rdr_rdra 0 (set_am_tdr_tdra 0 r))).

Record shared_ok (w : world) : Prop := SharedOk {
  sh_regs : regs_ok (settled (w_reg w));
  sh_rdra : fits 24 (am_rdr_rdra (w_reg w));
  sh_tdra : fits 24 (am_tdr_tdra (w_reg w));
  sh_rdr_offset : 0 ≤ rdr_offset (w_reg w);
  sh_tdr_offset : 0 ≤ tdr_offset (w_reg w);
  sh_mac : macs_ok (w_mac w);
  sh_buf_len : length (transmitbuffer (w_ring w)) = 4096%nat;
  sh_buf_bytes : Forall (fits 8) (transmitbuffer (w_ring w));
  sh_win : window_ok (w_win w);
  sh_sent : Forall frame_ok (w_sent w) }.

Lemma settled_ok r : regs_ok r → regs_ok (settled r).
Proof. intros []. by split. Qed.

Lemma shared_world_ok w : world_ok w → Forall frame_ok (w_sent w) → shared_ok w.
Proof.
  intros Hw Hs. assert (H := reg_ok w Hw). split; try apply Hw; try done; [by apply settled_ok|..];
    try (by apply (fits_mono 15); [lia|apply H]); apply H.
Qed.

(** ** Safe code *)

(** Chip code is safe when it keeps the types, from any values the other thread may have
    left, ends and gives a [Q]; it can fail only by an access outside a buffer. *)
Fixpoint safe {A} (Q : A → Prop) (p : prog A) : Prop :=
  match p with
  | Ret a => Q a
  | Fail e => e = OutOfBounds
  | Get k => ∀ c, shared_ok c → safe Q (k c)
  | Upd f k => (∀ c, shared_ok c → shared_ok (f c)) ∧ safe Q k
  | Int k | Retry k | WrW _ _ k | WrBlk _ _ k => safe Q k
  | RdB _ k => ∀ b, fits 8 b → safe Q (k b)
  | RdW _ k => ∀ v, fits 16 v → safe Q (k v)
  | RdBlk _ n k => ∀ l, length l = n → Forall (fits 8) l → safe Q (k l)
  end.

Fixpoint csafe {A} (Q : A → Prop) (c : bcode A) : Prop :=
  match c with
  | CRet a => Q a
  | CErr e => e = OutOfBounds
  | CStep f k => ∀ w, shared_ok w → shared_ok (f w) ∧ csafe Q (k w)
  | CLock _ k | CUnlock k | CWait k => csafe Q k
  end.

Definition any {A} (a : A) : Prop := True.

(** ** Lemmas: safe programs *)

Lemma safe_bind {A B} (Q : A → Prop) (R : B → Prop) (p : prog A) (q : A → prog B) :
  safe Q p → (∀ a, Q a → safe R (q a)) → safe R (a ← p; q a).
Proof.
  intros Hp Hq. induction p; cbn in *; try (by apply Hq); try done; try (intros; by auto); naive_solver.
Qed.

Lemma safe_asks {A} (f : world → A) : safe (λ a, ∃ c, shared_ok c ∧ a = f c) (asks f).
Proof. intros c Hc. by exists c. Qed.

Lemma safe_upd f : (∀ c, shared_ok c → shared_ok (f c)) → safe any (upd f).
Proof. by split. Qed.

Lemma safe_lift {A} (x : res A) : x ≠ Err OutOfFuel → safe (λ a, x = Ok a) (lift x).
Proof. by destruct x as [|[]]. Qed.

Lemma safe_rdb off : safe (fits 8) (rdb off).
Proof. by intros b. Qed.
Lemma safe_rdw off : safe (fits 16) (rdw off).
Proof. by intros v. Qed.
Lemma safe_wrw off v : safe any (wrw off v).
Proof. done. Qed.

(** ** Lemmas: what keeps the types *)

Lemma shared_csr0_fits c : shared_ok c → fits 16 (csr0 c).
Proof. intros Hc. apply (csr_at_fits 0 (settled (w_reg c))), Hc. Qed.

Lemma shared_csr n v c : fits 16 v → shared_ok c → shared_ok (upd_reg (set_csr_at n v) c).
Proof.
  intros Hv []. split; try done. change (settled _) with (set_csr_at n v (settled (w_reg c))).
  by apply regs_ok_set_csr_at.
Qed.

Lemma safe_rmw0 f : (∀ c, fits 16 c → fits 16 (f c)) → safe any (rmw0 f).
Proof.
  intros Hf. eapply safe_bind; [apply safe_asks|]. intros a (c & Hc & ->). apply safe_upd. intros w Hw.
  apply shared_csr; [|done]. by apply Hf, shared_csr0_fits.
Qed.

Lemma safe_ld0 : safe (fits 16) ld0.
Proof. intros c Hc. by apply shared_csr0_fits. Qed.

Lemma shared_rdr_offset f c : (∀ x, 0 ≤ x → 0 ≤ f x) → shared_ok c →
  shared_ok (upd_reg (λ r, set_rdr_offset (f (rdr_offset r)) r) c).
Proof. intros Hf []. split; try done. by apply Hf. Qed.

Lemma shared_tdr_offset f c : (∀ x, 0 ≤ x → 0 ≤ f x) → shared_ok c →
  shared_ok (upd_reg (λ r, set_tdr_offset (f (tdr_offset r)) r) c).
Proof. intros Hf []. split; try done. by apply Hf. Qed.

Lemma shared_ring b c : length b = 4096%nat → Forall (fits 8) b → shared_ok c →
  shared_ok (upd_ring (set_transmitbuffer b) c).
Proof. intros ?? []. by split. Qed.

(** The next statement of a program; what it gives is introduced. *)
Create HintDb safe.
#[export] Hint Resolve safe_asks safe_rdb safe_rdw safe_wrw safe_ld0 : safe.
Ltac safe_next := eapply safe_bind; [solve [eauto with safe]|intros ? ?].

#[export] Hint Extern 1 (safe _ (rmw0 _)) => apply safe_rmw0; intros; solve_fits : safe.

(** ** Lemmas: the chip code *)

Lemma safe_rethink : safe any prog_rethink.
Proof.
  unfold prog_rethink. do 2 safe_next. eapply (safe_bind any); [case_match; [eauto with safe|done]|intros _ _].
  safe_next. by case_match.
Qed.

Lemma safe_put_desc off md1 md3 : safe any (prog_put_desc off md1 md3).
Proof. unfold prog_put_desc. by safe_next. Qed.
#[export] Hint Resolve safe_rethink safe_put_desc : safe.

Lemma safe_ladrf off : safe (fits 64) (prog_load_ladrf off).
Proof. unfold prog_load_ladrf. do 4 safe_next. cbn. solve_fits. Qed.

Lemma safe_dr off_hi off_lo : safe (fits 32) (prog_load_dr off_hi off_lo).
Proof. unfold prog_load_dr. do 2 safe_next. cbn. solve_fits. Qed.

Lemma safe_mac off : safe (λ m, length m = 6%nat ∧ Forall (fits 8) m) (prog_load_mac off).
Proof. unfold prog_load_mac. do 6 safe_next. split; [done|by rewrite !Forall_cons]. Qed.
#[export] Hint Resolve safe_ladrf safe_dr safe_mac : safe.

Lemma shared_regs f c : regs_ok (settled (f (w_reg c))) → fits 24 (am_rdr_rdra (f (w_reg c))) →
  fits 24 (am_tdr_tdra (f (w_reg c))) → 0 ≤ rdr_offset (f (w_reg c)) → 0 ≤ tdr_offset (f (w_reg c)) →
  shared_ok c → shared_ok (upd_reg f c).
Proof. intros ????? []. by split. Qed.

Lemma shared_fakemac c : shared_ok c → shared_ok (upd_mac (mac_set_fakemac (fakemac (w_reg c))) c).
Proof. intros []. destruct sh_regs0, sh_mac0. by split. Qed.

(** A write of configuration variables: the bounds of the new values are left. *)
Ltac shared_config :=
  let c := fresh "c" in let Hc := fresh "Hc" in
  apply safe_upd; intros c Hc; apply shared_regs; [|try apply Hc..|exact Hc]; cbn;
  [destruct (sh_regs c Hc); split; cbn; try done|..].

Lemma safe_chip_init : safe any prog_chip_init.
Proof.
  unfold prog_chip_init. eapply safe_bind; [apply safe_upd; intros c []; by split|intros _ _].
  do 2 safe_next. eapply safe_bind; [shared_config|intros _ _]. safe_next.
  eapply safe_bind; [shared_config|intros _ _]. do 2 safe_next.
  assert (L : ∀ x, fits 32 x → fits 16 (Z.shiftl 1 (Z.land (Z.shiftr x 29) 7))).
  { intros x Hx. apply (fits_mono 8); [lia|]. assert (fits 3 (Z.land (Z.shiftr x 29) 7)) as [? ?] by (apply fits_land_r; [lia|by split]).
    rewrite Z.shiftl_1_l. split; [apply Z.pow_nonneg; lia|]. apply Z.pow_lt_mono_r; lia. }
  eapply safe_bind; [shared_config; try (by apply L); apply fits_land_r; lia || by split|intros _ _].
  eapply safe_bind; [apply safe_mac|intros m [Hl Hb]].
  eapply safe_bind; [shared_config|intros _ _].
  eapply safe_bind; [apply safe_upd, shared_fakemac|intros _ _].
  shared_config; apply fits_land_l; try lia; apply Hc.
Qed.

Lemma safe_csr0_on : safe any prog_csr0_on.
Proof.
  unfold prog_csr0_on. do 2 safe_next. eapply (safe_bind any); [case_match; [done|eauto with safe]|intros _ _].
  safe_next. case_match; [done|eauto with safe].
Qed.

Lemma safe_merge v : fits 16 v → safe any (prog_csr0_merge v).
Proof.
  intros Hv. unfold prog_csr0_merge. do 4 safe_next. eauto with safe.
Qed.
#[export] Hint Resolve safe_chip_init safe_csr0_on safe_merge : safe.

Lemma safe_csr n v : fits 16 v → safe any (upd (upd_reg (set_csr_at n v))).
Proof. intros Hv. apply safe_upd. intros c. by apply shared_csr. Qed.
#[export] Hint Extern 1 (safe _ (upd (set_csr0 _))) => apply (safe_csr 0); by split : safe.
#[export] Hint Extern 1 (safe _ (upd (upd_reg (set_csr_at _ _)))) => apply safe_csr; by split : safe.

Lemma safe_initialized b : safe any (upd (upd_reg (set_am_initialized b))).
Proof. shared_config. Qed.
#[export] Hint Resolve safe_initialized : safe.

Lemma safe_command oreg : safe any (prog_csr0_command oreg).
Proof.
  unfold prog_csr0_command. safe_next. case_match; [safe_next; eauto with safe|].
  safe_next. case_match.
  - do 2 safe_next. case_match; [|done]. do 2 safe_next. eauto with safe.
  - safe_next. case_match; [|done]. do 4 safe_next. eauto with safe.
Qed.

Lemma safe_demand on_transmit : safe any on_transmit → safe any (prog_csr0_demand on_transmit).
Proof.
  intros Ht. unfold prog_csr0_demand. safe_next. case_match; [|done]. safe_next.
  eapply (safe_bind any); [|intros _ _; eauto with safe]. case_match; [|done]. safe_next.
  eapply (safe_bind any); [case_match; [done|eauto with safe]|intros _ _]. by eapply safe_bind; [apply Ht|].
Qed.

Lemma safe_wput_csr0 on_transmit v : fits 16 v → safe any on_transmit → safe any (prog_wput_csr0 on_transmit v).
Proof.
  intros Hv Ht. unfold prog_wput_csr0. do 2 safe_next. eapply safe_bind; [apply safe_command|intros _ _].
  eapply safe_bind; [by apply safe_demand|intros _ _]. eauto with safe.
Qed.

(** ** Lemmas: the rings *)

Lemma desc_size_range v : fits 16 v → 1 ≤ desc_size v ≤ 65536.
Proof. unfold desc_size. intros [H1 H2]. change (2 ^ 16) with 65536 in H2. lia. Qed.

(** Each round takes a descriptor of at least one byte, so that the rounds are as many as
    the bytes, whatever the descriptors say. *)
Lemma safe_rx_loop fuel rdra rlen d len insize first : 0 < rlen → 0 ≤ insize < len → len - insize ≤ Z.of_nat fuel →
  safe any (prog_rx_loop fuel rdra rlen d len insize first).
Proof.
  intros Hr. revert insize first. induction fuel as [|fuel IH]; intros insize first Hi Hf; [lia|].
  cbn [prog_rx_loop]. eapply safe_bind; [apply safe_upd; intros c; apply (shared_rdr_offset (λ x, x mod rlen)); intros; by apply Z.mod_pos_bound|intros _ _].
  do 5 safe_next. cbv zeta. case_match.
  { eapply (safe_bind any); [destruct first; eauto with safe|intros _ _]. by do 2 safe_next. }
  eapply safe_bind; [apply safe_upd; intros c; apply (shared_rdr_offset (λ x, x + 1)); lia|intros _ _].
  eapply safe_bind; [apply safe_lift, bslice_fuel|intros src _]. cbn [safe]. safe_next.
  destruct (Z.leb_spec len (insize + desc_size a2)); [done|]. pose proof (desc_size_range a2 H2). apply IH; lia.
Qed.

Lemma shared_rlen c : shared_ok c → 0 ≤ am_rdr_rlen (w_reg c).
Proof. intros Hc. apply (rlen_fits (settled (w_reg c))), Hc. Qed.
Lemma shared_tlen c : shared_ok c → 0 ≤ am_tdr_tlen (w_reg c).
Proof. intros Hc. apply (tlen_fits (settled (w_reg c))), Hc. Qed.

Lemma safe_tx_scan n tdra tlen start i tmd1 : 0 < tlen → safe any (prog_tx_scan n tdra tlen start i tmd1).
Proof.
  intros Ht. revert i tmd1. induction n as [|n IH]; intros i tmd1; [done|]. cbn [prog_tx_scan].
  eapply safe_bind; [apply safe_upd; intros c; apply (shared_tdr_offset (λ _, _)); intros; by apply Z.mod_pos_bound|intros _ _].
  do 2 safe_next. case_match; [done|apply IH].
Qed.

Lemma tx_size_bounds v : fits 16 v → 1 ≤ tx_size v ≤ 4096.
Proof.
  intros Hv. unfold tx_size, MAX_PACKET_SIZE. pose proof (desc_size_range v Hv). cbv zeta.
  destruct (Z.ltb_spec 4096 (desc_size v)); lia.
Qed.

Lemma safe_tx_loop fuel tdra tlen outsize : 0 < tlen → 0 ≤ outsize ≤ 4096 → 4096 - outsize < Z.of_nat fuel →
  safe any (prog_tx_loop fuel tdra tlen outsize).
Proof.
  intros Ht. revert outsize. induction fuel as [|fuel IH]; intros outsize Ho Hf; [lia|]. cbn [prog_tx_loop].
  eapply safe_bind; [apply safe_upd; intros c; apply (shared_tdr_offset (λ x, x mod tlen)); intros; by apply Z.mod_pos_bound|intros _ _].
  do 5 safe_next. cbv zeta. case_match; [by do 2 safe_next|].
  pose proof (tx_size_bounds a2 H2) as Hs. unfold MAX_PACKET_SIZE.
  destruct (Z.ltb_spec 4096 (outsize + tx_size a2)); [by safe_next|]. cbn [safe]. intros data Hdl Hdb.
  eapply safe_bind; [apply safe_asks|intros c' (c & Hc & ->)]. cbn [id].
  eapply safe_bind; [apply safe_lift, bblit_fuel|intros b Hbl]. apply bblit_inv in Hbl as [L1 B1].
  rewrite (sh_buf_len c Hc) in L1. specialize (B1 (sh_buf_bytes c Hc) Hdb).
  set (last := flag _ TX_ENP && _). eapply safe_bind.
  { apply safe_lift. unfold tx_pad. case_match; [|done]. apply bind_fuel; [apply bblit_fuel|done]. }
  intros [b' o'] Hp. pose proof (tx_pad_inv _ _ _ _ _ Hp) as [L2 B2]. rewrite L1 in L2. specialize (B2 B1).
  eapply safe_bind; [apply safe_upd; intros u; by apply shared_ring|intros _ _].
  eapply safe_bind; [apply safe_upd; intros u; apply (shared_tdr_offset (λ x, x + 1)); lia|intros _ _].
  destruct (flag _ TX_ENP) eqn:E; [done|]. safe_next. unfold last in Hp. cbn in Hp. injection Hp as <- <-. apply IH; lia.
Qed.
Section stack.
Context (stk : list Z) (Hl : length stk = 4096%nat) (Hb : Forall (fits 8) stk).

Lemma safe_gotfunc databuf len : Forall (fits 8) databuf → safe any (prog_gotfunc stk databuf len).
Proof.
  intros Hd. unfold prog_gotfunc. eapply safe_bind; [apply safe_asks|intros c' (c & Hc & ->)]. cbn [id].
  case_match; [done|]. destruct (Z.ltb_spec len 20); [done|]. destruct (ring_usable _ _) eqn:Eu; [|done]. cbn [negb].
  apply ring_usable_range in Eu; [|by apply shared_rlen].
  eapply safe_bind; [apply safe_lift, bslice_fuel|intros src Hs].
  eapply safe_bind; [apply safe_lift, bblit_fuel|intros d Hdd].
  destruct (bytes_stk _ _ _ Hl Hb (bslice_Forall _ _ _ _ Hd Hs) Hdd) as [Hdl Hdf].
  eapply (safe_bind any).
  { case_match; [done|]. eapply safe_bind; [apply safe_lift|by intros []].
    destruct (mungepacket_cases (w_mac c) d len) as [->|(b' & -> & _)]; try done; [apply Hc|lia]. }
  intros d1 _. case_match; [done|]. eapply safe_bind; [apply safe_lift, append_fcs_fuel|].
  intros [d2 len2] (-> & ? & ?)%append_fcs_len. eapply safe_bind; [apply safe_rx_loop; lia|].
  intros [] _; [|done]. do 2 safe_next. apply safe_upd. intros u Hu. case_match; [|done]. destruct Hu. by split.
Qed.

Lemma safe_tx_done : safe any prog_tx_done.
Proof. unfold prog_tx_done. by do 2 safe_next. Qed.
#[local] Hint Resolve safe_tx_done : safe.

Lemma safe_send b len : length b = 4096%nat → Forall (fits 8) b → safe any (prog_send b len).
Proof.
  intros Hn Hf. unfold prog_send. safe_next. destruct (Z.leb_spec len 0); [by rewrite orb_true_r|]. case_match; [done|].
  eapply safe_bind; [apply safe_lift, bslice_fuel|intros f Hs]. apply safe_upd. intros c []. split; try done.
  apply Forall_app. split; [done|]. constructor; [|done]. by apply (bslice_frame b len).
Qed.

Lemma safe_tx_finish add_fcs e : safe any (prog_tx_finish stk add_fcs e).
Proof.
  unfold prog_tx_finish. destruct e as [err outsize off tmd1 tmd3].
  eapply safe_bind; [apply safe_asks|intros c' (c & Hc & ->)]. cbn [id]. cbv zeta.
  destruct err; [eauto with safe|]. destruct (_ && negb _) eqn:E0; [do 3 safe_next; eauto with safe|].
  destruct (flag (registers_mode c) MODE_LOOP).
  - destruct (flag _ MODE_COLL); safe_next; [eauto with safe|].
    eapply safe_bind; [apply safe_gotfunc, Hc|eauto with safe].
  - destruct (flag _ MODE_COLL || _); safe_next; [eauto with safe|].
    rewrite andb_true_r in E0. apply Z.ltb_ge in E0. set (size := if _ && _ then _ else _).
    assert (20 ≤ size) by (unfold size; case_match; lia). clearbody size.
    eapply safe_bind; [apply safe_upd; intros u []; by split|intros _ _].
    destruct (mungepacket_cases (w_mac c) (transmitbuffer (w_ring c)) size) as [-> |(b & -> & L & B & _)];
      [apply Hc|rewrite (sh_buf_len c Hc); lia|apply Hc|done|done|]. rewrite (sh_buf_len c Hc) in L.
    cbn [lift mbind prog_bind]. eapply safe_bind; [apply safe_upd; intros u; by apply shared_ring|intros _ _].
    eapply safe_bind; [by apply safe_send|eauto with safe].
Qed.

Lemma safe_do_transmit : safe any (prog_do_transmit stk).
Proof.
  unfold prog_do_transmit. eapply safe_bind; [apply safe_asks|intros c' (c & Hc & ->)]. cbn [id]. cbv zeta.
  case_match; [done|]. destruct (ring_usable _ _) eqn:Eu; [|done]. cbn [negb].
  apply ring_usable_range in Eu; [|by apply shared_tlen].
  eapply safe_bind; [apply safe_upd; intros u; apply (shared_tdr_offset (λ x, x mod _)); intros; apply Z.mod_pos_bound; lia|intros _ _].
  eapply safe_bind; [apply safe_asks|intros start (u & Hu & ->)]. safe_next.
  eapply (safe_bind any); [case_match; [done|apply safe_tx_scan; lia]|intros tmd1 _]. case_match.
  - eapply safe_bind; [apply safe_upd; intros v; apply (shared_tdr_offset (λ _, _)); intros; apply Hu|done].
  - eapply safe_bind; [apply safe_tx_loop; [lia|lia|unfold tx_fuel; lia]|intros e _]. apply safe_tx_finish.
Qed.
End stack.

(** ** Lemmas: the threads *)

Lemma csafe_bind {A B} (Q : A → Prop) (R : B → Prop) (c : bcode A) (q : A → bcode B) :
  csafe Q c → (∀ a, Q a → csafe R (q a)) → csafe R (a ← c; q a).
Proof. intros Hc Hq. induction c; cbn in *; try (by apply Hq); try done; naive_solver. Qed.

Lemma csafe_get {A} (Q : A → Prop) f : (∀ w, shared_ok w → Q (f w)) → csafe Q (get f).
Proof. intros H w Hw. by split; [|apply H]. Qed.

Lemma csafe_put f : (∀ w, shared_ok w → shared_ok (f w)) → csafe any (put f).
Proof. intros H w Hw. by split; [apply H|]. Qed.

Lemma shared_set_win win w : window_ok win → shared_ok w → shared_ok (set_w_win win w).
Proof. intros Hwin []. by split. Qed.

Lemma csafe_rdb off : csafe (fits 8) (b_rdb off).
Proof. apply csafe_get. intros w Hw. apply get_ram_byte_fits, Hw. Qed.

Lemma csafe_wrb off v : csafe any (b_wrb off v).
Proof. apply csafe_put. intros w Hw. apply shared_set_win; [|done]. apply window_ok_wr8, Hw. Qed.

Lemma csafe_read off n : csafe (λ l, length l = n ∧ Forall (fits 8) l) (b_read_block off n).
Proof.
  revert off. induction n as [|n IH]; intros off; [done|]. cbn [b_read_block].
  eapply csafe_bind; [apply csafe_rdb|intros b Hb]. eapply csafe_bind; [apply IH|intros l [Hl Hf]].
  split; [cbn; by rewrite Hl|by constructor].
Qed.

Lemma csafe_write off src : csafe any (b_write_block off src).
Proof.
  revert off. induction src as [|v src IH]; intros off; [done|]. cbn [b_write_block].
  eapply csafe_bind; [apply csafe_wrb|intros _ _]. apply IH.
Qed.

Lemma shared_view w : shared_ok w → shared_ok (chip_view w).
Proof. intros []. destruct sh_regs0. by split. Qed.

Lemma shared_set_chip c w : shared_ok c → shared_ok w → shared_ok (set_chip c w).
Proof.
  intros [] Hw. assert (fits 7 (rap (w_reg w))) by apply (rap_fits _ (sh_regs w Hw)). destruct sh_regs0.
  split; try done; apply Hw.
Qed.

(** Chip code that is safe is safe in a thread. *)
Lemma csafe_chip {A} (Q : A → Prop) (p : prog A) : safe Q p → csafe Q (b_chip p).
Proof.
  induction p as [a|e|k IH|f k IH|k IH|k IH|off k IH|off k IH|off v k IH|off n k IH|off src k IH]; cbn [safe b_chip]; intros H.
  - done.
  - done.
  - intros w Hw. split; [done|]. by apply IH, H, shared_view.
  - intros w Hw. split; [|by apply IH, H]. by apply shared_set_chip; [apply H, shared_view|].
  - intros w Hw. split; [|by apply IH]. apply shared_set_win; [|done]. apply window_ok_wr8, Hw.
  - by apply IH.
  - eapply csafe_bind; [apply csafe_rdb|intros b Hb]. by apply IH, H.
  - eapply csafe_bind; [apply csafe_rdb|intros hi Hh]. eapply csafe_bind; [apply csafe_rdb|intros lo Hlo].
    apply IH, H, fits_u16.
  - eapply csafe_bind; [apply csafe_wrb|intros _ _]. eapply csafe_bind; [apply csafe_wrb|intros _ _]. by apply IH.
  - eapply csafe_bind; [apply csafe_read|intros l [Hl Hf]]. by apply IH, H.
  - eapply csafe_bind; [apply csafe_write|intros _ _]. by apply IH.
Qed.

(** A write of a register other than CSR0. *)
Lemma shared_ext n v w : 4 ≤ n → fits 16 v → shared_ok w → shared_ok (upd_reg (wput_ext n v) w).
Proof.
  intros Hn Hv Hw. destruct (wput_ext_ok n v (settled (w_reg w)) Hn Hv (sh_regs w Hw)) as [H _]. apply settled_ok in H.
  assert (M : ∀ x, fits 24 (Z.land x RAM_MASK)) by (intros x; apply fits_land_r; [lia|by split]).
  apply shared_regs; [|unfold wput_ext; repeat case_match; first [apply M|apply Hw|done]..|done].
  assert (E : settled (wput_ext n v (w_reg w)) = settled (wput_ext n v (settled (w_reg w)))); [|by rewrite E].
  unfold wput_ext. by repeat case_match.
Qed.

Lemma shared_plain n v w : 0 < n → fits 16 v → shared_ok w → shared_ok (wput_plain n v w).
Proof.
  intros Hn Hv Hw. unfold wput_plain. destruct (Z.eqb_spec n 1), (Z.eqb_spec n 2), (Z.eqb_spec n 3);
    try (case_match; [apply shared_csr; [solve_fits|done]|done]). apply shared_ext; [lia|done..].
Qed.

Section daemon.
Context (stk : list Z) (Hl : length stk = 4096%nat) (Hb : Forall (fits 8) stk).

Lemma csafe_wput off v : fits 16 v → csafe any (b_chip_wput stk off v).
Proof.
  intros Hv. unfold b_chip_wput. case_match.
  - apply csafe_put. intros w []. destruct sh_regs0. split; try done.
    split; try done. cbn. solve_fits.
  - eapply (csafe_bind (fits 7)); [apply csafe_get; intros w Hw; apply (rap_fits _ (sh_regs w Hw))|intros n Hn].
    case_match; [done|]. destruct (Z.eqb_spec n 0).
    + apply csafe_chip, safe_wput_csr0; [done|by apply safe_do_transmit].
    + apply csafe_put. intros w. apply shared_plain; [|done]. destruct Hn. lia.
Qed.

Lemma shared_write8 off v w : shared_ok w → shared_ok (bridge_write8 off v w).
Proof. intros Hw. apply shared_set_win; [|done]. apply window_ok_wr8, Hw. Qed.
Lemma shared_write16 off v w : shared_ok w → shared_ok (bridge_write16 off v w).
Proof. intros Hw. apply shared_set_win; [|done]. apply window_ok_le_write, Hw. Qed.

Lemma csafe_service : csafe any (b_service stk).
Proof.
  unfold b_service. eapply (csafe_bind any); [by apply csafe_get|intros req _]. case_match; [done|].
  eapply (csafe_bind any); [by apply csafe_get|intros addr _].
  eapply (csafe_bind any); [by apply csafe_get|intros rw _].
  eapply (csafe_bind (fits 16)); [apply csafe_get; intros w Hw; apply bridge_read16_fits, Hw|intros data Hd].
  eapply (csafe_bind any).
  { case_match; [by apply csafe_get|]. by eapply csafe_bind; [apply csafe_wput|]. }
  intros result _. eapply csafe_bind; [apply csafe_put, shared_write16|intros _ _]. apply csafe_put, shared_write8.
Qed.

Lemma csafe_main lbl : csafe any (b_main stk lbl).
Proof.
  destruct lbl as [n|]; [|done]. cbn [b_main]. eapply csafe_bind; [apply csafe_service|intros _ _].
  case_match; [|done]. by eapply csafe_bind; [apply csafe_chip, safe_do_transmit|].
Qed.

Lemma csafe_rx rxbuf len : Forall (fits 8) rxbuf → csafe any (b_rx stk rxbuf len).
Proof.
  intros Hf. unfold b_rx. case_match; [|done]. by eapply csafe_bind; [apply csafe_chip, safe_gotfunc|].
Qed.

(** A received frame is bytes. *)
Definition bt_event_ok (e : bt_event) : Prop :=
  match e with BtRun _ frame => Forall (fits 8) frame.1 | BtStore _ _ => True end.

(** Where both threads are, and the state. *)
Definition bt_ok (s : threads Empty_set b_label) : Prop :=
  shared_ok (th_world s) ∧ csafe any (th_main s) ∧ csafe any (th_rx s).

Lemma csafe_step {A} (Q : A → Prop) t (c : bcode A) w l : csafe Q c → shared_ok w →
  match code_step skip t true c w l with
  | Ok (c', w', _, _) => csafe Q c' ∧ shared_ok w'
  | Err e => e = OutOfBounds
  end.
Proof.
  intros Hc Hw. destruct c as [| | |o k| |]; cbn in *; try done; [split; by apply Hc|by destruct (registers_lock t l)].
Qed.

Lemma bt_step_ok e s : bt_event_ok e → bt_ok s →
  match bt_step stk e s with Ok s' => bt_ok s' | Err e => e = OutOfBounds end.
Proof.
  intros He (Hw & Hm & Hr). destruct e as [t frame|a v]; cbn [bt_step].
  2: { split; [|done]. apply shared_set_win; [|done]. apply window_ok_wr8, Hw. }
  unfold thread_step. assert (Hc : csafe any (th_code t s)) by (by destruct t).
  pose proof (csafe_step any t (th_code t s) (th_world s) (th_lock s) Hc Hw) as S.
  destruct (th_code t s) as [lbl|e|f k|o k|k|k]; [|done|..].
  1: { destruct t; (split; [exact Hw|]); (split; [|done]) || (split; [done|]); [by apply csafe_main|by apply csafe_rx]. }
  all: destruct (code_step _ _ _ _ _ _) as [[[[c' w'] l'] o']|]; [|done]; destruct S as [S1 S2]; by destruct t.
Qed.
End daemon.

(** ** The theorem *)

(** C26: The bridge daemon's threads are safe together, although nothing locks the chip.
    Under every schedule of their single accesses, from start-up on, with any frames and
    any stores of the FPGA and the 68k, every shared variable keeps its type, the transmit
    buffer its 4096 bytes, and what is handed to the socket are frames; no loop runs for
    ever on descriptors that change under it, and a thread can only fail by an access
    outside a buffer. *)
Theorem bridge_threads_safe (stk : list Z) (sim : bool) (w : world) (es : list bt_event)
    (Hw : world_ok w) (Hsent : w_sent w = []) (Hl : length stk = 4096%nat) (Hb : Forall (fits 8) stk)
    (Hes : Forall bt_event_ok es) :
  match bt_exec stk es (bt_start (bridge_start sim w)) with
  | Ok s => shared_ok (th_world s)
  | Err e => e = OutOfBounds
  end.
Proof.
  assert (H0 : bt_ok (bt_start (bridge_start sim w))).
  { split; [|done]. apply shared_world_ok; [by apply bridge_start_ok|]. by destruct sim; cbn; rewrite Hsent. }
  revert H0. generalize (bt_start (bridge_start sim w)) as s. induction Hes as [|e es He Hes IH]; intros s Hs; [apply Hs|].
  cbn [bt_exec]. pose proof (bt_step_ok stk Hl Hb e s He Hs) as S. destruct (bt_step stk e s) as [s'|]; [by apply IH|done].
Qed.

(** ** Example *)

(** The receive thread and the main loop take turns while the 68k posts a read. *)
Definition ex_bt_events : list bt_event :=
  BtStore BRIDGE_REG_NEW_REQ 1 :: concat (replicate 6 [BtRun Rx (ex_bridge_frame, 60); BtRun Main ([], 0)]).

Lemma bridge_threads_safe_witness : ∃ s,
  bt_exec ex_bridge_stk ex_bt_events (bt_start (bridge_start true (boot_world ex_macs ∅))) = Ok s ∧
  shared_ok (th_world s).
Proof.
  pose proof (bridge_threads_safe ex_bridge_stk true (boot_world ex_macs ∅) ex_bt_events ex_bridge_boot_ok
    eq_refl eq_refl) as H.
  assert (E : (if bt_exec ex_bridge_stk ex_bt_events (bt_start (bridge_start true (boot_world ex_macs ∅))) is Ok _
    then true else false) = true) by by vm_compute.
  destruct (bt_exec _ _ _) as [s|]; [|done]. exists s. split; [done|]. apply H; [by apply bytesb_Forall|].
  by repeat (apply Forall_cons; split; [try by apply bytesb_Forall|]).
Defined.
