(* ===== verification/DoorbellThreads.v ===== *)
(** * The two threads of the doorbell daemon (arm/src/main_doorbell.cpp)

    [main]'s command loop and [rx_thread] share the chip under [registers_lock], but read
    the CMD slot and write the CSR and INT slots outside of it.  Here they are code of
    Threads.v: every access to board RAM, to a slot or to the chip's variables is one step,
    the callbacks lock again what their caller has locked, and a schedule interleaves the
    threads with the stores of the FPGA and of the 68k, which may write board RAM at any
    time, in a locked section too.  DoorbellSafe.v shows what the lock guarantees; here is
    what it does not. *)

From S2P Require Import Prelude Types Window Crc32 Mac State Registers Rings Slots Descriptors Doorbell RemoteChip Threads BridgeThreads.

(** ** Code *)

Definition d_push_csr_shadow : bcode () :=
  '(c0, c1, c2, c3) ← locked no_op (
    c0 ← get csr0;
    c1 ← get (registers_csr 1);
    c2 ← get (registers_csr 2);
    c3 ← get (registers_csr 3);
    CRet (c0, c1, c2, c3));
  wr64c DDR3_CSR_OFF (pack_csrs c0 c1 c2 c3).

Definition d_update_int_state : bcode () :=
  c ← locked no_op (get csr0);
  wr64c DDR3_INT_OFF (int_level c).

Definition d_on_interrupt_cb : bcode () :=
  _ ← d_push_csr_shadow;
  d_update_int_state.

(** [on_transmit_cb]; what follows the transmission is [on_interrupt_cb] again. *)
Definition prog_doorbell_on_transmit_cb (stk : list Z) : prog Z :=
  r ← prog_do_transmit stk;
  Int (Ret r).

(** The chip code of RemoteChip.v on flat board RAM, with the accessors of
    BridgeThreads.v. *)
Fixpoint d_chip {A} (p : prog A) : bcode A :=
  match p with
  | Ret a => CRet a
  | Fail e => CErr e
  | Get k => CStep id (λ w, d_chip (k (chip_view w)))
  | Upd f k => CStep (λ w, set_chip (f (chip_view w)) w) (λ _, d_chip k)
  | Int k => _ ← d_on_interrupt_cb; d_chip k
  | Retry k => d_chip k
  | RdB off k => b ← b_rdb off; d_chip (k b)
  | RdW off k => hi ← b_rdb off; lo ← b_rdb (off + 1); d_chip (k (u16 (Z.lor (Z.shiftl hi 8) lo)))
  | WrW off v k => _ ← b_wrb off (Z.shiftr v 8); _ ← b_wrb (off + 1) (u8 v); d_chip k
  | RdBlk off n k => l ← b_read_block off n; d_chip (k l)
  | WrBlk off src k => _ ← b_write_block off src; d_chip k
  end.

Definition d_chip_wput (stk : list Z) (reg_offset v : Z) : bcode () :=
  if reg_offset =? A2065_RAP_OFF then put (upd_reg (set_rap (Z.land v 0x7f)))
  else
    n ← get (λ w, rap (w_reg w));
    if RAP_SIZE <=? n then skip
    else if n =? 0 then d_chip (prog_wput_csr0 (prog_doorbell_on_transmit_cb stk) v)
    else put (wput_plain n v).

(** Where a thread goes on: at the head of the command loop or of the receive loop. *)
Inductive d_label := DPoll | DRecv.

(** The end of a pass of either loop: [update_int_state()], and before it
    [push_csr_shadow()]. *)
Definition d_update (lbl : d_label) : bcode d_label := _ ← d_update_int_state; CRet lbl.
Definition d_publish (lbl : d_label) : bcode d_label := _ ← d_push_csr_shadow; d_update lbl.

(** The two register writes of a command, under the lock. *)
Definition d_execute (stk : list Z) (cmd : Z) : bcode () :=
  locked no_op (
    _ ← d_chip_wput stk A2065_RAP_OFF (Z.land (Z.shiftr cmd DDR3_CMD_RAP_SHIFT) DDR3_CMD_RAP_MASK);
    d_chip_wput stk A2065_RDP_OFF (Z.land (Z.shiftr cmd DDR3_CMD_DATA_SHIFT) DDR3_CMD_DATA_MASK)).

(** What follows: the slot is cleared, the state published. *)
Definition d_answer : bcode d_label :=
  _ ← wr64c DDR3_CMD_OFF 0;
  d_publish DPoll.

Definition d_main (stk : list Z) : bcode d_label :=
  cmd ← rd64c DDR3_CMD_OFF;
  if flag cmd DDR3_CMD_PENDING_BIT then
    _ ← d_execute stk cmd;
    d_answer
  else CRet DPoll.

(** The body of [rx_thread], with what [ethernet_recv] returns. *)
Definition d_rx (stk rxbuf : list Z) (len : Z) : bcode d_label :=
  if 0 <? len then
    _ ← locked no_op (d_chip (prog_gotfunc stk rxbuf len));
    d_publish DRecv
  else CRet DRecv.

Definition d_reload (stk : list Z) (t : tid) (frame : list Z * Z) (_ : d_label) : bcode d_label :=
  match t with Main => d_main stk | Rx => d_rx stk frame.1 frame.2 end.

(** ** Schedules *)

(** A thread steps, the 68k writes a byte of board RAM, the FPGA writes a slot. *)
Inductive dt_event :=
| DtRun (t : tid) (frame : list Z * Z)
| DtRam (off v : Z)
| DtSlot (off v : Z).

Abbreviation d_threads := (threads Empty_set d_label).

Definition dt_step (stk : list Z) (e : dt_event) (s : d_threads) : res d_threads :=
  let w := th_world s in
  match e with
  | DtRun t frame => thread_step skip (d_reload stk) t true frame s
  | DtRam off v =>
      Ok (Threads (set_w_win (put_ram_byte (w_boardram w) (w_win w) off v) w) (th_lock s) (th_main s)
        (th_rx s) (th_log s))
  | DtSlot off v =>
      Ok (Threads (set_slot (Z.max off RAM_SIZE) v w) (th_lock s) (th_main s) (th_rx s) (th_log s))
  end.

Fixpoint dt_exec (stk : list Z) (es : list dt_event) (s : d_threads) : res d_threads :=
  match es with
  | [] => Ok s
  | e :: es => s ← dt_step stk e s; dt_exec stk es s
  end.

(** Both threads at the head of their loops, the mutex initialised and free. *)
Definition dt_idle (w : world) : d_threads :=
  Threads w (registers_lock_init mutex_init) (CRet DPoll) (CRet DRecv) [].

(** ** Lemmas: a thread alone is the sequential model *)

Abbreviation d_run := (run_on on_interrupt_cb id).

Lemma solo_locked_d {B} (c : bcode B) w : solo (locked no_op c) w = solo c w.
Proof. cbn. rewrite solo_bind. by destruct (solo c w) as [[]|]. Qed.

Lemma solo_push w : solo d_push_csr_shadow w = Ok (tt, push_csr_shadow w).
Proof. done. Qed.

Lemma solo_int w : solo d_update_int_state w = Ok (tt, update_int_state w).
Proof. done. Qed.

Lemma solo_on_interrupt w : solo d_on_interrupt_cb w = Ok (tt, on_interrupt_cb w).
Proof. done. Qed.

Lemma solo_publish lbl w : solo (d_publish lbl) w = Ok (lbl, on_interrupt_cb w).
Proof. done. Qed.

Lemma solo_d_chip {A} (p : prog A) w : solo (d_chip p) w = d_run p w.
Proof.
  revert w. induction p as [a|e|k IH|c k IH|k IH|k IH|off k IH|off k IH|off v k IH|off n k IH|off src k IH];
    intros w; cbn [d_chip run_on solo]; try done; try apply IH; rewrite solo_bind.
  - rewrite solo_b_read. apply IH.
  - rewrite solo_b_write. apply IH.
Qed.

Lemma d_run_transmit stk w : d_run (prog_doorbell_on_transmit_cb stk) w = on_transmit_cb stk w.
Proof.
  unfold prog_doorbell_on_transmit_cb, on_transmit_cb. rewrite run_bind.
  rewrite (flat_do_transmit on_interrupt_cb id stk w).
  by destruct (@do_transmit _ stk w) as [[]|].
Qed.

Lemma solo_d_wput stk off v w : solo (d_chip_wput stk off v) w
  = (w ← @chip_wput doorbell_int (Some (on_transmit_cb stk)) off v w; Ok (tt, w)).
Proof.
  unfold d_chip_wput, chip_wput. cbv zeta. destruct (off =? A2065_RAP_OFF); [done|]. rewrite solo_get.
  destruct (RAP_SIZE <=? _); [done|]. destruct (_ =? 0).
  - rewrite solo_d_chip. apply (flat_wput_csr0 on_interrupt_cb id). intros u. apply d_run_transmit.
  - cbn [solo put id]. unfold wput_plain. repeat (case_match; try done).
Qed.

Lemma solo_d_main stk w : solo (d_main stk) w = (w ← cmd_step stk w; Ok (DPoll, w)).
Proof.
  unfold d_main, cmd_step, rd64c. rewrite solo_get. set (cmd := slot w DDR3_CMD_OFF).
  destruct (flag cmd _); [|done]. cbv zeta. rewrite solo_bind. unfold d_execute.
  rewrite solo_locked_d, solo_bind, solo_d_wput.
  destruct (chip_wput A2065_RAP_OFF _ w) as [w1|]; cbn [mbind res_bind]; [|done]. rewrite solo_d_wput.
  by destruct (chip_wput A2065_RDP_OFF _ w1) as [w2|].
Qed.

Lemma solo_d_rx stk rxbuf len w : solo (d_rx stk rxbuf len) w = (w ← rx_step stk rxbuf len w; Ok (DRecv, w)).
Proof.
  unfold d_rx, rx_step. destruct (0 <? len); [|done]. rewrite solo_bind, solo_locked_d, solo_d_chip.
  rewrite (flat_gotfunc on_interrupt_cb id). by destruct (@gotfunc _ stk rxbuf len w) as [w1|].
Qed.

(** ** Lemmas: locks and unlocks pair up *)

Lemma balanced_get {B} (f : world → B) : balanced (O := Empty_set) 0 (get f).
Proof. done. Qed.

Lemma balanced_b_read off n : balanced 0 (b_read_block off n).
Proof.
  revert off. induction n as [|n IH]; intros off; [done|]. apply (balanced_bind 0 0); [done|].
  intros b. by apply (balanced_bind 0 0).
Qed.

Lemma balanced_b_write off src : balanced 0 (b_write_block off src).
Proof. revert off. induction src as [|v src IH]; intros off; [done|]. by apply (balanced_bind 0 0). Qed.

Lemma balanced_push : balanced 0 d_push_csr_shadow.
Proof. done. Qed.
Lemma balanced_int : balanced 0 d_update_int_state.
Proof. done. Qed.

Lemma balanced_d_chip {A} (p : prog A) : balanced 0 (d_chip p).
Proof.
  induction p as [a|e|k IH|c k IH|k IH|k IH|off k IH|off k IH|off v k IH|off n k IH|off src k IH]; cbn [d_chip];
    try done; try (intros w; apply IH);
    repeat (apply (balanced_bind 0 0); [first [apply balanced_b_read|apply balanced_b_write|done]|intros ?]);
    apply IH.
Qed.

Lemma balanced_d_wput stk off v : balanced 0 (d_chip_wput stk off v).
Proof.
  unfold d_chip_wput. case_match; [done|]. apply (balanced_bind 0 0); [done|intros n].
  repeat case_match; [done|apply balanced_d_chip|done].
Qed.

Lemma balanced_d_execute stk cmd : balanced 0 (d_execute stk cmd).
Proof. apply balanced_locked, (balanced_bind 0 0); intros; apply balanced_d_wput. Qed.

Lemma balanced_d_rx stk rxbuf len : balanced 0 (d_rx stk rxbuf len).
Proof.
  unfold d_rx. case_match; [|done]. by apply (balanced_bind 0 0); [apply balanced_locked, balanced_d_chip|].
Qed.

(** ** Lemmas: one thread runs *)

(** A step of the main thread, and of the receive thread with this frame. *)
Definition d_cmd : dt_event := DtRun Main ([], 0).
Definition d_recv (rxbuf : list Z) (len : Z) : dt_event := DtRun Rx (rxbuf, len).

(** The mutex when no thread holds it. *)
Definition d_free : mutex := lock_held Main 0.

Lemma dt_exec_app stk es es' s s' : dt_exec stk es s = Ok s' → dt_exec stk (es ++ es') s = dt_exec stk es' s'.
Proof.
  revert s. induction es as [|e es IH]; intros s; cbn [dt_exec app]; [by intros [= ->]|].
  intros H. bind_inv H. rewrite Hx. by apply IH.
Qed.

(** Nothing is logged. *)
Lemma empty_log (l : list Empty_set) : l = [].
Proof. by destruct l as [|[]]. Qed.

(** One step of a thread that is not at the end of its code. *)
Lemma dt_run_step stk t frame c w l s c' w' l' o :
  th_code t s = c → th_world s = w → th_lock s = l → (∀ a, c ≠ CRet a) → code_step skip t true c w l = Ok (c', w', l', o) →
  dt_step stk (DtRun t frame) s = Ok (set_code t c' (Threads w' l' (th_main s) (th_rx s) (th_log s))).
Proof.
  intros <- <- <- Hc E. cbn [dt_step]. unfold thread_step.
  destruct (th_code t s) as [a| | | | |] eqn:Ec; [by destruct (Hc a)|..]; rewrite E; cbn [mbind res_bind];
    by rewrite (empty_log o), app_nil_r.
Qed.

(** A thread alone gets through the first part of its code. *)
Lemma dt_alone {A} stk t frame n (c : bcode A) (q : A → bcode d_label) w l a w' l' m r log :
  code_steps n skip t c w l = Ok (CRet a, w', l') →
  ∃ k, dt_exec stk (replicate k (DtRun t frame)) (set_code t (x ← c; q x) (Threads w l m r log))
    = Ok (set_code t (q a) (Threads w' l' m r log)).
Proof.
  revert c w l. induction n as [|n IH]; intros c w l; cbn [code_steps].
  { intros [= -> -> ->]. by exists 0%nat. }
  intros H. bind_inv H. destruct x as [[[c1 w1] l1] o1]. destruct (IH c1 w1 l1 H) as (k & Ek).
  assert (D : (c1 = c ∧ w1 = w ∧ l1 = l) ∨
    (∀ a, (x ← c; q x) ≠ CRet a) ∧ code_step skip t true (x ← c; q x) w l = Ok (x ← c1; q x, w1, l1, [])).
  { destruct c as [b|e|f g|o g|g|g]; [left; by injection Hx as <- <- <- <-|done|right; split; [done|]..].
    all: cbn in Hx |- *; try rewrite (empty_log (o w)) in *; try destruct (registers_lock t l);
      by injection Hx as <- <- <- <-. }
  destruct D as [(-> & -> & ->)|[D1 D2]]; [by exists k|].
  exists (S k). cbn [replicate dt_exec].
  rewrite (dt_run_step stk t frame (x ← c; q x) w l _ (x ← c1; q x) w1 l1 []); [|by destruct t..|done|done].
  cbn [mbind res_bind]. by destruct t.
Qed.

Lemma dt_solo {A} stk t frame (c : bcode A) (q : A → bcode d_label) w a w' m r log :
  balanced 0 c → solo c w = Ok (a, w') →
  ∃ k, dt_exec stk (replicate k (DtRun t frame)) (set_code t (x ← c; q x) (Threads w d_free m r log))
    = Ok (set_code t (q a) (Threads w' d_free m r log)).
Proof.
  intros Hc E. destruct (balanced_reaches skip t c 0 w a w' Hc E) as [n Hn]. by eapply dt_alone.
Qed.

(** The end of a pass. *)
Lemma dt_publish stk t frame lbl w m r log :
  ∃ k, dt_exec stk (replicate k (DtRun t frame)) (set_code t (d_publish lbl) (Threads w d_free m r log))
    = Ok (set_code t (CRet lbl) (Threads (on_interrupt_cb w) d_free m r log)).
Proof.
  destruct (dt_solo stk t frame d_push_csr_shadow (λ _, d_update lbl) w tt (push_csr_shadow w) m r log) as [k1 H1];
    [done|apply solo_push|].
  destruct (dt_solo stk t frame d_update_int_state (λ _, CRet lbl) (push_csr_shadow w) tt
    (on_interrupt_cb w) m r log) as [k2 H2]; [done|apply solo_int|].
  exists (k1 + k2)%nat. rewrite replicate_add. by rewrite (dt_exec_app _ _ _ _ _ H1).
Qed.

(** A whole pass of the receive loop, whatever the main thread is waiting to do. *)
Lemma dt_rx_pass stk rxbuf len w w' m log : rx_step stk rxbuf len w = Ok w' →
  ∃ k, dt_exec stk (replicate k (d_recv rxbuf len)) (Threads w d_free m (CRet DRecv) log)
    = Ok (Threads w' d_free m (CRet DRecv) log).
Proof.
  intros H. set (f := (rxbuf, len)). assert (R : dt_exec stk [d_recv rxbuf len] (Threads w d_free m (CRet DRecv) log)
    = Ok (Threads w d_free m (d_rx stk rxbuf len) log)) by done.
  unfold rx_step in H. unfold d_rx in R. destruct (0 <? len).
  2:{ injection H as <-. by exists 1%nat. }
  bind_inv H. injection H as <-.
  destruct (dt_solo stk Rx f (locked no_op (d_chip (prog_gotfunc stk rxbuf len))) (λ _, d_publish DRecv) w tt x
    m (CRet DRecv) log) as [k1 H1].
  { apply balanced_locked, balanced_d_chip. }
  { rewrite solo_locked_d, solo_d_chip, (flat_gotfunc on_interrupt_cb id).
    change (@flat_int on_interrupt_cb) with doorbell_int. by rewrite Hx. }
  destruct (dt_publish stk Rx f DRecv x m (CRet DRecv) log) as [k2 H2].
  exists (S (k1 + k2)). change (replicate (S ?n) ?e) with ([e] ++ replicate n e).
  rewrite (dt_exec_app _ _ _ _ _ R), replicate_add. rewrite (dt_exec_app _ _ _ _ _ H1). exact H2.
Qed.

(** ** What the lock does not prevent *)

(** The command loop has loaded the CMD slot. *)
Lemma dt_poll_step stk w r log : dt_step stk d_cmd (Threads w d_free (d_main stk) r log)
  = Ok (Threads w d_free (if flag (slot w DDR3_CMD_OFF) DDR3_CMD_PENDING_BIT
      then _ ← d_execute stk (slot w DDR3_CMD_OFF); d_answer else CRet DPoll) r log).
Proof.
  transitivity (@Ok d_threads (Threads w d_free (if flag (slot w DDR3_CMD_OFF) DDR3_CMD_PENDING_BIT
    then _ ← d_execute stk (slot w DDR3_CMD_OFF); d_answer else CRet DPoll) r (log ++ []))); [reflexivity|].
  by rewrite app_nil_r.
Qed.

(** An idle command loop changes nothing. *)
Lemma dt_cmd_idle stk w r log n : flag (slot w DDR3_CMD_OFF) DDR3_CMD_PENDING_BIT = false →
  ∃ c, dt_exec stk (replicate n d_cmd) (Threads w d_free (CRet DPoll) r log) = Ok (Threads w d_free c r log).
Proof.
  intros Hp. assert (G : ∀ n c, c = CRet DPoll ∨ c = d_main stk →
    ∃ c', dt_exec stk (replicate n d_cmd) (Threads w d_free c r log) = Ok (Threads w d_free c' r log)).
  { clear n. induction n as [|n IH]; intros c Hc; [by exists c|]. cbn [replicate dt_exec].
    destruct Hc as [->| ->].
    - apply (IH (d_main stk)). by right.
    - rewrite dt_poll_step, Hp. by apply IH; left. }
  by apply G; left.
Qed.

(** C31: An interrupt can be lost.  The command loop is about to call [update_int_state]
    without a pending interrupt; it takes the lock, reads CSR0 and gives the lock back;
    then a frame is received and published by the receive thread, which raises the line;
    and the command loop stores the level it had computed.  Both threads are then idle,
    with the interrupt pending in CSR0 and the line low, and the command loop leaves it so
    for as long as no command is posted. *)
Theorem race_lost_interrupt (stk rxbuf : list Z) (len : Z) (w w1 : world)
  (Hbefore : int_level (csr0 w) = 0) (Hrx : rx_step stk rxbuf len w = Ok w1)
  (Hafter : int_level (csr0 w1) = 1)
  (Hidle : flag (slot w1 DDR3_CMD_OFF) DDR3_CMD_PENDING_BIT = false) :
  ∃ k w2, dt_exec stk (replicate 3 d_cmd ++ replicate k (d_recv rxbuf len) ++ [d_cmd])
      (Threads w d_free (d_update DPoll) (CRet DRecv) []) = Ok (dt_idle w2) ∧
    csr0 w2 = csr0 w1 ∧ int_level (csr0 w2) = 1 ∧ slot w2 DDR3_INT_OFF = 0 ∧
    ∀ n, ∃ c, dt_exec stk (replicate n d_cmd) (dt_idle w2) = Ok (Threads w2 d_free c (CRet DRecv) []).
Proof.
  set (c := (_ ← wr64c DDR3_INT_OFF 0; CRet DPoll) : bcode d_label).
  destruct (dt_rx_pass stk rxbuf len w w1 c [] Hrx) as [k Hk].
  exists k, (set_slot DDR3_INT_OFF 0 w1). split_and!.
  - rewrite (dt_exec_app stk _ _ _ (Threads w d_free c (CRet DRecv) [])) by (unfold c; by rewrite <-Hbefore).
    by rewrite (dt_exec_app _ _ _ _ _ Hk).
  - done.
  - done.
  - by rewrite slot_set_eq.
  - intros n. apply dt_cmd_idle. by rewrite slot_set_ne by slot_lia.
Qed.

(** A slot write replaces an earlier one. *)
Lemma le_write_lookup n w a v b : le_write n w a v !! b
  = if decide (a ≤ b < a + Z.of_nat n) then Some (u8 (Z.shiftr v (8 * (b - a)))) else w !! b.
Proof.
  revert w a v. induction n as [|n IH]; intros w a v; cbn [le_write].
  - by rewrite decide_False by lia.
  - rewrite IH. unfold wr8. destruct (decide (b = a)) as [->|].
    + rewrite decide_False, decide_True, lookup_insert_eq by lia.
      by rewrite Z.sub_diag, Z.mul_0_r, Z.shiftr_0_r.
    + rewrite lookup_insert_ne by done. repeat case_decide; try lia; [|done].
      rewrite Z.shiftr_shiftr by lia. do 3 f_equal. lia.
Qed.

Lemma set_slot_twice off x y w : set_slot off y (set_slot off x w) = set_slot off y w.
Proof.
  change (set_w_win (wr64 (wr64 (w_win w) (map_base w + off) x) (map_base w + off) y) w
    = set_w_win (wr64 (w_win w) (map_base w + off) y) w).
  f_equal. apply map_eq. intros b. unfold wr64. rewrite !le_write_lookup. by case_decide.
Qed.

(** The FPGA posts a register write. *)
Definition d_post (rap data : Z) : dt_event := DtSlot DDR3_CMD_OFF (cmd_word rap data).

(** A register write can be lost: one that the FPGA posts after the command loop has
    executed the command in the slot, and before it clears the slot, is erased unseen; on
    the same schedule the daemon ends in exactly the state it reaches when that write is
    never made. *)
Theorem race_lost_command (stk : list Z) (rap1 data1 rap2 data2 : Z) (w w' : world)
  (Hone : cmd_step stk (set_slot DDR3_CMD_OFF (cmd_word rap1 data1) w) = Ok w') :
  ∃ k n, let run es := dt_exec stk (d_post rap1 data1 :: replicate k d_cmd ++ es ++ replicate n d_cmd) (dt_idle w) in
    run [d_post rap2 data2] = Ok (dt_idle w') ∧ run [] = Ok (dt_idle w').
Proof.
  set (w0 := set_slot DDR3_CMD_OFF (cmd_word rap1 data1) w) in *.
  assert (Hp : flag (slot w0 DDR3_CMD_OFF) DDR3_CMD_PENDING_BIT = true).
  { unfold w0. rewrite slot_set_eq. pose proof (cmd_word_pending rap1 data1) as H.
    unfold DDR3_CMD_PENDING_BIT in *. flags_to_bits. unfold u64. by rewrite mod_pow2_testbit. }
  pose proof (solo_d_main stk w0) as Hs. rewrite Hone in Hs. unfold d_main, rd64c in Hs. rewrite solo_get, Hp, solo_bind in Hs.
  destruct (solo (d_execute stk _) w0) as [[[] w1]|] eqn:E; [|done]. cbn [mbind res_bind] in Hs.
  injection Hs as Hs. assert (Hw : w' = on_interrupt_cb (set_slot DDR3_CMD_OFF 0 w1)) by (by rewrite <-Hs).
  destruct (dt_solo stk Main ([], 0) _ (λ _, d_answer) w0 _ w1 (CRet DPoll) (CRet DRecv) []
    (balanced_d_execute _ _) E) as [k Hk].
  destruct (dt_publish stk Main ([], 0) DPoll (set_slot DDR3_CMD_OFF 0 w1) (CRet DPoll) (CRet DRecv) []) as [n Hn].
  assert (R1 : dt_exec stk [d_post rap1 data1; d_cmd; d_cmd] (dt_idle w)
    = Ok (Threads w0 d_free (_ ← d_execute stk (slot w0 DDR3_CMD_OFF); d_answer) (CRet DRecv) [])).
  { transitivity (dt_exec stk [d_cmd] (Threads w0 d_free (d_main stk) (CRet DRecv) [])); [reflexivity|].
    cbn [dt_exec]. rewrite dt_poll_step, Hp. reflexivity. }
  assert (R2 : ∀ u, dt_exec stk [d_cmd] (Threads u d_free d_answer (CRet DRecv) [])
    = Ok (Threads (set_slot DDR3_CMD_OFF 0 u) d_free (d_publish DPoll) (CRet DRecv) [])) by done.
  cbn [set_code th_world th_lock th_rx th_log] in Hk, Hn. exists (S (S k)), (S n). cbv zeta. subst w'.
  change (replicate (S (S k)) d_cmd) with ([d_cmd; d_cmd] ++ replicate k d_cmd).
  change (replicate (S n) d_cmd) with ([d_cmd] ++ replicate n d_cmd). split.
  - change (dt_exec stk ([d_post rap1 data1; d_cmd; d_cmd] ++ replicate k d_cmd ++ [d_post rap2 data2] ++ [d_cmd]
      ++ replicate n d_cmd) (dt_idle w) = Ok (dt_idle (on_interrupt_cb (set_slot DDR3_CMD_OFF 0 w1)))).
    rewrite (dt_exec_app _ _ _ _ _ R1), (dt_exec_app _ _ _ _ _ Hk).
    rewrite (dt_exec_app _ _ _ _ (Threads (set_slot DDR3_CMD_OFF (cmd_word rap2 data2) w1) d_free d_answer (CRet DRecv) []))
      by done.
    rewrite (dt_exec_app _ _ _ _ _ (R2 _)), set_slot_twice. exact Hn.
  - change (dt_exec stk ([d_post rap1 data1; d_cmd; d_cmd] ++ replicate k d_cmd ++ [d_cmd]
      ++ replicate n d_cmd) (dt_idle w) = Ok (dt_idle (on_interrupt_cb (set_slot DDR3_CMD_OFF 0 w1)))).
    rewrite (dt_exec_app _ _ _ _ _ R1), (dt_exec_app _ _ _ _ _ Hk), (dt_exec_app _ _ _ _ _ (R2 _)). exact Hn.
Qed.

(** ** Examples *)

(** A running card with interrupts enabled and one receive buffer, and a broadcast frame. *)
Definition ex_listen : world :=
  card 0 (Z.lor CSR0_RUNNING CSR0_INEA) 0 (poke_words 0x2000 [0x4000; RX_OWN; 65536 - 64; 0] ∅).
Definition ex_bcast : list Z :=
  BROADCAST_MAC ++ [2; 0; 0; 0; 0; 7] ++ [0x12; 0x34] ++ map Z.of_nat (seq 1 46).

Lemma race_lost_interrupt_witness : ∃ k w2,
  dt_exec ex_stack (replicate 3 d_cmd ++ replicate k (d_recv ex_bcast 60) ++ [d_cmd])
    (Threads ex_listen d_free (d_update DPoll) (CRet DRecv) []) = Ok (dt_idle w2) ∧
  int_level (csr0 w2) = 1 ∧ slot w2 DDR3_INT_OFF = 0.
Proof.
  destruct (is_ok_Ok (rx_step ex_stack ex_bcast 60 ex_listen)) as [w1 E]; [by vm_compute|].
  assert (P : (λ r, match r with Ok w => (int_level (csr0 w) =? 1)
    && negb (flag (slot w DDR3_CMD_OFF) DDR3_CMD_PENDING_BIT) | Err _ => false end)
    (rx_step ex_stack ex_bcast 60 ex_listen) = true) by (by vm_compute).
  rewrite E in P. apply andb_true_iff in P as [P1 P2]. apply Z.eqb_eq in P1.
  apply negb_true_iff in P2.
  destruct (race_lost_interrupt ex_stack ex_bcast 60 ex_listen w1) as (k & w2 & H1 & _ & H2 & H3 & _);
    [by vm_compute|exact E|exact P1|exact P2|].
  exists k, w2. split; [exact H1|]. split; [exact H2|exact H3].
Defined.

(** The driver's write of the init block address, lost behind an earlier write. *)
Lemma race_lost_command_witness : ∃ k n w',
  dt_exec ex_stack (d_post 2 0 :: replicate k d_cmd ++ [d_post 1 0x100] ++ replicate n d_cmd) (dt_idle ex_started)
    = Ok (dt_idle w') ∧ registers_csr 1 w' = 0.
Proof.
  destruct (is_ok_Ok (cmd_step ex_stack (set_slot DDR3_CMD_OFF (cmd_word 2 0) ex_started)))
    as [w' E]; [by vm_compute|].
  assert (P : (λ r, match r with Ok w => registers_csr 1 w =? 0 | Err _ => false end)
    (cmd_step ex_stack (set_slot DDR3_CMD_OFF (cmd_word 2 0) ex_started)) = true) by (by vm_compute).
  rewrite E in P. apply Z.eqb_eq in P.
  destruct (race_lost_command ex_stack 2 0 1 0x100 ex_started w' E) as (k & n & H & _).
  exists k, n, w'. split; [exact H|exact P].
Defined.
