(* ===== verification/DoorbellSafe.v ===== *)
(** * What the lock of the doorbell daemon guarantees

    Code that holds [registers_lock] has the chip to itself, but not board RAM, which the
    68k may write under it.  [wpp] says what a piece of chip code does to the chip whatever
    it reads from board RAM; [guarded] says that a thread touches the chip only while it
    holds the lock, and gives it back well-formed. *)

From S2P Require Import Prelude Types Window Crc32 Mac State Registers Rings Transmit Receive Slots Descriptors Doorbell RemoteChip Threads BridgeThreads BridgeSafe DoorbellThreads.

(** ** The chip, whatever is in the window *)

(** The world without the window. *)
Definition base (w : world) : world := set_w_win ∅ w.

(** From the chip state [b], with any values read from board RAM, the program ends with a
    result and a state in [Q], or reports an access outside a buffer. *)
Fixpoint wpp {A} (p : prog A) (b : world) (Q : A → world → Prop) : Prop :=
  match p with
  | Ret a => Q a b
  | Fail e => e = OutOfBounds
  | Get k => wpp (k (chip_view b)) b Q
  | Upd f k => wpp k (set_chip (f (chip_view b)) b) Q
  | Int k | Retry k | WrW _ _ k | WrBlk _ _ k => wpp k b Q
  | RdB _ k => ∀ v, fits 8 v → wpp (k v) b Q
  | RdW _ k => ∀ v, fits 16 v → wpp (k v) b Q
  | RdBlk _ n k => ∀ l, length l = n → Forall (fits 8) l → wpp (k l) b Q
  end.

(** Programs that do not touch board RAM. *)
Fixpoint no_ram {A} (p : prog A) : Prop :=
  match p with
  | Ret _ | Fail _ => True
  | Get k => ∀ c, no_ram (k c)
  | Upd _ k | Int k | Retry k => no_ram k
  | _ => False
  end.

#[local] Instance idle_int : IntHandler := Some id.
#[local] Instance idle_int_ok : IntHandlerOk.
Proof. by intros f w [= <-]. Qed.

Abbreviation i_run := (run_on id id).

(** ** Lemmas: programs *)

Lemma wpp_bind {A B} (p : prog A) (q : A → prog B) b (Q : B → world → Prop) :
  wpp p b (λ a b', wpp (q a) b' Q) → wpp (a ← p; q a) b Q.
Proof. revert b. induction p; intros b; cbn; eauto. Qed.

Lemma wpp_mono {A} (p : prog A) b (Q R : A → world → Prop) :
  wpp p b Q → (∀ a b', Q a b' → R a b') → wpp p b R.
Proof. intros Hp HQ. revert b Hp. induction p; intros b Hp; cbn in *; eauto. Qed.

Lemma wpp_seq {A B} (p : prog A) (q : A → prog B) b (Q : A → world → Prop) (R : B → world → Prop) :
  wpp p b Q → (∀ a b', Q a b' → wpp (q a) b' R) → wpp (a ← p; q a) b R.
Proof. intros Hp Hq. apply wpp_bind. by eapply wpp_mono. Qed.

Lemma wpp_lift {A} (x : res A) b (Q : A → world → Prop) :
  x ≠ Err OutOfFuel → (∀ a, x = Ok a → Q a b) → wpp (lift x) b Q.
Proof. destruct x as [a|[]]; cbn; [by auto|done|done]. Qed.

Lemma wpp_upd f b : chip_local f → wpp (upd f) b (λ _ b', b' = f b).
Proof. intros H. cbn. apply H. Qed.

(** Without board RAM, a program does what it does alone. *)
Lemma wpp_run {A} (p : prog A) b a b' : no_ram p → i_run p b = Ok (a, b') → wpp p b (λ x c, x = a ∧ c = b').
Proof.
  revert b. induction p; intros b Hp E; cbn in *; try done; eauto. by injection E as -> ->.
Qed.

Lemma wpp_rmw0 f b : wpp (rmw0 f) b (λ _ b', b' = set_csr0 (f (csr0 b)) b).
Proof.
  eapply wpp_mono; [eapply (wpp_run _ _ tt); [done|apply run_rmw0]|]. by intros ? ? [_ ->].
Qed.

Lemma no_ram_rethink : no_ram prog_rethink.
Proof.
  intros c c1. cbn. destruct (flag (csr0 c1) INT_CAUSES); [intros _ c2|intros c2]; cbn; by destruct (int_pending _).
Qed.

Lemma wpp_rethink b : wpp prog_rethink b (λ _ b', b' = rethink b).
Proof.
  eapply wpp_mono; [eapply (wpp_run _ _ tt); [apply no_ram_rethink|apply run_rethink]|]. by intros ? ? [_ ->].
Qed.

(** ** Lemmas: the rings keep the chip *)

(** A step with an exact outcome that keeps the chip. *)
Lemma wpp_keep {A B} (p : prog A) (q : A → prog B) b f (Q : B → world → Prop) :
  wpp p b (λ _ b', b' = f b) → (∀ a, wpp (q a) (f b) Q) → wpp (a ← p; q a) b Q.
Proof. intros Hp Hq. eapply wpp_seq; [apply Hp|]. intros a b' ->. apply Hq. Qed.

Lemma wpp_asks {A B} (f : world → A) (q : A → prog B) b Q :
  wpp (q (f (chip_view b))) b Q → wpp (a ← asks f; q a) b Q.
Proof. done. Qed.

Lemma wpp_rdw {B} off (q : Z → prog B) b Q :
  (∀ v, fits 16 v → wpp (q v) b Q) → wpp (v ← rdw off; q v) b Q.
Proof. done. Qed.

Lemma wpp_wrw {B} off v (q : () → prog B) b Q : wpp (q tt) b Q → wpp (a ← wrw off v; q a) b Q.
Proof. done. Qed.

Lemma wpp_put_desc {B} off md1 md3 (q : () → prog B) b Q : wpp (q tt) b Q → wpp (a ← prog_put_desc off md1 md3; q a) b Q.
Proof. done. Qed.

(** Update, store of CSR0, and [rethink], whose outcome is known. *)
Ltac wpp_upd := eapply wpp_keep; [apply wpp_upd; chip_local|intros _].
Ltac wpp_rmw := eapply wpp_keep; [apply (wpp_rmw0 _ _)|intros _].

Lemma wpp_rx_loop fuel rdra rlen d len insize first b : 0 < rlen ≤ 512 → 0 ≤ insize < len →
  len - insize ≤ Z.of_nat fuel → world_ok b →
  wpp (prog_rx_loop fuel rdra rlen d len insize first) b (λ stored b', keeps b b' ∧
    (stored = false → flag (csr0 b) CSR0_TDMD = false → csr0_inv (csr0 b'))).
Proof.
  intros Hr. revert insize first b. induction fuel as [|fuel IH]; intros insize first b Hi Hf Hb; [lia|].
  cbn [prog_rx_loop]. wpp_upd. set (b1 := upd_reg _ b).
  assert (K1 : keeps b b1) by (apply keeps_rdr_offset; [done|by apply mod_ring_range]).
  assert (K2 : keeps b (upd_reg (λ r, set_rdr_offset (rdr_offset r + 1) r) b1)).
  { eapply keeps_trans; [apply K1|]. intros. apply keeps_rdr_offset; [done|by apply mod_ring_next]. }
  apply wpp_asks. do 4 (apply wpp_rdw; intros ? ?). cbv zeta. case_match.
  - eapply (wpp_seq _ _ _ (λ _ c, c = (if first then registers_csr0_set CSR0_MISS else registers_csr0_clr CSR0_RXON) b1));
      [destruct first; apply wpp_rmw0|intros _ c ->].
    apply wpp_wrw. eapply wpp_keep; [apply wpp_rethink|intros _].
    assert (K3 : keeps b ((if first then registers_csr0_set CSR0_MISS else registers_csr0_clr CSR0_RXON) b1)).
    { eapply keeps_trans; [apply K1|]. intros. destruct first; keep. }
    split; [by eapply keeps_trans; [apply K3|apply keeps_rethink]|]. intros _ Ht. by apply (keeps_rethink_inv b).
  - wpp_upd. apply wpp_bind, wpp_lift; [apply bslice_fuel|intros src _]. cbn [wpp]. apply wpp_put_desc.
    pose proof (desc_size_range v1 H1) as Hs. case_match; [by split|].
    eapply wpp_mono; [apply IH; [lia|lia|apply K2]|]. intros st c [K3 I3].
    split; [eapply keeps_trans; [apply K2|by intros]|]. intros E Ht. apply I3; [done|].
    by rewrite (run_frame_tdmd _ _ (proj2 K2)).
Qed.

Section stack.
Context (stk : list Z) (Hl : length stk = 4096%nat) (Hb : Forall (fits 8) stk).

Lemma wpp_gotfunc databuf len b : Forall (fits 8) databuf → world_ok b →
  wpp (prog_gotfunc stk databuf len) b (λ _ b', keeps b b' ∧ (csr0_inv (csr0 b) → csr0_inv (csr0 b'))).
Proof.
  intros Hd Hw. pose proof (keeps_refl b Hw) as K0. unfold prog_gotfunc. apply wpp_asks. unfold id. view_simpl.
  case_match; [by split|]. destruct (Z.ltb_spec len 20); [by split|]. cbv zeta.
  destruct (ring_usable _ _) eqn:Eu; cbn [negb]; [|by split].
  apply ring_usable_range in Eu; [|by apply rlen_nonneg].
  apply wpp_bind, wpp_lift; [apply bslice_fuel|intros src Hs].
  apply wpp_bind, wpp_lift; [apply bblit_fuel|intros d Hdd].
  destruct (bytes_stk _ _ _ Hl Hb (bslice_Forall _ _ _ _ Hd Hs) Hdd) as [Hdl Hdf].
  eapply (wpp_seq _ _ _ (λ _ c, c = b)).
  { case_match; [done|]. apply wpp_bind, wpp_lift; [|by intros []].
    destruct (mungepacket_cases (w_mac b) d len) as [->|(b' & -> & _)]; try done; [apply Hw|lia]. }
  intros d1 c ->. case_match; [by split|].
  apply wpp_bind, wpp_lift; [apply append_fcs_fuel|]. intros [d2 len2] (-> & ? & ?)%append_fcs_len.
  eapply wpp_seq; [apply wpp_rx_loop; [done|lia|lia|done]|]. cbv beta. intros stored c [K I].
  destruct stored; [|split; [done|intros Hi; apply I; [done|apply Hi]]].
  wpp_rmw. set (c1 := set_csr0 _ c).
  assert (K1 : keeps b c1) by (eapply keeps_trans; [apply K|intros; apply (keeps_csr0_set CSR0_RINT); auto]).
  eapply wpp_keep; [apply wpp_rethink|intros _].
  assert (K2 : keeps b (rethink c1)) by (eapply keeps_trans; [apply K1|apply keeps_rethink]).
  assert (I2 : csr0_inv (csr0 b) → csr0_inv (csr0 (rethink c1)))
    by (intros Hi; apply (keeps_rethink_inv b); [done|apply Hi]).
  revert K2 I2. generalize (rethink c1). intros u K2 I2.
  eapply wpp_mono; [apply wpp_upd; chip_local|]. cbv beta. intros _ u' ->.
  destruct (flag (registers_mode u) MODE_LOOP); [|by split].
  split; [|exact I2]. eapply keeps_trans; [apply K2|]. intros. by apply keeps_upd_ring.
Qed.

Lemma wpp_tx_scan n tdra tlen start i tmd1 b : 0 < tlen ≤ 512 → world_ok b →
  wpp (prog_tx_scan n tdra tlen start i tmd1) b (λ _ b', keeps b b').
Proof.
  intros Ht. revert i tmd1 b. induction n as [|n IH]; intros i tmd1 b Hw; [by apply keeps_refl|]. cbn [prog_tx_scan].
  wpp_upd. set (b1 := upd_reg _ b).
  assert (K : keeps b b1) by (apply keeps_tdr_offset; [done|pose proof (Z.mod_pos_bound (start + i) tlen); lia]).
  apply wpp_asks, wpp_rdw. intros v Hv. case_match; [done|]. eapply wpp_mono; [apply IH, K|].
  intros ? c K'. eapply keeps_trans; [apply K|by intros].
Qed.

Lemma wpp_tx_loop fuel tdra tlen outsize b : 0 < tlen ≤ 512 → 0 ≤ outsize ≤ 4096 →
  4096 - outsize < Z.of_nat fuel → world_ok b →
  wpp (prog_tx_loop fuel tdra tlen outsize) b (λ _ b', keeps b b').
Proof.
  intros Ht. revert outsize b. induction fuel as [|fuel IH]; intros outsize b Ho Hf Hw; [lia|].
  cbn [prog_tx_loop]. wpp_upd. set (b1 := upd_reg _ b).
  assert (K1 : keeps b b1) by (apply keeps_tdr_offset; [done|by apply mod_ring_range]).
  apply wpp_asks. do 4 (apply wpp_rdw; intros ? ?). cbv zeta. case_match.
  { wpp_rmw. apply wpp_put_desc. cbn [wpp]. eapply keeps_trans; [apply K1|]. intros. by apply keeps_csr0_clr. }
  pose proof (tx_size_bounds v1 H1) as Hs. destruct (Z.ltb_spec MAX_PACKET_SIZE (outsize + tx_size v1)); [done|].
  unfold MAX_PACKET_SIZE in *. intros data Hdl Hdb. apply wpp_asks. unfold id. view_simpl.
  apply wpp_bind, wpp_lift; [apply bblit_fuel|intros c Hbl]. apply bblit_inv in Hbl as [L1 B1].
  rewrite (buf_len b1 (proj1 K1)) in L1. specialize (B1 (buf_bytes b1 (proj1 K1)) Hdb).
  set (last := flag _ TX_ENP && _). apply wpp_bind, wpp_lift.
  { unfold tx_pad. case_match; [|done]. apply bind_fuel; [apply bblit_fuel|done]. }
  intros [b' o'] Hp. pose proof (tx_pad_inv _ _ _ _ _ Hp) as [L2 B2]. rewrite L1 in L2. specialize (B2 B1).
  wpp_upd. wpp_upd. set (b2 := upd_reg _ (upd_ring _ b1)).
  assert (K2 : keeps b b2).
  { eapply keeps_trans; [apply K1|]. intros. eapply keeps_trans; [by apply (keeps_buffer b')|]. intros.
    apply keeps_tdr_offset; [done|by apply mod_ring_next]. }
  destruct (flag _ TX_ENP) eqn:E; [done|]. unfold last in Hp. cbn in Hp. injection Hp as <- <-. apply wpp_put_desc.
  eapply wpp_mono; [apply IH; [lia|lia|apply K2]|]. intros ? c' K'. eapply keeps_trans; [apply K2|by intros].
Qed.

Lemma wpp_tx_done b : world_ok b → wpp prog_tx_done b (λ _ b', keeps b b').
Proof.
  intros Hw. unfold prog_tx_done. wpp_rmw. eapply wpp_keep; [apply wpp_rethink|intros _]. cbn [wpp].
  eapply keeps_trans; [by apply (keeps_csr0_set CSR0_TINT); auto|apply keeps_rethink].
Qed.

Lemma wpp_done b0 b : keeps b0 b → wpp prog_tx_done b (λ _ b', keeps b0 b').
Proof.
  intros K. eapply wpp_mono; [apply wpp_tx_done, K|]. intros ? c K'. eapply keeps_trans; [apply K|by intros].
Qed.

Lemma wpp_send x len b : length x = 4096%nat → Forall (fits 8) x → world_ok b →
  wpp (prog_send x len) b (λ _ b', keeps b b').
Proof.
  intros Hn Hf Hw. unfold prog_send. apply wpp_asks.
  destruct (Z.leb_spec len 0); [rewrite orb_true_r; by apply keeps_refl|]. case_match; [by apply keeps_refl|].
  apply wpp_bind, wpp_lift; [apply bslice_fuel|intros f Hs].
  eapply wpp_mono; [apply wpp_upd; chip_local|]. intros ? c ->. apply keeps_sent; [|done].
  by apply (bslice_frame x len).
Qed.

Lemma wpp_tx_finish add_fcs e b : world_ok b → wpp (prog_tx_finish stk add_fcs e) b (λ _ b', keeps b b').
Proof.
  intros Hw. pose proof (keeps_refl b Hw) as K0. unfold prog_tx_finish. destruct e as [err outsize off tmd1 tmd3].
  apply wpp_asks. unfold id. view_simpl. cbv zeta.
  destruct err; [by apply wpp_done|]. destruct (_ && negb _) eqn:E0.
  { wpp_rmw. do 2 apply wpp_wrw. apply wpp_done. by apply keeps_csr0_clr. }
  destruct (flag (registers_mode b) MODE_LOOP).
  - destruct (flag _ MODE_COLL); apply wpp_put_desc; [by apply wpp_done|].
    eapply wpp_seq; [apply wpp_gotfunc; [apply Hw|done]|]. intros ? c [K _]. by apply wpp_done.
  - destruct (flag _ MODE_COLL || _); apply wpp_put_desc; [by apply wpp_done|].
    rewrite andb_true_r in E0. apply Z.ltb_ge in E0. set (size := if _ && _ then _ else _).
    assert (20 ≤ size) by (unfold size; case_match; lia). clearbody size.
    wpp_upd. set (b1 := upd_ring _ b). assert (K1 : keeps b b1) by by apply keeps_upd_ring.
    destruct (mungepacket_cases (w_mac b) (transmitbuffer (w_ring b)) size) as [-> |(x & -> & L & B & _)];
      [apply Hw|rewrite (buf_len b Hw); lia|apply Hw|done|done|]. rewrite (buf_len b Hw) in L.
    apply wpp_bind. cbn [lift wpp]. wpp_upd. set (b2 := upd_ring _ b1).
    assert (K2 : keeps b b2) by (eapply keeps_trans; [apply K1|intros; by apply keeps_buffer]).
    eapply wpp_seq; [apply wpp_send; [done|done|apply K2]|]. intros ? c K3. apply wpp_done.
    eapply keeps_trans; [apply K2|by intros].
Qed.

Lemma wpp_do_transmit b : world_ok b → wpp (prog_do_transmit stk) b (λ _ b', keeps b b').
Proof.
  intros Hw. pose proof (keeps_refl b Hw) as K0. unfold prog_do_transmit. apply wpp_asks. unfold id. view_simpl. cbv zeta.
  case_match; [done|]. destruct (ring_usable _ _) eqn:Eu; cbn [negb]; [|done].
  apply ring_usable_range in Eu; [|by apply tlen_nonneg].
  wpp_upd. set (b1 := upd_reg _ b).
  assert (K1 : keeps b b1) by (apply keeps_tdr_offset; [done|by apply mod_ring_range]).
  apply wpp_asks. view_simpl. set (start := tdr_offset (w_reg b1)). apply wpp_rdw. intros v Hv.
  eapply (wpp_seq _ _ _ (λ _ c, keeps b c)).
  { case_match; [done|]. eapply wpp_mono; [apply wpp_tx_scan; [done|apply K1]|].
    intros ? c K. eapply keeps_trans; [apply K1|by intros]. }
  intros tmd1 c K. case_match.
  - wpp_upd. cbn [wpp]. eapply keeps_trans; [apply K|]. intros. apply keeps_tdr_offset; [done|].
    apply (tdr_offset_range _ (reg_ok b1 (proj1 K1))).
  - eapply wpp_seq; [apply wpp_tx_loop; [done|lia|unfold tx_fuel; lia|apply K]|]. intros e c' K'.
    eapply wpp_mono; [apply wpp_tx_finish, K'|]. intros ? c2 K2.
    eapply keeps_trans; [apply K|]. intros _. eapply keeps_trans; [apply K'|by intros].
Qed.

Lemma wpp_on_transmit b : world_ok b → wpp (prog_doorbell_on_transmit_cb stk) b (λ _ b', keeps b b').
Proof. intros Hw. eapply wpp_seq; [by apply wpp_do_transmit|]. by intros a c K. Qed.
End stack.

(** ** Lemmas: register writes *)

(** [chip_init] with these values for what it reads. *)
Definition init_with (mode ladrf rdr tdr : Z) (mac : list Z) (w : world) : world :=
  let w := rings_reset_loopback_count w in
  let w := upd_reg (λ r,
    let r := set_am_ladrf ladrf (set_am_mode mode r) in
    let r := set_am_rdr_rlen (Z.shiftl 1 (Z.land (Z.shiftr rdr 29) 7)) r in
    let r := set_am_tdr_tlen (Z.shiftl 1 (Z.land (Z.shiftr tdr 29) 7)) r in
    let r := set_am_rdr_rdra (Z.land rdr 0x00fffff8) r in
    let r := set_am_tdr_tdra (Z.land tdr 0x00fffff8) r in
    set_fakemac mac r) w in
  let w := upd_mac (mac_set_fakemac (fakemac (w_reg w))) w in
  upd_reg chip_init_mask w.

(** It has been run with values of the right width. *)
Definition inited (w w' : world) : Prop := ∃ mode ladrf rdr tdr mac,
  fits 16 mode ∧ fits 64 ladrf ∧ length mac = 6%nat ∧ Forall (fits 8) mac ∧
  w' = init_with mode ladrf rdr tdr mac w.

Lemma wpp_load_ladrf off b : wpp (prog_load_ladrf off) b (λ x c, c = b ∧ fits 64 x).
Proof. intros l3 H3 l2 H2 l1 H1 l0 H0. split; [done|solve_fits]. Qed.

Lemma wpp_load_dr off_hi off_lo b : wpp (prog_load_dr off_hi off_lo) b (λ x c, c = b).
Proof. by intros hi Hh lo Hlo. Qed.

Lemma wpp_load_mac off b : wpp (prog_load_mac off) b (λ m c, c = b ∧ length m = 6%nat ∧ Forall (fits 8) m).
Proof. intros m0 M0 m1 M1 m2 M2 m3 M3 m4 M4 m5 M5. split_and!; [done|done|by rewrite !Forall_cons]. Qed.

Lemma wpp_chip_init b : wpp prog_chip_init b (λ _ b', inited b b').
Proof.
  unfold prog_chip_init. wpp_upd. apply wpp_asks, wpp_rdw. intros mode Hm. wpp_upd.
  eapply wpp_seq; [apply wpp_load_ladrf|intros ladrf ? [-> Hf]]. wpp_upd.
  eapply wpp_seq; [apply wpp_load_dr|intros rdr ? ->]. eapply wpp_seq; [apply wpp_load_dr|intros tdr ? ->]. wpp_upd.
  eapply wpp_seq; [apply wpp_load_mac|intros mac ? (-> & Hl & Hb)]. wpp_upd. wpp_upd.
  eapply wpp_mono; [apply wpp_upd; chip_local|]. intros ? c ->. by exists mode, ladrf, rdr, tdr, mac.
Qed.

Lemma world_ok_inited w w' : inited w w' → world_ok w → world_ok w'.
Proof.
  intros (mode & ladrf & rdr & tdr & mac & Hm & Hf & Hl & Hb & ->) []. unfold init_with.
  split; cbn -[chip_init_mask]; try done.
  - destruct reg_ok. apply regs_ok_mask. split; cbn; try done; apply ring_len_fits.
  - split; cbn; try apply mac_ok; done.
Qed.

Lemma csr0_inited w w' : inited w w' → csr0 w' = csr0 w.
Proof. by intros (? & ? & ? & ? & ? & _ & _ & _ & _ & ->). Qed.

Lemma inited_set_csr0 c w w' : inited (set_csr0 c w) w' → ∃ u, inited w u ∧ w' = set_csr0 c u.
Proof.
  intros (mode & ladrf & rdr & tdr & mac & Hm & Hf & Hl & Hb & ->).
  exists (init_with mode ladrf rdr tdr mac w). split; [|done]. by exists mode, ladrf, rdr, tdr, mac.
Qed.

(** The merge, and switching the chip on: no board RAM. *)
Lemma wpp_merge v b : wpp (prog_csr0_merge v) b (λ _ b', b' = set_csr0 (csr0_merge (csr0 b) v) b).
Proof.
  eapply wpp_mono; [eapply (wpp_run _ _ tt); [done|apply run_csr0_merge]|]. by intros ? ? [_ ->].
Qed.

Lemma wpp_on b : wpp prog_csr0_on b
  (λ _ b', b' = set_csr0 (csr0_on (am_mode (w_reg b)) (andnot (csr0 b) CSR0_STOP)) b).
Proof.
  eapply wpp_mono; [eapply (wpp_run _ _ tt); [|apply run_csr0_on]|by intros ? ? [_ ->]].
  intros c. cbn. intros c1. destruct (flag _ MODE_DTX); cbn; intros; by destruct (flag _ MODE_DRX).
Qed.

Lemma wpp_ld0 {B} (q : Z → prog B) b Q : wpp (q (csr0 b)) b Q → wpp (c ← ld0; q c) b Q.
Proof. done. Qed.

Section command.
Context (w : world) (Hw : world_ok w) (v : Z) (Hv : fits 16 v).
Let oreg := csr0 w.
Let w1 := set_csr0 (csr0_merge oreg v) w.

(** As [world_ok_command], whatever board RAM says. *)
Lemma wpp_command : wpp (prog_csr0_command oreg) w1 (λ _ b, world_ok b).
Proof.
  assert (Hm := merged_fits w Hw v Hv). assert (Hc := csr0_ok w Hw). fold oreg in Hc, Hm.
  assert (E0 : csr0 w1 = csr0_merge oreg v) by apply csr0_merged, Hw.
  assert (Ms : ∀ c, fits 16 c → csr0_core c → world_ok (set_csr0 c w1)) by apply (world_ok_merged_set w Hw v).
  assert (Hs := world_ok_command w Hw v Hv). fold oreg w1 in Hs. unfold csr0_command in Hs. cbv zeta in Hs.
  unfold prog_csr0_command. apply wpp_ld0. rewrite E0 in *.
  destruct (flag _ CSR0_STOP && _) eqn:E1.
  { wpp_upd. eapply wpp_mono; [apply wpp_upd; chip_local|]. by intros ? ? ->. }
  apply wpp_ld0. rewrite E0. destruct (flag _ CSR0_STRT && _ && _) eqn:E2.
  - eapply wpp_seq; [apply wpp_on|intros ? b ->]. rewrite E0. set (c := csr0_on _ _) in *.
    assert (Hon : world_ok (set_csr0 c w1)).
    { apply Ms; [|by apply csr0_on_core, csr0_merge_started]. apply csr0_on_fits. solve_fits. }
    apply wpp_ld0. case_match; [|done].
    eapply wpp_seq; [apply wpp_chip_init|intros ? b Hi]. apply world_ok_inited in Hi; [|done].
    wpp_rmw. eapply wpp_mono; [apply wpp_upd; chip_local|]. intros ? ? ->. by apply world_ok_initialized, world_ok_idon.
  - apply wpp_ld0. rewrite E0. destruct (flag _ CSR0_INIT && _ && _) eqn:E3; [|done].
    eapply wpp_seq; [apply wpp_chip_init|intros ? b Hi]. pose proof (csr0_inited _ _ Hi) as Eb. rewrite E0 in Eb.
    apply inited_set_csr0 in Hi as (u & Hi & ->). apply world_ok_inited in Hi; [|done].
    wpp_rmw. rewrite Eb. wpp_rmw. rewrite !set_csr0_twice, csr0_set_csr0 by apply Hi. wpp_upd.
    eapply wpp_mono; [apply wpp_upd; chip_local|]. intros ? ? ->. apply world_ok_set_csr_at; [lia|done|].
    apply world_ok_initialized, world_ok_set_csr0; [done|solve_fits|]. by apply csr0_merge_inited.
Qed.
End command.

Section stack.
Context (stk : list Z) (Hl : length stk = 4096%nat) (Hb : Forall (fits 8) stk).

Lemma wpp_demand b : world_ok b →
  wpp (prog_csr0_demand (prog_doorbell_on_transmit_cb stk)) b
    (λ _ b', world_ok b' ∧ flag (csr0 b') CSR0_TDMD = false).
Proof.
  intros Hw. unfold prog_csr0_demand. apply wpp_ld0. case_match eqn:E; [|done]. apply wpp_asks.
  eapply (wpp_seq _ _ _ (λ _ c, world_ok c)).
  { view_simpl. case_match; [|done]. apply wpp_ld0. pose proof (csr0_implicit_start b Hw) as Hs.
    eapply (wpp_seq _ _ _ (λ _ c, world_ok c)).
    - destruct (flag (csr0 b) CSR0_TXON); [done|]. eapply wpp_mono; [apply wpp_on|]. by intros ? ? ->.
    - intros ? c Hc. eapply wpp_seq; [by apply wpp_on_transmit|]. by intros ? ? []. }
  intros ? c Hc. eapply wpp_mono; [apply wpp_rmw0|]. intros ? ? ->. split.
  - apply world_ok_set_csr0; [done| |apply csr0_core_clr, Hc]. assert (Hf := csr0_fits c Hc). solve_fits.
  - rewrite csr0_set_csr0 by apply Hc. solve_bits.
Qed.

Lemma wpp_wput_csr0 v b : fits 16 v → world_ok b →
  wpp (prog_wput_csr0 (prog_doorbell_on_transmit_cb stk) v) b (λ _ b', chip_ok b').
Proof.
  intros Hv Hw. unfold prog_wput_csr0. apply wpp_ld0.
  eapply wpp_seq; [apply wpp_merge|intros ? ? ->]. eapply wpp_seq; [by apply wpp_command|intros ? c Hc].
  eapply wpp_seq; [by apply wpp_demand|intros ? d [Hd Ht]].
  eapply wpp_mono; [apply wpp_rethink|]. intros ? ? ->. split; [by apply world_ok_rethink|by apply rethink_inv].
Qed.
End stack.

(** ** Code of a thread *)

(** From depth [d] of the lock, with the chip state [b] while it is held: the code changes
    the chip only under the lock, whatever happens to the window, and unlocks it
    well-formed; it ends in [Q] or with an access outside a buffer. *)
Fixpoint guarded {A} (Q : A → nat → world → Prop) (c : bcode A) (d : nat) (b : world) : Prop :=
  match c with
  | CRet a => Q a d b
  | CErr e => e = OutOfBounds
  | CStep f k => ∀ w, window_ok (w_win w) → (d ≠ 0%nat → base w = b) →
      window_ok (w_win (f w)) ∧ (d = 0%nat → base (f w) = base w) ∧ guarded Q (k w) d (base (f w))
  | CLock _ k => ∀ b', (match d with 0%nat => chip_ok b' | _ => b' = b end) → guarded Q k (S d) b'
  | CUnlock k => match d with
      | 0%nat => False
      | 1%nat => chip_ok b ∧ guarded Q k 0 b
      | S d => guarded Q k d b
      end
  | CWait _ => False
  end.

(** The code ends without the lock. *)
Definition unlocked {A} (a : A) (d : nat) (b : world) : Prop := d = 0%nat.

(** ** Lemmas: guarded code *)

Lemma guarded_bind {A B} (c : bcode A) (q : A → bcode B) Q R d b :
  guarded Q c d b → (∀ a d b, Q a d b → guarded R (q a) d b) → guarded R (x ← c; q x) d b.
Proof.
  intros Hc Hq. revert d b Hc. induction c as [a|e|f k IH|o k IH|k IH|k IH]; intros d b Hc; cbn in *.
  - by apply Hq.
  - done.
  - intros w Hw Hb. destruct (Hc w Hw Hb) as (H1 & H2 & H3). auto.
  - eauto.
  - destruct d as [|[|d]]; [done| |by apply IH]. destruct Hc. auto.
  - done.
Qed.

(** Without the lock the chip state means nothing. *)
Lemma guarded_idle {A} (c : bcode A) b b' : guarded unlocked c 0 b → guarded unlocked c 0 b'.
Proof. destruct c; cbn; try done. intros H w Hw _. by apply H. Qed.

Lemma guarded_get {A B} (f : world → A) (q : A → bcode B) R d b :
  (∀ w, window_ok (w_win w) → (d ≠ 0%nat → base w = b) → guarded R (q (f w)) d (base w)) →
  guarded R (x ← get f; q x) d b.
Proof. intros H w Hw Hb. split_and!; [done..|]. by apply H. Qed.

(** A load under the lock. *)
Lemma guarded_load {A B} (f : world → A) (q : A → bcode B) R d b : d ≠ 0%nat →
  (∀ a, guarded R (q a) d b) → guarded R (x ← get f; q x) d b.
Proof. intros Hd H. apply guarded_get. intros w _ Hb. rewrite (Hb Hd). apply H. Qed.

Lemma guarded_lock {A B} o (c : bcode A) (q : A → bcode B) R d b :
  (∀ b', (match d with 0%nat => chip_ok b' | _ => b' = b end) →
    guarded R (x ← c; y ← (CUnlock (CRet x) : bcode A); q y) (S d) b') → guarded R (x ← locked o c; q x) d b.
Proof.
  intros H b1 H1. specialize (H b1 H1). clear H1. revert H. cbn [mbind code_bind].
  generalize (S d). clear d. revert b1.
  induction c as [a|e|f k IH|o1 k IH|k IH|k IH]; intros b1 d H; cbn in *; try done.
  - intros w Hw Hb. destruct (H w Hw Hb) as (H1 & H2 & H3). split_and!; [done..|]. by apply IH.
  - intros b2 H2. by apply IH, H.
  - destruct d as [|[|d]]; [done| |by apply IH]. destruct H. split; [done|]. by apply IH.
Qed.

(** A section that only loads. *)
Lemma guarded_section {A B} (c : bcode A) (q : A → bcode B) R d b :
  (∀ b', guarded (λ _ d' c, d' = S d ∧ c = b') c (S d) b') →
  (∀ a b', (d ≠ 0%nat → b' = b) → guarded R (q a) d b') → guarded R (x ← locked no_op c; q x) d b.
Proof.
  intros Hc Hq. apply guarded_lock. intros b' H1. eapply guarded_bind; [apply Hc|]. intros a ? ? [-> ->]. cbn.
  destruct d; [split; [done|]|]; by apply Hq.
Qed.

(** The chip state is as it was, if the lock is held. *)
Definition same (d : nat) (b : world) (_ : ()) (d' : nat) (b' : world) : Prop := d' = d ∧ (d ≠ 0%nat → b' = b).

Lemma guarded_slot off v d b0 b : RAM_SIZE ≤ off → (d ≠ 0%nat → b = b0) → guarded (same d b0) (wr64c off v) d b.
Proof.
  intros Ho Hb0 w Hw Hb. split_and!; [by apply (frame_win _ _ (set_slot_frame off v w Ho))|done|].
  split; [done|]. intros Hd. by rewrite <-(Hb0 Hd), <-(Hb Hd).
Qed.

Lemma guarded_push d b : guarded (same d b) d_push_csr_shadow d b.
Proof.
  apply guarded_section; [intros b'; by do 4 (apply guarded_load; [done|intros ?])|].
  intros [[[c0 c1] c2] c3] b' Hb'. by apply guarded_slot.
Qed.

Lemma guarded_int d b0 b : (d ≠ 0%nat → b = b0) → guarded (same d b0) d_update_int_state d b.
Proof.
  intros Hb0. apply guarded_section; [intros b'; by apply (guarded_load _ CRet)|].
  intros c b' Hb'. apply guarded_slot; [done|]. intros Hd. by rewrite Hb', Hb0.
Qed.

Lemma guarded_on_interrupt d b : guarded (same d b) d_on_interrupt_cb d b.
Proof. eapply guarded_bind; [apply guarded_push|]. intros _ ? b' [-> Hb']. by apply guarded_int. Qed.

Lemma guarded_rdb {B} off (q : Z → bcode B) R d b : d ≠ 0%nat →
  (∀ v, fits 8 v → guarded R (q v) d b) → guarded R (x ← b_rdb off; q x) d b.
Proof. intros Hd H. apply guarded_get. intros w Hw Hb. rewrite (Hb Hd). by apply H, get_ram_byte_fits. Qed.

Lemma guarded_wrb {B} off v (q : () → bcode B) R d b : d ≠ 0%nat →
  guarded R (q tt) d b → guarded R (x ← b_wrb off v; q x) d b.
Proof.
  intros Hd H w Hw Hb. split_and!; [by apply window_ok_put_byte|done|].
  change (base (set_w_win _ w)) with (base w). by rewrite (Hb Hd).
Qed.

Lemma guarded_read {B} off n (q : list Z → bcode B) R d b : d ≠ 0%nat →
  (∀ l, length l = n → Forall (fits 8) l → guarded R (q l) d b) → guarded R (x ← b_read_block off n; q x) d b.
Proof.
  intros Hd H. eapply (guarded_bind _ _ (λ l d' b', d' = d ∧ b' = b ∧ length l = n ∧ Forall (fits 8) l));
    [|intros l ? ? (-> & -> & ? & ?); by apply H].
  clear H. revert off. induction n as [|n IH]; intros off; [done|]. cbn [b_read_block].
  apply guarded_rdb; [done|]. intros v Hv. eapply guarded_bind; [apply IH|]. intros l ? ? (-> & -> & <- & Hf).
  split_and!; [done..|by constructor].
Qed.

Lemma guarded_write {B} off src (q : () → bcode B) R d b : d ≠ 0%nat →
  guarded R (q tt) d b → guarded R (x ← b_write_block off src; q x) d b.
Proof.
  intros Hd H. eapply (guarded_bind _ _ (λ _ d' b', d' = d ∧ b' = b)); [|by intros [] ? ? [-> ->]].
  clear H. revert off. induction src as [|v src IH]; intros off; [done|]. cbn [b_write_block].
  apply guarded_wrb; [done|]. apply IH.
Qed.

(** Chip code under the lock does what [wpp] says. *)
Lemma guarded_chip {A} (p : prog A) d b (Q : A → world → Prop) : d ≠ 0%nat →
  wpp p b Q → guarded (λ a d' b', d' = d ∧ Q a b') (d_chip p) d b.
Proof.
  intros Hd. revert b.
  induction p as [a|e|k IH|f k IH|k IH|k IH|off k IH|off k IH|off v k IH|off n k IH|off src k IH];
    intros b H; cbn [wpp d_chip] in *.
  - done.
  - done.
  - intros w Hw Hb. specialize (Hb Hd). subst b. split_and!; [done..|]. by apply IH.
  - intros w Hw Hb. specialize (Hb Hd). subst b. split_and!; [done..|]. by apply IH.
  - eapply guarded_bind; [apply guarded_on_interrupt|]. intros _ ? b' [-> Hb']. rewrite (Hb' Hd). by apply IH.
  - by apply IH.
  - apply guarded_rdb; [done|]. intros v Hv. by apply IH, H.
  - apply guarded_rdb; [done|]. intros hi Hh. apply guarded_rdb; [done|]. intros lo Hlo. apply IH, H, fits_u16.
  - apply guarded_wrb; [done|]. apply guarded_wrb; [done|]. by apply IH.
  - apply guarded_read; [done|]. intros l Hl Hf. by apply IH, H.
  - apply guarded_write; [done|]. by apply IH.
Qed.

Lemma chip_ok_base w : chip_ok w → chip_ok (base w).
Proof. intros [[] Hi]. split; [|done]. by split. Qed.

Lemma chip_ok_win w : window_ok (w_win w) → chip_ok (base w) → chip_ok w.
Proof. intros Hw [[] Hi]. by split. Qed.

(** A register write other than of CSR0. *)
Lemma chip_ok_plain b v : chip_ok b → fits 16 v → rap (w_reg b) < RAP_SIZE → rap (w_reg b) ≠ 0 →
  chip_ok (wput_plain (rap (w_reg b)) v b).
Proof.
  intros Hb Hv Hr Hz. assert (Htx : @TxHandlerOk None) by done.
  apply (@chip_ok_wput idle_int _ None Htx A2065_RDP_OFF v b); [done|done|].
  unfold chip_wput. cbv zeta. change (A2065_RDP_OFF =? A2065_RAP_OFF) with false.
  destruct (Z.leb_spec RAP_SIZE (rap (w_reg b))); [lia|]. destruct (Z.eqb_spec (rap (w_reg b)) 0); [done|].
  unfold wput_plain. by repeat case_match.
Qed.

(** The lock is held once, and the chip could be given back. *)
Definition holding (_ : ()) (d : nat) (b : world) : Prop := d = 1%nat ∧ chip_ok b.

Section daemon.
Context (stk : list Z) (Hl : length stk = 4096%nat) (Hb : Forall (fits 8) stk).

Lemma guarded_wput off v b : fits 16 v → chip_ok b → guarded holding (d_chip_wput stk off v) 1 b.
Proof.
  intros Hv Hc. unfold d_chip_wput. case_match.
  - intros w Hw Eb. specialize (Eb (Nat.neq_succ_0 0)). subst b. split_and!; [done..|].
    destruct Hc as [Hc Hi]. split; [done|]. split; [|done]. apply (world_ok_upd_reg _ (base w)); [done| |apply Hc].
    destruct (reg_ok _ Hc). split; try done. cbn. solve_fits.
  - apply guarded_get. intros w Hw Eb. specialize (Eb (Nat.neq_succ_0 0)). rewrite Eb.
    replace (rap (w_reg w)) with (rap (w_reg b)) by (by rewrite <-Eb). clear w Hw Eb.
    destruct (Z.leb_spec RAP_SIZE (rap (w_reg b))); [done|]. destruct (Z.eqb_spec (rap (w_reg b)) 0) as [E|Hz].
    + apply guarded_chip; [done|]. apply wpp_wput_csr0; [done..|apply Hc].
    + intros w Hw Eb. specialize (Eb (Nat.neq_succ_0 0)). split_and!; [|done|].
      * unfold wput_plain. by repeat case_match.
      * split; [done|]. replace (base _) with (wput_plain (rap (w_reg b)) v b); [by apply chip_ok_plain|].
        rewrite <-Eb. unfold wput_plain. change (csr0 (base w)) with (csr0 w). by repeat case_match.
Qed.

Lemma guarded_publish lbl b : guarded unlocked (d_publish lbl) 0 b.
Proof.
  eapply guarded_bind; [apply guarded_push|]. intros _ d b1 [-> _].
  eapply guarded_bind; [by apply guarded_int|]. by intros _ ? ? [-> _].
Qed.

Lemma guarded_execute {B} cmd (q : () → bcode B) R b : (∀ b', guarded R (q tt) 0 b') →
  guarded R (x ← d_execute stk cmd; q x) 0 b.
Proof.
  intros H. apply guarded_lock. intros b1 Hc. eapply (guarded_bind _ _ holding).
  - eapply guarded_bind; [apply guarded_wput; [solve_fits|done]|]. intros _ ? b2 [-> H2].
    apply guarded_wput; [solve_fits|done].
  - intros [] ? b2 [-> H2]. by split.
Qed.

Lemma guarded_main b : guarded unlocked (d_main stk) 0 b.
Proof.
  unfold d_main. apply guarded_get. intros w Hw _. case_match; [|done]. apply guarded_execute. intros b'.
  eapply guarded_bind; [by apply (guarded_slot DDR3_CMD_OFF 0 0 b')|]. intros _ ? ? [-> _]. apply guarded_publish.
Qed.

Lemma guarded_rx rxbuf len b : Forall (fits 8) rxbuf → guarded unlocked (d_rx stk rxbuf len) 0 b.
Proof.
  intros Hf. unfold d_rx. case_match; [|done]. apply guarded_lock. intros b1 [Hw Hi].
  eapply guarded_bind; [apply guarded_chip; [done|by apply wpp_gotfunc]|].
  intros [] ? b2 (-> & [K _] & I). split; [split; [done|by apply I]|]. apply guarded_publish.
Qed.

(** ** Lemmas: every step *)

(** A received frame is bytes. *)
Definition dt_event_ok (e : dt_event) : Prop :=
  match e with DtRun _ frame => Forall (fits 8) frame.1 | _ => True end.

(** How deep thread [t] is in the lock. *)
Definition depth_of (l : mutex) (t : tid) : nat := if decide (lock_owner l = Some t) then lock_depth l else 0.

Definition lock_wf (l : mutex) : Prop := ∃ t d, l = lock_held t d.

(** The chip's part of the state. *)
Definition chip_given (l : mutex) (w : world) : Prop :=
  window_ok (w_win w) ∧ (lock_owner l = None → chip_ok (base w)).

Definition dt_ok (s : d_threads) : Prop :=
  lock_wf (th_lock s) ∧ chip_given (th_lock s) (th_world s) ∧
  ∀ t, guarded unlocked (th_code t s) (depth_of (th_lock s) t) (base (th_world s)).

Lemma depth_held t d : depth_of (lock_held t d) t = d.
Proof. unfold depth_of. destruct d; [done|]. by rewrite decide_True. Qed.

Lemma depth_other t t' d : t ≠ t' → depth_of (lock_held t d) t' = 0%nat.
Proof. intros H. unfold depth_of. destruct d; [done|]. cbn. rewrite decide_False; congruence. Qed.

(** The mutex is held by [t], or [t] is outside. *)
Lemma lock_wf_cases l t : lock_wf l →
  (∃ d, l = lock_held t d) ∨ (∃ t1 d, t1 ≠ t ∧ l = lock_held t1 (S d)).
Proof.
  intros (t0 & [|d0] & ->); [left; by exists 0%nat|]. destruct (decide (t0 = t)) as [->|]; [left; by exists (S d0)|].
  right. by exists t0, d0.
Qed.

Lemma depth_outside l t : lock_owner l ≠ Some t → depth_of l t = 0%nat.
Proof. intros H. unfold depth_of. by rewrite decide_False. Qed.

(** A step of a thread: it changes the chip only if it holds the lock. *)
Lemma guarded_step t (c : bcode d_label) w l c' w' l' o : lock_wf l → chip_given l w →
  guarded unlocked c (depth_of l t) (base w) → code_step skip t true c w l = Ok (c', w', l', o) →
  lock_wf l' ∧ chip_given l' w' ∧ guarded unlocked c' (depth_of l' t) (base w') ∧
  (base w' = base w ∨ lock_owner l = Some t) ∧ ∀ t', t' ≠ t → depth_of l' t' = depth_of l t'.
Proof.
  intros Hl0 [Hwin Hc] Hg E. destruct c as [a|e|f k|o1 k|k|k]; cbn [code_step guarded] in *; [| | | | |done].
  - injection E as <- <- <- <-. split_and!; try done. by left.
  - done.
  - injection E as <- <- <- <-. destruct (Hg w Hwin (λ _, eq_refl)) as (H1 & H2 & H3).
    assert (Hbase : lock_owner l ≠ Some t → base (f w) = base w) by (intros; by apply H2, depth_outside).
    assert (Hc' : chip_given l (f w)) by (split; [done|intros Ho; rewrite Hbase by (by rewrite Ho); by apply Hc]).
    split; [done|]. split; [done|]. split; [done|]. split; [|done].
    destruct (decide (lock_owner l = Some t)); [by right|left; by apply Hbase].
  - destruct (lock_wf_cases l t Hl0) as [[d ->]|(t1 & d & Ht & ->)].
    + rewrite lock_held_lock in E. injection E as <- <- <- <-. rewrite depth_held in Hg. rewrite depth_held.
      split_and!; [by exists t, (S d)|by split|apply Hg; destruct d; [by apply Hc|done]|by left|].
      intros t' Ht'. by rewrite !depth_other.
    + unfold registers_lock in E. cbn in E. rewrite decide_False in E by done. injection E as <- <- <- <-.
      split_and!; try done. by left.
  - destruct (lock_wf_cases l t Hl0) as [[[|d] ->]|(t1 & d & Ht & ->)];
      [by rewrite depth_held in Hg| |by rewrite depth_other in Hg].
    injection E as <- <- <- <-. rewrite lock_held_unlock. rewrite depth_held in Hg. rewrite depth_held.
    split_and!; [by exists t, d| |by destruct d; [apply Hg|]|by left|intros t' Ht'; by rewrite !depth_other].
    split; [done|]. destruct d; [intros _; apply Hg|done].
Qed.

(** A change of the window, and nothing else. *)
Lemma dt_ok_window s win : window_ok win → dt_ok s →
  dt_ok (Threads (set_w_win win (th_world s)) (th_lock s) (th_main s) (th_rx s) (th_log s)).
Proof. intros Hw (Hl0 & [_ Hc] & Hg). by split_and!. Qed.

(** Thread [t] has moved on, and the other has not noticed. *)
Lemma dt_ok_moved s t c w l log : dt_ok s → lock_wf l → chip_given l w →
  guarded unlocked c (depth_of l t) (base w) → (base w = base (th_world s) ∨ lock_owner (th_lock s) = Some t) →
  (∀ t', t' ≠ t → depth_of l t' = depth_of (th_lock s) t') →
  dt_ok (set_code t c (Threads w l (th_main s) (th_rx s) log)).
Proof.
  intros (Hl0 & _ & Hg) Hl1 Hc Hct Hbase Hd.
  assert (Ho : ∀ t', t' ≠ t → guarded unlocked (th_code t' s) (depth_of l t') (base w)).
  { intros t' Ht. specialize (Hg t'). rewrite Hd by done. destruct Hbase as [->|Ho]; [exact Hg|].
    rewrite depth_outside in Hg |- * by congruence. by eapply guarded_idle. }
  destruct t; (split; [exact Hl1|]); (split; [exact Hc|]); intros [|]; first [exact Hct | exact (Ho Main ltac:(done)) | exact (Ho Rx ltac:(done))].
Qed.

Lemma dt_step_ok e s : dt_event_ok e → dt_ok s →
  match dt_step stk e s with
  | Ok s' => dt_ok s' ∧ (base (th_world s') = base (th_world s) ∨
      ∃ t frame, e = DtRun t frame ∧ lock_owner (th_lock s) = Some t)
  | Err x => x = OutOfBounds
  end.
Proof.
  intros He Hs. pose proof Hs as (Hl0 & Hc & Hg). destruct e as [t frame|off v|off v]; cbn [dt_step].
  2: { split; [apply dt_ok_window; [by apply window_ok_put_byte, Hc|done]|by left]. }
  2: { split; [|by left]. apply dt_ok_window; [|done].
       apply (frame_win _ _ (set_slot_frame (Z.max off RAM_SIZE) v (th_world s) ltac:(lia))), Hc. }
  unfold thread_step. pose proof (Hg t) as Ht.
  assert (Hst : ∀ c, c = th_code t s → match
    ('(c, w, l, o) ← code_step skip t true c (th_world s) (th_lock s);
     Ok (set_code t c (Threads w l (th_main s) (th_rx s) (th_log s ++ o)))) with
    | Ok s' => dt_ok s' ∧ (base (th_world s') = base (th_world s) ∨
        ∃ t' frame', DtRun t frame = DtRun t' frame' ∧ lock_owner (th_lock s) = Some t')
    | Err x => x = OutOfBounds end).
  { intros c ->. destruct (code_step _ _ _ _ _ _) as [[[[c w] l] o]|x] eqn:E; cbn [mbind res_bind].
    - destruct (guarded_step _ _ _ _ _ _ _ _ Hl0 Hc Ht E) as (S1 & S2 & S3 & S4 & S5).
      split; [by apply dt_ok_moved|]. destruct S4 as [S4|S4]; [left; by destruct t|right; by exists t, frame].
    - destruct (th_code t s) as [| |? ?|? ?|?|?]; cbn in E, Ht; try done; [congruence|by destruct (registers_lock _ _)]. }
  specialize (Hst _ eq_refl). destruct (th_code t s) as [lbl| | | | |] eqn:Ec; [|exact Hst..].
  cbn [guarded] in Ht. split; [|destruct t; by left]. destruct s as [w l m r log]. cbn [th_world th_lock th_log] in *.
  apply (dt_ok_moved (Threads w l m r log)); try done; [|by left]. cbn [th_lock th_world]. rewrite Ht.
  destruct t; [apply guarded_main|by apply guarded_rx].
Qed.

Lemma dt_idle_ok w : chip_ok w → dt_ok (dt_idle w).
Proof.
  intros Hw. split; [by exists Main, 0%nat|]. split; [split; [apply Hw|intros _; by apply chip_ok_base]|].
  by intros [|].
Qed.
End daemon.

(** ** The theorem *)

(** C17: The lock is enough for the chip.  From a well-formed chip, under every schedule of
    the two threads' single accesses, the FPGA's stores to the slots and the 68k's stores to
    board RAM at any moment, in a locked section too: whenever the lock is free the chip is
    well-formed and CSR0 consistent; a step changes the chip (its registers, addresses,
    transmit buffer, ring positions or what it has sent) only if it is a step of the thread
    that holds the lock; and a thread can only fail by an access outside a buffer. *)
Theorem doorbell_lock_safe (stk : list Z) (w : world) (es : list dt_event)
    (Hw : world_ok w) (Hi : csr0_inv (csr0 w)) (Hl : length stk = 4096%nat) (Hb : Forall (fits 8) stk)
    (Hes : Forall dt_event_ok es) :
  match dt_exec stk es (dt_idle w) with
  | Ok s =>
      (lock_owner (th_lock s) = None → world_ok (th_world s) ∧ csr0_inv (csr0 (th_world s))) ∧
      ∀ e s', dt_event_ok e → dt_step stk e s = Ok s' → base (th_world s') ≠ base (th_world s) →
        ∃ t frame, e = DtRun t frame ∧ lock_owner (th_lock s) = Some t
  | Err e => e = OutOfBounds
  end.
Proof.
  assert (H0 : dt_ok (dt_idle w)) by by apply dt_idle_ok.
  revert H0. generalize (dt_idle w) as s. induction Hes as [|e es He Hes IH]; intros s Hs.
  - split.
    + intros Ho. destruct Hs as (_ & [Hwin Hc] & _). by apply chip_ok_win; [|apply Hc].
    + intros e s' He E Hne. pose proof (dt_step_ok stk Hl Hb e s He Hs) as S. rewrite E in S.
      destruct S as [_ [S|S]]; [by destruct Hne|done].
  - cbn [dt_exec]. pose proof (dt_step_ok stk Hl Hb e s He Hs) as S. destruct (dt_step stk e s) as [s'|]; [apply IH, S|done].
Qed.

(** ** Example *)

(** The receive thread takes the lock for a frame; the FPGA posts a command, the main loop
    has to wait for the lock, and the 68k writes board RAM meanwhile. *)
Definition ex_dt_events : list dt_event :=
  d_post 0 CSR0_INEA :: concat (replicate 20 [d_recv ex_bcast 60; d_cmd; DtRam 0x4000 7]).

Lemma ex_listen_ok : world_ok ex_listen ∧ csr0_inv (csr0 ex_listen).
Proof.
  split; [|by vm_compute]. apply card_ok; [by split|by split|by vm_compute|lia|].
  apply window_ok_poke_words, window_ok_empty.
Qed.

Lemma doorbell_lock_safe_witness : ∃ s,
  dt_exec ex_stack ex_dt_events (dt_idle ex_listen) = Ok s ∧ lock_owner (th_lock s) = Some Rx ∧
  ∀ e s', dt_event_ok e → dt_step ex_stack e s = Ok s' → base (th_world s') ≠ base (th_world s) →
    ∃ t frame, e = DtRun t frame ∧ lock_owner (th_lock s) = Some t.
Proof.
  pose proof (doorbell_lock_safe ex_stack ex_listen ex_dt_events (proj1 ex_listen_ok) (proj2 ex_listen_ok)
    eq_refl (Forall_zeros _)) as H.
  assert (E : match dt_exec ex_stack ex_dt_events (dt_idle ex_listen) with
    | Ok s => bool_decide (lock_owner (th_lock s) = Some Rx) | Err _ => false end = true) by by vm_compute.
  destruct (dt_exec _ _ _) as [s|]; [|done]. exists s. split; [done|].
  split; [by apply bool_decide_eq_true in E|]. apply H.
  apply Forall_cons. split; [done|]. by repeat (apply Forall_cons; split; [try by apply bytesb_Forall|]).
Defined.
