(* ===== verification/Os.v ===== *)
(** * The system calls: arm/src/ethernet.cpp, bridge.cpp and bridge_sim.cpp

    The units that open the raw socket and map the window, over an operating system that
    is a parameter: a type of kernel states and one function per system call the code
    makes.  The laws say which descriptors and mappings each call opens and closes, as
    its manual page does. *)

From S2P Require Import Prelude Types Window Crc32 Mac State Registers Rings Slots Doorbell.

(** ** The operating system *)

(** A call that fails returns [None] or, where the code looks at the number, a negative
    one.  The memory behind a mapping is part of the kernel state: [os_zero a n] is
    [memset(a, 0, n)]. *)
Class Os (K : Type) := {
  os_socket : K → Z * K;
  os_ifindex : Z → list Z → K → option Z * K;
  os_hwaddr : Z → list Z → K → option (list Z) * K;
  os_getflags : Z → list Z → K → option Z * K;
  os_setflags : Z → list Z → Z → K → bool * K;
  os_bind : Z → Z → K → bool * K;
  os_promisc : Z → Z → K → K;
  os_recv : Z → Z → K → option (list Z) * K;
  os_close : Z → K → K;
  os_open : K → Z * K;
  os_shm_open : K → Z * K;
  os_shm_unlink : K → K;
  os_ftruncate : Z → Z → K → bool * K;
  os_mmap : Z → Z → Z → K → option Z * K;
  os_munmap : Z → Z → K → K;
  os_zero : Z → Z → K → K }.

(** ** ethernet.cpp *)

Record eth := Eth { sock_fd : Z; host_mac : list Z }.

Definition eth_init : eth := Eth (-1) (replicate 6 0).
Definition set_sock_fd (fd : Z) (e : eth) : eth := Eth fd (host_mac e).
Definition set_host_mac (m : list Z) (e : eth) : eth := Eth (sock_fd e) m.

(** [if (ioctl(...) == 0) memcpy(host_mac, ifr.ifr_hwaddr.sa_data, 6)] *)
Definition copy_hwaddr (hw : option (list Z)) (e : eth) : eth :=
  match hw with Some m => set_host_mac (take 6 m) e | None => e end.

Definition IFF_UP : Z := 1.

(** [strncpy(ifr.ifr_name, iface, IFNAMSIZ - 1)] *)
Definition ifr_name (iface : list Z) : list Z := take 15 iface.

Section ethernet.
Context `{Os K}.

(** [close(sock_fd); sock_fd = -1] *)
Definition drop_sock (s : eth * K) : eth * K :=
  let '(e, k) := s in (set_sock_fd (-1) e, os_close (sock_fd e) k).

(** Bring the interface up. *)
Definition bring_up (fd : Z) (name : list Z) (k : K) : K :=
  match os_getflags fd name k with
  | (Some f, k) => if flag f IFF_UP then k else (os_setflags fd name (Z.lor f IFF_UP) k).2
  | (None, k) => k
  end.

Definition ethernet_open (iface : list Z) (promiscuous : bool) (s : eth * K) : Z * (eth * K) :=
  let '(e, k) := s in
  let '(fd, k) := os_socket k in
  let e := set_sock_fd fd e in
  if sock_fd e <? 0 then (0, (e, k))
  else
    let name := ifr_name iface in
    match os_ifindex (sock_fd e) name k with
    | (None, k) => (0, drop_sock (e, k))
    | (Some ifindex, k) =>
        let e := set_host_mac (replicate 6 0) e in
        let '(hw, k) := os_hwaddr (sock_fd e) name k in
        let e := copy_hwaddr hw e in
        let k := bring_up (sock_fd e) name k in
        let '(bound, k) := os_bind (sock_fd e) ifindex k in
        if negb bound then (0, drop_sock (e, k))
        else
          let k := if promiscuous then os_promisc (sock_fd e) ifindex k else k in
          (1, (e, k))
    end.

Definition ethernet_close (s : eth * K) : eth * K :=
  if 0 <=? sock_fd s.1 then drop_sock s else s.

(** The returned length and what was stored in the buffer. *)
Definition ethernet_recv (maxlen : Z) (s : eth * K) : Z * list Z * (eth * K) :=
  let '(e, k) := s in
  if sock_fd e <? 0 then (-1, [], (e, k))
  else
    match os_recv (sock_fd e) maxlen k with
    | (None, k) => (-1, [], (e, k))
    | (Some data, k) => (Z.of_nat (length data), data, (e, k))
    end.

Definition ethernet_get_mac (s : eth * K) : list Z := host_mac s.1.

(** [ethernet_read_iface_mac] with its system calls: the result and [out]. *)
Definition read_iface_mac (iface : list Z) (k : K) : bool * list Z * K :=
  let out := replicate 6 0 in
  let '(fd, k) := os_socket k in
  if fd <? 0 then (false, out, k)
  else
    let '(hw, k) := os_hwaddr fd (ifr_name iface) k in
    let out := match hw with Some m => take 6 m | None => out end in
    let ok := match hw with Some _ => negb (mac_low_is_zero out) | None => false end in
    (ok, out, os_close fd k).
End ethernet.

(** The build for other systems. *)
Section stubs.
Context {K : Type}.
Definition stub_ethernet_open (iface : list Z) (promiscuous : bool) (k : K) : Z * K := (1, k).
Definition stub_ethernet_close (k : K) : K := k.
Definition stub_ethernet_send (frame : list Z) (len : Z) (k : K) : K := k.
Definition stub_ethernet_recv (maxlen : Z) (k : K) : Z * list Z * K := (-1, [], k).
Definition stub_ethernet_get_mac : list Z := replicate 6 0.
Definition stub_read_iface_mac (iface : list Z) : bool * list Z := (false, replicate 6 0).
End stubs.

(** ** bridge.cpp and bridge_sim.cpp *)

(** The variables of either unit; [None] is a null pointer, and [MAP_FAILED] is -1. *)
Record mapping := Mapping { map_addr : option Z; map_size : Z; map_fd : Z }.

Definition mapping_init : mapping := Mapping None 0 (-1).
Definition MAP_FAILED : Z := -1.

Section mapping.
Context `{Os K}.

(** The address, if any. *)
Definition bridge_do_mmap (base size : Z) (s : mapping * K) : option Z * (mapping * K) :=
  let '(b, k) := s in
  let '(fd, k) := os_open k in
  if fd <? 0 then (None, (b, k))
  else
    match os_mmap fd size base k with
    | (None, k) => (None, (b, os_close fd k))
    | (Some mapped, k) => (Some mapped, (Mapping (Some mapped) size fd, k))
    end.

(** [p && p != MAP_FAILED] *)
Definition is_mapped (p : option Z) : bool :=
  match p with Some a => negb (a =? MAP_FAILED) | None => false end.

(** [munmap] of the unit's mapping, if there is one. *)
Definition drop_map (s : mapping * K) : mapping * K :=
  let '(b, k) := s in
  match map_addr b with
  | Some a => if is_mapped (Some a) then (Mapping None (map_size b) (map_fd b), os_munmap a (map_size b) k) else s
  | None => s
  end.

Definition bridge_unmap (s : mapping * K) : mapping * K :=
  let '(b, k) := drop_map s in
  if 0 <=? map_fd b then (Mapping (map_addr b) (map_size b) (-1), os_close (map_fd b) k) else (b, k).

Definition bridge_sim_open (size : Z) (s : mapping * K) : option Z * (mapping * K) :=
  let '(b, k) := s in
  let '(fd, k) := os_shm_open k in
  let b := Mapping (map_addr b) (map_size b) fd in
  if fd <? 0 then (None, (b, k))
  else
    let '(sized, k) := os_ftruncate fd size k in
    if negb sized then (None, (Mapping (map_addr b) (map_size b) (-1), os_close fd k))
    else
      match os_mmap fd size 0 k with
      | (None, k) => (None, (Mapping (Some MAP_FAILED) (map_size b) (-1), os_close fd k))
      | (Some a, k) => (Some a, (Mapping (Some a) size fd, os_zero a size k))
      end.

Definition bridge_sim_close (s : mapping * K) : mapping * K :=
  let '(b, k) := drop_map s in
  if 0 <=? map_fd b
  then (Mapping (map_addr b) (map_size b) (-1), os_shm_unlink (os_close (map_fd b) k)) else (b, k).
End mapping.

(** With the stubs the doorbell daemon derives its address from the host name: the
    low half is never zero. *)
Lemma stub_mac_derived iface host pid time :
  let '(ok, out) := stub_read_iface_mac iface in
  let m := default_mac stub_ethernet_get_mac (if ok : bool then Some out else None) host pid time in
  m = [COMMODORE_OUI0; COMMODORE_OUI1; COMMODORE_OUI2] ++ drop 3 (derive_unique_low host pid time (replicate 6 0)) ∧
  mac_low_is_zero m = false.
Proof.
  pose proof (derive_unique_low_ok host pid time (replicate 6 0) eq_refl) as D.
  assert (L : length (derive_unique_low host pid time (replicate 6 0)) = 6%nat)
    by (unfold derive_unique_low; cbv zeta; case_match; by rewrite !length_insert).
  cbn [stub_read_iface_mac]. unfold default_mac. change (mac_low_is_zero stub_ethernet_get_mac) with true.
  cbn [ethernet_read_iface_mac]. change stub_ethernet_get_mac with (replicate 6 0) in *.
  destruct (derive_unique_low _ _ _ _) as [|a [|b [|c [|d [|e [|f [|]]]]]]]; try done.
Qed.

(** ** What the calls promise *)

Section laws.
Context {K : Type} (fds maps : K → gset Z).

(** A call that opens nothing and closes nothing. *)
Definition os_same (k k' : K) : Prop := fds k' = fds k ∧ maps k' = maps k.

(** A call that returns a new descriptor or fails. *)
Definition os_opens (fd : Z) (k k' : K) : Prop :=
  maps k' = maps k ∧
  if decide (fd < 0) then fds k' = fds k else (fd ∉ fds k) ∧ (fds k' = {[fd]} ∪ fds k).

(** A call that closes a descriptor. *)
Definition os_closes (fd : Z) (k k' : K) : Prop := fds k' = fds k ∖ {[fd]} ∧ maps k' = maps k.
End laws.

Class OsLaws (K : Type) `{Os K} := {
  os_fds : K → gset Z;
  os_maps : K → gset Z;
  law_socket k : os_opens os_fds os_maps (os_socket k).1 k (os_socket k).2;
  law_open k : os_opens os_fds os_maps (os_open k).1 k (os_open k).2;
  law_shm_open k : os_opens os_fds os_maps (os_shm_open k).1 k (os_shm_open k).2;
  law_close fd k : os_closes os_fds os_maps fd k (os_close fd k);
  law_ifindex fd n k : os_same os_fds os_maps k (os_ifindex fd n k).2;
  law_hwaddr fd n k : os_same os_fds os_maps k (os_hwaddr fd n k).2;
  law_sa_data fd n k m : (os_hwaddr fd n k).1 = Some m → length m = 14%nat ∧ Forall (fits 8) m;
  law_getflags fd n k : os_same os_fds os_maps k (os_getflags fd n k).2;
  law_setflags fd n f k : os_same os_fds os_maps k (os_setflags fd n f k).2;
  law_bind fd i k : os_same os_fds os_maps k (os_bind fd i k).2;
  law_promisc fd i k : os_same os_fds os_maps k (os_promisc fd i k);
  law_recv fd n k : os_same os_fds os_maps k (os_recv fd n k).2;
  law_recv_data fd n k d : (os_recv fd n k).1 = Some d → Z.of_nat (length d) ≤ n ∧ Forall (fits 8) d;
  law_shm_unlink k : os_same os_fds os_maps k (os_shm_unlink k);
  law_ftruncate fd n k : os_same os_fds os_maps k (os_ftruncate fd n k).2;
  law_mmap fd n o k : os_fds (os_mmap fd n o k).2 = os_fds k ∧
    match (os_mmap fd n o k).1 with
    | None => os_maps (os_mmap fd n o k).2 = os_maps k
    | Some a => 0 < a ∧ (a ∉ os_maps k) ∧ (os_maps (os_mmap fd n o k).2 = {[a]} ∪ os_maps k)
    end;
  law_munmap a n k : os_fds (os_munmap a n k) = os_fds k ∧ os_maps (os_munmap a n k) = os_maps k ∖ {[a]};
  law_zero a n k : os_same os_fds os_maps k (os_zero a n k) }.

(** ** Lemmas *)

Section resources.
Context `{OsLaws K}.

(** The descriptors and mappings held are those of [k]. *)
Definition held (k k' : K) : Prop := os_same os_fds os_maps k k'.

#[export] Instance held_preorder : PreOrder held.
Proof. split; [by split|]. intros k1 k2 k3 [] []. split; congruence. Qed.

Lemma bring_up_held fd n k : held k (bring_up fd n k).
Proof.
  unfold bring_up. pose proof (law_getflags fd n k) as G. destruct (os_getflags fd n k) as [[f|] k1]; [|done].
  case_match; [done|]. etransitivity; [apply G|apply law_setflags].
Qed.

(** Closing what was opened gives the state of before. *)
Lemma close_opened fd k k1 k2 : os_opens os_fds os_maps fd k k1 → 0 ≤ fd → held k1 k2 →
  held k (os_close fd k2).
Proof.
  intros [M O] Hfd [F2 M2]. rewrite decide_False in O by lia. destruct O as [Hn O].
  destruct (law_close fd k2) as [F3 M3]. split; [|congruence]. rewrite F3, F2, O. set_solver.
Qed.

(** The socket of a unit: new and open, or none. *)
Definition sock_ok (k : K) (s : eth * K) : Prop :=
  if decide (sock_fd s.1 < 0) then held k s.2
  else os_opens os_fds os_maps (sock_fd s.1) k s.2.

Lemma opens_held fd k k1 k2 : os_opens os_fds os_maps fd k k1 → held k1 k2 →
  os_opens os_fds os_maps fd k k2.
Proof. intros [M O] [F2 M2]. split; [congruence|]. by rewrite F2. Qed.

Lemma drop_sock_held k k1 e k2 : os_opens os_fds os_maps (sock_fd e) k k1 → 0 ≤ sock_fd e →
  held k1 k2 → held k (drop_sock (e, k2)).2.
Proof. intros. by apply (close_opened _ _ k1). Qed.

Lemma ethernet_open_sock iface p e k : let '(r, s) := ethernet_open iface p (e, k) in
  sock_ok k s ∧ (r = 1 ∧ 0 ≤ sock_fd s.1 ∨ r = 0 ∧ sock_fd s.1 < 0) ∧
  (length (host_mac e) = 6%nat ∧ Forall (fits 8) (host_mac e) →
   length (host_mac s.1) = 6%nat ∧ Forall (fits 8) (host_mac s.1)).
Proof.
  unfold ethernet_open. pose proof (law_socket k) as S. destruct (os_socket k) as [fd k1]. cbn [fst snd] in S.
  cbn [sock_fd set_sock_fd]. destruct (Z.ltb_spec fd 0) as [Hf|Hf].
  { unfold sock_ok. cbn. rewrite decide_True by done. split; [|split; [by right|done]].
    destruct S as [M S]. rewrite decide_True in S by done. done. }
  pose proof (law_ifindex fd (ifr_name iface) k1) as I.
  destruct (os_ifindex fd (ifr_name iface) k1) as [[ix|] k2]; cbn [snd] in I;
    [|unfold sock_ok; cbn; split; [by apply (close_opened _ _ k1)|split; [by right|done]]].
  change (sock_fd (set_host_mac _ _)) with fd. pose proof (law_hwaddr fd (ifr_name iface) k2) as Hh.
  pose proof (law_sa_data fd (ifr_name iface) k2) as Hm.
  destruct (os_hwaddr fd (ifr_name iface) k2) as [hw k3]. cbn [fst snd] in Hh, Hm.
  set (e1 := copy_hwaddr _ _).
  assert (E1 : sock_fd e1 = fd ∧ length (host_mac e1) = 6%nat ∧ Forall (fits 8) (host_mac e1)).
  { unfold e1, copy_hwaddr. destruct hw as [m|]; cbn; [|by repeat constructor]. destruct (Hm m eq_refl).
    rewrite length_take. split_and!; [done|lia|by apply Forall_take]. }
  destruct E1 as (E1 & L1 & B1). rewrite E1. pose proof (bring_up_held fd (ifr_name iface) k3) as U.
  pose proof (law_bind fd ix (bring_up fd (ifr_name iface) k3)) as Bd.
  destruct (os_bind _ _ _) as [bound k4]. cbn [snd] in Bd.
  assert (Q : held k1 k4) by (etransitivity; [apply I|etransitivity; [apply Hh|etransitivity; [apply U|apply Bd]]]).
  destruct bound; cbn [negb].
  - unfold sock_ok. cbn. rewrite decide_False by lia. rewrite E1. split; [|split; [by left|done]].
    apply (opens_held _ _ k1); [done|]. destruct p; [|done]. etransitivity; [apply Q|apply law_promisc].
  - unfold sock_ok. cbn. rewrite E1. split; [by apply (close_opened _ _ k1)|]. split; [by right|done].
Qed.

Lemma ethernet_close_sock k s : sock_ok k s → held k (ethernet_close s).2 ∧ sock_fd (ethernet_close s).1 < 0.
Proof.
  destruct s as [e k1]. unfold sock_ok, ethernet_close. cbn [fst snd]. case_decide.
  - destruct (Z.leb_spec 0 (sock_fd e)); [lia|done].
  - destruct (Z.leb_spec 0 (sock_fd e)); [|lia]. intros O. split; [|done]. by apply (close_opened _ _ k1).
Qed.

(** Receiving stores at most [n] bytes and returns their number, or -1. *)
Definition recv_ok (n : Z) (s : eth * K) (r : Z * list Z * (eth * K)) : Prop :=
  (r.1.1 = -1 ∨ r.1.1 = Z.of_nat (length r.1.2) ∧ r.1.1 ≤ n ∧ Forall (fits 8) r.1.2) ∧
  r.2.1 = s.1 ∧ held s.2 r.2.2.

Lemma ethernet_recv_ok n s : recv_ok n s (ethernet_recv n s).
Proof.
  destruct s as [e k]. unfold ethernet_recv. case_match; [split; [by left|done]|].
  pose proof (law_recv (sock_fd e) n k) as Q. pose proof (law_recv_data (sock_fd e) n k) as D.
  destruct (os_recv _ n k) as [[d|] k1]; cbn [fst snd] in *; (split; [|done]); [|by left].
  right. destruct (D d eq_refl). done.
Qed.

(** A unit that maps nothing. *)
Definition map_idle (b : mapping) : Prop := map_fd b < 0 ∧ is_mapped (map_addr b) = false.

(** The mapping of a unit: a new descriptor and a new mapping, or neither. *)
Definition map_ok (k : K) (s : mapping * K) : Prop :=
  map_idle s.1 ∧ held k s.2 ∨
  ∃ a, map_addr s.1 = Some a ∧ 0 < a ∧ 0 ≤ map_fd s.1 ∧ (map_fd s.1 ∉ os_fds k) ∧ (a ∉ os_maps k) ∧
    (os_fds s.2 = {[map_fd s.1]} ∪ os_fds k) ∧ (os_maps s.2 = {[a]} ∪ os_maps k).

(** Mapping a new descriptor. *)
Lemma mmap_opened fd n o k k1 k2 a : os_opens os_fds os_maps fd k k1 → 0 ≤ fd → held k1 k2 →
  (os_mmap fd n o k2).1 = Some a → map_ok k (Mapping (Some a) n fd, (os_mmap fd n o k2).2).
Proof.
  intros [M O] Hf [F2 M2] E. rewrite decide_False in O by lia. destruct O as [Hn O].
  destruct (law_mmap fd n o k2) as [F3 M3]. rewrite E in M3. destruct M3 as (Ha & Hna & M3).
  right. exists a. cbn. split_and!; try done; [by rewrite <-M, <-M2|congruence|congruence].
Qed.

Lemma mmap_failed fd n o k k1 k2 : os_opens os_fds os_maps fd k k1 → 0 ≤ fd → held k1 k2 →
  (os_mmap fd n o k2).1 = None → held k (os_close fd (os_mmap fd n o k2).2).
Proof.
  intros O Hf Q E. apply (close_opened _ _ k1); [done|done|]. etransitivity; [apply Q|].
  destruct (law_mmap fd n o k2) as [F3 M3]. rewrite E in M3. by split.
Qed.

Lemma map_ok_held k b k1 k2 : map_ok k (b, k1) → held k1 k2 → map_ok k (b, k2).
Proof.
  intros [[I Q]|(a & ? & ? & ? & ? & ? & F & M)] [F2 M2]; [left; split; [done|by etransitivity]|].
  right. exists a. cbn in *. split_and!; try done; congruence.
Qed.

Lemma opens_failed fd k k1 : os_opens os_fds os_maps fd k k1 → fd < 0 → held k k1.
Proof. intros [M O] Hf. rewrite decide_True in O by done. by split. Qed.

Lemma bridge_do_mmap_ok base n b k : map_idle b → let '(r, s) := bridge_do_mmap base n (b, k) in
  map_ok k s ∧ (is_Some r ↔ 0 ≤ map_fd s.1).
Proof.
  intros Hb. pose proof (proj1 Hb). unfold bridge_do_mmap. pose proof (law_open k) as O.
  destruct (os_open k) as [fd k1]. cbn [fst snd] in O. destruct (Z.ltb_spec fd 0).
  { split; [left; split; [done|by apply (opens_failed fd)]|]. split; [by intros []|cbn; lia]. }
  pose proof (mmap_opened fd n base k k1 k1) as S. pose proof (mmap_failed fd n base k k1 k1) as F.
  destruct (os_mmap fd n base k1) as [[a|] k2]; cbn [fst snd] in *.
  - split; [by apply S|]. split; [done|by eexists].
  - split; [left; split; [done|by apply F]|]. split; [by intros []|cbn; lia].
Qed.

Lemma bridge_sim_open_ok n b k : map_idle b → let '(r, s) := bridge_sim_open n (b, k) in
  map_ok k s ∧ (is_Some r ↔ 0 ≤ map_fd s.1).
Proof.
  intros [_ Hb]. unfold bridge_sim_open. pose proof (law_shm_open k) as O.
  destruct (os_shm_open k) as [fd k1]. cbn [fst snd] in O. cbn [map_addr map_size]. destruct (Z.ltb_spec fd 0).
  { split; [left; split; [done|by apply (opens_failed fd)]|]. split; [by intros []|cbn; lia]. }
  pose proof (law_ftruncate fd n k1) as T. destruct (os_ftruncate fd n k1) as [sized k2]. cbn [snd] in T.
  destruct sized; cbn [negb].
  2:{ split; [left; split; [done|by apply (close_opened _ _ k1)]|]. split; [by intros []|cbn; lia]. }
  pose proof (mmap_opened fd n 0 k k1 k2) as S. pose proof (mmap_failed fd n 0 k k1 k2) as F.
  destruct (os_mmap fd n 0 k2) as [[a|] k3]; cbn [fst snd] in *.
  - split; [apply (map_ok_held _ _ k3); [by apply S|apply law_zero]|]. split; [done|by eexists].
  - split; [left; split; [done|by apply F]|]. split; [by intros []|cbn; lia].
Qed.

#[local] Arguments is_mapped : simpl never.

(** Unmapping and closing what a unit holds. *)
Lemma bridge_unmap_ok k s : map_ok k s → map_idle (bridge_unmap s).1 ∧ held k (bridge_unmap s).2.
Proof.
  destruct s as [[p n fd] k1]. unfold bridge_unmap, drop_map. cbn [fst snd map_addr map_size map_fd].
  intros [[[Hf Hp] Hk]|(a & E & Ha & Hf & Hnf & Hna & F & M)]; cbn in *.
  - destruct p as [a|]; [rewrite Hp|]; cbn; (destruct (Z.leb_spec 0 fd); [lia|done]).
  - subst p. assert (E : is_mapped (Some a) = true).
    { unfold is_mapped, MAP_FAILED. apply negb_true_iff, Z.eqb_neq. lia. }
    rewrite E. cbn. destruct (Z.leb_spec 0 fd); [|lia]. split; [done|].
    destruct (law_munmap a n k1) as [F2 M2]. destruct (law_close fd (os_munmap a n k1)) as [F3 M3].
    cbn [snd]. split; [rewrite F3, F2, F; set_solver|rewrite M3, M2, M; set_solver].
Qed.

(** The two units unmap alike, but for the name of the shared memory. *)
Lemma bridge_sim_close_unmap s :
  (bridge_sim_close s).1 = (bridge_unmap s).1 ∧ held (bridge_unmap s).2 (bridge_sim_close s).2.
Proof.
  unfold bridge_sim_close, bridge_unmap. destruct (drop_map s) as [b k].
  destruct (0 <=? map_fd b); [|done]. split; [done|apply law_shm_unlink].
Qed.

(** ** Properties *)

(** The raw socket is never leaked.  Opening it either returns 1 with a new open
    descriptor, or returns 0, holding none, on every one of its error paths; the hardware
    address it keeps is six bytes whatever the system answers.  Closing gives back exactly
    what opening took, once: closing again does nothing.  Looking up another interface's
    address leaves all descriptors as they were, and reports the address exactly when the
    system knows one whose low half is not zero.  A receive stores no more than it is
    asked to. *)
Theorem ethernet_resources (iface other : list Z) (promiscuous : bool) (n : Z) (e : eth) (k : K)
    (Hl : length (host_mac e) = 6%nat) (Hb : Forall (fits 8) (host_mac e)) :
  let '(r, s) := ethernet_open iface promiscuous (e, k) in
  (if decide (r = 1)
   then 0 ≤ sock_fd s.1 ∧ os_opens os_fds os_maps (sock_fd s.1) k s.2
   else r = 0 ∧ sock_fd s.1 < 0 ∧ held k s.2) ∧
  length (ethernet_get_mac s) = 6%nat ∧ Forall (fits 8) (ethernet_get_mac s) ∧
  held k (ethernet_close s).2 ∧ ethernet_close (ethernet_close s) = ethernet_close s ∧
  recv_ok n s (ethernet_recv n s) ∧
  let '(ok, out, k') := read_iface_mac other k in
  held k k' ∧ ((os_socket k).1 < 0 ∧ ok = false ∨
    (if ok then Some out else None)
    = ethernet_read_iface_mac (take 6 <$> (os_hwaddr (os_socket k).1 (ifr_name other) (os_socket k).2).1)).
Proof.
  pose proof (ethernet_open_sock iface promiscuous e k) as S.
  destruct (ethernet_open _ _ _) as [r s]. destruct S as (S & R & M). destruct (M (conj Hl Hb)) as [M1 M2].
  destruct (ethernet_close_sock k s S) as [C1 C2]. split_and!; [|done|done|done| |apply ethernet_recv_ok|].
  - unfold sock_ok in S. destruct R as [[-> R]|[-> R]]; [rewrite decide_False in S by lia|rewrite decide_True in S by lia];
      by case_decide.
  - unfold ethernet_close at 1. by destruct (Z.leb_spec 0 (sock_fd (ethernet_close s).1)); [lia|].
  - unfold read_iface_mac. pose proof (law_socket k) as O. destruct (os_socket k) as [fd k1]. cbn [fst snd] in *.
    destruct (Z.ltb_spec fd 0); [split; [by apply (opens_failed fd)|by left]|].
    pose proof (law_hwaddr fd (ifr_name other) k1) as Q. destruct (os_hwaddr _ _ _) as [hw k2]. cbn [fst snd] in *.
    split; [by apply (close_opened _ _ k1)|]. right. destruct hw as [m|]; cbn; [|done].
    by destruct (mac_low_is_zero (take 6 m)).
Qed.

(** The window's mapping is never leaked, in either build.  From a unit that maps
    nothing, opening either returns an address and holds one new descriptor and one new
    mapping, or returns null and holds neither, on every one of its error paths; and what
    closes it, also after a failure, gives back exactly what opening took. *)
Theorem mapping_resources (base size : Z) (b : mapping) (k : K) (Hb : map_idle b) :
  (let '(r, s) := bridge_do_mmap base size (b, k) in
   map_ok k s ∧ (is_Some r ↔ 0 ≤ map_fd s.1) ∧
   map_idle (bridge_unmap s).1 ∧ held k (bridge_unmap s).2) ∧
  (let '(r, s) := bridge_sim_open size (b, k) in
   map_ok k s ∧ (is_Some r ↔ 0 ≤ map_fd s.1) ∧
   map_idle (bridge_sim_close s).1 ∧ held k (bridge_sim_close s).2).
Proof.
  pose proof (bridge_do_mmap_ok base size b k Hb) as B. pose proof (bridge_sim_open_ok size b k Hb) as S.
  destruct (bridge_do_mmap _ _ _) as [r s], (bridge_sim_open _ _) as [r' s'].
  destruct B as [B1 B2], S as [S1 S2]. split.
  { split; [exact B1|split; [exact B2|by apply bridge_unmap_ok]]. }
  destruct (bridge_sim_close_unmap s') as [E Q]. destruct (bridge_unmap_ok k s' S1) as [I Qu].
  split; [exact S1|split; [exact S2|]]. split; [by rewrite E|by etransitivity].
Qed.
End resources.

(** ** Example *)

(** A system that answers every call: the lowest unused numbers, one interface. *)
Module ExampleOs.
Record kernel := Kernel { k_fds : gset Z; k_maps : gset Z }.

Definition new (x : gset Z) : Z := 3 + foldr Z.max 0 (elements x).

Lemma new_fresh x : 3 ≤ new x ∧ (new x ∉ x).
Proof.
  unfold new. assert (B : ∀ l, 0 ≤ foldr Z.max 0 l ∧ ∀ y, y ∈ l → y ≤ foldr Z.max 0 l).
  { induction l as [|z l [IH1 IH2]]; cbn; [split; [lia|set_solver]|]. split; [lia|].
    intros y [->|Hy]%elem_of_cons; [lia|]. specialize (IH2 y Hy). lia. }
  destruct (B (elements x)) as [B1 B2]. split; [lia|]. intros Hx.
  apply elem_of_elements, B2 in Hx. lia.
Qed.

Definition new_fd (k : kernel) : Z * kernel :=
  let fd := new (k_fds k) in (fd, Kernel ({[fd]} ∪ k_fds k) (k_maps k)).
Definition new_map (k : kernel) : option Z * kernel :=
  let a := new (k_maps k) in (Some a, Kernel (k_fds k) ({[a]} ∪ k_maps k)).

#[global] Instance example_os : Os kernel := {|
  os_socket := new_fd;
  os_ifindex _ _ k := (Some 2, k);
  os_hwaddr _ _ k := (Some (seqZ 0 14), k);
  os_getflags _ _ k := (Some 0, k);
  os_setflags _ _ _ k := (true, k);
  os_bind _ _ k := (true, k);
  os_promisc _ _ k := k;
  os_recv _ _ k := (None, k);
  os_close fd k := Kernel (k_fds k ∖ {[fd]}) (k_maps k);
  os_open := new_fd;
  os_shm_open := new_fd;
  os_shm_unlink k := k;
  os_ftruncate _ _ k := (true, k);
  os_mmap _ _ _ := new_map;
  os_munmap a _ k := Kernel (k_fds k) (k_maps k ∖ {[a]});
  os_zero _ _ k := k |}.

Lemma new_fd_opens k : os_opens k_fds k_maps (new_fd k).1 k (new_fd k).2.
Proof.
  destruct (new_fresh (k_fds k)). split; [done|]. cbn. rewrite decide_False by lia. done.
Qed.

#[global] Instance example_os_laws : OsLaws kernel.
Proof.
  refine {| os_fds := k_fds; os_maps := k_maps |}; try (intros; by split); try (intros; apply new_fd_opens).
  - intros fd n k m [= <-]. split; [done|]. by apply bytesb_Forall.
  - intros fd n o k. destruct (new_fresh (k_maps k)). cbn. split_and!; [done|lia|done|done].
Defined.
End ExampleOs.

Lemma ethernet_resources_witness :
  (ethernet_open (K := ExampleOs.kernel) [101; 116; 104; 48] true (eth_init, ExampleOs.Kernel {[0]} ∅)).1 = 1 ∧
  held (ExampleOs.Kernel {[0]} ∅)
    (ethernet_close (ethernet_open [101; 116; 104; 48] true (eth_init, ExampleOs.Kernel {[0]} ∅)).2).2.
Proof.
  split; [done|].
  pose proof (ethernet_resources [101; 116; 104; 48] [] true 4096 eth_init (ExampleOs.Kernel {[0]} ∅)
    eq_refl ltac:(by apply bytesb_Forall)) as R.
  exact (proj1 (proj2 (proj2 (proj2 R)))).
Defined.

Lemma mapping_resources_witness :
  held (ExampleOs.Kernel {[0]} ∅)
    (bridge_unmap (bridge_do_mmap 0xC0000000 0x10000 (mapping_init, ExampleOs.Kernel {[0]} ∅)).2).2.
Proof.
  pose proof (proj1 (mapping_resources 0xC0000000 0x10000 mapping_init (ExampleOs.Kernel {[0]} ∅)
    ltac:(by split))) as R.
  exact (proj2 (proj2 (proj2 R))).
Defined.
