(* ===== verification/Args.v ===== *)
(** * Command lines: main.cpp, main_ddr3.cpp, main_doorbell.cpp and bridge_status.cpp

    The argument loops of the four programs that have one, with the number conversions of
    the C library they call.  [long] has 32 bits on the ARM the programs are built for. *)

From S2P Require Import Prelude Types.
From Stdlib Require Import Ascii.
From stdpp Require Import strings.

#[local] Open Scope string_scope.
#[local] Open Scope Z_scope.

(** ** strtoul, strtol and atoi *)

Definition LONG_MAX : Z := 2 ^ 31 - 1.
Definition LONG_MIN : Z := - 2 ^ 31.
Definition ULONG_MAX : Z := 2 ^ 32 - 1.

Definition char_code (c : ascii) : Z := Z.of_N (N_of_ascii c).
Definition char_of (n : Z) : ascii := ascii_of_N (Z.to_N n).

Definition isspace (c : ascii) : bool := let n := char_code c in (n =? 32) || ((9 <=? n) && (n <=? 13)).

Fixpoint skip_space (s : string) : string :=
  match s with
  | String c s' => if isspace c then skip_space s' else s
  | EmptyString => s
  end.

(** The value of a digit or letter. *)
Definition digit_val (c : ascii) : option Z :=
  let n := char_code c in
  if (48 <=? n) && (n <=? 57) then Some (n - 48)
  else if (65 <=? n) && (n <=? 90) then Some (n - 55)
  else if (97 <=? n) && (n <=? 122) then Some (n - 87)
  else None.

(** The number that the longest prefix of digits spells. *)
Fixpoint parse_digits (base acc : Z) (s : string) : Z :=
  match s with
  | String c s =>
      match digit_val c with
      | Some d => if d <? base then parse_digits base (acc * base + d) s else acc
      | None => acc
      end
  | EmptyString => acc
  end.

Definition parse_sign (s : string) : bool * string :=
  match s with
  | String "-" s => (true, s)
  | String "+" s => (false, s)
  | _ => (false, s)
  end.

(** Base 16 takes a prefix [0x]; base 0 chooses 16, 8 or 10 by the prefix.  A prefix
    without digits after it is read as the digit 0, which is the same number. *)
Definition parse_base (base : Z) (s : string) : Z * string :=
  match s with
  | String "0" (String "x" s') | String "0" (String "X" s') =>
      if (base =? 16) || (base =? 0) then (16, s') else (base, s)
  | String "0" _ => (if base =? 0 then 8 else base, s)
  | _ => (if base =? 0 then 10 else base, s)
  end.

(** Sign and magnitude. *)
Definition parse_number (s : string) (base : Z) : bool * Z :=
  let '(neg, s) := parse_sign (skip_space s) in
  let '(base, s) := parse_base base s in
  (neg, parse_digits base 0 s).

Definition strtoul (s : string) (base : Z) : Z :=
  let '(neg, n) := parse_number s base in
  if ULONG_MAX <? n then ULONG_MAX else if neg then u32 (- n) else n.

Definition strtol (s : string) (base : Z) : Z :=
  let '(neg, n) := parse_number s base in
  Z.max LONG_MIN (Z.min LONG_MAX (if neg : bool then - n else n)).

Definition atoi (s : string) : Z := strtol s 10.

(** ** main.cpp *)

Notation "s =s t" := (String.eqb s t) (at level 70).

Definition BRIDGE_PHYS_BASE : Z := 0xC0000000.

Record bridge_opts := BridgeOpts { bo_iface : string; bo_base : Z; bo_sim : bool }.
Definition bridge_defaults : bridge_opts := BridgeOpts "eth0" BRIDGE_PHYS_BASE false.

(** The options without a value. *)
Definition bridge_flag (a : string) (o : bridge_opts) : bridge_opts :=
  if a =s "--sim" then BridgeOpts (bo_iface o) (bo_base o) true else o.

Fixpoint bridge_args (argv : list string) (o : bridge_opts) : bridge_opts :=
  match argv with
  | [] => o
  | a :: rest =>
      match rest with
      | v :: rest' =>
          if a =s "--iface" then bridge_args rest' (BridgeOpts v (bo_base o) (bo_sim o))
          else if a =s "--bridge-base" then
            bridge_args rest' (BridgeOpts (bo_iface o) (u32 (strtoul v 16)) (bo_sim o))
          else bridge_args rest (bridge_flag a o)
      | [] => bridge_flag a o
      end
  end.

(** ** main_ddr3.cpp *)

Record mbx_opts := MbxOpts { mo_iface : string; mo_test : bool; mo_dump : bool; mo_start : Z; mo_len : Z }.
Definition mbx_defaults : mbx_opts := MbxOpts "eth0" false false 0 0x20.

(** [--test-boardram], and [--dump-boardram] without two values after it. *)
Definition mbx_flag (a : string) (o : mbx_opts) : mbx_opts :=
  if a =s "--test-boardram" then MbxOpts (mo_iface o) true (mo_dump o) (mo_start o) (mo_len o)
  else if a =s "--dump-boardram" then MbxOpts (mo_iface o) (mo_test o) true (mo_start o) (mo_len o)
  else o.

Fixpoint mbx_args (argv : list string) (o : mbx_opts) : mbx_opts :=
  match argv with
  | [] => o
  | a :: rest =>
      match rest with
      | v :: rest' =>
          if a =s "--iface" then
            mbx_args rest' (MbxOpts v (mo_test o) (mo_dump o) (mo_start o) (mo_len o))
          else match rest' with
          | w :: rest'' =>
              if a =s "--dump-boardram" then
                mbx_args rest'' (MbxOpts (mo_iface o) (mo_test o) true (u16 (strtol v 0)) (u16 (strtol w 0)))
              else mbx_args rest (mbx_flag a o)
          | [] => mbx_args rest (mbx_flag a o)
          end
      | [] => mbx_flag a o
      end
  end.

(** ** main_doorbell.cpp *)

Record doorbell_opts := DoorbellOpts { do_iface : string; do_test : bool; do_debug : bool }.
Definition doorbell_defaults : doorbell_opts := DoorbellOpts "eth0" false false.

Definition doorbell_flag (a : string) (o : doorbell_opts) : doorbell_opts :=
  if a =s "--test-boardram" then DoorbellOpts (do_iface o) true (do_debug o)
  else if (a =s "--debug") || (a =s "-d") then DoorbellOpts (do_iface o) (do_test o) true
  else o.

Fixpoint doorbell_args (argv : list string) (o : doorbell_opts) : doorbell_opts :=
  match argv with
  | [] => o
  | a :: rest =>
      match rest with
      | v :: rest' =>
          if a =s "--iface" then doorbell_args rest' (DoorbellOpts v (do_test o) (do_debug o))
          else doorbell_args rest (doorbell_flag a o)
      | [] => doorbell_flag a o
      end
  end.

(** ** bridge_status.cpp *)

Record status_opts := StatusOpts { so_base : Z; so_poll : Z; so_force : bool }.
Definition status_defaults : status_opts := StatusOpts BRIDGE_PHYS_BASE 0 false.

Definition status_flag (a : string) (o : status_opts) : status_opts :=
  if a =s "--force" then StatusOpts (so_base o) (so_poll o) true else o.

Fixpoint status_args (argv : list string) (o : status_opts) : status_opts :=
  match argv with
  | [] => o
  | a :: rest =>
      match rest with
      | v :: rest' =>
          if a =s "--bridge-base" then
            status_args rest' (StatusOpts (u32 (strtoul v 16)) (so_poll o) (so_force o))
          else if a =s "--poll" then status_args rest' (StatusOpts (so_base o) (atoi v) (so_force o))
          else status_args rest (status_flag a o)
      | [] => status_flag a o
      end
  end.

(** ** Lemmas: numbers as printf writes them *)

(** [k] digits of [n], as [%0kX] prints them for base 16. *)
Definition digit_char (d : Z) : ascii := char_of (if d <? 10 then d + 48 else d + 55).

Fixpoint print_digits (k : nat) (base n : Z) : string :=
  match k with
  | O => ""
  | S k => String (digit_char (n / base ^ Z.of_nat k mod base)) (print_digits k base n)
  end.

Definition print_hex (k : nat) (n : Z) : string := String "0" (String "x" (print_digits k 16 n)).

Lemma digit_val_char d : 0 ≤ d < 36 → digit_val (digit_char d) = Some d.
Proof.
  intros Hd. assert (H : Forall (λ d, digit_val (digit_char d) = Some d) (seqZ 0 36))
    by (apply (bool_decide_eq_true_1 _); by vm_compute).
  rewrite Forall_forall in H. apply H, elem_of_seqZ. lia.
Qed.

Lemma parse_print k base acc n : 2 ≤ base ≤ 36 →
  parse_digits base acc (print_digits k base n) = acc * base ^ Z.of_nat k + n mod base ^ Z.of_nat k.
Proof.
  intros Hb. revert acc. induction k as [|k IH]; intros acc; cbn [print_digits parse_digits].
  - change (base ^ Z.of_nat 0) with 1. rewrite Z.mod_1_r. lia.
  - set (d := _ mod base). assert (Hd : 0 ≤ d < base) by (apply Z.mod_pos_bound; lia).
    rewrite digit_val_char by lia. rewrite (proj2 (Z.ltb_lt d base)) by lia. rewrite IH.
    rewrite Nat2Z.inj_succ, Z.pow_succ_r by lia. rewrite (Z.mul_comm base (base ^ _)).
    rewrite (Z.rem_mul_r n) by (try lia; apply Z.pow_nonzero; lia). unfold d. lia.
Qed.

(** A number of at most [k] digits, printed and read back.  A leading digit cannot be taken
    for a space, a sign or, in base 10, a prefix. *)
Lemma parse_hex k n base : base = 16 ∨ base = 0 →
  parse_number (print_hex k n) base = (false, n mod 16 ^ Z.of_nat k).
Proof.
  intros Hb. transitivity (false, parse_digits 16 0 (print_digits k 16 n)); [by destruct Hb as [-> | ->]|].
  by rewrite parse_print.
Qed.

Lemma strtoul_print n : fits 32 n → u32 (strtoul (print_hex 8 n) 16) = n.
Proof.
  intros Hn. unfold strtoul. rewrite parse_hex by auto. change (16 ^ Z.of_nat 8) with (2 ^ 32).
  rewrite (Z.mod_small n) by apply Hn. unfold ULONG_MAX. unfold fits in Hn.
  destruct (Z.ltb_spec (2 ^ 32 - 1) n); [lia|]. apply Z.mod_small, Hn.
Qed.

Lemma strtol_print n : fits 16 n → u16 (strtol (print_hex 4 n) 0) = n.
Proof.
  intros Hn. unfold strtol. rewrite parse_hex by auto. change (16 ^ Z.of_nat 4) with (2 ^ 16).
  rewrite (Z.mod_small n) by apply Hn. unfold LONG_MAX, LONG_MIN. unfold fits in Hn.
  rewrite Z.min_r, Z.max_r by lia. apply Z.mod_small, Hn.
Qed.

Lemma parse_base_10 s : parse_base 10 s = (10, s).
Proof. unfold parse_base. by repeat case_match. Qed.

Lemma digit_first d s : 0 ≤ d < 10 →
  parse_number (String (digit_char d) s) 10 = (false, parse_digits 10 0 (String (digit_char d) s)).
Proof.
  intros Hd. assert (E : parse_sign (skip_space (String (digit_char d) s)) = (false, String (digit_char d) s)).
  { assert (d = 0 ∨ d = 1 ∨ d = 2 ∨ d = 3 ∨ d = 4 ∨ d = 5 ∨ d = 6 ∨ d = 7 ∨ d = 8 ∨ d = 9) by lia.
    by destruct_or!; subst. }
  unfold parse_number. by rewrite E, parse_base_10.
Qed.

Lemma atoi_print n : fits 31 n → atoi (print_digits 10 10 n) = n.
Proof.
  intros Hn. unfold atoi, strtol. change (print_digits 10 10 n)
    with (String (digit_char (n / 10 ^ 9 mod 10)) (print_digits 9 10 n)).
  rewrite digit_first by (apply Z.mod_pos_bound; lia).
  change (String _ _) with (print_digits 10 10 n). rewrite parse_print by lia.
  rewrite Z.mul_0_l, Z.add_0_l. unfold LONG_MAX, LONG_MIN. unfold fits in Hn.
  rewrite Z.mod_small by lia. lia.
Qed.

(** ** The command line of a set of options *)

Definition opt (b : bool) (a : string) : list string := if b then [a] else [].

Definition bridge_argv (o : bridge_opts) : list string :=
  ["--iface"; bo_iface o; "--bridge-base"; print_hex 8 (bo_base o)] ++ opt (bo_sim o) "--sim".

Definition mbx_argv (o : mbx_opts) : list string :=
  ["--iface"; mo_iface o] ++ opt (mo_test o) "--test-boardram" ++
  (if mo_dump o then ["--dump-boardram"; print_hex 4 (mo_start o); print_hex 4 (mo_len o)] else []).

Definition doorbell_argv (o : doorbell_opts) : list string :=
  ["--iface"; do_iface o] ++ opt (do_test o) "--test-boardram" ++ opt (do_debug o) "--debug".

Definition status_argv (o : status_opts) : list string :=
  ["--bridge-base"; print_hex 8 (so_base o); "--poll"; print_digits 10 10 (so_poll o)] ++ opt (so_force o) "--force".

(** ** Theorem *)

(** Command lines round trip.  The command line that spells a set of options, numbers
    as printf writes them, is read back by each program's argument loop as those options:
    addresses as 32-bit, dump ranges as 16-bit numbers, the poll count as an int, and an
    interface name whatever it looks like. *)
Theorem args_roundtrip :
  (∀ o, fits 32 (bo_base o) → bridge_args (bridge_argv o) bridge_defaults = o) ∧
  (∀ o, fits 16 (mo_start o) ∧ fits 16 (mo_len o) →
    (mo_dump o = false → mo_start o = mo_start mbx_defaults ∧ mo_len o = mo_len mbx_defaults) →
    mbx_args (mbx_argv o) mbx_defaults = o) ∧
  (∀ o, doorbell_args (doorbell_argv o) doorbell_defaults = o) ∧
  (∀ o, fits 32 (so_base o) → fits 31 (so_poll o) → status_args (status_argv o) status_defaults = o).
Proof.
  split_and!.
  - intros [i b []] H; cbn -[print_hex strtoul u32] in *; by rewrite strtoul_print.
  - intros [i [] [] a l] [H1 H2] H; cbn -[print_hex strtol u16] in *; rewrite ?strtol_print by done; try done;
      by destruct (H eq_refl) as [-> ->].
  - by intros [i [] []].
  - intros [b p []] H1 H2; cbn -[print_hex print_digits strtoul u32 atoi] in *; by rewrite strtoul_print, atoi_print.
Qed.

Lemma args_roundtrip_witness :
  mbx_args ["--iface"; "--test-boardram"; "--dump-boardram"; "0x7000"; "0x0010"] mbx_defaults
  = MbxOpts "--test-boardram" false true 0x7000 0x10.
Proof.
  destruct args_roundtrip as (_ & H & _).
  apply (H (MbxOpts "--test-boardram" false true 0x7000 0x10)); [by repeat split|done].
Defined.
