(* ===== verification/Dump.v ===== *)
(** * The board RAM dump of main_ddr3.cpp

    [--dump-boardram start len] reads words through the mailbox with a loop of its own,
    before the chip is started.  The loop counts in 16 bits. *)

From S2P Require Import Prelude Types Window Remote.

(** The polls of one word. *)
Definition DUMP_POLLS : nat := Z.to_nat 100000.

Section dump.
Context {E : Type} (fpga : mbx E → mbx E).
Implicit Types m : mbx E.

(** One word: the request, and the polls of [xfer_poll] with another bound and without a
    callback.  A request that is not answered stays posted. *)
Definition dump_word (off : Z) m : option Z * mbx E :=
  xfer_poll fpga None DUMP_POLLS (mbx_wr64 MBX_RAM_REQ (ram_req off 0 0) (fpga m)).

(** The loop from [off] on; the result is what is printed. *)
Fixpoint dump_loop (fuel : nat) (off limit : Z) m : res (list (Z * Z) * mbx E) :=
  match fuel with
  | O => Err OutOfFuel
  | S fuel =>
      if off <? limit then
        let '(v, m) := dump_word off m in
        '(l, m) ← dump_loop fuel (u16 (off + 2)) limit m;
        Ok (match v with Some v => (off, v) :: l | None => l end, m)
      else Ok ([], m)
  end.

Definition dump_boardram (fuel : nat) (start len : Z) m : res (list (Z * Z) * mbx E) :=
  dump_loop fuel start (start + len) m.
End dump.

(** ** Lemmas *)

(** The offsets the loop visits are below the limit only while the 16-bit counter does
    not wrap. *)
Definition dump_ends (start len : Z) : bool :=
  (start + len <? 65535) || ((start + len =? 65535) && Z.odd start).

Section dump_lemmas.
Context {E : Type} {fpga : mbx E → mbx E}.
Implicit Types m : mbx E.

Lemma dump_wraps fuel off limit m : fits 16 off →
  65535 < limit ∨ limit = 65535 ∧ Z.odd off = false → dump_loop fpga fuel off limit m = Err OutOfFuel.
Proof.
  revert off m. induction fuel as [|fuel IH]; intros off m Ho Hl; [done|]. cbn [dump_loop].
  assert (off < limit).
  { destruct Hl as [|[-> Hp]]; [unfold fits in Ho; lia|]. destruct (decide (off = 65535)) as [->|]; [done|].
    unfold fits in Ho. lia. }
  rewrite (proj2 (Z.ltb_lt off limit)) by done. destruct (dump_word fpga off m) as [v m1].
  rewrite IH; [done|apply fits_u16|]. destruct Hl as [|[-> Hp]]; [by left|right]. split; [done|].
  unfold u16. rewrite !Zodd_mod in *. change (2 ^ 16) with (2 * 32768).
  rewrite Z.rem_mul_r by lia. replace (_ + _) with ((off + 2) mod 2 + (off + 2) / 2 mod 32768 * 2) by lia.
  rewrite Z.mod_add, Z.mod_mod by lia. rewrite <-Hp. f_equal. change 2 with (1 * 2) at 1. by rewrite Z.mod_add.
Qed.

(** Where it does not wrap it ends, whatever the adapter does. *)
Lemma dump_ends_total fuel start len m : fits 16 start → fits 16 len → dump_ends start len = true →
  (Z.to_nat ((len + 1) / 2) < fuel)%nat → ∃ l m', dump_boardram fpga fuel start len m = Ok (l, m').
Proof.
  unfold dump_boardram, fits. intros Hs Hl He Hf.
  assert (B : start + 2 * ((len + 1) / 2) ≤ 65535 ∧ start + len ≤ start + 2 * ((len + 1) / 2)).
  { unfold dump_ends in He. apply orb_true_iff in He. rewrite andb_true_iff, Z.ltb_lt, Z.eqb_eq, Zodd_mod, Z.eqb_eq in He.
    pose proof (Z.div_mod (len + 1) 2). pose proof (Z.mod_pos_bound (len + 1) 2). pose proof (Z.div_mod start 2). lia. }
  assert (D : ∀ fuel off limit m n, (n < fuel)%nat → 0 ≤ off → limit ≤ off + 2 * Z.of_nat n → off + 2 * Z.of_nat n ≤ 65535 →
    ∃ l m', dump_loop fpga fuel off limit m = Ok (l, m')).
  { clear. induction fuel as [|fuel IH]; intros off limit m n Hn Ho H1 H2; [lia|]. cbn [dump_loop].
    destruct (Z.ltb_spec off limit); [|by do 2 eexists]. destruct n as [|n]; [lia|].
    destruct (dump_word fpga off m) as [v m1]. rewrite u16_small by (unfold fits; lia).
    destruct (IH (off + 2) limit m1 n) as (l & m' & ->); [lia..|]. by do 2 eexists. }
  pose proof (Z.div_pos (len + 1) 2). apply (D _ _ _ _ (Z.to_nat ((len + 1) / 2))); [done|lia..].
Qed.

Context `{!RamPeer fpga None}.

Lemma dump_word_reads off m : peer_at Idle m →
  ∃ m', dump_word fpga off m = (Some (Ram68k.load16 (ram_of m) (Z.land off 0x7FFE)), m') ∧
    peer_at Idle m' ∧ mem_eq (ram_of m') (ram_of m).
Proof.
  intros Hi. destruct (peer_post m (Z.land off 0x7FFE) 0 0 Hi) as (n & Hn & Hb);
    auto using aligned_fits, aligned_even; [by split|].
  destruct (peer_rest _ _ Hi) as [_ R]; [by auto|].
  replace (ram_req (Z.land off 0x7FFE) 0 0) with (ram_req off 0 0) in Hb
    by (unfold ram_req; by rewrite <-Z.land_assoc).
  destruct (xfer_poll_done DUMP_POLLS n (Z.land off 0x7FFE) 0 0 (ram_of m) _ ltac:(unfold POLLS, DUMP_POLLS in *; lia) Hb R)
    as (v & m' & E1 & Hi' & Hv & R'). exists m'. unfold dump_word. rewrite E1, Hv. done.
Qed.

(** The words from [off] on. *)
Definition words_from (r : Z → Z) (off : Z) (n : nat) : list (Z * Z) :=
  (λ i, (off + 2 * i, Ram68k.load16 r (Z.land (off + 2 * i) 0x7FFE))) <$> seqZ 0 (Z.of_nat n).

Lemma words_from_S r off n :
  words_from r off (S n) = (off, Ram68k.load16 r (Z.land off 0x7FFE)) :: words_from r (off + 2) n.
Proof.
  unfold words_from. rewrite seqZ_cons by lia. cbn [fmap list_fmap]. f_equal.
  - by rewrite Z.mul_0_r, Z.add_0_r.
  - replace (Z.pred (Z.of_nat (S n))) with (Z.of_nat n) by lia.
    change (Z.succ 0) with (1 + 0). rewrite <-(fmap_add_seqZ 1 0), <-list_fmap_compose.
    apply list_fmap_ext. intros _ i _. cbn. f_equal; [lia|]. do 2 f_equal. lia.
Qed.

Lemma words_from_proper r r' off n : mem_eq r r' → words_from r off n = words_from r' off n.
Proof. intros Hr. apply list_fmap_ext. intros _ i _. by rewrite Hr. Qed.

Lemma dump_loop_reads n fuel off limit m : peer_at Idle m → (n < fuel)%nat →
  (n = 0%nat ∧ limit ≤ off ∨ off + 2 * Z.of_nat n = limit ∨ off + 2 * Z.of_nat n = limit + 1) →
  0 ≤ off → off + 2 * Z.of_nat n ≤ 65535 →
  ∃ m', dump_loop fpga fuel off limit m = Ok (words_from (ram_of m) off n, m') ∧
    peer_at Idle m' ∧ mem_eq (ram_of m') (ram_of m).
Proof.
  revert fuel off m. induction n as [|n IH]; intros [|fuel] off m Hi Hf Hl Ho Hb; try lia; cbn [dump_loop].
  { rewrite (proj2 (Z.ltb_ge off limit)) by lia. by exists m. }
  rewrite (proj2 (Z.ltb_lt off limit)) by lia. destruct (dump_word_reads off m Hi) as (m1 & -> & Hi1 & R1).
  rewrite u16_small by (unfold fits; lia). destruct (IH fuel (off + 2) m1) as (m' & -> & Hi' & R'); [done|lia..|].
  exists m'. cbn. rewrite words_from_S, (words_from_proper _ _ _ _ R1). split; [done|]. split; [done|].
  intros a. by rewrite R', R1.
Qed.
End dump_lemmas.

(** ** Theorem *)

(** The dump of board RAM ends exactly when the last offset is below 0xFFFF, or is
    0xFFFF itself and the start is odd; otherwise the 16-bit counter wraps and the loop
    runs for ever.  Where it ends it takes one round per word, and with the documented
    adapter prints each word of the range as the card's memory holds it, changes nothing
    and leaves the mailbox idle. *)
Theorem dump_boardram_ends {E : Type} (fpga : mbx E → mbx E) (P : RamPeer fpga None) (m : mbx E)
    (start len : Z) (Hs : fits 16 start) (Hl : fits 16 len) (Hi : peer_at Idle m) :
  let n := Z.to_nat ((len + 1) / 2) in
  if dump_ends start len then
    ∀ fuel, (n < fuel)%nat → ∃ m',
      dump_boardram fpga fuel start len m = Ok (words_from (ram_of m) start n, m') ∧
      peer_at Idle m' ∧ mem_eq (ram_of m') (ram_of m)
  else ∀ fuel, dump_boardram fpga fuel start len m = Err OutOfFuel.
Proof.
  intros n. unfold dump_ends, fits in *. pose proof (Z.div_mod (len + 1) 2). pose proof (Z.mod_pos_bound (len + 1) 2).
  assert (Hn : Z.of_nat n = (len + 1) / 2) by (unfold n; lia).
  destruct (Z.ltb_spec (start + len) 65535); cbn [orb].
  { intros fuel Hf. apply dump_loop_reads; [done|done|lia..]. }
  destruct (Z.eqb_spec (start + len) 65535) as [Ee|]; cbn [andb].
  2: { intros fuel. apply dump_wraps; [exact Hs|lia]. }
  destruct (Z.odd start) eqn:Ep; intros fuel; [|apply dump_wraps; [exact Hs|auto]].
  intros Hf. apply dump_loop_reads; [done|done|lia..|]. rewrite Zodd_mod in Ep. apply Z.eqb_eq in Ep.
  pose proof (Z.div_mod start 2). lia.
Qed.

Import ExampleAdapter.

Lemma dump_boardram_ends_witness :
  (∃ m', dump_boardram step 3 0xFF 4 (ex_mbx 0) = Ok ([(0xFF, 0); (0x101, 0x1234)], m')) ∧
  (∀ fuel, dump_boardram step fuel 0x8000 0x8000 (ex_mbx 0) = Err OutOfFuel).
Proof.
  split.
  - destruct (dump_boardram_ends step example_peer (ex_mbx 0) 0xFF 4 ltac:(done) ltac:(done) ltac:(by vm_compute)
      3%nat ltac:(vm_compute; lia)) as (m' & H & _). exists m'. exact H.
  - exact (dump_boardram_ends step example_peer (ex_mbx 0) 0x8000 0x8000 ltac:(done) ltac:(done) ltac:(by vm_compute)).
Defined.
