(* ===== verification/Tools.v ===== *)
(** * The bring-up tools: bridge_status.cpp, bridge_scan.cpp, bridge_test_safe.cpp,
    ddr3_scan.cpp, sdram_map.cpp and bridge_ddr3.cpp

    Small programs that map physical memory through /dev/mem and report what they find.
    They run over the operating system of Os.v and a bus, the accesses to mapped memory;
    a tool's result is its exit code with what it prints, as data. *)

From S2P Require Import Prelude Types Window Crc32 Mac State Registers Rings Slots Doorbell Remote MainDdr3 Os Args.
From stdpp Require Import strings.

#[local] Open Scope Z_scope.

(** ** The bus *)

(** Volatile accesses of a number of bytes at a virtual address, and the calls around
    them: [os_alarmed] tells whether SIGALRM was delivered, so that its handler has set
    [got_alarm]. *)
Class Bus (K : Type) := {
  bus_read : nat → Z → K → Z * K;
  bus_write : nat → Z → Z → K → K;
  os_sigaction : K → K;
  os_alarm : Z → K → K;
  os_alarmed : K → bool * K;
  os_usleep : Z → K → K }.

Section tools.
Context `{Os K, Bus K}.

(** [got_alarm = 0; alarm(secs); val = *p; alarm(0)]: the value and [got_alarm]. *)
Definition timed_read (secs p : Z) (k : K) : Z * bool * K :=
  let '(val, k) := bus_read 4 p (os_alarm secs k) in
  let '(got_alarm, k) := os_alarmed (os_alarm 0 k) in
  (val, got_alarm, k).

(** ** ddr3_scan.cpp *)

Definition MAGIC_HI : Z := 0xA2065A20.
Definition MAGIC_LO : Z := 0x65A20650.

(** The result, and the counter printed with it. *)
Definition try_read (fd phys : Z) (k : K) : Z * Z * K :=
  match os_mmap fd 0x10000 phys k with
  | (None, k) => (-1, 0, k)
  | (Some map, k) =>
      let '(lo, k) := bus_read 4 map k in
      let '(hi, k) := bus_read 4 (map + 4) k in
      if (lo =? MAGIC_LO) && (hi =? MAGIC_HI) then
        let '(counter, k) := bus_read 4 (map + 8) k in
        (0, counter, os_munmap map 0x10000 k)
      else (1, 0, os_munmap map 0x10000 k)
  end.

(** The loop from [addr] on, [n] rounds before its end: where the magic was found and the
    counter, and the addresses printed as progress. *)
Fixpoint scan_loop (n : nat) (fd addr : Z) (k : K) : option (Z * Z) * list Z * K :=
  match n with
  | O => (None, [], k)
  | S n =>
      let '(r, counter, k) := try_read fd addr k in
      if r =? 0 then (Some (addr, counter), [], k)
      else
        let '(found, log, k) := scan_loop n fd (addr + 0x100000) k in
        (found, if (0 <=? r) && (Z.land addr 0x0F000000 =? 0) then addr :: log else log, k)
  end.

(** [addr < 0x40000000] in steps of 1 MB *)
Definition SCAN_PAGES : nat := Z.to_nat 0x400.

Definition ddr3_scan (k : K) : Z * option (Z * Z) * list Z * K :=
  let '(fd, k) := os_open k in
  if fd <? 0 then (1, None, [], k)
  else
    let '(found, log, k) := scan_loop SCAN_PAGES fd 0 k in
    (if found is Some _ then 0 else 1, found, log, os_close fd k).

(** ** bridge_scan.cpp *)

Definition scan_bases : list Z :=
  [0xC0000000; 0xC4000000; 0xC8000000; 0xCC000000; 0xD0000000; 0xD4000000; 0xD8000000; 0xDC000000;
   0xDE000000; 0xDF000000; 0xDFF00000].

(** What is printed for an address. *)
Inductive scan_line := MmapFailed (base : Z) | Timeout (base : Z) | Found (base val : Z).

Definition scan_base (fd base : Z) (k : K) : scan_line * K :=
  let page_base := andnot base 0xFFF in
  match os_mmap fd 0x1000 page_base k with
  | (None, k) => (MmapFailed base, k)
  | (Some map, k) =>
      let offset := base - page_base in
      let '(val, got_alarm, k) := timed_read 1 (map + offset) k in
      (if got_alarm then Timeout base else Found base val, os_munmap map 0x1000 k)
  end.

Fixpoint scan_all (fd : Z) (bases : list Z) (k : K) : list scan_line * K :=
  match bases with
  | [] => ([], k)
  | base :: bases =>
      let '(l, k) := scan_base fd base k in
      let '(ls, k) := scan_all fd bases k in
      (l :: ls, k)
  end.

Definition bridge_scan (k : K) : Z * list scan_line * K :=
  let '(fd, k) := os_open k in
  if fd <? 0 then (1, [], k)
  else
    let '(ls, k) := scan_all fd scan_bases (os_sigaction k) in
    (0, ls, os_close fd k).

(** ** bridge_test_safe.cpp *)

Definition safe_offsets : list Z :=
  [0x00; 0x02; 0x03; 0x04; 0x05; 0x06; 0x08; 0x09; 0x0A; 0x0B; 0x0C; 0x0D; 0x8000; 0x8100].

(** The values read before the first timeout, and [fail]. *)
Fixpoint safe_reads (map : Z) (offsets : list Z) (k : K) : list (Z * Z) * bool * K :=
  match offsets with
  | [] => ([], false, k)
  | off :: offsets =>
      let '(val, got_alarm, k) := timed_read 2 (map + off) k in
      if got_alarm : bool then ([], true, k)
      else
        let '(l, fail, k) := safe_reads map offsets k in
        ((off, val) :: l, fail, k)
  end.

Definition bridge_test_safe (k : K) : Z * list (Z * Z) * K :=
  let '(fd, k) := os_open k in
  if fd <? 0 then (1, [], k)
  else
    match os_mmap fd 0x10000 0xC0000000 k with
    | (None, k) => (1, [], os_close fd k)
    | (Some map, k) =>
        let '(l, fail, k) := safe_reads map safe_offsets (os_sigaction k) in
        (if fail : bool then 1 else 0, l, os_close fd (os_munmap map 0x10000 k))
    end.

(** ** sdram_map.cpp *)

Definition SDR_CTRL_BASE : Z := 0xFFC20000.
Definition SDR_CTRL_SIZE : Z := 0x1000.
Definition HPS2FPGA_BASE : Z := 0xC0000000.

(** [read_reg]: an access outside the mapping is an error. *)
Definition sdr_read_reg (map offset : Z) (k : K) : res (Z * K) :=
  if SDR_CTRL_SIZE <? offset + 4 then Err OutOfBounds else Ok (bus_read 4 (map + offset) k).

(** Base and mask register of each port. *)
Definition sdr_regions : list (Z * Z) := [(0x5080, 0x5084); (0x5088, 0x508C); (0x5090, 0x5094); (0x5098, 0x509C)].

(** What is printed for an enabled port: address in DDR3, size in MB, first and last
    address as the ARM sees it. *)
Definition sdr_region (base mask : Z) : option (Z * Z * Z * Z) :=
  if flag base 1 then
    let addr_base := Z.land base 0xFFFFF000 in
    let addr_mask := Z.land mask 0xFFFFF000 in
    let size := u32 (u32 (Z.lnot addr_mask) + 1) in
    Some (addr_base, size / (1024 * 1024), u32 (HPS2FPGA_BASE + addr_base), u32 (HPS2FPGA_BASE + addr_base + size - 1))
  else None.

Fixpoint sdr_print (map : Z) (regions : list (Z * Z)) (k : K) : res (list (option (Z * Z * Z * Z)) * K) :=
  match regions with
  | [] => Ok ([], k)
  | (base_off, mask_off) :: regions =>
      '(base, k) ← sdr_read_reg map base_off k;
      '(mask, k) ← sdr_read_reg map mask_off k;
      '(l, k) ← sdr_print map regions k;
      Ok (sdr_region base mask :: l, k)
  end.

Fixpoint sdr_dump (map : Z) (offsets : list Z) (k : K) : res (list Z * K) :=
  match offsets with
  | [] => Ok ([], k)
  | off :: offsets =>
      '(v, k) ← sdr_read_reg map off k;
      '(l, k) ← sdr_dump map offsets k;
      Ok (v :: l, k)
  end.

Definition sdram_map (k : K) : res (Z * list (option (Z * Z * Z * Z)) * list Z * K) :=
  let '(fd, k) := os_open k in
  if fd <? 0 then Ok (1, [], [], k)
  else
    match os_mmap fd SDR_CTRL_SIZE SDR_CTRL_BASE k with
    | (None, k) => Ok (1, [], [], os_close fd k)
    | (Some map, k) =>
        '(l, k) ← sdr_print map sdr_regions k;
        '(raw, k) ← sdr_dump map ((λ i, 0x5080 + 4 * i) <$> seqZ 0 8) k;
        Ok (0, l, raw, os_close fd (os_munmap map SDR_CTRL_SIZE k))
    end.

(** ** bridge_status.cpp *)

Definition BRIDGE_WINDOW_SIZE : Z := 0x10000.
Definition BRIDGE_MAC_BASE : Z := 0x0008.
Definition BRIDGE_INT_CLR : Z := 0x0011.
Definition BRIDGE_MGR_PHYS : Z := 0xFF400000.
Definition BRIDGE_MGR_SIZE : Z := 0x1000.

(** [(int)val] *)
Definition s32 (x : Z) : Z := if x <? 2 ^ 31 then x else x - 2 ^ 32.

Definition check_bridge_mgr (k : K) : Z * K :=
  let '(fd, k) := os_open k in
  if fd <? 0 then (-1, k)
  else
    match os_mmap fd BRIDGE_MGR_SIZE BRIDGE_MGR_PHYS k with
    | (None, k) => (-1, os_close fd k)
    | (Some p, k) =>
        let '(val, k) := bus_read 4 p k in
        (s32 val, os_close fd (os_munmap p BRIDGE_MGR_SIZE k))
    end.

(** The descriptor is not closed and not kept. *)
Definition do_mmap (phys_base : Z) (k : K) : option Z * K :=
  let '(fd, k) := os_open k in
  if fd <? 0 then (None, k)
  else
    match os_mmap fd BRIDGE_WINDOW_SIZE phys_base k with
    | (None, k) => (None, os_close fd k)
    | (Some p, k) => (Some p, k)
    end.

Record bridge_regs := BridgeRegs {
  br_data : Z; br_addr : Z; br_rw : Z; br_new_req : Z; br_done : Z; br_result : Z }.

Definition dump_regs (base : Z) (k : K) : bridge_regs * K :=
  let '(data, k) := bus_read 2 (base + BRIDGE_REG_DATA) k in
  let '(addr, k) := bus_read 1 (base + BRIDGE_REG_ADDR) k in
  let '(rw, k) := bus_read 1 (base + BRIDGE_REG_RW) k in
  let '(new_req, k) := bus_read 1 (base + BRIDGE_REG_NEW_REQ) k in
  let '(done, k) := bus_read 1 (base + BRIDGE_REG_DONE) k in
  let '(result, k) := bus_read 2 (base + BRIDGE_REG_RESULT) k in
  (BridgeRegs data addr rw new_req done result, k).

(** [n] bytes from [p] on, one access each. *)
Fixpoint read_bytes (n : nat) (p : Z) (k : K) : list Z * K :=
  match n with
  | O => ([], k)
  | S n =>
      let '(b, k) := bus_read 1 p k in
      let '(l, k) := read_bytes n (p + 1) k in
      (b :: l, k)
  end.

Definition dump_mac_shadow (base : Z) (k : K) : list Z * K := read_bytes 6 (base + BRIDGE_MAC_BASE) k.

Definition dump_int_regs (base : Z) (k : K) : Z * Z * K :=
  let '(s, k) := bus_read 1 (base + BRIDGE_INT_SET) k in
  let '(c, k) := bus_read 1 (base + BRIDGE_INT_CLR) k in
  (s, c, k).

(** Whether the pattern read back, and the first 16 bytes. *)
Definition probe_boardram (base : Z) (k : K) : bool * list Z * K :=
  let ram := base + BRIDGE_BOARDRAM_OFF in
  let '(saved0, k) := bus_read 1 ram k in
  let '(saved1, k) := bus_read 1 (ram + 1) k in
  let k := bus_write 1 ram 0xA5 k in
  let k := bus_write 1 (ram + 1) 0x5A k in
  let '(r0, k) := bus_read 1 ram k in
  let '(r1, k) := bus_read 1 (ram + 1) k in
  let ok := (r0 =? 0xA5) && (r1 =? 0x5A) in
  let k := bus_write 1 ram saved0 k in
  let k := bus_write 1 (ram + 1) saved1 k in
  let '(first, k) := read_bytes 16 ram k in
  (ok, first, k).

(** The requests seen: poll number, register, direction, data. *)
Fixpoint poll_requests (n : nat) (i base : Z) (k : K) : list (Z * Z * Z * Z) * K :=
  match n with
  | O => ([], k)
  | S n =>
      let '(req, k) := bus_read 1 (base + BRIDGE_REG_NEW_REQ) k in
      let '(line, k) :=
        (if req =? 0 then ([], k)
         else
           let '(data, k) := bus_read 2 (base + BRIDGE_REG_DATA) k in
           let '(addr, k) := bus_read 1 (base + BRIDGE_REG_ADDR) k in
           let '(rw, k) := bus_read 1 (base + BRIDGE_REG_RW) k in
           ([(i, addr, rw, data)], k)) in
      let '(lines, k) := poll_requests n (i + 1) base (os_usleep 10 k) in
      (line ++ lines, k)
  end.

Record status_report := StatusReport {
  st_regs : bridge_regs; st_mac : list Z; st_int : Z * Z; st_ram_ok : bool; st_ram : list Z;
  st_requests : list (Z * Z * Z * Z); st_new_req : Z; st_done : Z }.

(** What is done with the mapped window. *)
Definition status_report_at (poll_count base : Z) (k : K) : status_report * K :=
  let '(regs, k) := dump_regs base k in
  let '(mac, k) := dump_mac_shadow base k in
  let '(int_set, int_clr, k) := dump_int_regs base k in
  let '(ok, ram, k) := probe_boardram base k in
  let '(seen, k) := (if 0 <? poll_count then poll_requests (Z.to_nat poll_count) 0 base k else ([], k)) in
  let '(new_req, k) := bus_read 1 (base + BRIDGE_REG_NEW_REQ) k in
  let '(done, k) := bus_read 1 (base + BRIDGE_REG_DONE) k in
  (StatusReport regs mac (int_set, int_clr) ok ram seen new_req done, k).

Definition bridge_status (argv : list string) (k : K) : Z * option status_report * K :=
  let o := status_args argv status_defaults in
  let '(mgr, k) := check_bridge_mgr k in
  if mgr <? 0 then (1, None, k)
  else if negb (flag mgr 1) && negb (so_force o) then (1, None, k)
  else
    match do_mmap (so_base o) k with
    | (None, k) => (1, None, k)
    | (Some base, k) =>
        let '(r, k) := status_report_at (so_poll o) base k in
        (0, Some r, os_munmap base BRIDGE_WINDOW_SIZE k)
    end.
(** ** bridge_ddr3.cpp *)

(** Its window and [count]. *)
Definition stub_result (addr data : Z) : Z :=
  if addr =? 2 then if data =? 0 then 0x0004 else 0x0115 else 0x0004.

Definition stub_start (w : window) : window * Z := (wr64 (wr64 w MBX_REQ_OFF 0) MBX_RSP_OFF 0, 0).

(** One pass of the loop, sleeping left out. *)
Definition stub_pass (s : window * Z) : window * Z :=
  let '(w, count) := s in
  let req := rd64 w MBX_REQ_OFF in
  if flag req 1 then
    let rw := flag (Z.shiftr req 1) 1 in
    let addr := Z.land (Z.shiftr req 2) 0xFF in
    let data := Z.land (Z.shiftr req 10) 0xFFFF in
    let rsp := if rw then 1 else Z.lor 1 (Z.shiftl (stub_result addr data) 1) in
    (wr64 (wr64 w MBX_RSP_OFF rsp) MBX_REQ_OFF 0, u32 (count + 1))
  else s.

(** [main]: an exit code, or the state in which the loop starts that never ends. *)
Definition bridge_ddr3 (w : window) (k : K) : (Z + window * Z) * K :=
  let '(fd, k) := os_open k in
  if fd <? 0 then (inl 1, k)
  else
    match os_mmap fd 0x10000 0x1FF00000 k with
    | (None, k) => (inl 1, os_close fd k)
    | (Some _, k) => (inr (stub_start w), k)
    end.
End tools.

(** ** What the bus promises *)

(** Accesses, alarms and sleeping neither open nor close anything. *)
Class BusLaws (K : Type) `{OsLaws K, !Bus K} : Prop := {
  law_bus_read n a k : held k (bus_read n a k).2;
  law_bus_write n a v k : held k (bus_write n a v k);
  law_sigaction k : held k (os_sigaction k);
  law_alarm n k : held k (os_alarm n k);
  law_alarmed k : held k (os_alarmed k).2;
  law_usleep n k : held k (os_usleep n k) }.

(** [n] bytes at [p], least significant first. *)
Fixpoint le_mem (n : nat) (mem : Z → Z) (p : Z) : Z :=
  match n with O => 0 | S n => mem p + 256 * le_mem n mem (p + 1) end.

(** Memory at rest behind the mappings: what is mapped at an offset of /dev/mem is the
    physical memory there, reads return it, byte writes change it, and no call does.
    Whether an address can be mapped does not change either.  [bus_log] lists the physical
    addresses of all accesses to mapped memory, in their order. *)
Class QuietBus (K : Type) `{Os K, Bus K} := {
  bus_mem : K → Z → Z;
  bus_at : K → Z → option Z;
  bus_mappable : Z → bool;
  bus_log : K → list Z;
  bus_mem_byte k p : fits 8 (bus_mem k p);
  quiet_open k p : bus_mem (os_open k).2 p = bus_mem k p;
  quiet_close fd k p : bus_mem (os_close fd k) p = bus_mem k p;
  quiet_munmap a n k p : bus_mem (os_munmap a n k) p = bus_mem k p;
  quiet_mmap fd n o k p : bus_mem (os_mmap fd n o k).2 p = bus_mem k p;
  quiet_mappable fd n o k : is_Some (os_mmap fd n o k).1 ↔ bus_mappable o = true;
  quiet_mapped fd n o k a i : (os_mmap fd n o k).1 = Some a → 0 ≤ o → o + n ≤ 2 ^ 32 → 0 ≤ i < n →
    bus_at (os_mmap fd n o k).2 (a + i) = Some (o + i);
  log_open k : bus_log (os_open k).2 = bus_log k;
  log_close fd k : bus_log (os_close fd k) = bus_log k;
  log_munmap a n k : bus_log (os_munmap a n k) = bus_log k;
  log_mmap fd n o k : bus_log (os_mmap fd n o k).2 = bus_log k;
  log_usleep n k : bus_log (os_usleep n k) = bus_log k;
  log_read n a k p : bus_at k a = Some p → bus_log (bus_read n a k).2 = bus_log k ++ [p];
  log_write n a v k p : bus_at k a = Some p → bus_log (bus_write n a v k) = bus_log k ++ [p];
  quiet_usleep n k : (∀ p, bus_mem (os_usleep n k) p = bus_mem k p) ∧ (∀ v, bus_at (os_usleep n k) v = bus_at k v);
  quiet_read n a k : (∀ p, bus_mem (bus_read n a k).2 p = bus_mem k p) ∧
    (∀ v, bus_at (bus_read n a k).2 v = bus_at k v) ∧
    (∀ p, (∀ i, 0 ≤ i < Z.of_nat n → bus_at k (a + i) = Some (p + i)) →
      (bus_read n a k).1 = le_mem n (bus_mem k) p);
  quiet_write a v k : (∀ w, bus_at (bus_write 1 a v k) w = bus_at k w) ∧
    (∀ p q, bus_at k a = Some p → bus_mem (bus_write 1 a v k) q = if q =? p then u8 v else bus_mem k q) }.

(** ** Lemmas: resources *)

Section resources.
Context `{BusLaws K}.

Lemma timed_read_held secs p k : held k (timed_read secs p k).2.
Proof.
  unfold timed_read. pose proof (law_bus_read 4 p (os_alarm secs k)) as R. destruct (bus_read _ _ _) as [v k1].
  pose proof (law_alarmed (os_alarm 0 k1)) as A. destruct (os_alarmed _) as [g k2]. cbn [fst snd] in *.
  etransitivity; [apply law_alarm|]. etransitivity; [apply R|]. etransitivity; [apply law_alarm|apply A].
Qed.

(** A mapping that is given back. *)
Lemma unmap_mapped fd n o k a k1 k2 : os_mmap fd n o k = (Some a, k1) → held k1 k2 →
  held k (os_munmap a n k2).
Proof.
  intros Em [F2 M2]. destruct (law_mmap fd n o k) as [F1 M1]. rewrite Em in F1, M1. cbn in F1, M1.
  destruct M1 as (_ & Ha & M1). destruct (law_munmap a n k2) as [F3 M3].
  split; [congruence|]. rewrite M3, M2, M1. set_solver.
Qed.

Lemma mmap_none fd n o k k1 : os_mmap fd n o k = (None, k1) → held k k1.
Proof. intros Em. pose proof (law_mmap fd n o k) as L. by rewrite Em in L. Qed.

(** One descriptor, a run that gives everything back, and the descriptor closed. *)
Lemma with_mem_held k fd k1 k2 : os_open k = (fd, k1) → 0 ≤ fd → held k1 k2 → held k (os_close fd k2).
Proof.
  intros Eo Hf Hk. pose proof (law_open k) as O. rewrite Eo in O. by apply (close_opened _ _ k1).
Qed.

Lemma open_failed k fd k1 : os_open k = (fd, k1) → fd < 0 → held k k1.
Proof. intros Eo Hf. pose proof (law_open k) as O. rewrite Eo in O. by apply (opens_failed fd). Qed.

Lemma try_read_held fd phys k : held k (try_read fd phys k).2.
Proof.
  unfold try_read. destruct (os_mmap _ _ _ _) as [[map|] k1] eqn:Em; [|by apply (mmap_none _ _ _ _ _ Em)].
  pose proof (law_bus_read 4 map k1) as R1. destruct (bus_read 4 map k1) as [lo k2].
  pose proof (law_bus_read 4 (map + 4) k2) as R2. destruct (bus_read 4 (map + 4) k2) as [hi k3].
  pose proof (law_bus_read 4 (map + 8) k3) as R3. destruct (bus_read 4 (map + 8) k3) as [c k4]. cbn [snd] in *.
  case_match; cbn [snd]; apply (unmap_mapped _ _ _ _ _ _ _ Em); (etransitivity; [apply R1|]); [|done].
  by etransitivity.
Qed.

Lemma scan_loop_held n fd addr k : held k (scan_loop n fd addr k).2.
Proof.
  revert addr k. induction n as [|n IH]; intros addr k; cbn [scan_loop]; [done|].
  pose proof (try_read_held fd addr k) as T. destruct (try_read fd addr k) as [[r c] k1].
  destruct (r =? 0); [done|]. specialize (IH (addr + 0x100000) k1).
  destruct (scan_loop n fd _ k1) as [[f l] k2]. by etransitivity.
Qed.

Lemma scan_all_held fd bases k : held k (scan_all fd bases k).2.
Proof.
  revert k. induction bases as [|b bases IH]; intros k; cbn [scan_all]; [done|].
  assert (S : held k (scan_base fd b k).2).
  { unfold scan_base. cbv zeta. destruct (os_mmap _ _ _ _) as [[map|] k1] eqn:Em; [|by apply (mmap_none _ _ _ _ _ Em)].
    pose proof (timed_read_held 1 (map + (b - andnot b 0xFFF)) k1) as T. destruct (timed_read _ _ _) as [[v g] k2].
    by apply (unmap_mapped _ _ _ _ _ _ _ Em). }
  destruct (scan_base fd b k) as [l k1]. specialize (IH k1). destruct (scan_all fd bases k1) as [ls k2].
  by etransitivity.
Qed.

Lemma safe_reads_held map offsets k : held k (safe_reads map offsets k).2.
Proof.
  revert k. induction offsets as [|o offsets IH]; intros k; cbn [safe_reads]; [done|].
  pose proof (timed_read_held 2 (map + o) k) as T. destruct (timed_read _ _ _) as [[v []] k1]; [done|].
  specialize (IH k1). destruct (safe_reads map offsets k1) as [[l f] k2]. by etransitivity.
Qed.

(** One read further: [Q : held k0 k] for the current state [k]. *)
Ltac held_read Q :=
  match type of Q with held ?k0 ?k =>
    match goal with |- context [bus_read ?n ?a k] =>
      let R := fresh in
      assert (R : held k0 (bus_read n a k).2) by (etransitivity; [apply Q|apply law_bus_read]);
      clear Q; rename R into Q; destruct (bus_read n a k) as [? ?]; cbn [snd] in Q; cbv beta iota
    end end.

Lemma read_bytes_held n p k : held k (read_bytes n p k).2.
Proof.
  revert p k. induction n as [|n IH]; intros p k; cbn [read_bytes]; [done|].
  assert (Q : held k k) by done. held_read Q. specialize (IH (p + 1) k0).
  destruct (read_bytes n (p + 1) k0) as [l k2]. by etransitivity.
Qed.

Lemma dump_regs_held base k : held k (dump_regs base k).2.
Proof. unfold dump_regs. assert (Q : held k k) by done. do 6 held_read Q. done. Qed.

Lemma dump_int_regs_held base k : held k (dump_int_regs base k).2.
Proof. unfold dump_int_regs. assert (Q : held k k) by done. do 2 held_read Q. done. Qed.

Lemma probe_boardram_held base k : held k (probe_boardram base k).2.
Proof.
  unfold probe_boardram. cbv zeta. assert (Q : held k k) by done. do 2 held_read Q.
  match goal with |- context [bus_write 1 ?b 0x5A ?x] => pose proof (law_bus_write 1 b 0x5A x) as W1 end.
  match goal with |- context [bus_write 1 ?b 0xA5 ?x] => pose proof (law_bus_write 1 b 0xA5 x) as W2 end.
  assert (Q' := transitivity (transitivity Q W2) W1). clear Q W1 W2. do 2 held_read Q'.
  match goal with |- context [read_bytes 16 ?b ?x] => pose proof (read_bytes_held 16 b x) as R end.
  destruct (read_bytes _ _ _) as [l k6]. cbn [snd] in *.
  etransitivity; [apply Q'|]. etransitivity; [|apply R]. etransitivity; apply law_bus_write.
Qed.

Lemma poll_requests_held n i base k : held k (poll_requests n i base k).2.
Proof.
  revert i k. induction n as [|n IH]; intros i k; cbn [poll_requests]; [done|].
  assert (Q : held k k) by done. held_read Q.
  assert (E : ∀ x : list (Z * Z * Z * Z) * K, held k x.2 → held k
    (let '(line, k) := x in let '(lines, k) := poll_requests n (i + 1) base (os_usleep 10 k) in (line ++ lines, k)).2).
  { intros [line k2] Hx. specialize (IH (i + 1) (os_usleep 10 k2)).
    destruct (poll_requests n _ _ _) as [lines k3]. cbn [snd] in *.
    etransitivity; [apply Hx|]. etransitivity; [apply law_usleep|apply IH]. }
  apply E. case_match; [done|]. do 3 held_read Q. done.
Qed.

Lemma status_report_at_held c base k : held k (status_report_at c base k).2.
Proof.
  unfold status_report_at. pose proof (dump_regs_held base k) as Q. destruct (dump_regs base k) as [regs k1].
  pose proof (read_bytes_held 6 (base + BRIDGE_MAC_BASE) k1) as R. unfold dump_mac_shadow.
  destruct (read_bytes 6 _ k1) as [mac k2]. assert (Q2 := transitivity Q R). clear Q R. cbn [snd] in Q2.
  pose proof (dump_int_regs_held base k2) as R. destruct (dump_int_regs base k2) as [[a b] k3].
  assert (Q3 := transitivity Q2 R). clear Q2 R. cbn [snd] in Q3.
  pose proof (probe_boardram_held base k3) as R. destruct (probe_boardram base k3) as [[ok ram] k4].
  assert (Q4 := transitivity Q3 R). clear Q3 R. cbn [snd] in Q4.
  set (x := if 0 <? c then _ else _). assert (Q5 : held k x.2).
  { unfold x. case_match; [|done]. etransitivity; [apply Q4|apply poll_requests_held]. }
  destruct x as [seen k5]. clear Q4. cbn [snd] in Q5. do 2 held_read Q5. done.
Qed.

Lemma check_bridge_mgr_held k : held k (check_bridge_mgr k).2.
Proof.
  unfold check_bridge_mgr. destruct (os_open k) as [fd k1] eqn:Eo. destruct (Z.ltb_spec fd 0); [by apply (open_failed k fd)|].
  destruct (os_mmap _ _ _ _) as [[p|] k2] eqn:Em; cbn [snd].
  - assert (Q : held k2 k2) by done. held_read Q. apply (with_mem_held k fd k1); [done|done|].
    by apply (unmap_mapped _ _ _ _ _ _ _ Em).
  - apply (with_mem_held k fd k1); [done|done|]. by apply (mmap_none _ _ _ _ _ Em).
Qed.

(** What [bridge_status] holds when it ends: nothing new, or the descriptor of its window. *)
Lemma bridge_status_held argv k : let '(code, r, k') := bridge_status argv k in
  os_maps k' = os_maps k ∧
  if decide (code = 0) then ∃ fd, 0 ≤ fd ∧ (fd ∉ os_fds k) ∧ os_fds k' = {[fd]} ∪ os_fds k
  else os_fds k' = os_fds k.
Proof.
  unfold bridge_status. cbv zeta. pose proof (check_bridge_mgr_held k) as [F M].
  destruct (check_bridge_mgr k) as [mgr k1]. cbn [snd] in *. destruct (mgr <? 0); [done|].
  destruct (negb (flag mgr 1) && _); [done|].
  unfold do_mmap. pose proof (law_open k1) as O. destruct (os_open k1) as [fd k2] eqn:Eo. cbn [fst snd] in O.
  destruct (Z.ltb_spec fd 0).
  { destruct (opens_failed _ _ _ O ltac:(done)) as [F2 M2]. cbn. rewrite F2, M2. done. }
  destruct (os_mmap _ _ _ _) as [[p|] k3] eqn:Em.
  - pose proof (status_report_at_held (so_poll (status_args argv status_defaults)) p k3) as Q.
    destruct (status_report_at _ _ _) as [r k4]. cbn [snd] in Q. destruct (unmap_mapped _ _ _ _ _ _ _ Em Q) as [F4 M4].
    destruct O as [M2 O]. rewrite decide_False in O by lia. destruct O as [Hn F2]. rewrite decide_True by done.
    split; [by rewrite M4, M2|].
    exists fd. split_and!; [done|by rewrite <-F|by rewrite F4, F2, F].
  - pose proof (with_mem_held k1 fd k2 k3 Eo ltac:(done) (mmap_none _ _ _ _ _ Em)) as [F4 M4].
    rewrite decide_False by done. split; [by rewrite M4|by rewrite F4].
Qed.

(** The registers of sdram_map.cpp all lie beyond the page it maps. *)
Lemma sdram_map_held k : match sdram_map k with
  | Ok (code, _, _, k') => code = 1 ∧ held k k'
  | Err e => e = OutOfBounds
  end.
Proof.
  unfold sdram_map. destruct (os_open k) as [fd k1] eqn:Eo. destruct (Z.ltb_spec fd 0).
  { split; [done|by apply (open_failed k fd)]. }
  destruct (os_mmap _ _ _ _) as [[map|] k2] eqn:Em; [done|]. split; [done|].
  apply (with_mem_held k fd k1); [done|done|]. by apply (mmap_none _ _ _ _ _ Em).
Qed.

Lemma sdram_map_outside k : 0 ≤ (os_open k).1 →
  is_Some (os_mmap (os_open k).1 SDR_CTRL_SIZE SDR_CTRL_BASE (os_open k).2).1 →
  sdram_map k = Err OutOfBounds.
Proof.
  intros Hf Hm. unfold sdram_map. destruct (os_open k) as [fd k1]. cbn [fst snd] in *.
  rewrite (proj2 (Z.ltb_ge fd 0)) by done. destruct (os_mmap _ _ _ _) as [[map|] k2]; [done|].
  by apply is_Some_None in Hm.
Qed.

(** ** Theorem: resources *)

(** What the bring-up tools hold when they end.  On every path, mapping failures and
    timeouts in the middle of a scan included, ddr3_scan, bridge_scan and
    bridge_test_safe give back every descriptor and mapping.  bridge_status gives back
    its mapping but, when it has mapped the window, not the descriptor of /dev/mem.
    sdram_map gives back what it took when it cannot map; as soon as it can, its first
    register access lies outside the page it mapped.  bridge_ddr3 ends only when it cannot
    map, holding nothing. *)
Theorem tools_resources (argv : list string) (win : window) (k : K) :
  held k (ddr3_scan k).2 ∧ held k (bridge_scan k).2 ∧ held k (bridge_test_safe k).2 ∧
  (let '(code, _, k') := bridge_status argv k in
   os_maps k' = os_maps k ∧
   if decide (code = 0) then ∃ fd, 0 ≤ fd ∧ (fd ∉ os_fds k) ∧ os_fds k' = {[fd]} ∪ os_fds k
   else os_fds k' = os_fds k) ∧
  match sdram_map k with
  | Ok (code, _, _, k') => code = 1 ∧ held k k'
  | Err e => e = OutOfBounds
  end ∧
  (0 ≤ (os_open k).1 → is_Some (os_mmap (os_open k).1 SDR_CTRL_SIZE SDR_CTRL_BASE (os_open k).2).1 →
   sdram_map k = Err OutOfBounds) ∧
  match bridge_ddr3 win k with
  | (inl code, k') => code = 1 ∧ held k k'
  | (inr s, _) => s = stub_start win
  end.
Proof.
  split_and!; [| | |apply bridge_status_held|apply sdram_map_held|apply sdram_map_outside|].
  - unfold ddr3_scan. destruct (os_open k) as [fd k1] eqn:Eo. destruct (Z.ltb_spec fd 0); [by apply (open_failed k fd)|].
    pose proof (scan_loop_held SCAN_PAGES fd 0 k1) as Q. destruct (scan_loop _ _ _ _) as [[f l] k2].
    by apply (with_mem_held k fd k1).
  - unfold bridge_scan. destruct (os_open k) as [fd k1] eqn:Eo. destruct (Z.ltb_spec fd 0); [by apply (open_failed k fd)|].
    pose proof (scan_all_held fd scan_bases (os_sigaction k1)) as Q. destruct (scan_all _ _ _) as [ls k2].
    apply (with_mem_held k fd k1); [done|done|]. etransitivity; [apply law_sigaction|apply Q].
  - unfold bridge_test_safe. destruct (os_open k) as [fd k1] eqn:Eo. destruct (Z.ltb_spec fd 0); [by apply (open_failed k fd)|].
    destruct (os_mmap _ _ _ _) as [[map|] k2] eqn:Em.
    + pose proof (safe_reads_held map safe_offsets (os_sigaction k2)) as Q. destruct (safe_reads _ _ _) as [[l f] k3].
      apply (with_mem_held k fd k1); [done|done|]. apply (unmap_mapped _ _ _ _ _ _ _ Em).
      etransitivity; [apply law_sigaction|apply Q].
    + apply (with_mem_held k fd k1); [done|done|]. by apply (mmap_none _ _ _ _ _ Em).
  - unfold bridge_ddr3. destruct (os_open k) as [fd k1] eqn:Eo.
    destruct (Z.ltb_spec fd 0); [split; [done|by apply (open_failed k fd)]|].
    destruct (os_mmap _ _ _ _) as [[map|] k2] eqn:Em; [done|]. split; [done|].
    apply (with_mem_held k fd k1); [done|done|]. by apply (mmap_none _ _ _ _ _ Em).
Qed.
End resources.

(** ** Lemmas: memory at rest *)

Section quiet.
Context `{OsK : Os K, BusK : !Bus K, QB : !QuietBus K}.

Definition same_mem (k k' : K) : Prop := ∀ p, bus_mem k' p = bus_mem k p.

#[export] Instance same_mem_preorder : PreOrder same_mem.
Proof. split; [by intros k p|]. intros k1 k2 k3 H1 H2 p. by rewrite H2. Qed.

Lemma le_mem_ext n m m' p : (∀ q, m q = m' q) → le_mem n m p = le_mem n m' p.
Proof. intros E. revert p. induction n as [|n IH]; intros p; cbn; [done|]. by rewrite E, IH. Qed.

(** All accesses since [log] fell into the [n] bytes from [o] on. *)
Definition touched (log : list Z) (o n : Z) (k : K) : Prop :=
  ∃ l, bus_log k = log ++ l ∧ Forall (λ p, o ≤ p < o + n) l.

Lemma touched_refl o n k : touched (bus_log k) o n k.
Proof. exists []. by rewrite app_nil_r. Qed.

Lemma touched_same log o n k k' : bus_log k' = bus_log k → touched log o n k → touched log o n k'.
Proof. unfold touched. by intros ->. Qed.

Lemma touched_one log o n k k' p : bus_log k' = bus_log k ++ [p] → o ≤ p < o + n →
  touched log o n k → touched log o n k'.
Proof.
  intros E Hp (l & El & Hl). exists (l ++ [p]). split; [by rewrite E, El, app_assoc|].
  apply Forall_app. by rewrite Forall_singleton.
Qed.

(** A state in which [n] bytes from physical address [o] are mapped at [a], over memory
    [mem], and nothing else has been touched since [log]. *)
Definition mapped (mem : Z → Z) (log : list Z) (a o n : Z) (k : K) : Prop :=
  (∀ p, bus_mem k p = mem p) ∧ (∀ i, 0 ≤ i < n → bus_at k (a + i) = Some (o + i)) ∧ touched log o n k.

Lemma mmap_mapped fd n o k a k1 mem : os_mmap fd n o k = (Some a, k1) → 0 ≤ o → o + n ≤ 2 ^ 32 →
  (∀ p, bus_mem k p = mem p) → mapped mem (bus_log k) a o n k1.
Proof.
  intros Em Ho Hn Hk. split_and!.
  - intros p. rewrite <-Hk, <-(quiet_mmap fd n o k). by rewrite Em.
  - intros i Hi. pose proof (quiet_mapped fd n o k a i) as M. rewrite Em in M. by apply M.
  - apply (touched_same _ _ _ k); [|apply touched_refl]. pose proof (log_mmap fd n o k) as L. by rewrite Em in L.
Qed.

(** A read of mapped memory. *)
Lemma read_mapped w off mem log a o n k : mapped mem log a o n k → 0 ≤ off < n → off + Z.of_nat w ≤ n →
  mapped mem log a o n (bus_read w (a + off) k).2 ∧ (bus_read w (a + off) k).1 = le_mem w mem (o + off).
Proof.
  intros (Hm & Ha & Ht) H1 H2. destruct (quiet_read w (a + off) k) as (M & A & V). split.
  - split_and!; [intros p; by rewrite M|intros i Hi; rewrite A; by apply Ha|].
    apply (touched_one _ _ _ k _ (o + off)); [by apply log_read, Ha|lia|done].
  - rewrite (V (o + off)); [by apply le_mem_ext|]. intros i Hi. rewrite <-!Z.add_assoc. apply Ha. lia.
Qed.

(** A byte written to mapped memory. *)
Lemma write_mapped off v mem log a o n k : mapped mem log a o n k → 0 ≤ off < n →
  mapped (λ q, if q =? o + off then u8 v else mem q) log a o n (bus_write 1 (a + off) v k).
Proof.
  intros (Hm & Ha & Ht) H1. destruct (quiet_write (a + off) v k) as [A M]. split_and!.
  - intros p. rewrite (M (o + off)) by by apply Ha. by rewrite Hm.
  - intros i Hi. rewrite A. by apply Ha.
  - apply (touched_one _ _ _ k _ (o + off)); [by apply log_write, Ha|lia|done].
Qed.

(** Step over the next read, its value named by the memory. *)
Ltac read_at M off :=
  match goal with |- context [bus_read ?w ?x ?k] =>
    match type of M with mapped ?mem ?log ?a ?o ?n k =>
      let R := fresh in let E := fresh in
      destruct (read_mapped w off mem log a o n k M) as [R E];
        [done|done|]; try (replace (a + off) with x in R, E by (rewrite ?Z.add_0_r; reflexivity || lia));
        clear M; rename R into M; destruct (bus_read w x k) as [? ?]; cbn [fst snd] in M, E;
        rewrite E; clear E; cbv beta iota
    end end.

(** The magic words at a physical address. *)
Definition magic_at (mem : Z → Z) (p : Z) : Prop :=
  le_mem 4 mem p = MAGIC_LO ∧ le_mem 4 mem (p + 4) = MAGIC_HI.

#[export] Instance magic_at_dec mem p : Decision (magic_at mem p).
Proof. unfold magic_at. apply _. Defined.

(** What [ddr3_scan] looks for at an address. *)
Definition found_at (mem : Z → Z) (p : Z) : Prop := bus_mappable p = true ∧ magic_at mem p.

Lemma try_read_spec fd phys k mem : 0 ≤ phys → phys + 0x10000 ≤ 2 ^ 32 → (∀ p, bus_mem k p = mem p) →
  let '(r, c, k') := try_read fd phys k in
  (∀ p, bus_mem k' p = mem p) ∧
  (r = 0 ∧ found_at mem phys ∧ c = le_mem 4 mem (phys + 8) ∨ (r = 1 ∨ r = -1) ∧ ¬ found_at mem phys).
Proof.
  intros H1 H2 Hk. unfold try_read. pose proof (quiet_mappable fd 0x10000 phys k) as Q.
  destruct (os_mmap fd 0x10000 phys k) as [[map|] k1] eqn:Em.
  - apply proj1 in Q. specialize (Q ltac:(by eexists)). pose proof (mmap_mapped _ _ _ _ _ _ mem Em H1 H2 Hk) as M.
    read_at M 0. read_at M 4. rewrite Z.add_0_r.
    destruct (Z.eqb_spec (le_mem 4 mem phys) MAGIC_LO); cbn [andb];
      [destruct (Z.eqb_spec (le_mem 4 mem (phys + 4)) MAGIC_HI)|].
    + read_at M 8. split; [intros p; rewrite quiet_munmap; apply M|left]. done.
    + split; [intros p; rewrite quiet_munmap; apply M|right]. split; [by left|]. by intros (_ & _ & ?).
    + split; [intros p; rewrite quiet_munmap; apply M|right]. split; [by left|]. by intros (_ & ? & _).
  - split; [intros p; rewrite <-Hk, <-(quiet_mmap fd 0x10000 phys k); by rewrite Em|]. right. split; [by right|].
    intros [Hp _]. apply Q in Hp. by apply is_Some_None in Hp.
Qed.

(** The loop finds the first of the addresses it looks at. *)
Lemma scan_loop_spec n fd addr k mem : 0 ≤ addr → addr + 0x100000 * Z.of_nat n ≤ 2 ^ 32 →
  (∀ p, bus_mem k p = mem p) →
  let '(found, _, k') := scan_loop n fd addr k in
  (∀ p, bus_mem k' p = mem p) ∧
  match found with
  | Some (a, c) => found_at mem a ∧ c = le_mem 4 mem (a + 8) ∧
      ∃ i, 0 ≤ i < Z.of_nat n ∧ a = addr + 0x100000 * i ∧
        ∀ j, 0 ≤ j < i → ¬ found_at mem (addr + 0x100000 * j)
  | None => ∀ j, 0 ≤ j < Z.of_nat n → ¬ found_at mem (addr + 0x100000 * j)
  end.
Proof.
  revert addr k. induction n as [|n IH]; intros addr k H1 H2 Hk; cbn [scan_loop].
  { split; [done|]. intros j Hj. lia. }
  pose proof (try_read_spec fd addr k mem H1 ltac:(lia) Hk) as T.
  destruct (try_read fd addr k) as [[r c] k1]. destruct T as [Hk1 T].
  destruct T as [(-> & Hf & ->)|[Hr Hf]].
  { cbn. split; [done|]. split; [done|]. split; [done|]. exists 0. split_and!; [lia|lia|lia|]. intros j Hj. lia. }
  assert ((r =? 0) = false) as -> by (apply Z.eqb_neq; lia).
  specialize (IH (addr + 0x100000) k1 ltac:(lia) ltac:(lia) Hk1).
  destruct (scan_loop n fd _ k1) as [[f l] k2]. destruct IH as [Hk2 IH]. split; [done|].
  assert (S : ∀ j, addr + 0x100000 + 0x100000 * (j - 1) = addr + 0x100000 * j) by lia.
  destruct f as [[a c']|].
  - destruct IH as (F & C & i & Hi & Ea & N). split; [done|]. split; [done|]. exists (i + 1).
    split_and!; [lia|lia|lia|]. intros j Hj. destruct (decide (j = 0)) as [->|]; [by rewrite Z.mul_0_r, Z.add_0_r|].
    rewrite <-S. apply N. lia.
  - intros j Hj. destruct (decide (j = 0)) as [->|]; [by rewrite Z.mul_0_r, Z.add_0_r|].
    rewrite <-S. apply IH. lia.
Qed.

(** The addresses of the scan: every megabyte of the first gigabyte. *)
Definition scanned (a : Z) : Prop := 0 ≤ a < 0x40000000 ∧ a mod 0x100000 = 0.

(** ddr3_scan finds the window.  Over memory at rest it reports the lowest multiple of
    one megabyte below one gigabyte that can be mapped and holds the two magic words,
    with the counter after them, and exits 0; it exits 1 exactly when there is none.  The
    memory is as before. *)
Theorem ddr3_scan_finds (k : K) (Ho : 0 ≤ (os_open k).1) :
  let '(code, found, _, k') := ddr3_scan k in
  same_mem k k' ∧
  match found with
  | Some (a, c) => code = 0 ∧ scanned a ∧ found_at (bus_mem k) a ∧ c = le_mem 4 (bus_mem k) (a + 8) ∧
      ∀ b, scanned b → found_at (bus_mem k) b → a ≤ b
  | None => code = 1 ∧ ∀ b, scanned b → ¬ found_at (bus_mem k) b
  end.
Proof.
  unfold ddr3_scan. pose proof (quiet_open k) as O. destruct (os_open k) as [fd k1]. cbn [fst snd] in *.
  rewrite (proj2 (Z.ltb_ge fd 0)) by done.
  pose proof (scan_loop_spec SCAN_PAGES fd 0 k1 (bus_mem k) ltac:(lia) ltac:(vm_compute; done) O) as S.
  destruct (scan_loop _ _ _ _) as [[f l] k2]. destruct S as [M S].
  assert (I : ∀ b, scanned b → ∃ j, 0 ≤ j < Z.of_nat SCAN_PAGES ∧ b = 0 + 0x100000 * j).
  { intros b [Hb Eb]. exists (b / 0x100000). pose proof (Z.div_mod b 0x100000).
    change (Z.of_nat SCAN_PAGES) with 0x400. lia. }
  split; [intros p; by rewrite quiet_close|]. destruct f as [[a c]|].
  - destruct S as (F & C & i & Hi & -> & N). change (Z.of_nat SCAN_PAGES) with 0x400 in Hi.
    split; [done|]. split.
    { split; [lia|]. rewrite Z.add_0_l, Z.mul_comm. by apply Z.mod_mul. }
    split; [done|]. split; [done|]. intros b Hb Hf. destruct (I b Hb) as (j & Hj & ->).
    destruct (decide (i ≤ j)); [lia|]. exfalso. by apply (N j); [lia|].
  - split; [done|]. intros b Hb. destruct (I b Hb) as (j & Hj & ->). by apply S.
Qed.

(** ** Lemmas: bridge_status over memory at rest *)

Lemma le_mem_1 mem p : le_mem 1 mem p = mem p.
Proof. cbn [le_mem]. lia. Qed.

Lemma le_mem_fits n mem p : (∀ q, fits 8 (mem q)) → fits (8 * Z.of_nat n) (le_mem n mem p).
Proof.
  intros Hm. unfold fits. revert p. induction n as [|n IH]; intros p; [done|]. cbn [le_mem].
  specialize (IH (p + 1)). specialize (Hm p). unfold fits in Hm.
  replace (8 * Z.of_nat (S n)) with (8 + 8 * Z.of_nat n) by lia. rewrite Z.pow_add_r by lia. lia.
Qed.

Lemma mapped_ext m m' log a o n k : (∀ q, m q = m' q) → mapped m log a o n k → mapped m' log a o n k.
Proof. intros E [Hm Ha]. split; [intros p; by rewrite Hm|done]. Qed.

Lemma read_bytes_mapped n off mem log a o len k : mapped mem log a o len k → 0 ≤ off → off + Z.of_nat n ≤ len →
  mapped mem log a o len (read_bytes n (a + off) k).2 ∧
  (read_bytes n (a + off) k).1 = mem <$> seqZ (o + off) (Z.of_nat n).
Proof.
  revert off k. induction n as [|n IH]; intros off k M H1 H2; cbn [read_bytes]; [done|].
  destruct (read_mapped 1 off mem log a o len k M) as [M1 V]; [lia|lia|]. rewrite le_mem_1 in V.
  destruct (bus_read 1 (a + off) k) as [b k1]. cbn [fst snd] in *. subst b.
  destruct (IH (off + 1) k1 M1) as [M2 V2]; [lia|lia|]. rewrite <-Z.add_assoc in *.
  destruct (read_bytes n _ k1) as [l k2]. cbn [fst snd] in *. subst l. split; [done|].
  rewrite (seqZ_cons (o + off)) by lia. cbn [fmap list_fmap]. f_equal. f_equal. f_equal; lia.
Qed.

(** The probe reads its pattern back and leaves the memory as it was. *)
Lemma probe_boardram_mapped mem log a o k : (∀ q, fits 8 (mem q)) → mapped mem log a o BRIDGE_WINDOW_SIZE k →
  let '(ok, first, k') := probe_boardram a k in
  ok = true ∧ first = mem <$> seqZ (o + BRIDGE_BOARDRAM_OFF) 16 ∧ mapped mem log a o BRIDGE_WINDOW_SIZE k'.
Proof.
  intros Hb M. unfold probe_boardram. cbv zeta.
  replace (a + BRIDGE_BOARDRAM_OFF + 1) with (a + (BRIDGE_BOARDRAM_OFF + 1)) by lia.
  read_at M BRIDGE_BOARDRAM_OFF. read_at M (BRIDGE_BOARDRAM_OFF + 1). rewrite !le_mem_1.
  match type of M with mapped _ _ _ _ _ ?k => pose proof (write_mapped BRIDGE_BOARDRAM_OFF 0xA5 _ _ _ _ _ k M ltac:(by split)) as M1 end.
  match type of M1 with mapped _ _ _ _ _ ?k => pose proof (write_mapped (BRIDGE_BOARDRAM_OFF + 1) 0x5A _ _ _ _ _ k M1 ltac:(by split)) as M2 end.
  clear M M1. read_at M2 BRIDGE_BOARDRAM_OFF. read_at M2 (BRIDGE_BOARDRAM_OFF + 1). rewrite !le_mem_1.
  match type of M2 with mapped _ _ _ _ _ ?k => pose proof (write_mapped BRIDGE_BOARDRAM_OFF (mem (o + BRIDGE_BOARDRAM_OFF)) _ _ _ _ _ k M2 ltac:(by split)) as M3 end.
  match type of M3 with mapped _ _ _ _ _ ?k => pose proof (write_mapped (BRIDGE_BOARDRAM_OFF + 1) (mem (o + (BRIDGE_BOARDRAM_OFF + 1))) _ _ _ _ _ k M3 ltac:(by split)) as M4 end.
  clear M2 M3. apply (mapped_ext _ mem) in M4.
  2:{ intros q. destruct (Z.eqb_spec q (o + (BRIDGE_BOARDRAM_OFF + 1))) as [->|]; [by apply u8_small|].
      destruct (Z.eqb_spec q (o + BRIDGE_BOARDRAM_OFF)) as [->|]; [by apply u8_small|done]. }
  destruct (read_bytes_mapped 16 BRIDGE_BOARDRAM_OFF _ _ _ _ _ _ M4) as [M5 V]; [done|done|].
  destruct (read_bytes _ _ _) as [l k9]. cbn [fst snd] in *. split_and!; [|exact V|done].
  rewrite !Z.eqb_refl. destruct (Z.eqb_spec (o + BRIDGE_BOARDRAM_OFF) (o + (BRIDGE_BOARDRAM_OFF + 1))); [lia|done].
Qed.

(** The requests of a window that stands still: none, or the same one at every poll. *)
Definition seen_requests (mem : Z → Z) (o i : Z) (n : nat) : list (Z * Z * Z * Z) :=
  if mem (o + BRIDGE_REG_NEW_REQ) =? 0 then []
  else (λ i, (i, mem (o + BRIDGE_REG_ADDR), mem (o + BRIDGE_REG_RW), le_mem 2 mem (o + BRIDGE_REG_DATA)))
    <$> seqZ i (Z.of_nat n).

Lemma poll_requests_mapped n i mem log a o k : mapped mem log a o BRIDGE_WINDOW_SIZE k →
  mapped mem log a o BRIDGE_WINDOW_SIZE (poll_requests n i a k).2 ∧
  (poll_requests n i a k).1 = seen_requests mem o i n.
Proof.
  revert i k. induction n as [|n IH]; intros i k M; cbn [poll_requests].
  { split; [done|]. unfold seen_requests. by case_match. }
  read_at M BRIDGE_REG_NEW_REQ. rewrite le_mem_1. unfold seen_requests in *.
  assert (U : ∀ k, mapped mem log a o BRIDGE_WINDOW_SIZE k → mapped mem log a o BRIDGE_WINDOW_SIZE (os_usleep 10 k)).
  { intros k' (Hm & Ha & Ht). destruct (quiet_usleep 10 k') as [Q1 Q2].
    split_and!; [intros p; by rewrite Q1|intros j Hj; rewrite Q2; by apply Ha|].
    by apply (touched_same _ _ _ k'); [apply log_usleep|]. }
  destruct (mem (o + BRIDGE_REG_NEW_REQ) =? 0).
  - apply U in M. destruct (IH (i + 1) _ M) as [M1 V]. destruct (poll_requests n _ _ _) as [l kl].
    cbn [fst snd] in *. by subst l.
  - read_at M BRIDGE_REG_DATA. read_at M BRIDGE_REG_ADDR. read_at M BRIDGE_REG_RW. rewrite !le_mem_1.
    apply U in M. destruct (IH (i + 1) _ M) as [M1 V]. destruct (poll_requests n _ _ _) as [l kl].
    cbn [fst snd] in *. subst l. split; [done|]. rewrite (seqZ_cons i) by lia. cbn [fmap list_fmap app].
    f_equal. f_equal. f_equal; lia.
Qed.

(** The report of a window that stands still. *)
Definition report_of (mem : Z → Z) (o poll_count : Z) : status_report :=
  StatusReport
    (BridgeRegs (le_mem 2 mem (o + BRIDGE_REG_DATA)) (mem (o + BRIDGE_REG_ADDR)) (mem (o + BRIDGE_REG_RW))
      (mem (o + BRIDGE_REG_NEW_REQ)) (mem (o + BRIDGE_REG_DONE)) (le_mem 2 mem (o + BRIDGE_REG_RESULT)))
    (mem <$> seqZ (o + BRIDGE_MAC_BASE) 6) (mem (o + BRIDGE_INT_SET), mem (o + BRIDGE_INT_CLR))
    true (mem <$> seqZ (o + BRIDGE_BOARDRAM_OFF) 16) (seen_requests mem o 0 (Z.to_nat poll_count))
    (mem (o + BRIDGE_REG_NEW_REQ)) (mem (o + BRIDGE_REG_DONE)).

Lemma status_report_mapped c mem log a o k : (∀ q, fits 8 (mem q)) → mapped mem log a o BRIDGE_WINDOW_SIZE k →
  mapped mem log a o BRIDGE_WINDOW_SIZE (status_report_at c a k).2 ∧
  (status_report_at c a k).1 = report_of mem o c.
Proof.
  intros Hb M. unfold status_report_at, dump_regs.
  read_at M BRIDGE_REG_DATA. read_at M BRIDGE_REG_ADDR. read_at M BRIDGE_REG_RW.
  read_at M BRIDGE_REG_NEW_REQ. read_at M BRIDGE_REG_DONE. read_at M BRIDGE_REG_RESULT.
  unfold dump_mac_shadow. match type of M with mapped _ _ _ _ _ ?k =>
    destruct (read_bytes_mapped 6 BRIDGE_MAC_BASE mem log a o BRIDGE_WINDOW_SIZE k M) as [M1 V1]; [done|done|];
    destruct (read_bytes 6 (a + BRIDGE_MAC_BASE) k) as [mac km] end. cbn [fst snd] in M1, V1. clear M.
  unfold dump_int_regs. read_at M1 BRIDGE_INT_SET. read_at M1 BRIDGE_INT_CLR.
  match type of M1 with mapped _ _ _ _ _ ?k => pose proof (probe_boardram_mapped mem log a o k Hb M1) as P;
    destruct (probe_boardram a k) as [[ok first] kp] end. destruct P as (-> & -> & M2). clear M1.
  set (x := if 0 <? c then _ else _).
  assert (Q : mapped mem log a o BRIDGE_WINDOW_SIZE x.2 ∧ x.1 = seen_requests mem o 0 (Z.to_nat c)).
  { unfold x. destruct (Z.ltb_spec 0 c); [by apply poll_requests_mapped|]. split; [done|].
    unfold seen_requests. case_match; [done|]. by replace (Z.to_nat c) with 0%nat by lia. }
  destruct x as [seen ks]. cbn [fst snd] in Q. destruct Q as [M3 ->]. clear M2.
  read_at M3 BRIDGE_REG_NEW_REQ. read_at M3 BRIDGE_REG_DONE. rewrite !le_mem_1. split; [done|].
  cbn [fst]. unfold report_of. by rewrite V1.
Qed.

(** The bridge manager's CTL register, or -1; nothing else is touched. *)
Lemma check_bridge_mgr_spec k : 0 ≤ (os_open k).1 →
  let ctl := le_mem 4 (bus_mem k) BRIDGE_MGR_PHYS in
  let '(mgr, k') := check_bridge_mgr k in
  same_mem k k' ∧
  bus_log k' = bus_log k ++ (if bus_mappable BRIDGE_MGR_PHYS then [BRIDGE_MGR_PHYS] else []) ∧
  if bus_mappable BRIDGE_MGR_PHYS && (ctl <? 2 ^ 31) then mgr = ctl else mgr < 0.
Proof.
  intros Hf ctl. unfold check_bridge_mgr. pose proof (quiet_open k) as O. pose proof (log_open k) as LO.
  destruct (os_open k) as [fd k1]. cbn [fst snd] in *. rewrite (proj2 (Z.ltb_ge fd 0)) by done.
  pose proof (quiet_mappable fd BRIDGE_MGR_SIZE BRIDGE_MGR_PHYS k1) as Q.
  pose proof (quiet_mmap fd BRIDGE_MGR_SIZE BRIDGE_MGR_PHYS k1) as MM.
  pose proof (log_mmap fd BRIDGE_MGR_SIZE BRIDGE_MGR_PHYS k1) as LM.
  destruct (os_mmap _ _ _ _) as [[a|] k2] eqn:Em; cbn [fst snd] in *.
  - rewrite (proj1 Q) by by eexists. pose proof (mmap_mapped _ _ _ _ _ _ (bus_mem k) Em ltac:(done) ltac:(done) O) as M.
    assert (A0 : bus_at k2 a = Some BRIDGE_MGR_PHYS).
    { destruct M as (_ & A & _). specialize (A 0 ltac:(done)). by rewrite !Z.add_0_r in A. }
    pose proof (log_read 4 a k2 _ A0) as LR.
    read_at M 0. cbn [snd] in LR. split; [intros p; rewrite quiet_close, quiet_munmap; apply M|].
    split; [by rewrite log_close, log_munmap, LR, LM, LO|]. rewrite Z.add_0_r. fold ctl.
    pose proof (le_mem_fits 4 (bus_mem k) BRIDGE_MGR_PHYS (bus_mem_byte k)) as F. fold ctl in F. unfold fits in F.
    change (8 * Z.of_nat 4) with 32 in F. unfold s32. cbn [andb]. destruct (Z.ltb_spec ctl (2 ^ 31)); [done|lia].
  - destruct (bus_mappable BRIDGE_MGR_PHYS); [by destruct (is_Some_None (proj2 Q eq_refl))|].
    split_and!; [|by rewrite log_close, LM, LO, app_nil_r|done]. intros p. by rewrite quiet_close, MM, O.
Qed.

(** C40: bridge_status touches the window only when it may, and leaves it as it was.  Over
    memory at rest, and when /dev/mem can be opened, it reports exactly when the bridge
    manager can be mapped, bit 0 of its CTL register is set or [--force] was given, and
    the window can be mapped (and when bit 31 of CTL is clear: a value that is negative
    as an int is taken for a failure).  Its first access is the one of CTL; when it does
    not report, there is no other, and when it does, all the others lie in the window.
    The report shows the registers, the station address, the interrupt bytes and the
    board RAM as the window holds them, one line per poll when a request is pending and
    none otherwise, and the RAM probe succeeds.  Afterwards every byte of memory is what
    it was. *)
Theorem bridge_status_reports (argv : list string) (k : K) (Ho : ∀ k : K, 0 ≤ (os_open k).1)
    (Hb : so_base (status_args argv status_defaults) + BRIDGE_WINDOW_SIZE ≤ 2 ^ 32)
    (Hp : 0 ≤ so_base (status_args argv status_defaults)) :
  let o := status_args argv status_defaults in
  let ctl := le_mem 4 (bus_mem k) BRIDGE_MGR_PHYS in
  let '(code, report, k') := bridge_status argv k in
  same_mem k k' ∧
  if bus_mappable BRIDGE_MGR_PHYS && (ctl <? 2 ^ 31) && (flag ctl 1 || so_force o) && bus_mappable (so_base o)
  then code = 0 ∧ report = Some (report_of (bus_mem k) (so_base o) (so_poll o)) ∧
    ∃ l, bus_log k' = bus_log k ++ BRIDGE_MGR_PHYS :: l ∧
      Forall (λ p, so_base o ≤ p < so_base o + BRIDGE_WINDOW_SIZE) l
  else code = 1 ∧ report = None ∧
    bus_log k' = bus_log k ++ (if bus_mappable BRIDGE_MGR_PHYS then [BRIDGE_MGR_PHYS] else []).
Proof.
  intros o ctl. unfold bridge_status. cbv zeta. fold o. pose proof (check_bridge_mgr_spec k (Ho k)) as C. cbv zeta in C.
  destruct (check_bridge_mgr k) as [mgr k1]. destruct C as (M1 & L1 & C). fold ctl in C.
  pose proof (le_mem_fits 4 (bus_mem k) BRIDGE_MGR_PHYS (bus_mem_byte k)) as F. fold ctl in F. unfold fits in F.
  destruct (bus_mappable BRIDGE_MGR_PHYS && (ctl <? 2 ^ 31)) eqn:Ec; cbn [andb];
    [|by rewrite (proj2 (Z.ltb_lt mgr 0))]. subst mgr. rewrite (proj2 (Z.ltb_ge ctl 0)) by lia.
  apply andb_prop in Ec as [Em0 _]. rewrite Em0 in L1 |- *.
  rewrite <-negb_orb. destruct (flag ctl 1 || so_force o); cbn [negb andb]; [|done].
  unfold do_mmap. pose proof (quiet_open k1) as O. pose proof (log_open k1) as LO. specialize (Ho k1).
  destruct (os_open k1) as [fd k2]. cbn [fst snd] in *. rewrite (proj2 (Z.ltb_ge fd 0)) by done.
  pose proof (quiet_mappable fd BRIDGE_WINDOW_SIZE (so_base o) k2) as Q.
  pose proof (quiet_mmap fd BRIDGE_WINDOW_SIZE (so_base o) k2) as MM.
  pose proof (log_mmap fd BRIDGE_WINDOW_SIZE (so_base o) k2) as LM.
  destruct (os_mmap _ _ _ _) as [[a|] k3] eqn:Em; cbn [fst snd] in *.
  - rewrite (proj1 Q) by by eexists.
    pose proof (mmap_mapped _ _ _ _ _ _ (bus_mem k) Em Hp Hb ltac:(intros p; by rewrite O, M1)) as M.
    destruct (status_report_mapped (so_poll o) _ _ _ _ _ (bus_mem_byte k) M) as [M4 V].
    destruct (status_report_at _ _ _) as [r k4]. cbn [fst snd] in M4, V. subst r.
    destruct M4 as (M4 & _ & l & El & Hl).
    split; [intros p; rewrite quiet_munmap; apply M4|]. split; [done|]. split; [done|]. exists l.
    split; [|done]. by rewrite log_munmap, El, LO, L1, <-app_assoc.
  - destruct (bus_mappable (so_base o)); [by destruct (is_Some_None (proj2 Q eq_refl))|].
    split; [intros p; by rewrite quiet_close, MM, O, M1|]. split_and!; [done|done|]. by rewrite log_close, LM, LO.
Qed.
End quiet.

(** ** The stub daemon *)

(** The stub daemon of bridge_ddr3.cpp answers every request, and as a stopped chip
    where it can be compared.  A pending request is taken back, a write is acknowledged,
    a read is answered with 0x0004, except a read of the address port with data in the
    request; the counter wraps at 32 bits, and nothing else in the window changes.  To a
    read of the data port the mailbox daemon gives the same reply, as long as its chip is
    stopped and CSR0 selected. *)
Theorem stub_answers (w : window) (count : Z) (rw : bool) (addr data : Z)
    (Ha : fits 8 addr) (Hd : fits 16 data) (Hr : rd64 w MBX_REQ_OFF = reg_req rw addr data) :
  let '(w', count') := stub_pass (w, count) in
  rd64 w' MBX_REQ_OFF = 0 ∧ count' = u32 (count + 1) ∧ stub_pass (w', count') = (w', count') ∧
  rd64 w' MBX_RSP_OFF = (if rw then 1 else Z.lor 1 (Z.shiftl (stub_result addr data) 1)) ∧
  (∀ a, a < MBX_REQ_OFF ∨ MBX_RSP_OFF + 8 ≤ a → rd8 w' a = rd8 w a) ∧
  (∀ stk x, rw = false → addr = A2065_RDP_OFF → w_win x = w → map_base x = 0 → rap (w_reg x) = 0 →
    csr0 x = CSR0_STOP → ∃ x', service_bridge stk x = Ok x' ∧
      slot x' MBX_RSP_OFF = rd64 w' MBX_RSP_OFF ∧ slot x' MBX_REQ_OFF = rd64 w' MBX_REQ_OFF).
Proof.
  destruct (reg_req_decode rw addr data Ha Hd) as (D1 & D2 & D3 & D4 & _).
  unfold req_rw, req_addr, req_data in D2, D3, D4. unfold stub_pass. rewrite Hr, D1, D2, D3, D4. cbv zeta.
  set (rsp := if rw then 1 else _).
  assert (Hrsp : u64 rsp = rsp) by (unfold rsp, stub_result; by repeat case_match).
  assert (E0 : rd64 (wr64 (wr64 w MBX_RSP_OFF rsp) MBX_REQ_OFF 0) MBX_REQ_OFF = 0) by by rewrite rd64_wr64.
  assert (E1 : rd64 (wr64 (wr64 w MBX_RSP_OFF rsp) MBX_REQ_OFF 0) MBX_RSP_OFF = rsp)
    by (rewrite rd64_wr64_ne, rd64_wr64 by mbx_lia; exact Hrsp).
  rewrite E0, E1. split_and!; try done.
  - intros a Hl. rewrite !rd8_wr64; [done|unfold MBX_REQ_OFF, MBX_RSP_OFF in *; lia..].
  - intros stk x -> -> Ew Eb Er Ec. assert (Es : slot x MBX_REQ_OFF = reg_req false A2065_RDP_OFF data)
      by (unfold slot; by rewrite Ew, Eb).
    unfold service_bridge, req_rw, req_addr, req_data. rewrite Es, D1, D2, D3, D4. cbv zeta. cbn [negb].
    assert (Eg : chip_wget A2065_RDP_OFF x = CSR0_STOP) by (unfold chip_wget, csr0 in *; rewrite Er; cbv zeta;
      change (Z.to_nat 0) with 0%nat; rewrite Ec; done).
    rewrite Eg. eexists. split; [done|]. by apply mbx_reply_slots.
Qed.

(** ** Example *)

(** A machine with the memory [x_mem]; every mapping of 32-bit physical memory gets a
    virtual space of its own, and the first megabyte cannot be mapped. *)
Module ExampleBus.
Record kernel := Kernel { x_fds : gset Z; x_maps : gset Z; x_mem : window; x_log : list Z }.

Definition new_fd (k : kernel) : Z * kernel :=
  let fd := ExampleOs.new (x_fds k) in (fd, Kernel ({[fd]} ∪ x_fds k) (x_maps k) (x_mem k) (x_log k)).
Definition new_map (o : Z) (k : kernel) : option Z * kernel :=
  if o <? 0x100000 then (None, k)
  else
    let a := 2 ^ 32 * ExampleOs.new (x_maps k) + o in (Some a, Kernel (x_fds k) ({[a]} ∪ x_maps k) (x_mem k) (x_log k)).

#[global] Instance bus_os : Os kernel := {|
  os_socket := new_fd;
  os_ifindex _ _ k := (Some 2, k);
  os_hwaddr _ _ k := (None, k);
  os_getflags _ _ k := (Some 0, k);
  os_setflags _ _ _ k := (true, k);
  os_bind _ _ k := (true, k);
  os_promisc _ _ k := k;
  os_recv _ _ k := (None, k);
  os_close fd k := Kernel (x_fds k ∖ {[fd]}) (x_maps k) (x_mem k) (x_log k);
  os_open := new_fd;
  os_shm_open := new_fd;
  os_shm_unlink k := k;
  os_ftruncate _ _ k := (true, k);
  os_mmap _ _ o := new_map o;
  os_munmap a _ k := Kernel (x_fds k) (x_maps k ∖ {[a]}) (x_mem k) (x_log k);
  os_zero _ _ k := k |}.

Definition mem (k : kernel) (p : Z) : Z := u8 (rd8 (x_mem k) p).

#[global] Instance bus_bus : Bus kernel := {|
  bus_read n a k :=
    (le_mem n (mem k) (a mod 2 ^ 32), Kernel (x_fds k) (x_maps k) (x_mem k) (x_log k ++ [a mod 2 ^ 32]));
  bus_write n a v k :=
    Kernel (x_fds k) (x_maps k) (wr8 (x_mem k) (a mod 2 ^ 32) v) (x_log k ++ [a mod 2 ^ 32]);
  os_sigaction k := k;
  os_alarm _ k := k;
  os_alarmed k := (false, k);
  os_usleep _ k := k |}.

Lemma bus_fd_opens k : os_opens x_fds x_maps (new_fd k).1 k (new_fd k).2.
Proof. destruct (ExampleOs.new_fresh (x_fds k)). split; [done|]. cbn. rewrite decide_False by lia. done. Qed.

#[global] Instance bus_os_laws : OsLaws kernel.
Proof.
  refine {| os_fds := x_fds; os_maps := x_maps |}; try (intros; by split); try (intros; apply bus_fd_opens).
  intros fd n o k. cbn. unfold new_map. destruct (Z.ltb_spec o 0x100000); [done|].
  pose proof (ExampleOs.new_fresh (x_maps k)) as [N _]. cbn. split; [done|]. split; [lia|]. split; [|done].
  intros Hx. assert (B : ∀ l y, y ∈ l → y ≤ foldr Z.max 0 l).
  { induction l as [|z l IH]; intros y; [set_solver|]. intros [->|Hy]%elem_of_cons; cbn; [lia|]. specialize (IH y Hy). lia. }
  apply elem_of_elements, B in Hx. unfold ExampleOs.new in *. lia.
Defined.

#[global] Instance bus_laws : BusLaws kernel.
Proof. split; intros; by split. Qed.

#[global] Instance bus_quiet : QuietBus kernel.
Proof.
  refine {| bus_mem := mem; bus_at _ v := Some (v mod 2 ^ 32); bus_mappable o := negb (o <? 0x100000); bus_log := x_log |};
    try (intros; done).
  - intros k p. apply fits_u8.
  - intros fd n o k p. cbn. unfold new_map. by destruct (o <? 0x100000).
  - intros fd n o k. cbn. unfold new_map. destruct (o <? 0x100000); cbn; [|by split; [|eexists]].
    split; [by intros []|done].
  - intros fd n o k a i. cbn. unfold new_map. destruct (o <? 0x100000); [done|]. intros [= <-] H1 H2 H3. f_equal.
    replace (2 ^ 32 * ExampleOs.new (x_maps k) + o + i) with (o + i + ExampleOs.new (x_maps k) * 2 ^ 32) by lia.
    rewrite Z.mod_add, Z.mod_small by lia. done.
  - intros fd n o k. cbn. unfold new_map. by destruct (o <? 0x100000).
  - by intros n a k p [= <-].
  - by intros n a v k p [= <-].
  - intros n a k. cbn. split; [done|]. split; [done|]. intros p Hp. destruct n as [|n]; [done|].
    specialize (Hp 0 ltac:(lia)). injection Hp as Hp. rewrite !Z.add_0_r in Hp. by rewrite Hp.
  - intros a v k. cbn. split; [done|]. intros p q [= <-]. unfold mem. cbn. rewrite rd8_wr8.
    destruct (Z.eqb_spec q (a mod 2 ^ 32)) as [->|]; [rewrite decide_True by done|rewrite decide_False by done; done].
    apply u8_small, fits_u8.
Defined.
End ExampleBus.

Import ExampleBus.

(** Enabled bridge, a request for the data port, and the magic at 511 MB. *)
Definition ex_bus : ExampleBus.kernel :=
  Kernel {[0]} ∅
    (wr64 (wr8 (wr8 (wr64 ∅ 0x1FF00000 0xA2065A2065A20650) BRIDGE_MGR_PHYS 1) 0xC0000004 1) 0x1FF00008 7) [].

Lemma ddr3_scan_finds_witness : ∃ log k',
  ddr3_scan ex_bus = (0, Some (0x1FF00000, 7), log, k') ∧ same_mem ex_bus k'.
Proof.
  assert (Ho : 0 ≤ (os_open ex_bus).1) by by vm_compute. pose proof (ddr3_scan_finds ex_bus Ho) as R.
  destruct (ddr3_scan ex_bus) as [[[code found] log] k'] eqn:E. destruct R as [R1 R2]. exists log, k'. split; [|done].
  assert (F : (ddr3_scan ex_bus).1.1 = (0, Some (0x1FF00000, 7))) by by vm_compute.
  rewrite E in F. cbn in F. by rewrite F.
Defined.

Lemma new_nonneg (k : ExampleBus.kernel) : 0 ≤ (os_open k).1.
Proof. cbn. pose proof (ExampleOs.new_fresh (x_fds k)). lia. Qed.

Lemma bridge_status_reports_witness : ∃ k' l,
  bridge_status ["--poll"%string; "2"%string] ex_bus = (0, Some (report_of (bus_mem ex_bus) 0xC0000000 2), k') ∧
  st_requests (report_of (bus_mem ex_bus) 0xC0000000 2) = [(0, 0, 0, 0); (1, 0, 0, 0)] ∧ same_mem ex_bus k' ∧
  bus_log k' = BRIDGE_MGR_PHYS :: l.
Proof.
  pose proof (bridge_status_reports ["--poll"%string; "2"%string] ex_bus new_nonneg ltac:(by vm_compute) ltac:(by vm_compute)) as R.
  cbv zeta in R. destruct (bridge_status _ ex_bus) as [[code report] k']. destruct R as [R1 R2].
  assert (C : bus_mappable BRIDGE_MGR_PHYS && (le_mem 4 (bus_mem ex_bus) BRIDGE_MGR_PHYS <? 2 ^ 31)
    && (flag (le_mem 4 (bus_mem ex_bus) BRIDGE_MGR_PHYS) 1 || so_force (status_args ["--poll"%string; "2"%string] status_defaults))
    && bus_mappable (so_base (status_args ["--poll"%string; "2"%string] status_defaults)) = true) by by vm_compute.
  rewrite C in R2. destruct R2 as (-> & -> & l & L & _). exists k', l. split; [done|]. split; [by vm_compute|]. by split.
Defined.

Lemma tools_resources_witness : held ex_bus (ddr3_scan ex_bus).2.
Proof. exact (proj1 (tools_resources [] ∅ ex_bus)). Defined.

Lemma stub_answers_witness :
  let '(w', _) := stub_pass (wr64 ∅ MBX_REQ_OFF (reg_req false 0 0), 0) in rd64 w' MBX_RSP_OFF = 9.
Proof.
  pose proof (stub_answers (wr64 ∅ MBX_REQ_OFF (reg_req false 0 0)) 0 false 0 0 ltac:(by split) ltac:(by split)
    ltac:(by vm_compute)) as R.
  destruct (stub_pass _) as [w' c]. destruct R as (_ & _ & _ & R & _). rewrite R. by vm_compute.
Defined.
