(* ===== verification/Mains.v ===== *)
(** * The main functions: main_doorbell.cpp, main_ddr3.cpp and main.cpp

    From the command line to the exit code: mapping, self-tests, start-up, the threads,
    and the way out.  What the threads do between start and end is a parameter that may
    give no state at all, since the loops need not end and [pthread_join] need not return;
    of it the theorems assume only which descriptors and mappings it leaves. *)

From S2P Require Import Prelude Types Window Crc32 Mac State Registers Rings Slots Descriptors Doorbell DoorbellThreads Remote MainDdr3 RemoteChip Bridge Dump Os Args.
From stdpp Require Import strings.

#[local] Open Scope Z_scope.

(** ** Processes *)

(** [pthread_create], and what the default address is derived from. *)
Class Proc (K : Type) := {
  os_thread : K → bool * K;
  os_hostname : K → list Z;
  os_getpid : K → Z;
  os_time : K → Z }.

Class ProcLaws (K : Type) `{OsLaws K, !Proc K} : Prop := {
  law_thread k : held k (os_thread k).2 }.

Fixpoint str_bytes (s : string) : list Z :=
  match s with String c s => char_code c :: str_bytes s | EmptyString => [] end.

(** Where [main] returns; after the loops with the state in which they were started. *)
Inductive exit_point (S : Type) :=
| NoDevice                    (* /dev/mem cannot be opened *)
| NoWindow                    (* the window cannot be mapped *)
| NoInterface                 (* the network interface cannot be opened *)
| SelfTest
| Dumped
| NoThread                    (* [pthread_create] failed *)
| AfterLoops (started : S).
Arguments NoDevice {S}.
Arguments NoWindow {S}.
Arguments NoInterface {S}.
Arguments SelfTest {S}.
Arguments Dumped {S}.
Arguments NoThread {S}.
Arguments AfterLoops {S}.

(** A run of the program: it exits; or its loops, started in this state, or the wait for
    its thread never end; or it waits for a thread that was never created, which POSIX
    leaves undefined. *)
Inductive life (S : Type) :=
| Exits (point : exit_point S) (code : Z) (final : S)
| Serving (started : S)
| Undefined (started : S).
Arguments Exits {S}.
Arguments Serving {S}.
Arguments Undefined {S}.

Definition DDR3_FLAT_BASE : Z := 0x1FF00000.
Definition DDR3_FLAT_WINDOW_SIZE : Z := 0x10000.

Section doorbell.
Context `{Os K, Proc K}.

(** The daemon's variables and the kernel. *)
Definition proc : Type := world * (eth * K).

(** The loops until [running] is cleared, and [pthread_join]; [None] when they do not end. *)
Context (serve join : proc → option proc).

(** [daemon_set_default_mac] with its system calls. *)
Definition doorbell_default_mac (p : proc) : proc :=
  let '(w, (e, k)) := p in
  let realmac := ethernet_get_mac (e, k) in
  let '(fb, k) :=
    (if mac_low_is_zero realmac then
       let '(ok, out, k) := read_iface_mac (str_bytes "eth0") k in (if ok : bool then Some out else None, k)
     else (None, k)) in
  (daemon_set_default_mac realmac fb (os_hostname k) (os_getpid k) (os_time k) w, (e, k)).

(** The slots cleared before anything else. *)
Definition doorbell_clear (w : world) : world :=
  let w := set_w_boardram DDR3_BRAM_OFF w in
  let w := set_slot DDR3_CMD_OFF 0 w in
  let w := set_slot DDR3_CSR_OFF 0 w in
  set_slot DDR3_INT_OFF 0 w.

(** The chip, the socket, the address and the first publication. *)
Definition doorbell_boot (iface : string) (p : proc) : proc :=
  let '(w, s) := p in
  let w := registers_reset w in
  let '(_, s) := ethernet_open (str_bytes iface) true s in
  let '(w, s) := doorbell_default_mac (set_w_sock (sock_fd s.1) w, s) in
  let w := write_mbx_mac (fakemac (w_reg w)) w in
  (update_int_state (push_csr_shadow w), s).

(** After the loops: [join] is what the receive thread still does until it ends. *)
Definition doorbell_stop (p : proc) : option proc :=
  let '(w, s) := p in
  join (set_slot DDR3_INT_OFF 0 w, ethernet_close s).

Definition doorbell_main (argv : list string) (p : proc) : life proc :=
  let o := doorbell_args argv doorbell_defaults in
  let '(w, (e, k)) := p in
  let '(fd, k) := os_open k in
  if fd <? 0 then Exits NoDevice 1 (w, (e, k))
  else
    match os_mmap fd DDR3_FLAT_WINDOW_SIZE DDR3_FLAT_BASE k with
    | (None, k) => Exits NoWindow 1 (w, (e, os_close fd k))
    | (Some map, k) =>
        let release (p : proc) : proc :=
          let '(w, (e, k)) := p in (w, (e, os_close fd (os_munmap map DDR3_FLAT_WINDOW_SIZE k))) in
        let w := doorbell_clear w in
        if do_test o then
          let '(f, w) := test_boardram w in
          Exits SelfTest (if f then 1 else 0) (release (w, (e, k)))
        else
          let '(w, (e, k)) := doorbell_boot (do_iface o) (w, (e, k)) in
          let '(ok, k) := os_thread k in
          if negb ok then Exits NoThread 1 (release (w, (e, k)))
          else
            match p ← serve (w, (e, k)); doorbell_stop p with
            | Some p => Exits (AfterLoops (w, (e, k))) 0 (release p)
            | None => Serving (w, (e, k))
            end
    end.
End doorbell.

(** ** main_ddr3.cpp *)

Section mailbox.
Context `{Os K, Proc K} {A : Type} (fpga : mbx A → mbx A) (stk : list Z).

Definition mproc : Type := @machine A * (eth * K).

Context (serve join : mproc → option mproc).

(** One round of clearing the slots, the adapter at work in between. *)
Definition mbx_clear_round (m : @machine A) : machine :=
  let m := mbx_wr64 MBX_RSP_OFF 1 (fpga_step fpga m) in
  let m := mbx_wr64 MBX_RSP_OFF 0 (fpga_step fpga m) in
  let m := mbx_wr64 MBX_REQ_OFF 0 (fpga_step fpga m) in
  let m := mbx_wr64 MBX_RAM_REQ 0 (fpga_step fpga m) in
  let m := mbx_wr64 MBX_RAM_RSP 0 (fpga_step fpga m) in
  mbx_wr64 MBX_INT_OFF 0 (fpga_step fpga m).

Definition mbx_boot (iface : string) (p : mproc) : mproc :=
  let '(m, s) := p in
  let w := registers_reset (daemon_world m) in
  let '(_, s) := ethernet_open (str_bytes iface) false s in
  let w := mbx_set_default_mac (ethernet_get_mac s) (set_w_sock (sock_fd s.1) w) in
  (with_daemon (mbx_write_mac (fakemac (w_reg w)) w) m, s).

Definition mbx_stop (p : mproc) : option mproc :=
  let '(m, s) := p in
  join (mbx_wr64 MBX_INT_OFF 0 (fpga_step fpga m), ethernet_close s).

(** The rounds of the longest dump that ends. *)
Definition DUMP_ROUNDS : nat := Z.to_nat 32769.

Definition mbx_main (argv : list string) (p : mproc) : res (life mproc) :=
  let o := mbx_args argv mbx_defaults in
  let '(m, (e, k)) := p in
  let '(fd, k) := os_open k in
  if fd <? 0 then Ok (Exits NoDevice 1 (m, (e, k)))
  else
    match os_mmap fd DDR3_FLAT_WINDOW_SIZE DDR3_FLAT_BASE k with
    | (None, k) => Ok (Exits NoWindow 1 (m, (e, os_close fd k)))
    | (Some map, k) =>
        let release (p : mproc) : mproc :=
          let '(m, (e, k)) := p in (m, (e, os_close fd (os_munmap map DDR3_FLAT_WINDOW_SIZE k))) in
        let m := boardram_remote_init (Nat.iter 5 mbx_clear_round m) in
        if mo_test o then
          let '(f, m) := remote_test_boardram (fpga_step fpga) (Some (reg_service stk)) m in
          Ok (Exits SelfTest (if f then 1 else 0) (release (m, (e, k))))
        else if mo_dump o then
          '(_, m) ← dump_boardram (fpga_step fpga) DUMP_ROUNDS (mo_start o) (mo_len o) m;
          Ok (Exits Dumped 0 (release (m, (e, k))))
        else
          let '(m, (e, k)) := mbx_boot (mo_iface o) (m, (e, k)) in
          let '(ok, k) := os_thread k in
          Ok (if negb ok then Exits NoThread 1 (release (m, (e, k)))
              else
                match p ← serve (m, (e, k)); mbx_stop p with
                | Some p => Exits (AfterLoops (m, (e, k))) 0 (release p)
                | None => Serving (m, (e, k))
                end)
    end.
End mailbox.

(** ** main.cpp *)

Section bridge.
Context `{Os K, Proc K}.

(** The mapping unit keeps its own variables. *)
Definition bproc : Type := world * mapping * (eth * K).

Context (serve join : bproc → option bproc).

Definition bridge_boot (sim : bool) (s : eth * K) (w : world) : world :=
  bridge_set_default_mac sim (ethernet_get_mac s) (set_w_boardram BRIDGE_BOARDRAM_OFF (registers_reset w)).

(** The way out after the loops, with what [pthread_create] said. *)
Definition bridge_stop (sim created : bool) (started p : bproc) : life bproc :=
  let close (p : bproc) : life bproc :=
    let '(w, b, s) := p in
    let '(e, k) := ethernet_close s in
    let '(b, k) := if sim then bridge_sim_close (b, k) else bridge_unmap (b, k) in
    Exits (AfterLoops started) 0 (w, b, (e, k)) in
  if sim then close p
  else if negb created then Undefined started
  else match join p with Some p => close p | None => Serving started end.

Definition bridge_main (argv : list string) (p : bproc) : life bproc :=
  let o := bridge_args argv bridge_defaults in
  let '(w, b, (e, k)) := p in
  let '(r, (b, k)) := if bo_sim o then bridge_sim_open 0x10000 (b, k)
                      else bridge_do_mmap (bo_base o) 0x10000 (b, k) in
  if r is None then Exits NoWindow 1 (w, b, (e, k))
  else
    let w := bridge_boot (bo_sim o) (e, k) w in
    let '(ok, (e, k)) := if bo_sim o then (1, (e, k)) else ethernet_open (str_bytes (bo_iface o)) false (e, k) in
    if ok =? 0 then Exits NoInterface 1 (w, b, (e, k))
    else
      let w := set_w_sock (sock_fd e) w in
      let '(created, k) := if bo_sim o then (true, k) else os_thread k in
      match serve (w, b, (e, k)) with
      | Some p => bridge_stop (bo_sim o) created (w, b, (e, k)) p
      | None => Serving (w, b, (e, k))
      end.
End bridge.

(** ** bridge_client.cpp *)

(** [main] of the client: [shm_attach] is [shm_open] without O_CREAT, [daemon] what the
    other process does while the client sleeps. *)
Section client.
Context `{Os K} (shm_attach : K → Z * K) (daemon : Z → world → res world).

Definition client_process (w : world) (k : K) : res (Z * world * K) :=
  let '(fd, k) := shm_attach k in
  if fd <? 0 then Ok (1, w, k)
  else
    let '(bridge, k) := os_mmap fd 0x10000 0 k in
    let k := os_close fd k in
    match bridge with
    | None => Ok (1, w, k)
    | Some a =>
        '(checks, w) ← Client.client_main daemon w;
        Ok (if forallb id checks then 0 else 1, w, os_munmap a 0x10000 k)
    end.
End client.

(** ** Lemmas: resources *)

Section resources.
Context `{OsLaws K, !Proc K, !ProcLaws K}.

(** A socket next to other descriptors. *)
Lemma sock_ok_held k0 e k k' : sock_ok k0 (e, k) → held k k' → sock_ok k0 (e, k').
Proof.
  unfold sock_ok. cbn [fst snd]. intros S Q. case_decide; [by etransitivity|by apply (opens_held _ _ k)].
Qed.

Lemma sock_ok_open k iface p e : let '(_, s) := ethernet_open iface p (e, k) in sock_ok k s.
Proof. pose proof (ethernet_open_sock iface p e k) as S. destruct (ethernet_open _ _ _) as [r s]. apply S. Qed.

(** The window mapped and given back around a run that ends with a socket or without. *)
Lemma sock_ok_release k fd k1 map k2 n o s : os_open k = (fd, k1) → 0 ≤ fd →
  os_mmap fd n o k1 = (Some map, k2) → sock_ok k2 s →
  sock_ok k (s.1, os_close fd (os_munmap map n s.2)).
Proof.
  intros Eo Hf Em S. pose proof (law_open k) as [M1 O]. rewrite Eo in M1, O. cbn [fst snd] in M1, O.
  rewrite decide_False in O by lia. destruct O as [Hn O].
  pose proof (law_mmap fd n o k1) as [F2 M2]. rewrite Em in F2, M2. cbn [fst snd] in F2, M2.
  destruct M2 as (_ & Ha & M2). destruct s as [e k3]. destruct (law_munmap map n k3) as [F4 M4].
  destruct (law_close fd (os_munmap map n k3)) as [F5 M5]. cbn [fst snd].
  unfold sock_ok in *. cbn [fst snd] in *. case_decide.
  - destruct S as [F3 M3]. split; [rewrite F5, F4, F3, F2, O; set_solver|rewrite M5, M4, M3, M2, M1; set_solver].
  - destruct S as [M3 S]. rewrite decide_False in S by lia. destruct S as [Hs S].
    assert ((sock_fd e ∉ os_fds k) ∧ sock_fd e ≠ fd) as [Hs1 Hs2] by (rewrite F2, O in Hs; set_solver).
    split; [rewrite M5, M4, M3, M2, M1; set_solver|]. rewrite decide_False by lia. split; [done|].
    rewrite F5, F4, S, F2, O. set_solver.
Qed.

Lemma read_iface_mac_ok iface k : let '(ok, out, k') := read_iface_mac iface k in
  held k k' ∧ length out = 6%nat ∧ Forall (fits 8) out.
Proof.
  assert (Z6 : length (replicate 6 0) = 6%nat ∧ Forall (fits 8) (replicate 6 0)) by by repeat constructor.
  unfold read_iface_mac. pose proof (law_socket k) as O. destruct (os_socket k) as [fd k1]. cbn [fst snd] in *.
  destruct (Z.ltb_spec fd 0); [split; [by apply (opens_failed fd)|done]|].
  pose proof (law_hwaddr fd (ifr_name iface) k1) as Q. pose proof (law_sa_data fd (ifr_name iface) k1) as D.
  destruct (os_hwaddr _ _ _) as [hw k2]. cbn [fst snd] in *. split; [by apply (close_opened _ _ k1)|].
  destruct hw as [m|]; [|done]. destruct (D m eq_refl). rewrite length_take. split; [lia|by apply Forall_take].
Qed.

(** The address unit leaves a socket alone. *)
Lemma doorbell_default_mac_sock k0 w s : sock_ok k0 s →
  sock_ok k0 (doorbell_default_mac (w, s)).2 ∧ (doorbell_default_mac (w, s)).2.1 = s.1.
Proof.
  destruct s as [e k]. intros S. unfold doorbell_default_mac. cbv zeta.
  pose proof (read_iface_mac_ok (str_bytes "eth0") k) as R.
  destruct (mac_low_is_zero (ethernet_get_mac (e, k))); [|done]. destruct (read_iface_mac _ k) as [[ok out] k']. split; [|done]. by apply (sock_ok_held _ _ k); [|apply R].
Qed.

Lemma doorbell_boot_sock iface w e k : sock_ok k (doorbell_boot iface (w, (e, k))).2.
Proof.
  unfold doorbell_boot. pose proof (sock_ok_open k (str_bytes iface) true e) as S.
  destruct (ethernet_open _ _ _) as [r s]. pose proof (doorbell_default_mac_sock k (set_w_sock (sock_fd s.1) (registers_reset w)) s S) as [D _].
  destruct (doorbell_default_mac _) as [w2 s2]. exact D.
Qed.

(** The socket is open if the interface could be opened. *)
Lemma doorbell_boot_fd iface w e k :
  0 ≤ sock_fd (doorbell_boot iface (w, (e, k))).2.1 ↔ (ethernet_open (str_bytes iface) true (e, k)).1 = 1.
Proof.
  unfold doorbell_boot. pose proof (ethernet_open_sock (str_bytes iface) true e k) as S.
  destruct (ethernet_open _ _ _) as [r s]. destruct S as (S & R & _).
  pose proof (doorbell_default_mac_sock k (set_w_sock (sock_fd s.1) (registers_reset w)) s S) as [_ D].
  destruct (doorbell_default_mac _) as [w2 s2]. cbn [fst snd] in *. rewrite D. lia.
Qed.

(** The loops start in a state that [doorbell_invariant] starts from. *)
Lemma doorbell_boot_ok iface w e k : world_ok w → length (host_mac e) = 6%nat → Forall (fits 8) (host_mac e) →
  let '(w', s) := doorbell_boot iface (doorbell_clear w, (e, k)) in sys_ok w' ∧ w_sock w' = sock_fd s.1.
Proof.
  intros Hw Hl Hb. unfold doorbell_boot. pose proof (ethernet_open_sock (str_bytes iface) true e k) as S.
  destruct (ethernet_open _ _ _) as [r [e1 k1]]. destruct S as (_ & _ & M). destruct (M (conj Hl Hb)) as [M1 M2].
  unfold doorbell_default_mac. cbv zeta. cbn [fst]. change (ethernet_get_mac (e1, k1)) with (host_mac e1).
  set (x := if mac_low_is_zero _ then _ else _).
  assert (X : ∀ m, x.1 = Some m → length m = 6%nat ∧ Forall (fits 8) m).
  { unfold x. destruct (mac_low_is_zero (host_mac e1)); [|done]. pose proof (read_iface_mac_ok (str_bytes "eth0") k1) as R.
    destruct (read_iface_mac _ k1) as [[[] out] k2]; [|done]. intros m [= <-]. apply R. }
  destruct x as [fb k2]. cbn [fst] in X. split; [|done].
  apply (daemon_start_ok (host_mac e1) fb (os_hostname k2) (os_getpid k2) (os_time k2) (set_w_sock (sock_fd e1) w));
    [by destruct Hw; split|done|done|done].
Qed.
End resources.

(** ** The doorbell daemon *)

(** What the loops and the signal handler do to the kernel, if they end, and what the
    receive thread still does: they open nothing, and at most the socket is closed. *)
Class LoopLaws `{OsLaws K} {S : Type} (serve join : S * (eth * K) → option (S * (eth * K))) : Prop := {
  serve_sock k0 p p' : serve p = Some p' → sock_ok k0 p.2 → sock_ok k0 p'.2;
  join_sock p p' : join p = Some p' → p'.2.1 = p.2.1 ∧ held p.2.2 p'.2.2 }.

(** The kernel when the window has been mapped. *)
Definition mapped_kernel `{Os K} (k : K) : K :=
  let '(fd, k) := os_open k in (os_mmap fd DDR3_FLAT_WINDOW_SIZE DDR3_FLAT_BASE k).2.

(** The way out closes the socket and gives everything back. *)
Lemma stop_sock `{OsLaws K} {S : Type} (serve join : S * (eth * K) → option (S * (eth * K))) `{!LoopLaws serve join}
    k0 (s : S) (p p' : S * (eth * K)) : sock_ok k0 p.2 → join (s, ethernet_close p.2) = Some p' → held k0 p'.2.2 ∧ sock_fd p'.2.1 < 0.
Proof.
  intros Hp Hj. destruct (ethernet_close_sock k0 p.2 Hp) as [C1 C2].
  destruct (join_sock _ _ Hj) as [E Q]. cbn [snd fst] in E, Q. rewrite E. split; [by etransitivity|done].
Qed.

Section doorbell_life.
Context `{OsLaws K, !Proc K, !ProcLaws K} (serve join : world * (eth * K) → option (world * (eth * K)))
  `{!LoopLaws serve join}.

(** C6: The life of the doorbell daemon, whatever the command line and whichever system
    call fails.  Without the device or the window, and after the self-test, which always
    passes, nothing is left open.  When the thread cannot be created [main] exits with 1
    and gives back the window, but the socket stays open exactly if the interface could be
    opened.  The loops are started in a state of the daemon's invariant, with that socket;
    they need not end, nor need the wait for the receive thread; if both do, [main] exits
    with 0, the socket is closed, and every descriptor and the mapping are given back. *)
Theorem doorbell_main_life (argv : list string) (w : world) (e : eth) (k : K)
    (Hw : world_ok w) (Hs : sock_fd e < 0) (Hl : length (host_mac e) = 6%nat) (Hb : Forall (fits 8) (host_mac e)) :
  let o := doorbell_args argv doorbell_defaults in
  let started (p : proc) := do_test o = false ∧ sys_ok p.1 ∧ w_sock p.1 = sock_fd p.2.1 in
  match doorbell_main serve join argv (w, (e, k)) with
  | Exits NoThread c (_, (e', k')) =>
      c = 1 ∧ do_test o = false ∧ sock_ok k (e', k') ∧
      (0 ≤ sock_fd e' ↔ (ethernet_open (str_bytes (do_iface o)) true (e, mapped_kernel k)).1 = 1)
  | Exits (AfterLoops p) c (_, (e', k')) => started p ∧ c = 0 ∧ sock_fd e' < 0 ∧ held k k'
  | Exits at_ c (_, (e', k')) => c = (if at_ is SelfTest then 0 else 1) ∧ (c = 0 → do_test o = true) ∧
      e' = e ∧ held k k'
  | Serving p => started p ∧ (serve p = None ∨ ∃ p1, serve p = Some p1 ∧ doorbell_stop join p1 = None)
  | Undefined _ => False
  end.
Proof.
  intros o started. unfold doorbell_main, mapped_kernel. cbv zeta. fold o.
  destruct (os_open k) as [fd k1] eqn:Eo. pose proof (law_open k) as O. rewrite Eo in O.
  destruct (Z.ltb_spec fd 0) as [Hf|Hf]; [by cbn; split_and!; [..|by apply (opens_failed fd)]|].
  destruct (os_mmap _ _ _ _) as [[map|] k2] eqn:Em.
  2:{ cbn. split_and!; try done. apply (close_opened _ _ k1); [done|done|].
      pose proof (law_mmap fd DDR3_FLAT_WINDOW_SIZE DDR3_FLAT_BASE k1) as L. by rewrite Em in L. }
  assert (Rel : ∀ s, sock_ok k2 s → sock_ok k (s.1, os_close fd (os_munmap map DDR3_FLAT_WINDOW_SIZE s.2)))
    by (intros s; by apply (sock_ok_release k fd k1 map k2 _ DDR3_FLAT_BASE)).
  assert (RelH : ∀ e' k', sock_fd e' < 0 → held k2 k' → held k (os_close fd (os_munmap map DDR3_FLAT_WINDOW_SIZE k'))).
  { intros e' k' He Hk. specialize (Rel (e', k')). unfold sock_ok in Rel. cbn in Rel.
    rewrite !decide_True in Rel by done. by apply Rel. }
  destruct (do_test o) eqn:Et.
  { pose proof (test_boardram_passes (doorbell_clear w)) as T. destruct (test_boardram _) as [f w1]. cbn [fst] in T.
    subst f. cbn. split_and!; try done. by apply (RelH e k2). }
  cbn [snd]. pose proof (doorbell_boot_ok (do_iface o) w e k2 Hw Hl Hb) as B.
  pose proof (doorbell_boot_sock (do_iface o) (doorbell_clear w) e k2) as S.
  pose proof (doorbell_boot_fd (do_iface o) (doorbell_clear w) e k2) as F.
  destruct (doorbell_boot _ _) as [w1 [e1 k3]]. cbn [fst snd] in *. destruct B as [B1 B2].
  pose proof (law_thread k3) as T. destruct (os_thread k3) as [ok k4]. cbn [snd] in T.
  pose proof (sock_ok_held _ _ _ _ S T) as S4. destruct ok; cbn [negb].
  2:{ split; [done|]. split; [done|]. split; [by apply (Rel (e1, k4))|exact F]. }
  assert (St : started (w1, (e1, k4))) by by split_and!.
  destruct (serve (w1, (e1, k4))) as [p|] eqn:Es; cbn [mbind option_bind]; [|by split; [|left]].
  destruct (doorbell_stop join p) as [[w' [e' k']]|] eqn:Ej; [|split; [done|right; by exists p]].
  destruct p as [w2 s2]. unfold doorbell_stop in Ej.
  destruct (stop_sock serve join k2 _ (w2, s2) _ (serve_sock k2 (_, (e1, k4)) _ Es S4) Ej) as [J1 J2].
  split; [done|]. split; [done|]. split; [done|]. by apply (RelH e').
Qed.
End doorbell_life.

(** ** The mailbox daemon *)

(** What is assumed of the adapter: bytes stay bytes. *)
Class BytePeer {A : Type} (fpga : mbx A → mbx A) : Prop :=
  fpga_bytes m : window_ok (m_win m) → window_ok (m_win (fpga m)).

Section mailbox_life.
Context `{OsLaws K, !Proc K, !ProcLaws K} {A : Type} (fpga : mbx A → mbx A) (stk : list Z)
  (serve join : @machine A * (eth * K) → option (@machine A * (eth * K))) `{!BytePeer fpga, !LoopLaws serve join}.

(** The daemon's state as the loops find it. *)
Definition mworld_ok (m : @machine A) : Prop :=
  world_ok (m_env m).1 ∧ w_ddr3 (m_env m).1 = ddr3_init ∧ window_ok (m_win m).

Lemma mworld_post off v m : mworld_ok m → mworld_ok (mbx_wr64 off v (fpga_step fpga m)).
Proof.
  intros (H1 & H2 & H3). split_and!; [done|done|]. apply window_ok_wr64.
  by apply (fpga_bytes (Mbx (m_map m) (m_win m) (m_env m).2)).
Qed.

Lemma mworld_clear n m : mworld_ok m → mworld_ok (Nat.iter n (mbx_clear_round fpga) m).
Proof. intros Hm. induction n as [|n IH]; [done|]. cbn. unfold mbx_clear_round at 1. by do 6 apply mworld_post. Qed.

Lemma mbx_boot_ok iface m e k : mworld_ok m → length (host_mac e) = 6%nat → Forall (fits 8) (host_mac e) →
  let '(m', s) := mbx_boot iface (m, (e, k)) in
  sock_ok k s ∧ mbx_ok (m_env m').1 ∧ w_sock (m_env m').1 = sock_fd s.1 ∧
  (0 ≤ sock_fd s.1 ↔ (ethernet_open (str_bytes iface) false (e, k)).1 = 1).
Proof.
  intros (H1 & H2 & H3) Hl Hb. unfold mbx_boot. pose proof (ethernet_open_sock (str_bytes iface) false e k) as S.
  destruct (ethernet_open _ _ _) as [r [e1 k1]]. destruct S as (S & R & M). destruct (M (conj Hl Hb)) as [M1 M2].
  cbn [fst snd] in *. split; [done|]. split; [|split; [done|lia]].
  apply (mbx_setup_ok (host_mac e1) (set_w_sock (sock_fd e1) (daemon_world m))); [by destruct H1; split| |done|done].
  change (w_ddr3 (set_w_sock _ _)) with (w_ddr3 (m_env m).1). rewrite H2. apply queue_ok_init.
Qed.

Lemma mbx_args_step a v rest o : mbx_args (a :: v :: rest) o =
  if a =s "--iface" then mbx_args rest (MbxOpts v (mo_test o) (mo_dump o) (mo_start o) (mo_len o))
  else match rest with
  | u :: rest' =>
      if a =s "--dump-boardram" then
        mbx_args rest' (MbxOpts (mo_iface o) (mo_test o) true (u16 (strtol v 0)) (u16 (strtol u 0)))
      else mbx_args (v :: rest) (mbx_flag a o)
  | [] => mbx_args (v :: rest) (mbx_flag a o)
  end.
Proof. by destruct rest. Qed.

(** The dump range of any command line. *)
Lemma mbx_args_range argv o : fits 16 (mo_start o) ∧ fits 16 (mo_len o) →
  fits 16 (mo_start (mbx_args argv o)) ∧ fits 16 (mo_len (mbx_args argv o)).
Proof.
  assert (F : ∀ a o, fits 16 (mo_start o) ∧ fits 16 (mo_len o) →
    fits 16 (mo_start (mbx_flag a o)) ∧ fits 16 (mo_len (mbx_flag a o))).
  { intros a x Hx. unfold mbx_flag. by repeat case_match. }
  assert (L : ∀ n argv o, (length argv ≤ n)%nat → fits 16 (mo_start o) ∧ fits 16 (mo_len o) →
    fits 16 (mo_start (mbx_args argv o)) ∧ fits 16 (mo_len (mbx_args argv o))); [|by intros; eapply L].
  clear argv o. induction n as [|n IH]; intros [|a [|v rest]] o Hn Ho; cbn in Hn; try lia; try done; [by apply F|].
  rewrite mbx_args_step. destruct (a =s "--iface"); [apply IH; [lia|done]|].
  destruct rest as [|u rest]; [|destruct (a =s "--dump-boardram")]; (apply IH; [cbn in *; lia|]); [by apply F| |by apply F].
  split; apply fits_u16.
Qed.

Lemma dump_args_total argv m : let o := mbx_args argv mbx_defaults in
  match dump_boardram (fpga_step fpga) DUMP_ROUNDS (mo_start o) (mo_len o) m with
  | Ok _ => True
  | Err x => x = OutOfFuel ∧ dump_ends (mo_start o) (mo_len o) = false
  end.
Proof.
  intros o. destruct (mbx_args_range argv mbx_defaults) as [H1 H2]; [by split|]. fold o in H1, H2.
  destruct (dump_ends (mo_start o) (mo_len o)) eqn:E.
  - destruct (dump_ends_total (fpga := fpga_step fpga) DUMP_ROUNDS (mo_start o) (mo_len o) m) as (l & m' & ->);
      [done|done|done| |done]. unfold DUMP_ROUNDS. unfold fits in H2.
    pose proof (Z.div_le_upper_bound (mo_len o + 1) 2 32768). lia.
  - unfold dump_boardram. rewrite dump_wraps; [done|done|]. unfold dump_ends in E.
    apply orb_false_iff in E as [E1 E2]. apply Z.ltb_ge in E1. apply andb_false_iff in E2 as [E2|E2]; [apply Z.eqb_neq in E2; lia|].
    destruct (decide (mo_start o + mo_len o = 65535)); [by right|left; lia].
Qed.

End mailbox_life.

(** ** The bridge daemon *)

(** What the threads do, if they end: they keep the mapping and at most close the socket. *)
Class BridgeLaws `{OsLaws K} (serve join : bproc → option bproc) : Prop := {
  bserve_map p p' : serve p = Some p' → p'.1.2 = p.1.2;
  bserve_sock k0 p p' : serve p = Some p' → sock_ok k0 p.2 → sock_ok k0 p'.2;
  bjoin_map p p' : join p = Some p' → p'.1.2 = p.1.2;
  bjoin_sock k0 p p' : join p = Some p' → sock_ok k0 p.2 → sock_ok k0 p'.2 }.

Section bridge_life.
Context `{OsLaws K, !Proc K, !ProcLaws K} (serve join : bproc → option bproc) `{!BridgeLaws serve join}.

Lemma chip_ok_sock fd w : chip_ok w → chip_ok (set_w_sock fd w).
Proof. intros [[] Ci]. by split. Qed.

Lemma bridge_boot_start sim (k : K) w : bridge_boot sim (eth_init, k) w = bridge_start sim w.
Proof. reflexivity. Qed.

(** Closing the window in either build. *)
Lemma bridge_close_ok sim k s : map_ok k s →
  let '(b', k') := if sim : bool then bridge_sim_close s else bridge_unmap s in map_idle b' ∧ held k k'.
Proof.
  intros M. destruct (bridge_unmap_ok k s M) as [I Q]. destruct sim.
  - destruct (bridge_sim_close_unmap s) as [E C]. destruct (bridge_sim_close s) as [b' k']. cbn [fst snd] in *.
    rewrite E. split; [done|]. by etransitivity.
  - by destruct (bridge_unmap s).
Qed.

Lemma bridge_map_ok sim base k : let '(r, s) := if sim : bool then bridge_sim_open 0x10000 (mapping_init, k)
  else bridge_do_mmap base 0x10000 (mapping_init, k) in map_ok k s ∧ (is_Some r ↔ 0 ≤ map_fd s.1).
Proof. destruct sim; [apply bridge_sim_open_ok|apply bridge_do_mmap_ok]; by split. Qed.

(** The way out with a window and perhaps a socket. *)
Lemma bridge_stop_ok sim created k k1 p0 p : map_ok k (p.1.2, k1) → sock_ok k1 p.2 →
  match bridge_stop join sim created p0 p with
  | Exits at_ c (_, b', (e', k')) => at_ = AfterLoops p0 ∧ c = 0 ∧ (sim = true ∨ created = true) ∧
      sock_fd e' < 0 ∧ map_idle b' ∧ held k k'
  | Serving q => q = p0 ∧ sim = false ∧ created = true ∧ join p = None
  | Undefined q => q = p0 ∧ sim = false ∧ created = false
  end.
Proof.
  intros M S. assert (C : ∀ q : bproc, map_ok k (q.1.2, k1) → sock_ok k1 q.2 → match
      (let '(w, b, s) := q in let '(e, k) := ethernet_close s in
       let '(b, k) := if sim then bridge_sim_close (b, k) else bridge_unmap (b, k) in
       Exits (AfterLoops p0) 0 (w, b, (e, k))) with
    | Exits at_ c (_, b', (e', k')) => at_ = AfterLoops p0 ∧ c = 0 ∧ sock_fd e' < 0 ∧ map_idle b' ∧ held k k'
    | _ => False end).
  { intros [[w b] s] Mq Sq. destruct (ethernet_close_sock k1 s Sq) as [C1 C2].
    destruct (ethernet_close s) as [e2 k2]. cbn [fst snd] in C1, C2, Mq.
    pose proof (bridge_close_ok sim k (b, k2) (map_ok_held _ _ _ _ Mq C1)) as D.
    destruct (if sim then _ else _) as [b3 k3]. destruct D. by split_and!. }
  unfold bridge_stop. destruct sim.
  { specialize (C p M S). destruct p as [[w b] s]. destruct (ethernet_close s). destruct (bridge_sim_close _).
    destruct C as (? & ? & ? & ? & ?). split_and!; try done. by left. }
  destruct created; cbn [negb]; [|done]. destruct (join p) as [q|] eqn:Ej; [|done].
  specialize (C q). rewrite (bjoin_map _ _ Ej) in C. specialize (C M (bjoin_sock _ _ _ Ej S)).
  destruct q as [[w b] s]. destruct (ethernet_close s). destruct (bridge_unmap _).
  destruct C as (? & ? & ? & ? & ?). split_and!; try done. by right.
Qed.

(** C28: The life of the bridge daemon, in simulation and on the bridge, whatever the
    system calls do.  Without a window [main] exits with 1 and holds nothing; when the
    interface cannot be opened it exits with 1 and keeps the mapping and its descriptor.
    The loops are started with a well-formed chip, the window and the socket; they need not
    end, nor need the wait for the receive thread.  When the thread could not be created
    the loops run all the same, and their end is undefined, since [main] then waits for an
    uninitialised thread id.  Otherwise, if the loops and the wait end, [main] exits with
    0, with the socket closed and the mapping and every descriptor given back. *)
Theorem bridge_main_life (argv : list string) (w : world) (k : K) (Hw : world_ok w) :
  let o := bridge_args argv bridge_defaults in
  let started (p : bproc) := chip_ok p.1.1 ∧ w_sock p.1.1 = sock_fd p.2.1 ∧ 0 ≤ map_fd p.1.2 in
  let created (b : bool) (p : bproc) := ∃ k1, os_thread k1 = (b, p.2.2) in
  match bridge_main serve join argv (w, mapping_init, (eth_init, k)) with
  | Exits NoWindow c (_, b', (e', k')) => c = 1 ∧ sock_fd e' < 0 ∧ map_fd b' < 0 ∧ map_ok k (b', k')
  | Exits NoInterface c (_, b', (e', k')) => c = 1 ∧ bo_sim o = false ∧ sock_fd e' < 0 ∧
      0 ≤ map_fd b' ∧ map_ok k (b', k')
  | Exits (AfterLoops p) c (_, b', (e', k')) => started p ∧ (bo_sim o = true ∨ created true p) ∧
      c = 0 ∧ sock_fd e' < 0 ∧ map_idle b' ∧ held k k'
  | Exits _ _ _ => False
  | Serving p => started p ∧ (serve p = None ∨
      ∃ p1, serve p = Some p1 ∧ bo_sim o = false ∧ created true p ∧ join p1 = None)
  | Undefined p => started p ∧ bo_sim o = false ∧ created false p ∧ is_Some (serve p)
  end.
Proof.
  intros o started created. unfold bridge_main. cbv zeta. fold o.
  pose proof (bridge_map_ok (bo_sim o) (bo_base o) k) as M.
  destruct (if bo_sim o then _ else _) as [a [b k1]]. destruct M as [M I]. cbn [fst snd] in I.
  destruct a as [a|]; [|split_and!; try done; destruct (Z.lt_ge_cases (map_fd b) 0); [done|by destruct (proj2 I)]].
  assert (Hf : 0 ≤ map_fd b) by (by apply I). clear I.
  assert (S : let '(ok, s) := if bo_sim o then (1, (eth_init, k1)) else ethernet_open (str_bytes (bo_iface o)) false (eth_init, k1) in
    sock_ok k1 s ∧ (ok = 0 → bo_sim o = false ∧ sock_fd s.1 < 0)).
  { destruct (bo_sim o); [by split|]. pose proof (ethernet_open_sock (str_bytes (bo_iface o)) false eth_init k1) as S.
    destruct (ethernet_open _ _ _) as [ok s]. destruct S as (S & R & _). split; [done|]. intros ->. by destruct R as [[]|[]]. }
  destruct (if bo_sim o then (1, _) else _) as [ok [e k2]]. destruct S as [S R].
  destruct (Z.eqb_spec ok 0) as [Ez|Ez].
  { destruct (R Ez) as [R1 R2]. split_and!; try done. apply (map_ok_held _ _ k1); [done|].
    unfold sock_ok in S. cbn in S, R2. by rewrite decide_True in S. }
  assert (T : ∃ cr k3, (if bo_sim o then (true, k2) else os_thread k2) = (cr, k3) ∧ held k2 k3 ∧
    (bo_sim o = false → os_thread k2 = (cr, k3))).
  { destruct (bo_sim o); [by exists true, k2|]. pose proof (law_thread k2). destruct (os_thread k2) as [cr k3].
    by exists cr, k3. }
  destruct T as (cr & k3 & -> & T & Tc). set (p := (_, b, (e, k3))).
  assert (S3 : sock_ok k1 (e, k3)) by by apply (sock_ok_held _ _ k2).
  assert (St : started p).
  { split; [|done]. cbn [p fst]. apply chip_ok_sock. rewrite bridge_boot_start. by apply bridge_start_ok. }
  destruct (serve p) as [q|] eqn:Es; [|split; [done|by left]].
  pose proof (bridge_stop_ok (bo_sim o) cr k k1 p q) as D. rewrite (bserve_map _ _ Es) in D.
  specialize (D M (bserve_sock k1 _ _ Es S3)).
  destruct (bridge_stop join (bo_sim o) cr p q) as [at_ c [[w' b'] [e' k']]|p'|p'].
  - destruct D as (-> & -> & Dc & D). split; [done|]. split; [|done].
    destruct (bo_sim o); [by left|right]. destruct Dc as [|Dc]; [done|]. exists k2. rewrite <-Dc. by apply Tc.
  - destruct D as (-> & Ds & Dc & Dj). split; [done|]. right. exists q. split_and!; [done|done| |done].
    exists k2. rewrite <-Dc. by apply Tc.
  - destruct D as (-> & Ds & Dc). split_and!; [done|done| |by eexists]. exists k2. rewrite <-Dc. by apply Tc.
Qed.
End bridge_life.

(** The client holds nothing when it ends, and exits with 0 only after tests that all
    passed. *)
Section client_life.
Context `{OsLaws K} (shm_attach : K → Z * K) (daemon : Z → world → res world).
Context (law_attach : ∀ k, os_opens os_fds os_maps (shm_attach k).1 k (shm_attach k).2).

Theorem client_process_life (w : world) (k : K) :
  match client_process shm_attach daemon w k with
  | Ok (c, w', k') => held k k' ∧ (c = 1 ∨ c = 0 ∧ ∃ checks, Client.client_main daemon w = Ok (checks, w') ∧
      Forall (λ b, b = true) checks)
  | Err e => Client.client_main daemon w = Err e
  end.
Proof.
  unfold client_process. pose proof (law_attach k) as O. destruct (shm_attach k) as [fd k1]. cbn [fst snd] in O.
  destruct (Z.ltb_spec fd 0) as [Hf|Hf]; [split; [by apply (opens_failed fd)|by left]|].
  destruct (law_mmap fd 0x10000 0 k1) as [F M]. destruct (os_mmap fd 0x10000 0 k1) as [[a|] k2]; cbn [fst snd] in F, M.
  - destruct (Client.client_main daemon w) as [[checks w']|] eqn:E; cbn [mbind res_bind]; [|done].
    destruct M as (_ & Ha & M). destruct (law_munmap a 0x10000 (os_close fd k2)) as [F4 M4].
    destruct (law_close fd k2) as [F3 M3]. destruct O as [M1 O]. rewrite decide_False in O by lia. destruct O as [Hn O].
    split; [split; [rewrite F4, F3, F, O; set_solver|rewrite M4, M3, M, M1; set_solver]|].
    destruct (forallb id checks) eqn:Ec; [|by left]. right. split; [done|]. exists checks. split; [done|].
    apply Forall_forall. intros b Hb. rewrite forallb_forall in Ec. apply Ec. by apply list_elem_of_In.
  - split; [by apply (close_opened _ _ k1)|by left].
Qed.
End client_life.

(** ** Examples *)

#[local] Instance example_proc : Proc ExampleOs.kernel := {|
  os_thread k := (true, k);
  os_hostname _ := [109; 105; 115; 116; 101; 114];
  os_getpid _ := 4242;
  os_time _ := 1700000000 |}.

#[local] Instance example_proc_laws : ProcLaws ExampleOs.kernel.
Proof. by split. Qed.

Definition ex_kernel : ExampleOs.kernel := ExampleOs.Kernel {[0; 1; 2]} ∅.

(** Threads that are stopped at once. *)
#[local] Instance example_loops {S} : LoopLaws (K := ExampleOs.kernel) (S := S) Some Some.
Proof. split; [by intros k0 p p' [= <-]|by intros p p' [= <-]]. Qed.

#[local] Instance example_byte_peer : BytePeer ExampleAdapter.step.
Proof.
  intros m Hm. unfold ExampleAdapter.step. cbv zeta. case_match; [done|]. case_match; [|done]. case_match; [done|].
  destruct (ExampleAdapter.perform _ _) as [v e]. by apply window_ok_wr64.
Qed.

#[local] Instance example_bridge_loops : BridgeLaws (K := ExampleOs.kernel) Some Some.
Proof. split; [by intros p p' [= <-]|by intros k0 p p' [= <-]|by intros p p' [= <-]|by intros k0 p p' [= <-]]. Qed.

Lemma doorbell_main_life_witness : ∃ p w' e' k',
  doorbell_main (K := ExampleOs.kernel) Some Some ["-d"%string] (ex_boot, (eth_init, ex_kernel))
    = Exits (AfterLoops p) 0 (w', (e', k')) ∧ sys_ok p.1 ∧ held ex_kernel k'.
Proof.
  pose proof (doorbell_main_life Some Some ["-d"%string] ex_boot eth_init ex_kernel ex_boot_ok
    ltac:(done) ltac:(done) ltac:(by apply bytesb_Forall)) as L. cbv zeta in L.
  assert (E : (λ r, if r is Exits (AfterLoops _) _ _ then true else false)
    (doorbell_main (K := ExampleOs.kernel) Some Some ["-d"%string] (ex_boot, (eth_init, ex_kernel))) = true) by by vm_compute.
  destruct (doorbell_main _ _ _ _) as [[| | | | | |p] c [w' [e' k']]|p|p]; try discriminate E.
  destruct L as ((_ & L1 & _) & -> & _ & L2). exists p, w', e', k'. split; [reflexivity|]. split; [exact L1|exact L2].
Defined.

Definition ex_mproc : @machine ExampleAdapter.adapter * (eth * ExampleOs.kernel) :=
  (Mbx false ∅ (ex_mbx_boot, ExampleAdapter.Adapter ∅ 1 false), (eth_init, ex_kernel)).

Lemma ex_mworld_ok : mworld_ok ex_mproc.1.
Proof. split; [apply ex_mbx_boot_ok|]. split; [reflexivity|apply window_ok_empty]. Qed.


Lemma bridge_main_life_witness : ∃ p w' b' e' k',
  bridge_main (K := ExampleOs.kernel) Some Some ["--sim"%string] (ex_boot, mapping_init, (eth_init, ex_kernel))
    = Exits (AfterLoops p) 0 (w', b', (e', k')) ∧ chip_ok p.1.1 ∧ map_idle b' ∧ held ex_kernel k'.
Proof.
  pose proof (bridge_main_life Some Some ["--sim"%string] ex_boot ex_kernel ex_boot_ok) as L. cbv zeta in L.
  assert (E : (λ r, if r is Exits (AfterLoops _) _ _ then true else false) (bridge_main (K := ExampleOs.kernel) Some Some
    ["--sim"%string] (ex_boot, mapping_init, (eth_init, ex_kernel))) = true) by by vm_compute.
  destruct (bridge_main _ _ _ _) as [[| | | | | |p] c [[w' b'] [e' k']]|p|p]; try discriminate E.
  destruct L as ((L1 & _ & _) & _ & -> & _ & L2 & L3). exists p, w', b', e', k'. split; [reflexivity|].
  split; [exact L1|]. split; [exact L2|exact L3].
Defined.

(** A frame that arrives while the doorbell daemon stops: the interrupt is left asserted. *)
Lemma doorbell_shutdown_interrupt : ∃ w',
  rx_step ex_stack ex_bcast 60 (set_slot DDR3_INT_OFF 0 ex_listen) = Ok w' ∧ slot w' DDR3_INT_OFF = 1.
Proof.
  assert (P : (λ r, if r is Ok w then slot w DDR3_INT_OFF =? 1 else false)
    (rx_step ex_stack ex_bcast 60 (set_slot DDR3_INT_OFF 0 ex_listen)) = true) by by vm_compute.
  destruct (rx_step _ _ _ _) as [w'|]; [|done]. exists w'. split; [done|]. by apply Z.eqb_eq.
Qed.
